(* ===== verification/_CoqProject ===== *)
-Q . S2P
Prelude.v
GoStrings.v
Utf8.v
Codec.v
Names.v
Float64.v
Json.v
JsonSpec.v
JsonTyping.v
Dns.v
GoNet.v
Journal.v
Store.v
Dynamo.v
DynamoSpec.v
Handler.v
Update.v
Transfer.v
Server.v
Race.v
RaceTransfer.v
Dnssec.v
GoText.v
Doh.v
Auth.v
Settings.v
Client.v
KeyFiles.v
Configuration.v
Listeners.v
Demo.v
HandlerSpec.v
DnssecSpec.v
UpdateSpec.v
UpdateEffect.v
TransferSpec.v
ServerSpec.v
DohSpec.v
AuthSpec.v
SettingsSpec.v
ClientSpec.v
KeyFilesSpec.v
ListenersSpec.v
ConfigurationSpec.v
EndToEnd.v
UpdateRfc.v
Replication.v
TypeSpec.v
RaceSpec.v
RaceConverge.v
RaceTransferSpec.v
RaceIxfr.v
RaceReads.v
RaceAnomalies.v
Anomalies.v
