(* ===== verification/Prelude.v ===== *)
(** * ContractDB: a verification library

    ContractDB answers DNS queries from a table of JSON items.  The owner name
    of a TXT record is the partition key of an item, the record's character
    strings are the item's JSON; RFC 2136 updates write items, RFC 5936 and
    RFC 1995 transfers copy the table, and TSIG decides who may do either.
    This library models the Go sources under src/ and proves what makes that
    correct.

    ** The program and the files

    - Prelude.v: byte strings ([str]), Go errors as values ([res]), machine
      integers ([u16], [u32], [i64]), loops with fuel, automation.
    - GoStrings.v, GoText.v, Codec.v, Float64.v, Json.v, GoNet.v: the parts of
      Go's standard library the sources call: strings, unicode/utf8, sort,
      net/url's queries, encoding/base32, base64 and hex, strconv's floats,
      encoding/json, net.ParseIP.  Utf8.v, JsonSpec.v: what UTF-8 and JSON
      encode is read back.  JsonTyping.v: the values that encoding/json writes
      are the well-typed ones, and decoding yields no others.
    - Dns.v: the data of miekg/dns.  Its functions are the class [DnsLib]; what
      the proofs rely on is [DnsLaws]; [ref_dns] is a concrete library with
      these laws, used to evaluate the model.
    - Names.v: [parseKey], [itemName], [chunkBytes] (server.go).
    - Journal.v: the [ChangeLog] interface (server.go) with its contract
      [ChangeLogSpec], and [MemChangeLog] (journal.go) as an implementation.
    - Store.v: [Store], [Reader], [Writer] (store.go) with the contract
      [FullStoreSpec], and [sampleStore] (sample.go) as an implementation.
      Dynamo.v: [dynamoStore] (store.go) over an abstract AWS client;
      DynamoSpec.v: it meets the same contract.
    - Handler.v: the [Handler] struct, metrics, record builders, authentication,
      [buildResponse], [gsiLookup], [commitWrite] (server.go), and the state
      monad [M] of the handlers.
    - Update.v: update.go.  Transfer.v: transfer.go.  Server.v: [ServeDNS] and
      [acceptFunc] (server.go); the maps that the init functions fill are the
      functions [opcodeExtensions] and [queryExtensions].
    - Race.v: [processUpdate] as a thread that others interrupt between any two
      calls on the shared handler, and schedules of such threads.
      RaceTransfer.v: a full or an incremental transfer as one more thread
      beside them.
    - Dnssec.v: [OnlineSigner.Sign] (dnssec.go).  KeyFiles.v: [NewOnlineSigner]
      and its PEM file (dnssec.go), [EnsureTLSCert] (doh.go).
    - Doh.v: the HTTP handlers of doh.go.  Auth.v: TSIG keys and the HMAC
      provider (auth.go).
    - Settings.v: [cmdServe] (main.go) from flags, environment and file to the
      handler.  Client.v: the program as a client: notify.go, and the pid file,
      [cmdStop], [cmdStatus] and [cmdHealthcheck] of main.go.
      Configuration.v: [cmdInit] and its file, [loadFileConfig], what the
      commands print and exit with.
    - Listeners.v: [Serve], [Run] (server.go), [ServeDoH] (doh.go) and the
      process of [cmdServe] that prepares and runs both: goroutines, a buffered
      channel, a context and a select as a step relation, in which requests
      come and end, Shutdown waits for them, and a timeout, where there is one,
      may pass.
    - Demo.v: a concrete server for the witnesses.
    - HandlerSpec.v, UpdateSpec.v, UpdateEffect.v, TransferSpec.v, ServerSpec.v,
      DnssecSpec.v, DohSpec.v, AuthSpec.v, SettingsSpec.v, ClientSpec.v,
      KeyFilesSpec.v, ListenersSpec.v, ConfigurationSpec.v, EndToEnd.v,
      UpdateRfc.v, Replication.v, TypeSpec.v, RaceSpec.v, RaceConverge.v,
      RaceTransferSpec.v, RaceIxfr.v, RaceReads.v, RaceAnomalies.v,
      Anomalies.v: the theorems.

    ** State and operations

    A handler runs in [M W L A := Srv W L -> A * Srv W L]: [Srv] holds the
    handler, the messages handed to the connection so far and the NOTIFY
    fan-outs started.  [W] is the store and [L] the journal; both are types with
    an interface, so every theorem about the handlers holds for each
    implementation that meets [FullStoreSpec] or [ChangeLogSpec].  A Go type
    assertion such as [h.store.(Writer)] is the instance's optional field.  In
    [M] a request runs to completion before the next one.  The library serves
    each message in a goroutine, and [processUpdate] takes no lock: Race.v
    splits it at its calls on shared state (store, metrics, serial, journal),
    each of which is atomic, and [solo_processUpdate] shows that a thread that
    nobody interrupts is the function of Update.v.  Log output is not modelled.

    ** What the theorems show

    - Replication.v: through any sequence of served messages whose updates are
      clean, replaying the journal since a serial takes the zone of that serial
      to the current zone.  Anomalies.v shows that the conditions are needed.
    - RaceConverge.v: updates of different keys may interleave in any way; the
      invariant [inv] splits the operations into those numbered and those
      written but not yet numbered.  Under enough turns all of them are applied,
      numbered and journaled, and none is refused.  RaceSpec.v: a thread alone
      is the function of Update.v.
      RaceTransferSpec.v: a full transfer beside such updates is a mixture of
      states, and replaying the journal from its opening SOA repairs it.
      RaceIxfr.v: what an incremental transfer sends beside them is the start
      of the history, though not always up to its opening SOA.
      RaceReads.v: an acknowledged update is visible at once and for good.
      RaceAnomalies.v: what two updates of one key, a transfer inside a commit,
      or a client that trusts the closing SOA, can lose.
    - TypeSpec.v: whatever is served, every item of the table can be encoded.
    - EndToEnd.v: an acknowledged put or delete is what the next query sees, and
      the JSON it is served as is read back as the item that was put, and sent
      back in presentation form puts it again.
    - UpdateEffect.v: an update is atomic; a non-empty one refines one step of an abstract
      zone (table, serial, journal); it needs a TSIG and one key.
    - UpdateSpec.v: the program's table of prerequisites; TXT data decodes by
      the grammar of escapes; what the first pass over a packet collects.
      UpdateRfc.v: RFC 2136's algorithm for prerequisites as an executable
      reference, where the program agrees with it and where it does not.
    - TransferSpec.v: batches respect their limits and lose nothing; a full
      transfer is the table; an incremental transfer is the journal; a transfer
      stops at the first failing write.
    - ServerSpec.v: only signed updates write; unauthenticated clients get no
      records; nothing but the SOA leaves over UDP; replies fit; the header
      filter.
    - DnssecSpec.v: what signing adds, that each signature verifies over its
      whole RRset, that it is added once, and that a signed denial is complete.
      KeyFilesSpec.v: the key of a zone survives restarts, and every signer that
      starts publishes the other half of the key it signs with.
    - DohSpec.v: HTTPS answers what TCP answers and never writes.  AuthSpec.v: a
      signature verifies exactly when it is the HMAC under a configured key.
    - SettingsSpec.v: what accepted settings guarantee, and that the handler
      they serve meets the conditions of the other theorems.  ClientSpec.v: the
      health check against the server, NOTIFY against another instance, the pid
      file between serve and stop.  ConfigurationSpec.v: the text that [init]
      writes, read as TOML, states the defaults.
    - ListenersSpec.v: with what [Serve] returns, that no listener blocks, what
      requests it leaves in progress, that it returns in every fair execution in
      which requests end or a timeout runs, and that nobody waits for the HTTPS
      listener.
    - DynamoSpec.v: the DynamoDB store keeps the contract of the handlers, and a
      put is read back up to what the service does not keep: the spelling of
      numbers and the order of sets.
    - HandlerSpec.v: point and index lookups answer exactly what the store holds.
    - Names.v, Journal.v, Store.v: owner names round-trip; the journal refines a
      list of deltas capped at 4096; index queries on the demo store are exact.

    ** Fuel and bounds

    The only loops with fuel are the journal's ([MemChangeLog.prune_fuel]
    iterations over a uint32, [Record_bounded] and the exactness theorems show
    it is enough), [chunkBytes] (one step per byte, [chunk_loop_spec]), UTF-8
    and JSON scanning (one step per byte) and the shortest-digits search for
    floats (17 digits always suffice for a float64).  Serials are uint32 with
    wrap-around; theorems that need it bound them below 2^32.

    ** Not modelled

    Sockets: what the libraries' servers do while they listen is the handlers of
    this library, and why they stop listening is left open; that they accept
    nothing more once Shutdown is called is the libraries' documentation.  The
    parsing of flags and of TOML (for which ConfigurationSpec.v states a law on
    the dialect that the sample file is written in), signals, the AWS SDK, the codec of miekg/dns,
    cryptography and its encodings are parameters with their documented
    behaviour.  The page reads of a transfer beside updates are atomic reads of
    the table, as the demo store's are; DynamoDB's Scan, which the program asks
    for without ConsistentRead, may lag behind.  Log output is left out, and
    so are timeouts but for the shutdown's.  Planned next: the bounds of a reply's size before it is cut, and
    transfers beside updates over connections that fail. *)

From Stdlib Require Export ZArith Lia Bool Ascii.
From Stdlib Require String.
From stdpp Require Export base tactics list gmap strings sorting.

#[global] Open Scope Z_scope.

(** ** Byte strings

    A Go string (and a [[]byte]) is a list of bytes. *)

Abbreviation str := (list ascii).

(** A Go string literal (ASCII source text). *)
Definition lit (s : String.string) : str := String.list_ascii_of_string s.

Declare Scope go_scope.
Delimit Scope go_scope with go.
#[global] Open Scope go_scope.

(** ** Errors

    Go returns errors as a second result; the model returns them as values of
    a sum.  The rendered text of an error never influences control flow in the
    program, so an error keeps the message and its argument apart. *)

Inductive error : Type :=
  | EMsg (msg : str) (arg : str)
  | EWrap (ctx : str) (arg : str) (e : error).

Inductive res (A : Type) : Type :=
  | Ok (a : A)
  | Err (e : error).
Arguments Ok {A} a.
Arguments Err {A} e.

Definition res_bind {A B} (r : res A) (f : A → res B) : res B :=
  match r with Ok a => f a | Err e => Err e end.

Definition res_map {A B} (f : A → B) (r : res A) : res B :=
  match r with Ok a => Ok (f a) | Err e => Err e end.

(** [fmt.Errorf("ctx %q: %w", arg, err)] *)
Definition res_wrap {A} (ctx arg : str) (r : res A) : res A :=
  match r with Ok a => Ok a | Err e => Err (EWrap ctx arg e) end.

Definition is_ok {A} (r : res A) : bool :=
  match r with Ok _ => true | Err _ => false end.

Notation "x <-? c ; k" := (res_bind c (λ x, k))
  (at level 100, c at next level, right associativity) : go_scope.

(** Go's loop [for i, e := range l { v, err := f(e); if err != nil { return err }; out[i] = v }] *)
Definition mapM_res {A B} (f : A → res B) : list A → res (list B) :=
  fix go l :=
    match l with
    | [] => Ok []
    | x :: l' => y <-? f x; ys <-? go l'; Ok (y :: ys)
    end.

(** ** Machine integers *)

Definition u16 (z : Z) : Z := z mod 2 ^ 16.
Definition u32 (z : Z) : Z := z mod 2 ^ 32.
Definition i64 (z : Z) : Z := (z + 2 ^ 63) mod 2 ^ 64 - 2 ^ 63.

Lemma u32_range z : 0 ≤ u32 z < 2 ^ 32.
Proof. apply Z.mod_pos_bound; lia. Qed.

Lemma u32_small z : 0 ≤ z < 2 ^ 32 → u32 z = z.
Proof. apply Z.mod_small. Qed.

Lemma i64_small z : - 2 ^ 63 ≤ z < 2 ^ 63 → i64 z = z.
Proof. intros. unfold i64. rewrite Z.mod_small; lia. Qed.

(** ** Automation *)

(** The hint database of the rewriting equations the components export. *)
Create HintDb go.
Create Rewrite HintDb go.
Create Rewrite HintDb dns.

#[export] Hint Rewrite u32_small i64_small using lia : go.
#[export] Hint Resolve u32_range : go.

(** Split every conjunction, boolean guard and pair in the context. *)
Ltac go_bool :=
  repeat match goal with
  | H : _ && _ = true |- _ => apply andb_true_iff in H as [? ?]
  | H : _ || _ = false |- _ => apply orb_false_iff in H as [? ?]
  | H : negb _ = true |- _ => apply negb_true_iff in H
  | H : negb _ = false |- _ => apply negb_false_iff in H
  | H : bool_decide _ = true |- _ => apply bool_decide_eq_true in H
  | H : bool_decide _ = false |- _ => apply bool_decide_eq_false in H
  | H : (_ =? _) = true |- _ => apply Z.eqb_eq in H
  | H : (_ =? _) = false |- _ => apply Z.eqb_neq in H
  | H : (_ <? _) = true |- _ => apply Z.ltb_lt in H
  | H : (_ <? _) = false |- _ => apply Z.ltb_ge in H
  | H : (_ <=? _) = true |- _ => apply Z.leb_le in H
  | H : (_ <=? _) = false |- _ => apply Z.leb_gt in H
  end.

(** Case on the innermost scrutinee of the goal or of hypothesis [H]. *)
Ltac go_case :=
  match goal with
  | |- context [match ?x with _ => _ end] =>
      lazymatch x with context [match _ with _ => _ end] => fail | _ => destruct x eqn:? end
  end.
Ltac go_case_in H :=
  match type of H with
  | context [match ?x with _ => _ end] =>
      lazymatch x with context [match _ with _ => _ end] => fail | _ => destruct x eqn:? end
  end.

(** ** Generic list lemmas *)

Lemma mapM_res_ok {A B} (f : A → res B) (g : A → B) l :
  (∀ x, x ∈ l → f x = Ok (g x)) → mapM_res f l = Ok (g <$> l).
Proof.
  induction l as [|x l IH]; intros Hf; [done|]; cbn.
  rewrite Hf by set_solver; cbn. rewrite IH by set_solver. done.
Qed.

Lemma mapM_res_length {A B} (f : A → res B) l l' :
  mapM_res f l = Ok l' → length l' = length l.
Proof.
  revert l'; induction l as [|x l IH]; intros l'; cbn; [by intros [= <-]|].
  destruct (f x); cbn; [|done]. destruct (mapM_res f l) eqn:E; cbn; [|done].
  intros [= <-]; cbn. by rewrite (IH _ eq_refl).
Qed.

Lemma take_app_length' {A} (l k : list A) n : n = length l → take n (l ++ k) = l.
Proof. intros ->. apply take_app_length. Qed.

Lemma drop_app_length' {A} (l k : list A) n : n = length l → drop n (l ++ k) = k.
Proof. intros ->. apply drop_app_length. Qed.

Lemma flat_map_all_nil {A B} (f : A → list B) l : (∀ x, x ∈ l → f x = []) → flat_map f l = [].
Proof. induction l as [|x l IH]; intros H; [done|]. cbn. rewrite H, IH by set_solver. done. Qed.

(** Induction on the length of a list. *)
Lemma list_length_ind {A} (P : list A → Prop) :
  (∀ l, (∀ l', (length l' < length l)%nat → P l') → P l) → ∀ l, P l.
Proof.
  intros H l. remember (length l) as n eqn:E. revert l E.
  induction n as [n IH] using lt_wf_ind. intros l ->. eauto.
Qed.

(** ** Loops

    A Go loop whose iteration count is a machine integer runs with binary fuel:
    [loop p step a] performs at most [p] iterations of [step], stopping at the
    first [inr].  [inl] means the fuel ran out. *)

Fixpoint loop {A B} (p : positive) (step : A → A + B) (a : A) : A + B :=
  match p with
  | xH => step a
  | xO q => match loop q step a with inl a' => loop q step a' | r => r end
  | xI q =>
      match step a with
      | inl a' => match loop q step a' with inl a'' => loop q step a'' | r => r end
      | r => r
      end
  end.

(** The same with unary fuel, for reasoning. *)
Fixpoint nloop {A B} (n : nat) (step : A → A + B) (a : A) : A + B :=
  match n with
  | O => inl a
  | S n => match step a with inl a' => nloop n step a' | r => r end
  end.

Lemma nloop_add {A B} n k (step : A → A + B) a :
  nloop (n + k) step a = match nloop n step a with inl a' => nloop k step a' | r => r end.
Proof. revert a. induction n as [|n IH]; intros a; cbn; [done|]. by destruct (step a). Qed.

Lemma loop_nloop {A B} p (step : A → A + B) a : loop p step a = nloop (Pos.to_nat p) step a.
Proof.
  revert a. induction p as [p IH|p IH|]; intros a; cbn [loop].
  - rewrite Pos2Nat.inj_xI. cbn [nloop]. destruct (step a); [|done].
    replace (2 * Pos.to_nat p)%nat with (Pos.to_nat p + Pos.to_nat p)%nat by lia.
    rewrite nloop_add, IH. by destruct (nloop _ _ _).
  - rewrite Pos2Nat.inj_xO. replace (2 * Pos.to_nat p)%nat with (Pos.to_nat p + Pos.to_nat p)%nat by lia.
    rewrite nloop_add, IH. by destruct (nloop _ _ _).
  - change (Pos.to_nat 1) with 1%nat. cbn. by destruct (step a).
Qed.

(** A loop with enough fuel: the result does not depend on how much. *)
Lemma nloop_more {A B} n k (step : A → A + B) a b :
  nloop n step a = inr b → (n ≤ k)%nat → nloop k step a = inr b.
Proof. intros H Hk. replace k with (n + (k - n))%nat by lia. by rewrite nloop_add, H. Qed.

Lemma loop_inr {A B} p n (step : A → A + B) a b :
  nloop n step a = inr b → Z.of_nat n ≤ Zpos p → loop p step a = inr b.
Proof. intros H Hn. rewrite loop_nloop. eapply nloop_more; [done|lia]. Qed.

Lemma StronglySorted_filter {A} (R : A → A → Prop) (P : A → Prop) `{∀ x, Decision (P x)} l :
  StronglySorted R l → StronglySorted R (filter P l).
Proof.
  induction 1 as [|x l _ IH Hx]; [constructor|]. rewrite filter_cons. case_decide; [|done].
  constructor; [done|]. rewrite Forall_forall in *. intros y [_ Hy]%list_elem_of_filter. auto.
Qed.
