(* ===== verification/GoStrings.v ===== *)
(** * Go's strings, bytes and UTF-8

    The part of the packages [strings], [unicode/utf8] and [sort] the server
    calls.  Names follow Go.  The only parameter is the Unicode case table
    ([UnicodeTables]), which Go consults for runes outside ASCII alone; every
    other function is defined. *)

From S2P Require Import Prelude.

(** ** Bytes *)

Definition code (c : ascii) : Z := Z.of_N (N_of_ascii c).
Definition chr (z : Z) : ascii := ascii_of_N (Z.to_N (z mod 256)).

Definition is_ascii (c : ascii) : bool := code c <? 128.
Definition between (a : ascii) (c : ascii) (b : ascii) : bool :=
  (code a <=? code c) && (code c <=? code b).
Definition is_upper (c : ascii) : bool := between "A" c "Z".
Definition is_lower (c : ascii) : bool := between "a" c "z".
Definition is_digit (c : ascii) : bool := between "0" c "9".

Definition lower_byte (c : ascii) : ascii := if is_upper c then chr (code c + 32) else c.
Definition upper_byte (c : ascii) : ascii := if is_lower c then chr (code c - 32) else c.

(** Replace the code of a literal byte by its number, everywhere. *)
Ltac norm_codes :=
  repeat match goal with
  | H : context [code (Ascii ?a ?b ?c ?d ?e ?f ?g ?h)] |- _ =>
      let v := eval vm_compute in (code (Ascii a b c d e f g h)) in
      change (code (Ascii a b c d e f g h)) with v in H
  | |- context [code (Ascii ?a ?b ?c ?d ?e ?f ?g ?h)] =>
      let v := eval vm_compute in (code (Ascii a b c d e f g h)) in
      change (code (Ascii a b c d e f g h)) with v
  end.

(** Every predicate on bytes is decided by evaluating its 256 cases. *)
Definition all_bytes : list ascii := (λ n, ascii_of_N (N.of_nat n)) <$> seq 0 256.
Ltac byte_cases c := destruct c as [[] [] [] [] [] [] [] []]; vm_compute; try done.

Lemma elem_of_all_bytes c : c ∈ all_bytes.
Proof.
  unfold all_bytes. apply list_elem_of_fmap. exists (N.to_nat (N_of_ascii c)). split.
  - by rewrite N2Nat.id, ascii_N_embedding.
  - apply elem_of_seq. pose proof (N_ascii_bounded c). lia.
Qed.

Lemma all_bytes_forall (P : ascii → bool) : forallb P all_bytes = true → ∀ c, P c = true.
Proof.
  intros H c. rewrite forallb_forall in H. apply H, list_elem_of_In, elem_of_all_bytes.
Qed.

Lemma code_range c : 0 ≤ code c < 256.
Proof. unfold code. pose proof (N_ascii_bounded c). lia. Qed.

Lemma chr_code c : chr (code c) = c.
Proof.
  unfold chr. rewrite Z.mod_small by apply code_range.
  unfold code. by rewrite N2Z.id, ascii_N_embedding.
Qed.

Lemma code_chr z : code (chr z) = z mod 256.
Proof.
  unfold code, chr. pose proof (Z.mod_pos_bound z 256 eq_refl).
  rewrite N_ascii_embedding by lia. lia.
Qed.

Lemma code_inj c d : code c = code d → c = d.
Proof. intros H. by rewrite <- (chr_code c), <- (chr_code d), H. Qed.

Lemma lower_upper_byte c : is_lower c = false → is_upper c = false →
  lower_byte c = c ∧ upper_byte c = c.
Proof. unfold lower_byte, upper_byte. by intros -> ->. Qed.

Lemma lower_byte_idem c : lower_byte (lower_byte c) = lower_byte c.
Proof. byte_cases c. Qed.

Lemma lower_byte_ascii c : is_ascii c = true → is_ascii (lower_byte c) = true.
Proof. byte_cases c. Qed.

(** ** UTF-8 *)

Definition RuneError : Z := 65533.

Definition in_range (lo hi : Z) (c : ascii) : bool := (lo <=? code c) && (code c <=? hi).

(** The length and the second byte's range that a lead byte announces. *)
Definition lead (c : ascii) : option (nat * (Z * Z)) :=
  let b := code c in
  if (194 <=? b) && (b <=? 223) then Some (2%nat, (128, 191))
  else if b =? 224 then Some (3%nat, (160, 191))
  else if b =? 237 then Some (3%nat, (128, 159))
  else if (225 <=? b) && (b <=? 239) then Some (3%nat, (128, 191))
  else if b =? 240 then Some (4%nat, (144, 191))
  else if (241 <=? b) && (b <=? 243) then Some (4%nat, (128, 191))
  else if b =? 244 then Some (4%nat, (128, 143))
  else None.

Definition cont (c : ascii) : Z := code c mod 64.

(** [utf8.DecodeRune] on a non-empty string: the rune and its width. *)
Definition DecodeRune (s : str) : Z * nat :=
  match s with
  | [] => (RuneError, 0%nat)
  | c0 :: s' =>
      if is_ascii c0 then (code c0, 1%nat) else
      match lead c0, s' with
      | Some (2%nat, (lo, hi)), c1 :: _ =>
          if in_range lo hi c1 then (code c0 mod 32 * 64 + cont c1, 2%nat) else (RuneError, 1%nat)
      | Some (3%nat, (lo, hi)), c1 :: c2 :: _ =>
          if in_range lo hi c1 && in_range 128 191 c2
          then (code c0 mod 16 * 4096 + cont c1 * 64 + cont c2, 3%nat) else (RuneError, 1%nat)
      | Some (4%nat, (lo, hi)), c1 :: c2 :: c3 :: _ =>
          if in_range lo hi c1 && in_range 128 191 c2 && in_range 128 191 c3
          then (code c0 mod 8 * 262144 + cont c1 * 4096 + cont c2 * 64 + cont c3, 4%nat)
          else (RuneError, 1%nat)
      | _, _ => (RuneError, 1%nat)
      end
  end.

(** [utf8.AppendRune] *)
Definition EncodeRune (r : Z) : str :=
  if (0 <=? r) && (r <? 128) then [chr r]
  else if (0 <=? r) && (r <? 2048) then [chr (192 + r / 64); chr (128 + r mod 64)]
  else
    let r := if (r <? 0) || (1114111 <? r) || ((55296 <=? r) && (r <=? 57343)) then RuneError else r in
    if r <? 65536
    then [chr (224 + r / 4096); chr (128 + r / 64 mod 64); chr (128 + r mod 64)]
    else [chr (240 + r / 262144); chr (128 + r / 4096 mod 64); chr (128 + r / 64 mod 64); chr (128 + r mod 64)].

(** [for _, r := range s]: the runes of [s] with the bytes each one came from. *)
Fixpoint runes_fuel (n : nat) (s : str) : list (Z * str) :=
  match n, s with
  | O, _ | _, [] => []
  | S n, _ =>
      let '(r, w) := DecodeRune s in
      (r, take w s) :: runes_fuel n (drop w s)
  end.
Definition runes (s : str) : list (Z * str) := runes_fuel (length s) s.

(** ** Case mapping *)

Class UnicodeTables := {
  unicode_ToLower : Z → Z;
  unicode_ToUpper : Z → Z;
  unicode_SimpleFold : Z → Z;
}.

(** Case tables without a pair outside ASCII, for evaluating the model. *)
Definition ascii_tables : UnicodeTables :=
  {| unicode_ToLower := id; unicode_ToUpper := id; unicode_SimpleFold := id |}.

Section CaseMapping.
Context `{UT : UnicodeTables}.

Definition rune_lower (r : Z) : Z :=
  if r <? 128 then (if (65 <=? r) && (r <=? 90) then r + 32 else r) else unicode_ToLower r.
Definition rune_upper (r : Z) : Z :=
  if r <? 128 then (if (97 <=? r) && (r <=? 122) then r - 32 else r) else unicode_ToUpper r.

(** [strings.Map]: a negative result drops the rune. *)
Definition Map (f : Z → Z) (s : str) : str :=
  flat_map (λ '(r, _), if f r <? 0 then [] else EncodeRune (f r)) (runes s).

Definition ToLower (s : str) : str :=
  if forallb is_ascii s then lower_byte <$> s else Map rune_lower s.
Definition ToUpper (s : str) : str :=
  if forallb is_ascii s then upper_byte <$> s else Map rune_upper s.

(** Walk the simple-folding orbit of [sr] up to [tr]; an orbit has at most
    four runes. *)
Fixpoint fold_orbit (fuel : nat) (sr r tr : Z) : Z :=
  match fuel with
  | O => r
  | S fuel =>
      if negb (r =? sr) && (r <? tr) then fold_orbit fuel sr (unicode_SimpleFold r) tr else r
  end.

Definition fold_rune_eq (a b : Z) : bool :=
  if a =? b then true else
  let sr := Z.min a b in
  let tr := Z.max a b in
  if tr <? 128 then (65 <=? sr) && (sr <=? 90) && (tr =? sr + 32)
  else fold_orbit 8 sr (unicode_SimpleFold sr) tr =? tr.

Fixpoint EqualFold_runes (s t : list (Z * str)) : bool :=
  match s, t with
  | [], [] => true
  | (a, _) :: s, (b, _) :: t => fold_rune_eq a b && EqualFold_runes s t
  | _, _ => false
  end.

Definition EqualFold (s t : str) : bool := EqualFold_runes (runes s) (runes t).
End CaseMapping.

(** ** Searching and splitting *)

Definition HasPrefix (s prefix : str) : bool := bool_decide (take (length prefix) s = prefix).

Definition HasSuffix (s suffix : str) : bool :=
  bool_decide (length suffix ≤ length s ∧ drop (length s - length suffix) s = suffix)%nat.

Definition TrimSuffix (s suffix : str) : str :=
  if HasSuffix s suffix then take (length s - length suffix) s else s.

(** [strings.Split] with a one-byte separator. *)
Fixpoint Split (s : str) (sep : ascii) : list str :=
  match s with
  | [] => [[]]
  | c :: s' =>
      if bool_decide (c = sep) then [] :: Split s' sep else
      match Split s' sep with
      | [] => [[c]]
      | w :: ws => (c :: w) :: ws
      end
  end.

Fixpoint Join (l : list str) (sep : str) : str :=
  match l with
  | [] => []
  | [w] => w
  | w :: l' => w ++ sep ++ Join l' sep
  end.

(** [strings.Cut] with a one-byte separator. *)
Fixpoint Cut (s : str) (sep : ascii) : str * str * bool :=
  match s with
  | [] => ([], [], false)
  | c :: s' =>
      if bool_decide (c = sep) then ([], s', true) else
      let '(before, after, found) := Cut s' sep in (c :: before, after, found)
  end.

Definition ContainsByte (s : str) (c : ascii) : bool := bool_decide (c ∈ s).

(** ** The byte-wise order of strings, and [sort.Strings] *)

Fixpoint str_leb (s t : str) : bool :=
  match s, t with
  | [], _ => true
  | _ :: _, [] => false
  | c :: s', d :: t' => (code c <? code d) || ((code c =? code d) && str_leb s' t')
  end.

Definition str_le (s t : str) : Prop := str_leb s t = true.

#[export] Instance str_le_dec : RelDecision str_le.
Proof. intros s t. unfold str_le. apply _. Defined.

#[export] Instance str_le_total : Total str_le.
Proof.
  unfold str_le. intros s. induction s as [|c s IH]; intros [|d t]; cbn; auto.
  destruct (IH t) as [H|H]; rewrite H;
    destruct (Z.ltb_spec (code c) (code d)), (Z.ltb_spec (code d) (code c)),
      (Z.eqb_spec (code c) (code d)), (Z.eqb_spec (code d) (code c)); cbn; auto; lia.
Qed.

#[export] Instance str_le_trans : Transitive str_le.
Proof.
  unfold str_le. intros s. induction s as [|c s IH]; intros [|d t] [|e u]; cbn; try done.
  rewrite !orb_true_iff, !andb_true_iff, !Z.ltb_lt, !Z.eqb_eq.
  intros [?|[? ?]] [?|[? ?]]; [left; lia..|right]. split; [lia|by eapply IH].
Qed.

#[export] Instance str_le_antisymm : AntiSymm (=) str_le.
Proof.
  unfold str_le. intros s. induction s as [|c s IH]; intros [|d t]; cbn; try done.
  rewrite !orb_true_iff, !andb_true_iff, !Z.ltb_lt, !Z.eqb_eq.
  intros [?|[Hc ?]] [?|[? ?]]; try lia. f_equal; [by apply code_inj|by apply IH].
Qed.

#[export] Instance str_le_refl : Reflexive str_le.
Proof. intros s. destruct (total str_le s s); done. Qed.

Definition Strings (l : list str) : list str := merge_sort str_le l.

(** ** Lemmas: ASCII strings *)

Abbreviation ascii_str s := (forallb is_ascii s = true).

Section CaseMappingLemmas.
Context `{UT : UnicodeTables}.

Lemma ToLower_ascii s : ascii_str s → ToLower s = lower_byte <$> s.
Proof. unfold ToLower. by intros ->. Qed.

Lemma ToUpper_ascii s : ascii_str s → ToUpper s = upper_byte <$> s.
Proof. unfold ToUpper. by intros ->. Qed.

Lemma ToLower_length_ascii s : ascii_str s → length (ToLower s) = length s.
Proof. intros H. by rewrite ToLower_ascii, length_fmap. Qed.

Lemma lower_byte_ascii_str s : ascii_str s → ascii_str (lower_byte <$> s).
Proof.
  rewrite !forallb_forall. intros H c Hc%list_elem_of_In.
  apply list_elem_of_fmap in Hc as (d & -> & Hd). by apply lower_byte_ascii, H, list_elem_of_In.
Qed.

Lemma ToLower_idem s : ascii_str s → ToLower (ToLower s) = ToLower s.
Proof.
  intros H. rewrite (ToLower_ascii s) by done.
  rewrite ToLower_ascii by by apply lower_byte_ascii_str.
  rewrite <- list_fmap_compose. apply list_fmap_ext. intros i c _. apply lower_byte_idem.
Qed.

Lemma ToLower_app s t :
  ascii_str s → ascii_str t → ToLower (s ++ t) = ToLower s ++ ToLower t.
Proof.
  intros Hs Ht. rewrite !ToLower_ascii by (rewrite ?forallb_app, ?Hs, ?Ht; done).
  apply fmap_app.
Qed.

(** The characters a case map fixes. *)
Lemma ToLower_fixed s :
  Forall (λ c, is_ascii c = true ∧ is_upper c = false) s → ToLower s = s.
Proof.
  intros H. rewrite ToLower_ascii.
  - induction H as [|c s [_ Hc] _ IH]; [done|]. cbn. unfold lower_byte at 1. by rewrite Hc, IH.
  - apply forallb_forall. intros c Hc%list_elem_of_In. rewrite Forall_forall in H. by apply H.
Qed.
End CaseMappingLemmas.

(** ** Lemmas: the runes of ASCII strings *)

Lemma runes_fuel_ascii n s : (length s ≤ n)%nat → ascii_str s →
  runes_fuel n s = (λ c, (code c, [c])) <$> s.
Proof.
  revert s. induction n as [|n IH]; intros [|c s]; cbn; try done; [lia|].
  intros Hn [Hc Hs]%andb_true_iff. rewrite Hc. cbn. by rewrite drop_0, IH by (done || lia).
Qed.

Lemma runes_ascii s : ascii_str s → runes s = (λ c, (code c, [c])) <$> s.
Proof. intros. by apply runes_fuel_ascii. Qed.

(** ** Lemmas: prefixes and suffixes *)

Lemma HasSuffix_spec s t : HasSuffix s t = true ↔ ∃ u, s = u ++ t.
Proof.
  unfold HasSuffix. rewrite bool_decide_eq_true. split.
  - intros [_ H]. exists (take (length s - length t) s).
    by rewrite <- (take_drop (length s - length t) s) at 1; rewrite H.
  - intros [u ->]. rewrite length_app. split; [lia|]. apply drop_app_length'. lia.
Qed.

Lemma HasSuffix_app u t : HasSuffix (u ++ t) t = true.
Proof. apply HasSuffix_spec. eauto. Qed.

Lemma HasPrefix_spec s t : HasPrefix s t = true ↔ ∃ u, s = t ++ u.
Proof.
  unfold HasPrefix. rewrite bool_decide_eq_true. split.
  - intros H. exists (drop (length t) s).
    by rewrite <- (take_drop (length t) s) at 1; rewrite H.
  - intros [u ->]. apply take_app_length.
Qed.

Lemma HasPrefix_app t u : HasPrefix (t ++ u) t = true.
Proof. apply HasPrefix_spec. eauto. Qed.

Lemma TrimSuffix_app u t : TrimSuffix (u ++ t) t = u.
Proof. unfold TrimSuffix. rewrite HasSuffix_app, length_app. apply take_app_length'. lia. Qed.

(** ** Lemmas: splitting *)

Lemma Split_nonempty s sep : Split s sep ≠ [].
Proof. destruct s as [|c s]; cbn; [done|]. repeat go_case; done. Qed.

Lemma Split_no_sep s sep : sep ∉ s → Split s sep = [s].
Proof.
  induction s as [|c s IH]; cbn; [done|]. intros H.
  rewrite bool_decide_eq_false_2 by set_solver. by rewrite IH by set_solver.
Qed.

Lemma Split_app w s sep : sep ∉ w → Split (w ++ sep :: s) sep = w :: Split s sep.
Proof.
  induction w as [|c w IH]; cbn; intros H; [by rewrite bool_decide_eq_true_2|].
  rewrite bool_decide_eq_false_2 by set_solver. by rewrite IH by set_solver.
Qed.

Lemma Split_head s sep :
  (sep ∉ s ∧ Split s sep = [s]) ∨
  (∃ w t, s = w ++ sep :: t ∧ sep ∉ w ∧ Split s sep = w :: Split t sep).
Proof.
  destruct (decide (sep ∈ s)) as [H|H]; [right|left; eauto using Split_no_sep].
  apply list_elem_of_split_l in H as (w & t & -> & Hw). exists w, t. eauto using Split_app.
Qed.

Lemma Join_Split s sep : Join (Split s sep) [sep] = s.
Proof.
  induction s as [|c s IH]; [done|]. cbn [Split].
  pose proof (Split_nonempty s sep). case_bool_decide as Hc; subst.
  - destruct (Split s sep) eqn:E; [done|]. by rewrite <- IH.
  - destruct (Split s sep) as [|w ws] eqn:E; [done|]. rewrite <- IH. by destruct ws.
Qed.

Lemma Split_pieces s sep w : w ∈ Split s sep → sep ∉ w.
Proof.
  revert w. induction s as [|c s IH]; intros w; cbn.
  - rewrite list_elem_of_singleton. intros ->. set_solver.
  - case_bool_decide as Hc.
    + rewrite elem_of_cons. intros [->|H]; [set_solver|by apply IH].
    + pose proof (Split_nonempty s sep). destruct (Split s sep) as [|v vs]; [done|].
      rewrite elem_of_cons. intros [->|H']; [|apply IH; set_solver].
      specialize (IH v). set_solver.
Qed.

(** ** Lemmas: sorting *)

Lemma Strings_perm l : Strings l ≡ₚ l.
Proof. apply merge_sort_Permutation. Qed.

Lemma Strings_sorted l : StronglySorted str_le (Strings l).
Proof. apply StronglySorted_merge_sort; apply _. Qed.

(** Two sorted lists with the same elements are the same list: iterating over a
    Go map in random order and then sorting is deterministic. *)
Lemma Strings_perm_eq l l' : l ≡ₚ l' → Strings l = Strings l'.
Proof.
  intros H. eapply (StronglySorted_unique str_le); [apply Strings_sorted..|].
  by rewrite !Strings_perm.
Qed.

#[export] Hint Rewrite HasSuffix_app HasPrefix_app TrimSuffix_app : go.
