(* ===== verification/Utf8.v ===== *)
(** * UTF-8 encodings are read back

    What [EncodeRune] writes, [DecodeRune] reads; the strings made of encoded
    scalar values are the valid ones. *)

From S2P Require Import Prelude GoStrings.

(** A Unicode scalar value: a code point that is no surrogate. *)
Definition scalar (r : Z) : Prop := 0 ≤ r < 55296 ∨ 57344 ≤ r ≤ 1114111.

Definition utf8 (rs : list Z) : str := flat_map EncodeRune rs.
Definition valid (s : str) : Prop := ∃ rs, Forall scalar rs ∧ s = utf8 rs.

Lemma utf8_cons r rs : utf8 (r :: rs) = EncodeRune r ++ utf8 rs.
Proof. reflexivity. Qed.

Lemma valid_nil : valid [].
Proof. by exists []. Qed.

Lemma valid_app s t : valid s → valid t → valid (s ++ t).
Proof.
  intros (rs & Hr & ->) (rs' & Hr' & ->). exists (rs ++ rs'). split; [by apply Forall_app|].
  unfold utf8. by rewrite flat_map_app.
Qed.

Lemma EncodeRune_valid r : valid (EncodeRune r).
Proof.
  assert (scalar r ∨ EncodeRune r = EncodeRune RuneError) as [H| ->].
  { unfold scalar, EncodeRune. cbv zeta.
    destruct (Z.leb_spec 0 r), (Z.ltb_spec r 128), (Z.ltb_spec r 2048), (Z.ltb_spec r 0), (Z.ltb_spec 1114111 r),
      (Z.leb_spec 55296 r), (Z.leb_spec r 57343); cbn [andb orb]; try lia; auto; right; reflexivity. }
  - exists [r]. split; [by constructor|]. by rewrite utf8_cons, app_nil_r.
  - exists [RuneError]. split; [|by rewrite utf8_cons, app_nil_r]. constructor; [|done]. right. unfold RuneError. lia.
Qed.

Lemma ascii_EncodeRune c : is_ascii c = true → EncodeRune (code c) = [c].
Proof.
  intros Hc%Z.ltb_lt. unfold EncodeRune. pose proof (code_range c).
  rewrite (proj2 (Z.leb_le _ _)), (proj2 (Z.ltb_lt _ _)) by lia. cbn. by rewrite chr_code.
Qed.

Lemma valid_ascii c : is_ascii c = true → valid [c].
Proof. intros Hc. rewrite <- (ascii_EncodeRune c Hc). apply EncodeRune_valid. Qed.

(** ** Decoding *)

(** Bytes by their codes. *)
Lemma code_chr_small z : 0 ≤ z < 256 → code (chr z) = z.
Proof. intros H. rewrite code_chr. by apply Z.mod_small. Qed.

Lemma is_ascii_chr z : 0 ≤ z < 256 → is_ascii (chr z) = (z <? 128).
Proof. intros H. unfold is_ascii. by rewrite code_chr_small. Qed.

#[local] Ltac decide_tests :=
  repeat (match goal with
          | |- context [?a <=? ?b] => destruct (Z.leb_spec a b); try lia
          | |- context [?a <? ?b] => destruct (Z.ltb_spec a b); try lia
          | |- context [?a =? ?b] => destruct (Z.eqb_spec a b); try lia
          end; cbn [andb]).

Lemma DecodeRune_2 a b t : 194 ≤ a ≤ 223 → 128 ≤ b ≤ 191 →
  DecodeRune (chr a :: chr b :: t) = (a mod 32 * 64 + b mod 64, 2%nat).
Proof.
  intros Ha Hb. unfold DecodeRune, lead, in_range, cont. rewrite is_ascii_chr, !code_chr_small by lia. by decide_tests.
Qed.

Lemma DecodeRune_3 a b c t : 224 ≤ a ≤ 239 → 128 ≤ b ≤ 191 → 128 ≤ c ≤ 191 →
  (a = 224 → 160 ≤ b) → (a = 237 → b ≤ 159) →
  DecodeRune (chr a :: chr b :: chr c :: t) = (a mod 16 * 4096 + b mod 64 * 64 + c mod 64, 3%nat).
Proof.
  intros Ha Hb Hc H1 H2. unfold DecodeRune, lead, in_range, cont. rewrite is_ascii_chr, !code_chr_small by lia. by decide_tests.
Qed.

Lemma DecodeRune_4 a b c d t : 240 ≤ a ≤ 244 → 128 ≤ b ≤ 191 → 128 ≤ c ≤ 191 → 128 ≤ d ≤ 191 →
  (a = 240 → 144 ≤ b) → (a = 244 → b ≤ 143) →
  DecodeRune (chr a :: chr b :: chr c :: chr d :: t)
  = (a mod 8 * 262144 + b mod 64 * 4096 + c mod 64 * 64 + d mod 64, 4%nat).
Proof.
  intros Ha Hb Hc Hd H1 H2. unfold DecodeRune, lead, in_range, cont. rewrite is_ascii_chr, !code_chr_small by lia. by decide_tests.
Qed.

Lemma DecodeRune_EncodeRune r t : scalar r → DecodeRune (EncodeRune r ++ t) = (r, length (EncodeRune r)).
Proof.
  intros Hr. unfold EncodeRune. cbv zeta. destruct Hr as [Hr|Hr].
  - rewrite (proj2 (Z.leb_le 0 r)) by lia. cbn [andb].
    destruct (Z.ltb_spec r 128).
    { cbn [app length]. unfold DecodeRune. rewrite is_ascii_chr, (proj2 (Z.ltb_lt _ _)), code_chr_small by lia. done. }
    destruct (Z.ltb_spec r 2048).
    { cbn [app length]. rewrite DecodeRune_2 by (Z.to_euclidean_division_equations; lia). f_equal.
      Z.to_euclidean_division_equations; lia. }
    rewrite (proj2 (Z.ltb_ge r 0)), (proj2 (Z.ltb_ge 1114111 r)), (proj2 (Z.leb_gt 55296 r)) by lia. cbn [orb andb].
    rewrite (proj2 (Z.ltb_lt r 65536)) by lia. cbn [app length].
    rewrite DecodeRune_3 by (Z.to_euclidean_division_equations; lia). f_equal. Z.to_euclidean_division_equations; lia.
  - rewrite (proj2 (Z.leb_le 0 r)), (proj2 (Z.ltb_ge r 128)), (proj2 (Z.ltb_ge r 2048)) by lia. cbn [andb].
    rewrite (proj2 (Z.ltb_ge r 0)), (proj2 (Z.ltb_ge 1114111 r)), (proj2 (Z.leb_gt r 57343)) by lia. rewrite andb_false_r. cbn [orb].
    destruct (Z.ltb_spec r 65536); cbn [app length].
    + rewrite DecodeRune_3 by (Z.to_euclidean_division_equations; lia). f_equal. Z.to_euclidean_division_equations; lia.
    + rewrite DecodeRune_4 by (Z.to_euclidean_division_equations; lia). f_equal. Z.to_euclidean_division_equations; lia.
Qed.

Lemma EncodeRune_nonempty r : EncodeRune r ≠ [].
Proof. unfold EncodeRune. cbv zeta. by repeat case_match. Qed.

(** The runes of a valid string are those it was made of. *)
Lemma runes_utf8 rs : Forall scalar rs → runes (utf8 rs) = (λ r, (r, EncodeRune r)) <$> rs.
Proof.
  intros Hrs. unfold runes. assert (∀ n, (length (utf8 rs) ≤ n)%nat →
    runes_fuel n (utf8 rs) = (λ r, (r, EncodeRune r)) <$> rs) as H; [|by apply H].
  induction Hrs as [|r rs Hr Hrs IH]; intros n Hn; [by destruct n|].
  rewrite utf8_cons in *. rewrite length_app in Hn. pose proof (EncodeRune_nonempty r) as Hne.
  destruct n as [|n]; [destruct (EncodeRune r); cbn in *; [done|lia]|].
  cbn [runes_fuel]. destruct (EncodeRune r ++ utf8 rs) as [|c s] eqn:E; [by apply app_nil in E as [? _]|].
  rewrite <- E, DecodeRune_EncodeRune by done. rewrite take_app_length, drop_app_length. cbn [fmap list_fmap]. f_equal.
  apply IH. destruct (EncodeRune r); cbn in *; [done|lia].
Qed.
