(* ===== verification/Codec.v ===== *)
(** * Go's binary-to-text codecs

    [encoding/base32] (standard alphabet, padded), [encoding/base64] (standard
    and URL alphabets, padded or raw) and [encoding/hex], as the server uses
    them, with their round trips. *)

From S2P Require Import Prelude GoStrings.

(** ** encoding/base32 *)

Module Base32.
Definition sym (v : Z) : ascii := if v <? 26 then chr (65 + v) else chr (24 + v).

Definition val (c : ascii) : option Z :=
  if is_upper c then Some (code c - 65)
  else if between "2" c "7" then Some (code c - 24)
  else None.

(** The eight symbols of a five-byte quantum. *)
Definition syms (b0 b1 b2 b3 b4 : ascii) : str :=
  let '(v0, v1, v2, v3, v4) := (code b0, code b1, code b2, code b3, code b4) in
  sym <$> [v0 / 8; v0 mod 8 * 4 + v1 / 64; v1 / 2 mod 32; v1 mod 2 * 16 + v2 / 16;
           v2 mod 16 * 2 + v3 / 128; v3 / 4 mod 32; v3 mod 4 * 8 + v4 / 32; v4 mod 32].

Definition pad (n : nat) : str := replicate n "="%char.

Fixpoint EncodeToString (s : str) : str :=
  let z := Ascii.zero in
  match s with
  | [] => []
  | [b0] => take 2 (syms b0 z z z z) ++ pad 6
  | [b0; b1] => take 4 (syms b0 b1 z z z) ++ pad 4
  | [b0; b1; b2] => take 5 (syms b0 b1 b2 z z) ++ pad 3
  | [b0; b1; b2; b3] => take 7 (syms b0 b1 b2 b3 z) ++ pad 1
  | b0 :: b1 :: b2 :: b3 :: b4 :: s' => syms b0 b1 b2 b3 b4 ++ EncodeToString s'
  end.

(** How many bytes a quantum of [n] symbols yields. *)
Definition nbytes (n : nat) : nat :=
  match n with 8 => 5 | 7 => 4 | 5 => 3 | 4 => 2 | 2 => 1 | _ => 0 end%nat.

Definition pack (q : list Z) : str :=
  let d i := nth i q 0 in
  take (nbytes (length q))
    (chr <$> [d 0%nat * 8 + d 1%nat / 4;
              d 1%nat * 64 + d 2%nat * 2 + d 3%nat / 16;
              d 3%nat * 16 + d 4%nat / 2;
              d 4%nat * 128 + d 5%nat * 4 + d 6%nat / 8;
              d 6%nat * 32 + d 7%nat]).

(** [Encoding.decode]: [q] is the quantum being filled ([dbuf]), [out] the
    bytes already decoded.  A padding byte is only looked at when at least two
    symbols precede it and fewer than eight bytes follow; what follows a
    complete padding is ignored. *)
Fixpoint decode (src : str) (q : list Z) (out : str) : option str :=
  match src with
  | [] => match q with [] => Some out | _ => None end
  | c :: src' =>
      let j := length q in
      if bool_decide (c = "="%char) && (2 <=? j)%nat && (length src' <? 8)%nat then
        if (length src' + j <? 7)%nat then None
        else if negb (forallb (λ p, bool_decide (p = "="%char)) (take (7 - j) src')) then None
        else if bool_decide (j ∈ [1; 3; 6]%nat) then None
        else Some (out ++ pack q)
      else
        match val c with
        | None => None
        | Some v =>
            let q' := q ++ [v] in
            if (length q' =? 8)%nat then decode src' [] (out ++ pack q')
            else decode src' q' out
        end
  end.

Definition strip_newlines (s : str) : str :=
  filter (λ c, c ≠ chr 10 ∧ c ≠ chr 13) s.

Definition DecodeString (s : str) : option str := decode (strip_newlines s) [] [].

(** *** Lemmas *)

Lemma val_sym v : 0 ≤ v < 32 → val (sym v) = Some v.
Proof.
  intros Hv. unfold sym.
  assert (v ∈ Z.of_nat <$> seq 0 32) as H.
  { apply list_elem_of_fmap. exists (Z.to_nat v). rewrite elem_of_seq. lia. }
  revert H. clear Hv. cbn -[val chr Z.ltb]. intros H.
  repeat (apply elem_of_cons in H as [->|H]; [reflexivity|]). by apply not_elem_of_nil in H.
Qed.

Lemma val_not_pad c v : val c = Some v → c ≠ "="%char.
Proof. by intros ? ->. Qed.

Lemma decode_sym v src q out : 0 ≤ v < 32 →
  decode (sym v :: src) q out =
    if (length q =? 7)%nat then decode src [] (out ++ pack (q ++ [v])) else decode src (q ++ [v]) out.
Proof.
  intros Hv. cbn [decode]. pose proof (val_sym v Hv) as Hs.
  rewrite bool_decide_eq_false_2 by by eapply val_not_pad.
  cbn [andb]. rewrite Hs, length_app. cbn [length].
  destruct (Nat.eqb_spec (length q) 7), (Nat.eqb_spec (length q + 1) 8); (done || lia).
Qed.

Ltac sym_bounds :=
  repeat match goal with b : ascii |- _ =>
    lazymatch goal with _ : 0 ≤ code b < 256 |- _ => fail | _ => pose proof (code_range b) end end;
  change (code Ascii.zero) with 0 in *; Z.div_mod_to_equations; lia.

Lemma chr_mod v w : v mod 256 = w mod 256 → chr v = chr w.
Proof. unfold chr. by intros ->. Qed.

Ltac pack_solve :=
  unfold pack; cbn [length app nbytes nth fmap list_fmap take];
  repeat f_equal;
  (match goal with |- chr _ = ?b => transitivity (chr (code b)); [apply chr_mod|apply chr_code] end);
  sym_bounds.

Ltac feed := cbn [app]; rewrite decode_sym by sym_bounds; cbn [length Nat.eqb app].

Lemma decode_quantum b0 b1 b2 b3 b4 src out :
  decode (syms b0 b1 b2 b3 b4 ++ src) [] out = decode src [] (out ++ [b0; b1; b2; b3; b4]).
Proof.
  unfold syms. cbn [fmap list_fmap]. do 8 feed. f_equal. f_equal. pack_solve.
Qed.

(** A final, padded quantum. *)
Lemma decode_pad q out n : n = (8 - length q)%nat → length q ∈ [2; 4; 5; 7]%nat →
  decode (pad n) q out = Some (out ++ pack q).
Proof.
  intros -> H. unfold pad. rewrite !elem_of_cons in H.
  destruct H as [E|[E|[E|[E|H]]]]; [..|by apply not_elem_of_nil in H];
    rewrite E; cbn [Nat.sub replicate decode]; rewrite E; reflexivity.
Qed.

Ltac final_quantum :=
  unfold syms; cbn [fmap list_fmap take]; repeat feed;
  rewrite decode_pad by (done || (cbn; set_solver)); f_equal; f_equal; pack_solve.

Lemma decode_EncodeToString s : ∀ out, decode (EncodeToString s) [] out = Some (out ++ s).
Proof.
  induction s as [s IH] using list_length_ind. intros out.
  destruct s as [|b0 [|b1 [|b2 [|b3 [|b4 s]]]]]; cbn [EncodeToString].
  1: by rewrite app_nil_r.
  5: { rewrite decode_quantum, IH by (cbn; lia). by rewrite <- app_assoc. }
  all: final_quantum.
Qed.

Definition alphabet_ok (c : ascii) : bool := is_upper c || between "2" c "7" || bool_decide (c = "="%char).

Lemma sym_alphabet v : 0 ≤ v < 32 → alphabet_ok (sym v) = true.
Proof.
  intros H. apply val_sym in H. unfold alphabet_ok, val in *.
  destruct (is_upper _); [done|]. by destruct (between _ _ _).
Qed.

Lemma syms_alphabet b0 b1 b2 b3 b4 : Forall (λ c, alphabet_ok c = true) (syms b0 b1 b2 b3 b4).
Proof.
  unfold syms. cbn [fmap list_fmap]. repeat constructor; apply sym_alphabet; sym_bounds.
Qed.

Lemma EncodeToString_alphabet s : Forall (λ c, alphabet_ok c = true) (EncodeToString s).
Proof.
  induction s as [s IH] using list_length_ind.
  destruct s as [|b0 [|b1 [|b2 [|b3 [|b4 s]]]]]; cbn [EncodeToString]; [by constructor|..];
    apply Forall_app; (split; [first [apply Forall_take, syms_alphabet|apply syms_alphabet]|]);
    [by repeat constructor..|]. apply IH. cbn. lia.
Qed.

(** Eight symbols for every five bytes or part thereof. *)
Lemma EncodeToString_length s :
  Z.of_nat (length (EncodeToString s)) = 8 * ((Z.of_nat (length s) + 4) / 5).
Proof.
  induction s as [s IH] using list_length_ind.
  destruct s as [|b0 [|b1 [|b2 [|b3 [|b4 s]]]]]; [reflexivity..|].
  cbn [EncodeToString]. rewrite length_app, Nat2Z.inj_add, IH by (cbn; lia).
  cbn [length syms fmap list_fmap]. Z.div_mod_to_equations. lia.
Qed.

Lemma EncodeToString_div8 s : ∃ n, length (EncodeToString s) = (8 * n)%nat.
Proof.
  exists (Z.to_nat ((Z.of_nat (length s) + 4) / 5)). apply Nat2Z.inj.
  rewrite EncodeToString_length, Nat2Z.inj_mul, Z2Nat.id; [done|].
  apply Z.div_pos; lia.
Qed.

(** Decoding never yields more than five bytes for eight symbols. *)
Definition symbols (s : str) : nat := length (filter (λ c, c ≠ "="%char) s).

Lemma pack_length q : (8 * length (pack q) ≤ 5 * length q)%nat.
Proof.
  unfold pack. rewrite length_take, length_fmap.
  do 9 (destruct q as [|? q]; [cbn; lia|]). cbn. lia.
Qed.

Lemma symbols_cons c s : c ≠ "="%char → symbols (c :: s) = S (symbols s).
Proof. intros H. unfold symbols. by rewrite (filter_cons_True (λ c, c ≠ "="%char)). Qed.

Lemma symbols_pad n : symbols (replicate n "="%char) = 0%nat.
Proof.
  induction n; [done|]. unfold symbols in *. cbn [replicate].
  by rewrite (filter_cons_False (λ c, c ≠ "="%char)) by (by intros []).
Qed.

Lemma decode_length src : ∀ q out r, decode src q out = Some r →
  (8 * length r ≤ 8 * length out + 5 * (length q + symbols src))%nat.
Proof.
  induction src as [|c src IH]; intros q out r; cbn [decode].
  - destruct q; [|done]. intros [= ->]. lia.
  - case_match eqn:Hp.
    + repeat (case_match; [done|]). intros [= <-]. rewrite length_app.
      pose proof (pack_length q). lia.
    + destruct (val c) as [v|] eqn:Hv; [|done]. apply val_not_pad in Hv.
      rewrite symbols_cons by done.
      case_match; intros Hd; apply IH in Hd; rewrite !length_app in *; cbn [length] in *.
      * pose proof (pack_length (q ++ [v])). rewrite length_app in *. cbn [length] in *. lia.
      * lia.
Qed.

Lemma symbols_strip s : (symbols (strip_newlines s) ≤ symbols s)%nat.
Proof.
  unfold symbols, strip_newlines. induction s as [|c s IH]; [done|].
  destruct (decide (c ≠ chr 10 ∧ c ≠ chr 13)).
  - rewrite (filter_cons_True (λ c, c ≠ chr 10 ∧ c ≠ chr 13)) by done.
    rewrite !filter_cons. case_decide; cbn; lia.
  - rewrite (filter_cons_False (λ c, c ≠ chr 10 ∧ c ≠ chr 13)) by done.
    rewrite (filter_cons (λ c, c ≠ "="%char)). case_decide; cbn; lia.
Qed.

Lemma DecodeString_length s r : DecodeString s = Some r → (8 * length r ≤ 5 * symbols s)%nat.
Proof.
  intros H. apply decode_length in H. pose proof (symbols_strip s). cbn in H. lia.
Qed.

Lemma symbols_app s t : symbols (s ++ t) = (symbols s + symbols t)%nat.
Proof. unfold symbols. by rewrite filter_app, length_app. Qed.

Lemma symbols_le s : (symbols s ≤ length s)%nat.
Proof. apply length_filter. Qed.

Lemma strip_newlines_id s :
  Forall (λ c, alphabet_ok c = true) s → strip_newlines s = s.
Proof.
  unfold strip_newlines. induction 1 as [|c s Hc _ IH]; [done|].
  rewrite filter_cons_True; [by rewrite IH|]. revert Hc. byte_cases c.
Qed.

Lemma DecodeString_EncodeToString s : DecodeString (EncodeToString s) = Some s.
Proof.
  unfold DecodeString. rewrite strip_newlines_id by apply EncodeToString_alphabet.
  by rewrite decode_EncodeToString.
Qed.
End Base32.

(** ** encoding/base64 *)

Module Base64.
(** An encoding is its last two symbols and whether it pads. *)
Record encoding := mkEncoding { c62 : ascii; c63 : ascii; padded : bool }.

Definition StdEncoding : encoding := mkEncoding "+" "/" true.
Definition URLEncoding : encoding := mkEncoding "-" "_" true.
Definition RawURLEncoding : encoding := mkEncoding "-" "_" false.

Definition sym (e : encoding) (v : Z) : ascii :=
  if v <? 26 then chr (65 + v) else if v <? 52 then chr (71 + v) else if v <? 62 then chr (v - 4)
  else if v =? 62 then c62 e else c63 e.

Definition val (e : encoding) (c : ascii) : option Z :=
  if is_upper c then Some (code c - 65)
  else if is_lower c then Some (code c - 71)
  else if is_digit c then Some (code c + 4)
  else if bool_decide (c = c62 e) then Some 62
  else if bool_decide (c = c63 e) then Some 63
  else None.

Definition syms (e : encoding) (b0 b1 b2 : ascii) : str :=
  let '(v0, v1, v2) := (code b0, code b1, code b2) in
  sym e <$> [v0 / 4; v0 mod 4 * 16 + v1 / 16; v1 mod 16 * 4 + v2 / 64; v2 mod 64].

Definition pad (e : encoding) (n : nat) : str := if padded e then replicate n "="%char else [].

Fixpoint EncodeToString (e : encoding) (s : str) : str :=
  match s with
  | [] => []
  | [b0] => take 2 (syms e b0 Ascii.zero Ascii.zero) ++ pad e 2
  | [b0; b1] => take 3 (syms e b0 b1 Ascii.zero) ++ pad e 1
  | b0 :: b1 :: b2 :: s' => syms e b0 b1 b2 ++ EncodeToString e s'
  end.

(** The three bytes of four symbols; the low bits of a short quantum are
    dropped, as outside strict mode. *)
Definition pack (v0 v1 v2 v3 : Z) : str :=
  chr <$> [v0 * 4 + v1 / 16; v1 * 16 + v2 / 4; v2 * 64 + v3].

(** [decodeQuantum] over the input without newlines.  A short final quantum is
    allowed without padding only, padding only where it is due, and nothing
    after it. *)
Fixpoint decode (e : encoding) (s : str) : option str :=
  match s with
  | [] => Some []
  | [_] => None
  | c0 :: c1 :: s1 =>
      v0 ← val e c0; v1 ← val e c1;
      match s1 with
      | [] => if padded e then None else Some (take 1 (pack v0 v1 0 0))
      | c2 :: s2 =>
          match val e c2 with
          | None =>
              if padded e && bool_decide (c2 :: s2 = lit "==") then Some (take 1 (pack v0 v1 0 0)) else None
          | Some v2 =>
              match s2 with
              | [] => if padded e then None else Some (take 2 (pack v0 v1 v2 0))
              | c3 :: s3 =>
                  match val e c3 with
                  | None =>
                      if padded e && bool_decide (c3 :: s3 = lit "=") then Some (take 2 (pack v0 v1 v2 0))
                      else None
                  | Some v3 => app (pack v0 v1 v2 v3) <$> decode e s3
                  end
              end
          end
      end
  end.

Definition DecodeString (e : encoding) (s : str) : option str := decode e (Base32.strip_newlines s).

(** *** Round trip *)

(** The last two symbols are no letters, digits, padding or newlines. *)
Definition special (c : ascii) : bool := bool_decide (c ∈ ["+"; "/"; "-"; "_"]%char).
Definition good (e : encoding) : Prop := special (c62 e) = true ∧ special (c63 e) = true ∧ c62 e ≠ c63 e.

Lemma good_std : good StdEncoding.
Proof. by split_and!. Qed.
Lemma good_url : good URLEncoding.
Proof. by split_and!. Qed.
Lemma good_raw : good RawURLEncoding.
Proof. by split_and!. Qed.

Lemma special_plain c : special c = true → is_upper c = false ∧ is_lower c = false ∧ is_digit c = false
  ∧ c ≠ "="%char ∧ c ≠ chr 10 ∧ c ≠ chr 13.
Proof. byte_cases c. Qed.

Definition plain_val (c : ascii) : option Z :=
  if is_upper c then Some (code c - 65) else if is_lower c then Some (code c - 71)
  else if is_digit c then Some (code c + 4) else None.

Definition plain_sym (v : Z) : ascii :=
  if v <? 26 then chr (65 + v) else if v <? 52 then chr (71 + v) else chr (v - 4).

Lemma plain_val_sym v : 0 ≤ v < 62 → plain_val (plain_sym v) = Some v.
Proof.
  intros Hv. assert (v ∈ Z.of_nat <$> seq 0 62) as H.
  { apply list_elem_of_fmap. exists (Z.to_nat v). rewrite elem_of_seq. lia. }
  revert H. clear Hv. cbn -[plain_val plain_sym]. intros H.
  repeat (apply elem_of_cons in H as [->|H]; [vm_compute; reflexivity|]). by apply not_elem_of_nil in H.
Qed.

Lemma base64_val_sym e v : good e → 0 ≤ v < 64 → val e (sym e v) = Some v.
Proof.
  intros (H2 & H3 & Hne) Hv. unfold sym.
  destruct (decide (v < 62)) as [Hp|Hp].
  - pose proof (plain_val_sym v ltac:(lia)) as H. unfold plain_val, plain_sym in H. unfold val.
    rewrite (proj2 (Z.ltb_lt v 62)) by lia. destruct (v <? 26); [|destruct (v <? 52)];
    destruct (is_upper _); try done; destruct (is_lower _); try done; by destruct (is_digit _).
  - rewrite !(proj2 (Z.ltb_ge _ _)) by lia. apply special_plain in H2 as (U2 & L2 & D2 & _), H3 as (U3 & L3 & D3 & _).
    destruct (Z.eqb_spec v 62) as [->|Hn]; unfold val.
    + by rewrite U2, L2, D2, bool_decide_true.
    + rewrite U3, L3, D3, bool_decide_false, bool_decide_true by done. f_equal. lia.
Qed.

Ltac pack_step :=
  unfold pack; cbn [fmap list_fmap take]; repeat f_equal;
  (match goal with |- chr _ = ?b => transitivity (chr (code b)); [apply Base32.chr_mod|apply chr_code] end);
  Base32.sym_bounds.

Lemma val_pad e : good e → val e "="%char = None.
Proof.
  intros (H2 & H3 & _). apply special_plain in H2 as (_ & _ & _ & H2 & _), H3 as (_ & _ & _ & H3 & _).
  unfold val. cbn. by rewrite !bool_decide_false by done.
Qed.

Ltac symbols := repeat (rewrite base64_val_sym by (done || Base32.sym_bounds); cbn [mbind option_bind]).

Lemma base64_decode_encode e s : good e → decode e (EncodeToString e s) = Some s.
Proof.
  intros He. induction s as [s IH] using list_length_ind.
  destruct s as [|b0 [|b1 [|b2 s]]]; cbn [EncodeToString]; [done|..];
    unfold syms, pad; cbn [fmap list_fmap take app decode]; symbols.
  - destruct (padded e); cbn [replicate]; [rewrite val_pad by done; cbn [andb]; rewrite bool_decide_true by done|];
      f_equal; pack_step.
  - destruct (padded e); cbn [replicate]; [rewrite val_pad by done; cbn [andb]; rewrite bool_decide_true by done|];
      f_equal; pack_step.
  - rewrite IH by (cbn; lia). cbn [fmap option_fmap option_map].
    f_equal. unfold pack. cbn [fmap list_fmap app]. repeat f_equal;
    (match goal with |- chr _ = ?b => transitivity (chr (code b)); [apply Base32.chr_mod|apply chr_code] end);
    Base32.sym_bounds.
Qed.

(** No symbol is a newline. *)
Lemma sym_no_newline e v : good e → 0 ≤ v < 64 → sym e v ≠ chr 10 ∧ sym e v ≠ chr 13.
Proof.
  intros He Hv. pose proof (base64_val_sym e v He Hv) as H. destruct He as (H2 & H3 & _).
  apply special_plain in H2 as (_ & _ & _ & _ & A2 & B2), H3 as (_ & _ & _ & _ & A3 & B3).
  split; intros E; rewrite E in H; unfold val in H; cbn in H; by rewrite !bool_decide_false in H by done.
Qed.

Lemma base64_no_newlines (s : str) : Forall (λ c, c ≠ chr 10 ∧ c ≠ chr 13) s → Base32.strip_newlines s = s.
Proof.
  unfold Base32.strip_newlines. induction 1 as [|c s Hc _ IH]; [done|].
  by rewrite (filter_cons_True (λ c, c ≠ chr 10 ∧ c ≠ chr 13)), IH.
Qed.

Lemma pad_no_newline e n : Forall (λ c, c ≠ chr 10 ∧ c ≠ chr 13) (pad e n).
Proof. unfold pad. destruct (padded e); [|constructor]. by apply Forall_replicate. Qed.

Lemma EncodeToString_no_newline e s : good e → Forall (λ c, c ≠ chr 10 ∧ c ≠ chr 13) (EncodeToString e s).
Proof.
  intros He. induction s as [s IH] using list_length_ind.
  assert (∀ b0 b1 b2, Forall (λ c, c ≠ chr 10 ∧ c ≠ chr 13) (syms e b0 b1 b2)) as Hs.
  { intros b0 b1 b2. unfold syms. cbn [fmap list_fmap].
    repeat constructor; apply sym_no_newline; (done || Base32.sym_bounds). }
  destruct s as [|b0 [|b1 [|b2 s]]]; cbn [EncodeToString]; [constructor|..]; apply Forall_app; split;
    first [apply Forall_take, Hs|apply Hs|apply pad_no_newline|apply IH; cbn; lia].
Qed.

Lemma base64_roundtrip e s : good e → DecodeString e (EncodeToString e s) = Some s.
Proof.
  intros He. unfold DecodeString. rewrite base64_no_newlines by by apply EncodeToString_no_newline.
  by apply base64_decode_encode.
Qed.
(** The bytes of an encoded string. *)
Definition symbol (e : encoding) (c : ascii) : bool :=
  is_upper c || is_lower c || is_digit c || bool_decide (c = c62 e) || bool_decide (c = c63 e)
  || (padded e && bool_decide (c = "="%char)).

Lemma sym_symbol e v : good e → 0 ≤ v < 64 → symbol e (sym e v) = true.
Proof.
  intros He Hv. pose proof (base64_val_sym e v He Hv) as H. unfold val in H. unfold symbol.
  destruct (is_upper _); [done|]. destruct (is_lower _); [done|]. destruct (is_digit _); [done|]. cbn.
  case_bool_decide; [done|]. by case_bool_decide.
Qed.

Lemma EncodeToString_symbols e s : good e → Forall (λ c, symbol e c = true) (EncodeToString e s).
Proof.
  intros He. induction s as [s IH] using list_length_ind.
  assert (∀ b0 b1 b2, Forall (λ c, symbol e c = true) (syms e b0 b1 b2)) as Hs.
  { intros b0 b1 b2. unfold syms. cbn [fmap list_fmap].
    repeat constructor; apply sym_symbol; (done || Base32.sym_bounds). }
  assert (∀ n, Forall (λ c, symbol e c = true) (pad e n)) as Hpad.
  { intros n. unfold pad, symbol. destruct (padded e); [|constructor].
    apply Forall_replicate, orb_true_iff. right. by apply bool_decide_eq_true. }
  destruct s as [|b0 [|b1 [|b2 s]]]; cbn [EncodeToString]; [constructor|..]; apply Forall_app; split;
    first [apply Forall_take, Hs|apply Hs|apply Hpad|apply IH; cbn; lia].
Qed.

(** An encoded string is empty for the empty string alone. *)
Lemma EncodeToString_nil e s : EncodeToString e s = [] → s = [].
Proof. by destruct s as [|b0 [|b1 [|b2 s]]]. Qed.

(** The unpadded decoder on padded input: the bytes, or an error at the padding. *)
Lemma decode_raw_padded s :
  decode RawURLEncoding (EncodeToString URLEncoding s) = Some s
  ∨ decode RawURLEncoding (EncodeToString URLEncoding s) = None.
Proof.
  assert (∀ v, sym URLEncoding v = sym RawURLEncoding v) as Hsym by done.
  pose proof good_raw as He.
  induction s as [s IH] using list_length_ind.
  destruct s as [|b0 [|b1 [|b2 s]]]; cbn [EncodeToString]; [by left|..];
    unfold syms, pad; cbn [fmap list_fmap take app decode]; rewrite ?Hsym; symbols; cbn [replicate padded URLEncoding app];
    rewrite ?val_pad by done; cbn [padded RawURLEncoding andb]; [by right..|].
  destruct (IH s ltac:(cbn; lia)) as [-> | ->]; [left|by right]. cbn [fmap option_fmap option_map].
  f_equal. unfold pack. cbn [fmap list_fmap app]. repeat f_equal;
    (match goal with |- chr _ = ?b => transitivity (chr (code b)); [apply Base32.chr_mod|apply chr_code] end);
    Base32.sym_bounds.
Qed.
End Base64.

(** ** encoding/hex *)

Module Hex.
Definition val (c : ascii) : option Z :=
  if is_digit c then Some (code c - 48)
  else if between "a" c "f" then Some (code c - 87)
  else if between "A" c "F" then Some (code c - 55)
  else None.

(** Pairs of digits of either case. *)
Fixpoint DecodeString (s : str) : option str :=
  match s with
  | [] => Some []
  | a :: s1 =>
      match s1 with
      | [] => None
      | b :: s2 => x ← val a; y ← val b; cons (chr (x * 16 + y)) <$> DecodeString s2
      end
  end.

Definition digit (v : Z) : ascii := if v <? 10 then chr (48 + v) else chr (87 + v).
Definition EncodeToString (s : str) : str := flat_map (λ c, [digit (code c / 16); digit (code c mod 16)]) s.

Lemma digits_val c : val (digit (code c / 16)) = Some (code c / 16) ∧ val (digit (code c mod 16)) = Some (code c mod 16).
Proof. byte_cases c. Qed.

Lemma hex_roundtrip s : DecodeString (EncodeToString s) = Some s.
Proof.
  induction s as [|c s IH]; [done|]. cbn [EncodeToString flat_map app DecodeString].
  destruct (digits_val c) as [-> ->]. cbn [mbind option_bind]. fold (EncodeToString s). rewrite IH. cbn.
  f_equal. f_equal. transitivity (chr (code c)); [|apply chr_code]. f_equal. Z.div_mod_to_equations. lia.
Qed.
End Hex.
