(* ===== verification/Names.v ===== *)
(** * Owner names and partition keys (server.go: parseKey, itemName, chunkBytes)

    The map between DNS owner names under the zone and DynamoDB partition keys,
    and the splitting of a value into TXT character strings. *)

From S2P Require Import Prelude GoStrings Codec.

Definition maxTxtChunk : nat := 255.

Section Names.
Context `{UT : UnicodeTables}.

(** [None] is Go's [("", false)].  The slice bound
    [len(qname)-len(zone)-1] is truncated subtraction here; it is never
    negative on ASCII names ([parseKey_slice_in_range]). *)
Definition parseKey (zone qname : str) : option str :=
  if negb (HasSuffix (ToLower qname) (lit "." ++ zone)) then None else
  let rest := take (length qname - length zone - 1) qname in
  if bool_decide (rest = []) then None else
  let labels := Split rest "." in
  let l0 := hd [] labels in
  if HasPrefix l0 (lit "k-") then
    let raw := ToUpper (drop 2 l0) in
    let pad := (length raw mod 8)%nat in
    let raw := if negb (pad =? 0)%nat then raw ++ replicate (8 - pad) "="%char else raw in
    Base32.DecodeString raw
  else Some rest.

(** The test of [itemName]'s inner loop on one rune [r] of [part]. *)
Definition safe_rune (part : str) (r : Z) : bool :=
  negb (negb (((code "a" <=? r) && (r <=? code "z")) || ((code "0" <=? r) && (r <=? code "9"))
              || (r =? code "-"))
        || bool_decide (hd Ascii.zero part = "-"%char)
        || bool_decide (List.last part Ascii.zero = "-"%char)).

Definition safe_part (part : str) : bool :=
  negb (bool_decide (part = []) || (63 <? length part)%nat)
  && forallb (λ '(r, _), safe_rune part r) (runes part).

Definition safe_key (key : str) : bool := forallb safe_part (Split key ".").

Definition itemName (zone key : str) : str :=
  if bool_decide (key = []) then zone
  else if safe_key key then key ++ lit "." ++ zone
  else lit "k-" ++ ToLower (Base32.EncodeToString key) ++ lit "." ++ zone.
End Names.

(** One iteration takes [min n (len b)] bytes; [length b] iterations suffice
    when [n > 0] ([chunkBytes_concat]). *)
Fixpoint chunk_loop (fuel : nat) (b : str) (n : nat) : list str :=
  match fuel with
  | O => []
  | S fuel =>
      match b with
      | [] => []
      | _ => let c := if (n <? length b)%nat then take n b else b in
             c :: chunk_loop fuel (drop (length c) b) n
      end
  end.
Definition chunkBytes (b : str) (n : nat) : list str := chunk_loop (length b) b n.

(** ** Lemmas: runes of ASCII strings *)

Lemma DecodeRune_ascii s : s ≠ [] → (DecodeRune s).1 < 128 →
  ∃ c s', s = c :: s' ∧ is_ascii c = true ∧ DecodeRune s = (code c, 1%nat).
Proof.
  destruct s as [|c s]; [done|]. intros _. unfold DecodeRune.
  destruct (is_ascii c) eqn:Ec; [by eauto 10|].
  unfold lead, in_range, cont.
  repeat go_case; cbn [fst]; intros H; go_bool; simplify_eq; try (by vm_compute in H);
    exfalso; revert H; Z.div_mod_to_equations; lia.
Qed.

Lemma runes_all_ascii n s : (length s ≤ n)%nat →
  Forall (λ p, p.1 < 128) (runes_fuel n s) → ascii_str s.
Proof.
  revert s. induction n as [|n IH]; intros s Hn; cbn; [by destruct s; cbn in *; [|lia]|].
  destruct s as [|c s]; [done|]. destruct (DecodeRune (c :: s)) as [r w] eqn:E.
  intros [Hr Hs]%Forall_cons.
  destruct (DecodeRune_ascii (c :: s)) as (c' & s' & [= <- <-] & Hc & Hd); [done|by rewrite E|].
  rewrite E in Hd. injection Hd as -> ->. cbn in *. rewrite Hc. rewrite drop_0 in Hs.
  apply IH; [lia|done].
Qed.

(** The bytes [itemName] leaves as they are. *)
Definition plain_byte (c : ascii) : bool := is_lower c || is_digit c || bool_decide (c = "-"%char).

Section NamesLemmas.
Context `{UT : UnicodeTables}.

Lemma safe_rune_spec part r : safe_rune part r = true ↔
  (97 ≤ r ≤ 122 ∨ 48 ≤ r ≤ 57 ∨ r = 45)
  ∧ hd Ascii.zero part ≠ "-"%char ∧ List.last part Ascii.zero ≠ "-"%char.
Proof.
  unfold safe_rune. norm_codes.
  rewrite negb_true_iff, !orb_false_iff, negb_false_iff, !orb_true_iff, !andb_true_iff,
    !Z.leb_le, Z.eqb_eq, !bool_decide_eq_false. tauto.
Qed.

Lemma plain_byte_spec c : plain_byte c = true ↔
  (97 ≤ code c ≤ 122 ∨ 48 ≤ code c ≤ 57 ∨ code c = 45).
Proof.
  unfold plain_byte, is_lower, is_digit, between. norm_codes.
  rewrite !orb_true_iff, !andb_true_iff, !Z.leb_le, bool_decide_eq_true.
  assert (c = "-"%char ↔ code c = 45) by (split; [by intros ->|intros H; by apply code_inj]).
  tauto.
Qed.

(** A part is safe when it is a lower-case letter-digit-hyphen label. *)
Lemma safe_part_spec part : safe_part part = true ↔
  (0 < length part ≤ 63)%nat ∧ Forall (λ c, plain_byte c = true) part
  ∧ hd Ascii.zero part ≠ "-"%char ∧ List.last part Ascii.zero ≠ "-"%char.
Proof.
  unfold safe_part.
  rewrite andb_true_iff, negb_true_iff, orb_false_iff, bool_decide_eq_false, Nat.ltb_ge.
  split.
  - intros [[Hne Hlen] H]. rewrite forallb_forall in H. setoid_rewrite <- list_elem_of_In in H.
    assert (ascii_str part) as Ha.
    { apply (runes_all_ascii (length part)); [done|]. apply Forall_forall. intros [r w] Hr.
      specialize (H _ Hr). apply safe_rune_spec in H. cbn. lia. }
    rewrite runes_ascii in H by done.
    assert (∀ c, c ∈ part → safe_rune part (code c) = true) as Hc.
    { intros c Hc. apply (H (code c, [c])), list_elem_of_fmap. eauto. }
    destruct part as [|c part]; [done|].
    destruct (proj1 (safe_rune_spec _ _) (Hc c ltac:(set_solver))) as (_ & ? & ?).
    split_and!; [cbn; lia|done| |done..].
    apply Forall_forall. intros d Hd. apply plain_byte_spec.
    by apply Hc, safe_rune_spec in Hd as [Hd _].
  - intros (Hlen & Hp & Hh & Hl).
    assert (ascii_str part) as Ha.
    { apply forallb_forall. intros c Hc%list_elem_of_In. rewrite Forall_forall in Hp.
      apply Z.ltb_lt. apply Hp, plain_byte_spec in Hc. lia. }
    split; [split; [by intros ->; cbn in *; lia|lia]|].
    rewrite runes_ascii by done. apply forallb_forall. intros [r w] Hr%list_elem_of_In.
    apply list_elem_of_fmap in Hr as (c & [= -> ->] & Hc). apply safe_rune_spec.
    rewrite Forall_forall in Hp. apply Hp, plain_byte_spec in Hc. done.
Qed.

Lemma plain_byte_lower c : plain_byte c = true → is_ascii c = true ∧ is_upper c = false ∧ c ≠ "."%char.
Proof. byte_cases c. Qed.

Lemma safe_key_fixed key : safe_key key = true →
  Forall (λ c, is_ascii c = true ∧ is_upper c = false) key.
Proof.
  unfold safe_key. rewrite forallb_forall. intros H.
  assert (∀ w, w ∈ Split key "." → Forall (λ c, plain_byte c = true) w) as Hw.
  { intros w Hin. apply list_elem_of_In in Hin. by apply H, safe_part_spec in Hin as (_ & ? & _). }
  rewrite <- (Join_Split key "."). revert Hw. generalize (Split key ".").
  induction l as [|w l IH]; intros Hw; [by constructor|].
  assert (Forall (λ c, is_ascii c = true ∧ is_upper c = false) w) as Hhd.
  { eapply Forall_impl; [apply Hw; set_solver|]. intros c ?%plain_byte_lower. tauto. }
  destruct l as [|w' l]; [done|]. cbn [Join]. rewrite !Forall_app. split_and!.
  - done.
  - by repeat constructor.
  - apply IH. set_solver.
Qed.

(** *** Zones the server runs under: lower-case ASCII (main.go lowers the zone) *)

Record good_zone (zone : str) : Prop := {
  gz_ascii : ascii_str zone;
  gz_lower : ToLower zone = zone;
}.

Lemma dot_zone_fixed zone : good_zone zone → ToLower (lit "." ++ zone) = lit "." ++ zone.
Proof.
  intros [Ha Hl]. rewrite ToLower_app by done. by rewrite Hl, ToLower_fixed by by repeat constructor.
Qed.

(** The owner names an item key [k] can be written under. *)
Lemma parseKey_app zone rest : good_zone zone → ascii_str rest → rest ≠ [] →
  parseKey zone (rest ++ lit "." ++ zone) =
    let l0 := hd [] (Split rest ".") in
    if HasPrefix l0 (lit "k-") then
      let raw := ToUpper (drop 2 l0) in
      let pad := (length raw mod 8)%nat in
      Base32.DecodeString (if negb (pad =? 0)%nat then raw ++ replicate (8 - pad) "="%char else raw)
    else Some rest.
Proof.
  intros Hz Hr Hne. unfold parseKey.
  rewrite ToLower_app, dot_zone_fixed, HasSuffix_app
    by (try apply Hz; done || (cbn; by rewrite (gz_ascii _ Hz))).
  cbn [negb]. rewrite take_app_length' by (rewrite !length_app; cbn; lia).
  by rewrite bool_decide_eq_false_2 by done.
Qed.

(** The Go slice [qname[:len(qname)-len(zone)-1]] never panics on ASCII. *)
Lemma parseKey_slice_in_range zone qname : ascii_str qname →
  HasSuffix (ToLower qname) (lit "." ++ zone) = true → (length zone + 1 ≤ length qname)%nat.
Proof.
  intros Ha [u Hu]%HasSuffix_spec. rewrite <- (ToLower_length_ascii qname) by done.
  rewrite Hu, !length_app. cbn. lia.
Qed.

Lemma head_Split_prefix s : HasPrefix (hd [] (Split s ".")) (lit "k-") = HasPrefix s (lit "k-").
Proof.
  destruct (Split_head s ".") as [[_ ->]|(w & t & -> & _ & ->)]; [done|]. cbn [hd].
  unfold HasPrefix. apply bool_decide_ext. destruct w as [|a [|b w]]; cbn; [naive_solver..|].
  by rewrite !take_0.
Qed.

Lemma alphabet_lower_upper c : Base32.alphabet_ok c = true →
  is_ascii (lower_byte c) = true ∧ is_upper (lower_byte c) = false
  ∧ lower_byte c ≠ "."%char ∧ upper_byte (lower_byte c) = c.
Proof. byte_cases c. Qed.

Lemma encoded_label key : let l := ToLower (Base32.EncodeToString key) in
  ascii_str l ∧ "."%char ∉ l ∧ ToUpper l = Base32.EncodeToString key
  ∧ Forall (λ c, is_ascii c = true ∧ is_upper c = false) l.
Proof.
  pose proof (Base32.EncodeToString_alphabet key) as H. cbv zeta.
  assert (ascii_str (Base32.EncodeToString key)) as Ha.
  { apply forallb_forall. intros c Hc%list_elem_of_In. rewrite Forall_forall in H.
    specialize (H _ Hc). revert H. byte_cases c. }
  rewrite ToLower_ascii by done.
  assert (ascii_str (lower_byte <$> Base32.EncodeToString key)) as Hl by by apply lower_byte_ascii_str.
  split; [done|]. rewrite ToUpper_ascii, <- list_fmap_compose by done.
  rewrite Forall_fmap. clear Ha Hl.
  induction H as [|c l Hc _ (IH1 & IH2 & IH3)]; cbn; [by split_and!; [set_solver| |constructor]|].
  apply alphabet_lower_upper in Hc as (H1 & H2 & H3 & H4).
  rewrite IH2, H4. split_and!; [set_solver|done|]. by constructor.
Qed.

Lemma Base32_nonempty key : key ≠ [] → Base32.EncodeToString key ≠ [].
Proof.
  intros Hk He. pose proof (Base32.EncodeToString_length key) as H. rewrite He in H.
  destruct key; [done|]. cbn [length] in H. revert H. Z.div_mod_to_equations. lia.
Qed.
End NamesLemmas.

(** ** Lemmas: chunkBytes *)

Lemma chunk_loop_spec fuel b n : (0 < n)%nat → (length b ≤ fuel)%nat →
  concat (chunk_loop fuel b n) = b
  ∧ Forall (λ c, 0 < length c ≤ n)%nat (chunk_loop fuel b n).
Proof.
  intros Hn. revert b. induction fuel as [|fuel IH]; intros [|x b] Hf; cbn in Hf; try done; try lia.
  cbn [chunk_loop]. set (bb := x :: b) in *.
  destruct (Nat.ltb_spec n (length bb)) as [Hlt|Hle].
  - rewrite length_take_le by lia.
    destruct (IH (drop n bb)) as [H1 H2]; [rewrite length_drop; cbn in *; lia|].
    rewrite concat_cons, H1, take_drop. split; [done|].
    constructor; [|done]. rewrite length_take_le; lia.
  - rewrite drop_all. destruct (IH []) as [H1 H2]; [cbn; lia|].
    rewrite concat_cons, H1, app_nil_r. split; [done|].
    constructor; [subst bb; cbn in *; lia|done].
Qed.

(** All chunks but the last are full. *)
Lemma chunk_loop_length fuel b n : (0 < n)%nat → (length b ≤ fuel)%nat →
  length (chunk_loop fuel b n) = ((length b + n - 1) / n)%nat.
Proof.
  intros Hn. revert b. induction fuel as [|fuel IH]; intros [|x b] Hf; cbn in Hf; try lia.
  - cbn. symmetry. apply Nat.div_small. lia.
  - cbn. symmetry. apply Nat.div_small. lia.
  - cbn [chunk_loop]. set (bb := x :: b) in *.
    assert (0 < length bb)%nat by (subst bb; cbn; lia).
    destruct (Nat.ltb_spec n (length bb)) as [Hlt|Hle]; cbn [length].
    + rewrite length_take_le, IH, length_drop by (rewrite ?length_drop; cbn in *; lia).
      replace (length bb + n - 1)%nat with (length bb - n + n - 1 + 1 * n)%nat by lia.
      rewrite Nat.div_add by lia. lia.
    + rewrite drop_all. replace (chunk_loop fuel [] n) with (@nil str) by by destruct fuel.
      cbn [length]. apply (Nat.div_unique _ _ _ (length bb - 1)); lia.
Qed.

(** ** Properties *)

Section NamesProperties.
Context `{UT : UnicodeTables}.

(** The names the server writes are lower case, so the lower-casing that
    [buildResponse] and [processUpdate] apply to a query name is harmless. *)
Lemma itemName_lower zone key : good_zone zone → ToLower (itemName zone key) = itemName zone key.
Proof.
  intros Hz. unfold itemName. case_bool_decide; [apply Hz|].
  assert (ascii_str (lit "." ++ zone)) by (cbn; by rewrite (gz_ascii _ Hz)).
  destruct (safe_key key) eqn:Hs.
  - apply safe_key_fixed in Hs. rewrite ToLower_app, dot_zone_fixed, ToLower_fixed; try done.
    apply forallb_forall. intros c Hc%list_elem_of_In. rewrite Forall_forall in Hs. by apply Hs.
  - destruct (encoded_label key) as (Ha & _ & _ & Hf).
    rewrite (ToLower_app (lit "k-")) by (done || by rewrite forallb_app, Ha).
    rewrite (ToLower_app (ToLower _)), dot_zone_fixed by done.
    by rewrite (ToLower_fixed (lit "k-")), (ToLower_fixed (ToLower _)) by (done || by repeat constructor).
Qed.

Lemma parseKey_itemName_aux zone key : good_zone zone → key ≠ [] →
  (safe_key key = true → HasPrefix key (lit "k-") = false) →
  parseKey zone (itemName zone key) = Some key.
Proof.
  intros Hz Hne Hk. unfold itemName. rewrite bool_decide_eq_false_2 by done.
  destruct (safe_key key) eqn:Hs.
  - rewrite parseKey_app; [|done| |done].
    + cbv zeta. by rewrite head_Split_prefix, Hk.
    + apply safe_key_fixed in Hs. apply forallb_forall. intros c Hc%list_elem_of_In.
      rewrite Forall_forall in Hs. by apply Hs.
  - destruct (encoded_label key) as (Ha & Hdot & Hu & _). rewrite app_assoc, parseKey_app; [|done..].
    rewrite Split_no_sep by (rewrite elem_of_app; set_solver). cbn [hd]. cbv zeta.
    rewrite HasPrefix_app, drop_app_length' by done. rewrite Hu.
    rewrite (proj2 (Nat.Div0.mod_divides _ _) (Base32.EncodeToString_div8 key)).
    cbn. apply Base32.DecodeString_EncodeToString.
Qed.
(** C24. Owner names round-trip: the key parsed from the owner name of [key] is
    [key] itself, for every non-empty key, whatever bytes it holds, except the
    label-safe keys that begin with "k-". *)
Theorem itemName_parseKey zone key :
  good_zone zone → key ≠ [] → safe_key key = false ∨ HasPrefix key (lit "k-") = false →
  parseKey zone (itemName zone key) = Some key.
Proof.
  intros Hz Hne Hk. apply parseKey_itemName_aux; [done..|]. destruct Hk; congruence.
Qed.

(** A label-safe key that begins with "k-" is never found under the name
    [itemName] gives it: the name parses to a shorter key or to none. *)
Theorem k_prefixed_key_lost zone key :
  good_zone zone → safe_key key = true → HasPrefix key (lit "k-") = true →
  parseKey zone (itemName zone key) ≠ Some key.
Proof.
  intros Hz Hs Hk Hp. pose proof (safe_key_fixed key Hs) as Hf.
  assert (ascii_str key) as Ha.
  { apply forallb_forall. intros c Hc%list_elem_of_In. rewrite Forall_forall in Hf. by apply Hf. }
  assert (key ≠ []) as Hne by by intros ->.
  unfold itemName in Hp. rewrite bool_decide_eq_false_2, Hs, parseKey_app in Hp by done.
  cbv zeta in Hp. rewrite head_Split_prefix, Hk in Hp.
  apply Base32.DecodeString_length in Hp.
  set (l0 := hd [] (Split key ".")) in *.
  assert (length l0 ≤ length key ∧ ascii_str l0)%nat as [Hl Hal].
  { subst l0. destruct (Split_head key ".") as [[_ ->]|(w & t & -> & _ & ->)]; cbn; [by split|].
    rewrite length_app. split; [lia|]. rewrite forallb_app in Ha. by go_bool. }
  assert (length (ToUpper (drop 2 l0)) ≤ length l0)%nat as Hu.
  { rewrite ToUpper_ascii, length_fmap, length_drop; [lia|].
    rewrite <- (take_drop 2 l0), forallb_app in Hal. by go_bool. }
  destruct key as [|a key]; [done|]. cbn [length] in *.
  revert Hp. case_match; rewrite ?Base32.symbols_app, ?Base32.symbols_pad;
    pose proof (Base32.symbols_le (ToUpper (drop 2 l0))); lia.
Qed.

(** A key that needs the base32 form and is longer than 35 bytes gets an
    owner name whose first label exceeds the 63 octets DNS allows. *)
Theorem long_key_label_overflow zone key :
  safe_key key = false → (35 < length key)%nat →
  (63 < length (hd [] (Split (itemName zone key) ".")))%nat.
Proof.
  intros Hs Hl. unfold itemName. rewrite bool_decide_eq_false_2 by (intros ->; cbn in Hl; lia).
  rewrite Hs, app_assoc. destruct (encoded_label key) as (Ha & Hdot & Hu & _).
  change (lit "." ++ zone) with ("."%char :: zone).
  rewrite (Split_app _ zone) by (rewrite elem_of_app; set_solver). cbn [hd].
  pose proof (Base32.EncodeToString_length key) as He. rewrite <- Hu, ToUpper_ascii, length_fmap in He by done.
  rewrite length_app. cbn. revert He. Z.div_mod_to_equations. lia.
Qed.

(** A label-safe key stays within the DNS label limit. *)
Lemma safe_key_labels key : safe_key key = true →
  Forall (λ l, 0 < length l ≤ 63)%nat (Split key ".").
Proof.
  unfold safe_key. rewrite forallb_forall. intros H. apply Forall_forall. intros w Hw.
  by apply list_elem_of_In, H, safe_part_spec in Hw as [? _].
Qed.
End NamesProperties.

(** [chunkBytes] cuts a value into pieces of 1 to [n] bytes that concatenate
    to the value, and makes as few of them as possible; so its loop ends. *)
Theorem chunkBytes_spec b n : (0 < n)%nat →
  concat (chunkBytes b n) = b
  ∧ Forall (λ c, 0 < length c ≤ n)%nat (chunkBytes b n)
  ∧ length (chunkBytes b n) = ((length b + n - 1) / n)%nat.
Proof.
  intros Hn. destruct (chunk_loop_spec (length b) b n) as [H1 H2]; [done..|].
  split_and!; [done|done|]. by apply chunk_loop_length.
Qed.

(** *** Witnesses *)

Definition demo_zone : str := lit "contractdb.internal.".

Lemma good_demo_zone : @good_zone ascii_tables demo_zone.
Proof. split; vm_compute; reflexivity. Qed.

Lemma itemName_parseKey_witness :
  @parseKey ascii_tables demo_zone (@itemName ascii_tables demo_zone (lit "Case Sensitive!"))
  = Some (lit "Case Sensitive!").
Proof. apply (@itemName_parseKey ascii_tables); [apply good_demo_zone|done|left; vm_compute; reflexivity]. Defined.

Lemma k_prefixed_key_lost_witness :
  @parseKey ascii_tables demo_zone (@itemName ascii_tables demo_zone (lit "k-mzxw6ytb"))
  ≠ Some (lit "k-mzxw6ytb").
Proof.
  apply (@k_prefixed_key_lost ascii_tables); [apply good_demo_zone|vm_compute; reflexivity..].
Defined.

Lemma long_key_label_overflow_witness :
  (63 < length (hd [] (Split (@itemName ascii_tables demo_zone (replicate 36 "A"%char)) ".")))%nat.
Proof.
  apply (@long_key_label_overflow ascii_tables); [vm_compute; reflexivity|rewrite length_replicate; lia].
Defined.

Lemma chunkBytes_spec_witness :
  (0 < 255)%nat ∧ length (chunkBytes (replicate 600 "x"%char) 255) = 3%nat.
Proof.
  split; [lia|]. destruct (chunkBytes_spec (replicate 600 "x"%char) 255) as (_ & _ & H); [lia|].
  rewrite H, length_replicate. reflexivity.
Defined.
