(* ===== verification/Float64.v ===== *)
(** * float64 and strconv

    IEEE 754 binary64 values as the Standard Library's [spec_float] (format
    [prec = 53], [emax = 1024]), Go's [strconv.ParseFloat] and the shortest
    formatting [strconv.FormatFloat(f, 'f' or 'e', -1, 64)]. *)

From S2P Require Import Prelude GoStrings.
From Stdlib Require Import SpecFloat.
From Stdlib Require Import DecimalString.

Abbreviation f64 := spec_float.

#[export] Instance spec_float_eq_dec : EqDecision f64.
Proof. solve_decision. Defined.

(** ** Rounding a decimal: (-1)^neg * mant * 10^exp to nearest, ties to even *)

Definition dec_str (n : Z) : str :=
  lit (DecimalString.NilZero.string_of_uint (N.to_uint (Z.to_N n))).

Definition dec_to_f64 (neg : bool) (mant exp : Z) : f64 :=
  let dp := Z.of_nat (length (dec_str mant)) + exp in
  if mant =? 0 then S754_zero neg
  else if 310 <? dp then S754_infinity neg
  else if dp <? -330 then S754_zero neg
  else if 0 <=? exp then
    let m := mant * 10 ^ exp in
    binary_normalize 53 1024 (if neg then - m else m) 0 neg
  else
    let '(q, e, l) := SFdiv_core_binary 53 1024 mant 0 (10 ^ (- exp)) 0 in
    binary_round_aux 53 1024 neg q e l.

(** Hexadecimal mantissa: (-1)^neg * mant * 2^exp *)
Definition hex_to_f64 (neg : bool) (mant exp : Z) : f64 :=
  binary_normalize 53 1024 (if neg then - mant else mant) exp neg.

Definition is_inf (f : f64) : bool := match f with S754_infinity _ => true | _ => false end.
Definition is_nan (f : f64) : bool := match f with S754_nan => true | _ => false end.

(** ** strconv.ParseFloat *)

Definition digit_val (c : ascii) : Z := code c - 48.
Definition is_hex_letter (c : ascii) : bool := between "a" (lower_byte c) "f".
Definition hex_val (c : ascii) : Z := if is_digit c then digit_val c else code (lower_byte c) - 87.

(** [underscoreOK]: underscores only between digits. *)
Fixpoint underscore_loop (hex : bool) (saw : ascii) (s : str) : bool :=
  match s with
  | [] => negb (bool_decide (saw = "_"%char))
  | c :: s' =>
      if is_digit c || (hex && is_hex_letter c) then underscore_loop hex "0" s'
      else if bool_decide (c = "_"%char) then
        bool_decide (saw = "0"%char) && underscore_loop hex "_" s'
      else if bool_decide (saw = "_"%char) then false
      else underscore_loop hex "!" s'
  end.

Definition underscoreOK (s : str) : bool :=
  let s := match s with c :: s' => if bool_decide (c = "-"%char ∨ c = "+"%char) then s' else s | [] => s end in
  match s with
  | "0"%char :: c :: s' =>
      let b := lower_byte c in
      if bool_decide (b = "b"%char ∨ b = "o"%char ∨ b = "x"%char)
      then underscore_loop (bool_decide (b = "x"%char)) "0" s'
      else underscore_loop false "^" s
  | _ => underscore_loop false "^" s
  end.

(** The mantissa loop of [readFloat]: all digits as one integer, and the number
    of digits after the point. *)
Record mant_state := {
  ms_mant : Z; ms_frac : Z; ms_sawdot : bool; ms_sawdigits : bool; ms_under : bool }.

Fixpoint read_mant (hex : bool) (st : mant_state) (s : str) : mant_state * str :=
  match s with
  | [] => (st, [])
  | c :: s' =>
      if bool_decide (c = "_"%char) then
        read_mant hex {| ms_mant := ms_mant st; ms_frac := ms_frac st; ms_sawdot := ms_sawdot st;
                         ms_sawdigits := ms_sawdigits st; ms_under := true |} s'
      else if bool_decide (c = "."%char) then
        if ms_sawdot st then (st, s) else
        read_mant hex {| ms_mant := ms_mant st; ms_frac := ms_frac st; ms_sawdot := true;
                         ms_sawdigits := ms_sawdigits st; ms_under := ms_under st |} s'
      else if is_digit c || (hex && is_hex_letter c) then
        read_mant hex {| ms_mant := (if hex then 16 else 10) * ms_mant st + hex_val c;
                         ms_frac := if ms_sawdot st then ms_frac st + 1 else ms_frac st;
                         ms_sawdot := ms_sawdot st; ms_sawdigits := true;
                         ms_under := ms_under st |} s'
      else (st, s)
  end.

(** The exponent digits: the value stops growing at 10000, as in Go. *)
Fixpoint read_exp (e : Z) (under : bool) (s : str) : Z * bool * str :=
  match s with
  | c :: s' =>
      if is_digit c then read_exp (if e <? 10000 then e * 10 + digit_val c else e) under s'
      else if bool_decide (c = "_"%char) then read_exp e true s'
      else (e, under, s)
  | [] => (e, under, [])
  end.

Definition strip_sign (s : str) : bool * str :=
  match s with
  | "-"%char :: s' => (true, s')
  | "+"%char :: s' => (false, s')
  | _ => (false, s)
  end.

(** [readFloat] on a whole string: sign, base, mantissa and exponent. *)
Definition readFloat (s : str) : option (bool * bool * Z * Z) :=
  let '(neg, s1) := strip_sign s in
  let '(hex, s2) :=
    match s1 with
    | "0"%char :: x :: ((_ :: _) as s') => if bool_decide (lower_byte x = "x"%char) then (true, s') else (false, s1)
    | _ => (false, s1)
    end in
  let '(st, s3) := read_mant hex {| ms_mant := 0; ms_frac := 0; ms_sawdot := false;
                                    ms_sawdigits := false; ms_under := false |} s2 in
  if negb (ms_sawdigits st) then None else
  let base_exp := if hex then - 4 * ms_frac st else - ms_frac st in
  match s3 with
  | c :: s4 =>
      if negb (bool_decide (lower_byte c = (if hex then "p"%char else "e"%char))) then None else
      let '(eneg, s5) := strip_sign s4 in
      match s5 with
      | d :: _ =>
          if negb (is_digit d) then None else
          let '(e, under, s6) := read_exp 0 (ms_under st) s5 in
          match s6 with
          | [] => if under && negb (underscoreOK s) then None
                  else Some (neg, hex, ms_mant st, base_exp + (if eneg then - e else e))
          | _ => None
          end
      | [] => None
      end
  | [] =>
      if hex then None
      else if ms_under st && negb (underscoreOK s) then None
      else Some (neg, hex, ms_mant st, base_exp)
  end.

(** [special]: infinities and NaN, case-insensitively. *)
Definition special (s : str) : option f64 :=
  let l := lower_byte <$> s in
  let '(neg, l1) := strip_sign l in
  if bool_decide (l1 = lit "inf" ∨ l1 = lit "infinity") then Some (S754_infinity neg)
  else if bool_decide (l = lit "nan") then Some S754_nan
  else None.

(** [strconv.ParseFloat(s, 64)]; both a syntax error and an out-of-range value
    are errors. *)
Definition ParseFloat (s : str) : res f64 :=
  match special s with
  | Some f => Ok f
  | None =>
      match readFloat s with
      | None => Err (EMsg (lit "invalid syntax") s)
      | Some (neg, hex, mant, exp) =>
          let f := if hex then hex_to_f64 neg mant exp else dec_to_f64 neg mant exp in
          if is_inf f then Err (EMsg (lit "value out of range") s) else Ok f
      end
  end.

(** ** Shortest formatting *)

(** The least [k] with num/den < 10^k, searched around the estimate from the
    binary logarithms. *)
Definition lt_pow10 (num den k : Z) : bool :=
  if 0 <=? k then num <? 10 ^ k * den else num * 10 ^ (- k) <? den.

Definition dec_exponent (num den : Z) : Z :=
  let est := (Z.log2 num - Z.log2 den) * 30103 / 100000 in
  match find (lt_pow10 num den) [est - 1; est; est + 1; est + 2; est + 3] with
  | Some k => k
  | None => est + 4
  end.

(** The [n]-digit decimals around num/den: floor of num/den * 10^(n-k). *)
Definition scaled (num den n k : Z) : Z * Z * Z :=
  let '(a, b) := if 0 <=? n - k then (num * 10 ^ (n - k), den) else (num, den * 10 ^ (k - n)) in
  (a / b, a mod b, b).

Definition candidate (f : f64) (num den n k : Z) : option (Z * Z) :=
  let '(q, r, b) := scaled num den n k in
  let ok c := bool_decide (dec_to_f64 false c (k - n) = f) in
  let '(near, far) := if 2 * r <=? b then (q, q + 1) else (q + 1, q) in
  if ok near then Some (near, k - n) else if ok far then Some (far, k - n) else None.

Fixpoint shortest_from (fuel : nat) (f : f64) (num den n k : Z) : option (Z * Z) :=
  match fuel with
  | O => None
  | S fuel =>
      match candidate f num den n k with
      | Some r => Some r
      | None => shortest_from fuel f num den (n + 1) k
      end
  end.

Fixpoint drop_zeros (l : str) : str :=
  match l with
  | "0"%char :: l' => drop_zeros l'
  | _ => l
  end.

(** The shortest digits that read back as |f|, and the position of the decimal
    point: |f| = 0.d1d2... * 10^dp.  Seventeen digits always suffice for
    binary64; the search goes to twenty. *)
Definition shortest (f : f64) : option (str * Z) :=
  match f with
  | S754_zero _ => Some ([], 0)
  | S754_finite _ m e =>
      let '(num, den) := if 0 <=? e then (Zpos m * 2 ^ e, 1) else (Zpos m, 2 ^ (- e)) in
      let k := dec_exponent num den in
      match shortest_from 20 (S754_finite false m e) num den 1 k with
      | Some (c, x) =>
          let ds := dec_str c in
          Some (rev (drop_zeros (rev ds)), Z.of_nat (length ds) + x)
      | None => None
      end
  | _ => None
  end.

Definition f64_sign (f : f64) : bool :=
  match f with
  | S754_zero s | S754_infinity s | S754_finite s _ _ => s
  | S754_nan => false
  end.

Definition sign_str (f : f64) : str := if f64_sign f then lit "-" else [].

(** The [%f] layout of digits [ds] with the point at [dp]. *)
Definition fmtF (ds : str) (dp : Z) : str :=
  let n := Z.of_nat (length ds) in
  let int := if 0 <? dp
             then take (Z.to_nat dp) ds ++ replicate (Z.to_nat (dp - n)) "0"%char
             else lit "0" in
  if n - dp <=? 0 then int
  else int ++ lit "." ++ replicate (Z.to_nat (- dp)) "0"%char ++ drop (Z.to_nat dp) ds.

(** The [%e] layout: at least two exponent digits. *)
Definition fmtE (ds : str) (dp : Z) : str :=
  let ds := match ds with [] => lit "0" | _ => ds end in
  let exp := dp - 1 in
  let ed := dec_str (Z.abs exp) in
  take 1 ds ++ (match drop 1 ds with [] => [] | r => lit "." ++ r end)
  ++ lit "e" ++ (if exp <? 0 then lit "-" else lit "+")
  ++ (if Z.abs exp <? 10 then lit "0" ++ ed else ed).

Definition special_str (f : f64) : str :=
  match f with
  | S754_infinity true => lit "-Inf"
  | S754_infinity false => lit "+Inf"
  | _ => lit "NaN"
  end.

(** [strconv.FormatFloat(f, 'f', -1, 64)] *)
Definition FormatFloat_f (f : f64) : str :=
  match shortest f with
  | Some (ds, dp) => sign_str f ++ fmtF ds dp
  | None => special_str f
  end.

(** [strconv.FormatFloat(f, 'e', -1, 64)] *)
Definition FormatFloat_e (f : f64) : str :=
  match shortest f with
  | Some (ds, dp) => sign_str f ++ fmtE ds dp
  | None => special_str f
  end.

Definition parse_ok (s : String.string) : f64 :=
  match ParseFloat (lit s) with Ok f => f | Err _ => S754_nan end.

Example format_100 : FormatFloat_f (parse_ok "100.0") = lit "100".
Proof. vm_compute. reflexivity. Qed.
Example format_tenth : FormatFloat_f (parse_ok "0.1") = lit "0.1".
Proof. vm_compute. reflexivity. Qed.
Example format_third : FormatFloat_f (parse_ok "-3.14159e0") = lit "-3.14159".
Proof. vm_compute. reflexivity. Qed.
Example format_denormal : FormatFloat_e (parse_ok "4.9e-324") = lit "5e-324".
Proof. vm_compute. reflexivity. Qed.
Example format_max : FormatFloat_e (parse_ok "1.7976931348623157e308") = lit "1.7976931348623157e+308".
Proof. vm_compute. reflexivity. Qed.
Example format_pow2 : FormatFloat_f (parse_ok "9007199254740993") = lit "9007199254740992".
Proof. vm_compute. reflexivity. Qed.
Example parse_range : is_ok (ParseFloat (lit "1e400")) = false.
Proof. vm_compute. reflexivity. Qed.
