(* ===== verification/Json.v ===== *)
(** * Plain Go values and encoding/json

    The dynamic values an item holds, [json.Marshal], [json.Valid] and
    [json.Unmarshal] into a [map[string]any], byte for byte. *)

From Stdlib Require Import SpecFloat.
From S2P Require Import Prelude GoStrings Codec Float64.

(** ** Values

    What the program stores in an [any].  A Go map is its entry list with
    strictly increasing keys: every function that builds one inserts with
    [map_set], and [json.Marshal] visits the keys in this order. *)

Inductive value : Type :=
  | VNil
  | VBool (b : bool)
  | VString (s : str)
  | VFloat (f : f64)
  | VNumber (s : str)                       (* json.Number *)
  | VStrings (l : list str)                 (* []string *)
  | VList (l : list value)                  (* []any *)
  | VMap (m : list (str * value)).          (* map[string]any *)

Abbreviation gomap := (list (str * value)).

Fixpoint map_set {A} (k : str) (v : A) (m : list (str * A)) : list (str * A) :=
  match m with
  | [] => [(k, v)]
  | (k', v') :: m' =>
      if bool_decide (k = k') then (k, v) :: m'
      else if str_leb k k' then (k, v) :: m
      else (k', v') :: map_set k v m'
  end.

Fixpoint map_get {A} (k : str) (m : list (str * A)) : option A :=
  match m with
  | [] => None
  | (k', v') :: m' => if bool_decide (k = k') then Some v' else map_get k m'
  end.

(** [Item] is a map type; [None] is the nil map. *)
Abbreviation Item := (option gomap).

(** ** json.Marshal *)

Definition hex_digit (v : Z) : ascii := if v <? 10 then chr (48 + v) else chr (87 + v).

(** [htmlSafeSet]: the ASCII bytes a string literal carries unescaped. *)
Definition html_safe (c : ascii) : bool :=
  (32 <=? code c) && (code c <? 128)
  && negb (bool_decide (c ∈ [chr 34; "&"%char; "<"%char; ">"%char; "\"%char])).

Definition escape_byte (c : ascii) : str :=
  if html_safe c then [c]
  else if bool_decide (c = "\"%char ∨ c = chr 34) then ["\"%char; c]
  else if code c =? 8 then lit "\b"
  else if code c =? 12 then lit "\f"
  else if code c =? 10 then lit "\n"
  else if code c =? 13 then lit "\r"
  else if code c =? 9 then lit "\t"
  else lit "\u00" ++ [hex_digit (code c / 16); hex_digit (code c mod 16)].

(** One rune of the source, with the bytes it was read from. *)
Definition escape_rune (p : Z * str) : str :=
  match p with
  | (r, [c]) => if is_ascii c then escape_byte c else lit "\ufffd"
  | (r, w) => if (r =? 8232) || (r =? 8233) then lit "\u202" ++ [hex_digit (r mod 16)] else w
  end.

Definition quote : str := [chr 34].
Definition escape (s : str) : str := flat_map escape_rune (runes s).
Definition encode_string (s : str) : str := quote ++ escape s ++ quote.

(** ** The number grammar of JSON *)

Definition span_digits (s : str) : str * str :=
  (fix go (s : str) : str * str :=
     match s with
     | c :: s' => if is_digit c then let '(a, b) := go s' in (c :: a, b) else ([], s)
     | [] => ([], [])
     end) s.

(** The longest number at the head of [s], and the rest. *)
Definition scan_number (s : str) : option (str * str) :=
  let '(sign, s1) := match s with "-"%char :: s' => (lit "-", s') | _ => ([], s) end in
  let int :=
    match s1 with
    | "0"%char :: s' => Some (lit "0", s')
    | _ => match span_digits s1 with ([], _) => None | p => Some p end
    end in
  match int with
  | None => None
  | Some (i, s2) =>
      let frac :=
        match s2 with
        | "."%char :: s' =>
            match span_digits s' with ([], _) => None | (d, r) => Some (lit "." ++ d, r) end
        | _ => Some ([], s2)
        end in
      match frac with
      | None => None
      | Some (f, s3) =>
          match s3 with
          | c :: s' =>
              if bool_decide (c = "e"%char ∨ c = "E"%char) then
                let '(es, s'') :=
                  match s' with
                  | d :: t => if bool_decide (d = "+"%char ∨ d = "-"%char) then ([d], t) else ([], s')
                  | [] => ([], s')
                  end in
                match span_digits s'' with
                | ([], _) => None
                | (d, r) => Some (sign ++ i ++ f ++ [c] ++ es ++ d, r)
                end
              else Some (sign ++ i ++ f, s3)
          | [] => Some (sign ++ i ++ f, [])
          end
      end
  end.

(** [isValidNumber] *)
Definition isValidNumber (s : str) : bool :=
  match scan_number s with Some (_, []) => true | _ => false end.

(** [floatEncoder] *)
Definition encode_float (f : f64) : res str :=
  if is_inf f || is_nan f then Err (EMsg (lit "json: unsupported value") []) else
  let a := SFabs f in
  let small := match a with S754_zero _ => false | _ => SFltb a (dec_to_f64 false 1 (-6)) end in
  let big := SFleb (dec_to_f64 false 1 21) a in
  if small || big then
    let b := FormatFloat_e f in
    let n := length b in
    if (4 <=? n)%nat && bool_decide (take 3 (drop (n - 4) b) = lit "e-0")
    then Ok (take (n - 2) b ++ drop (n - 1) b)
    else Ok b
  else Ok (FormatFloat_f f).

Fixpoint concat_sep (sep : str) (l : list str) : str :=
  match l with
  | [] => []
  | [w] => w
  | w :: l' => w ++ sep ++ concat_sep sep l'
  end.

Definition encode_array (l : list str) : str := lit "[" ++ concat_sep (lit ",") l ++ lit "]".
Definition encode_object (l : list (str * str)) : str :=
  lit "{" ++ concat_sep (lit ",") ((λ '(k, v), encode_string k ++ lit ":" ++ v) <$> l) ++ lit "}".

Fixpoint encode_value (v : value) : res str :=
  match v with
  | VNil => Ok (lit "null")
  | VBool b => Ok (if b then lit "true" else lit "false")
  | VString s => Ok (encode_string s)
  | VFloat f => encode_float f
  | VNumber s =>
      match s with
      | [] => Ok (lit "0")
      | _ => if isValidNumber s then Ok s
             else Err (EMsg (lit "json: invalid number literal") s)
      end
  | VStrings l => Ok (encode_array (encode_string <$> l))
  | VList l => ws <-? mapM_res encode_value l; Ok (encode_array ws)
  | VMap m =>
      ws <-? mapM_res (λ '(k, e), w <-? encode_value e; Ok (k, w)) m; Ok (encode_object ws)
  end.

(** [json.Marshal(item)] *)
Definition Marshal (item : Item) : res str :=
  match item with
  | None => Ok (lit "null")
  | Some m => encode_value (VMap m)
  end.

(** ** Parsing: the scanner behind json.Valid and json.Unmarshal *)

Inductive jv : Type :=
  | JNull
  | JBool (b : bool)
  | JNum (literal : str)
  | JStr (s : str)                          (* unquoted *)
  | JArr (l : list jv)
  | JObj (l : list (str * jv)).             (* members in source order *)

Definition is_ws (c : ascii) : bool :=
  bool_decide (c ∈ [" "%char; chr 9; chr 10; chr 13]).

Fixpoint skip_ws (s : str) : str :=
  match s with
  | c :: s' => if is_ws c then skip_ws s' else s
  | [] => []
  end.

Definition is_hex (c : ascii) : bool := is_digit c || is_hex_letter c.

(** [getu4], without the leading backslash and u. *)
Definition hex4 (s : str) : option (Z * str) :=
  match s with
  | a :: b :: c :: d :: s' =>
      if is_hex a && is_hex b && is_hex c && is_hex d
      then Some (((hex_val a * 16 + hex_val b) * 16 + hex_val c) * 16 + hex_val d, s')
      else None
  | _ => None
  end.

Definition is_surrogate (r : Z) : bool := (55296 <=? r) && (r <? 57344).

(** A backslash-u escape of value [r], followed by [s]: a well-formed surrogate
    pair is one rune, a lone surrogate is U+FFFD. *)
Definition u_escape (r : Z) (s : str) : str * str :=
  if negb (is_surrogate r) then (EncodeRune r, s) else
  match s with
  | "\"%char :: "u"%char :: s' =>
      match hex4 s' with
      | Some (r2, s'') =>
          if (r <? 56320) && (56320 <=? r2) && (r2 <? 57344)
          then (EncodeRune ((r - 55296) * 1024 + (r2 - 56320) + 65536), s'')
          else (EncodeRune RuneError, s)
      | None => (EncodeRune RuneError, s)
      end
  | _ => (EncodeRune RuneError, s)
  end.

Definition simple_escape (c : ascii) : option ascii :=
  if bool_decide (c ∈ [chr 34; "\"%char; "/"%char]) then Some c
  else if bool_decide (c = "b"%char) then Some (chr 8)
  else if bool_decide (c = "f"%char) then Some (chr 12)
  else if bool_decide (c = "n"%char) then Some (chr 10)
  else if bool_decide (c = "r"%char) then Some (chr 13)
  else if bool_decide (c = "t"%char) then Some (chr 9)
  else None.

(** The body of a string literal, after its opening quote: the unquoted string
    and what follows the closing quote. *)
Fixpoint unquote (fuel : nat) (s : str) : option (str * str) :=
  match fuel with
  | O => None
  | S fuel =>
      match s with
      | [] => None
      | c :: s' =>
          if bool_decide (c = chr 34) then Some ([], s')
          else if bool_decide (c = "\"%char) then
            match s' with
            | [] => None
            | d :: s'' =>
                if bool_decide (d = "u"%char) then
                  '(r, t) ← hex4 s''; let '(w, t) := u_escape r t in
                  '(u, rest) ← unquote fuel t; Some (w ++ u, rest)
                else
                  x ← simple_escape d; '(u, rest) ← unquote fuel s''; Some (x :: u, rest)
            end
          else if code c <? 32 then None
          else if is_ascii c then '(u, rest) ← unquote fuel s'; Some (c :: u, rest)
          else
            let '(r, w) := DecodeRune s in
            '(u, rest) ← unquote fuel (drop w s); Some (EncodeRune r ++ u, rest)
      end
  end.

Definition parse_string (s : str) : option (str * str) := unquote (S (length s)) s.

Definition maxNestingDepth : Z := 10000.

(** [depth] counts the open containers.  Every call consumes input or descends
    from one that did, so twice the length of the input is enough fuel. *)
Fixpoint parse_value (fuel : nat) (depth : Z) (s : str) : option (jv * str) :=
  match fuel with
  | O => None
  | S fuel =>
      match skip_ws s with
      | "{"%char :: s' =>
          if maxNestingDepth <=? depth then None else
          match skip_ws s' with
          | "}"%char :: rest => Some (JObj [], rest)
          | _ => '(l, rest) ← parse_members fuel (depth + 1) s'; Some (JObj l, rest)
          end
      | "["%char :: s' =>
          if maxNestingDepth <=? depth then None else
          match skip_ws s' with
          | "]"%char :: rest => Some (JArr [], rest)
          | _ => '(l, rest) ← parse_elems fuel (depth + 1) s'; Some (JArr l, rest)
          end
      | (c :: s') as t =>
          if bool_decide (c = chr 34) then '(x, rest) ← parse_string s'; Some (JStr x, rest)
          else if HasPrefix t (lit "null") then Some (JNull, drop 4 t)
          else if HasPrefix t (lit "true") then Some (JBool true, drop 4 t)
          else if HasPrefix t (lit "false") then Some (JBool false, drop 5 t)
          else '(n, rest) ← scan_number t; Some (JNum n, rest)
      | [] => None
      end
  end
with parse_members (fuel : nat) (depth : Z) (s : str) : option (list (str * jv) * str) :=
  match fuel with
  | O => None
  | S fuel =>
      match skip_ws s with
      | c :: s' =>
          if negb (bool_decide (c = chr 34)) then None else
          '(k, s1) ← parse_string s';
          match skip_ws s1 with
          | ":"%char :: s2 =>
              '(v, s3) ← parse_value fuel depth s2;
              match skip_ws s3 with
              | "}"%char :: rest => Some ([(k, v)], rest)
              | ","%char :: s4 => '(l, rest) ← parse_members fuel depth s4; Some ((k, v) :: l, rest)
              | _ => None
              end
          | _ => None
          end
      | [] => None
      end
  end
with parse_elems (fuel : nat) (depth : Z) (s : str) : option (list jv * str) :=
  match fuel with
  | O => None
  | S fuel =>
      '(v, s1) ← parse_value fuel depth s;
      match skip_ws s1 with
      | "]"%char :: rest => Some ([v], rest)
      | ","%char :: s2 => '(l, rest) ← parse_elems fuel depth s2; Some (v :: l, rest)
      | _ => None
      end
  end.

Definition parse (s : str) : option jv :=
  match parse_value (2 * length s + 2) 0 s with
  | Some (v, rest) => match skip_ws rest with [] => Some v | _ => None end
  | None => None
  end.

(** [json.Valid] *)
Definition Valid (s : str) : bool := match parse s with Some _ => true | None => false end.

(** Decoding into [any]: the last of two equal keys wins; a number outside
    float64's range is an error. *)
Fixpoint to_value (j : jv) : res value :=
  match j with
  | JNull => Ok VNil
  | JBool b => Ok (VBool b)
  | JStr s => Ok (VString s)
  | JNum n => res_map VFloat (res_wrap (lit "json: cannot unmarshal number") n (ParseFloat n))
  | JArr l => vs <-? mapM_res to_value l; Ok (VList vs)
  | JObj l =>
      es <-? mapM_res (λ '(k, e), v <-? to_value e; Ok (k, v)) l;
      Ok (VMap (foldl (λ m '(k, v), map_set k v m) [] es))
  end.

(** [var item Item; json.Unmarshal(data, &item)]: JSON null leaves the nil map. *)
Definition Unmarshal (data : str) : res Item :=
  match parse data with
  | None => Err (EMsg (lit "invalid JSON") data)
  | Some JNull => Ok None
  | Some (JObj l) =>
      v <-? to_value (JObj l); Ok (match v with VMap m => Some m | _ => None end)
  | Some _ => Err (EMsg (lit "json: cannot unmarshal into Go value of type main.Item") data)
  end.

(** Strings below write a double quote as a single one. *)
Definition dq (s : String.string) : str := (λ c, if bool_decide (c = "'"%char) then chr 34 else c) <$> lit s.

Definition remarshal (s : String.string) : res str := item <-? Unmarshal (dq s); Marshal item.

Example remarshal_sorts :
  remarshal " { 'b' : [1, 2.50, -0, 1e21, 1E-7], 'a' : {'x':null,'t':true} , 'b2':'q\'<\u00e9\ud83d\ude00\ud800/' } "
  = Ok (dq "{'a':{'t':true,'x':null},'b':[1,2.5,-0,1e+21,1e-7],'b2':'q\'\u003c" ++ EncodeRune 233 ++ EncodeRune 128512 ++ EncodeRune RuneError ++ dq "/'}").
Proof. vm_compute. reflexivity. Qed.
Example remarshal_last_wins : remarshal "{'a':1,'a':2}" = Ok (dq "{'a':2}").
Proof. vm_compute. reflexivity. Qed.
Example valid_rejects :
  Valid <$> (dq <$> ["{'a':1,}"; "[01]"; "1 2"; "{'a'}"; "'\x'"; "tru"; "1."]%string)
  = [false; false; false; false; false; false; false].
Proof. vm_compute. reflexivity. Qed.
Example unmarshal_null : Unmarshal (lit "null") = Ok None.
Proof. vm_compute. reflexivity. Qed.
Example unmarshal_array : is_ok (Unmarshal (lit "[1]")) = false.
Proof. vm_compute. reflexivity. Qed.
