(* ===== verification/JsonSpec.v ===== *)
(** * JSON is read back as it was written

    [json.Marshal] of an item and [json.Unmarshal] into an item are inverse, on
    the items that an update stores. *)

From S2P Require Import Prelude GoStrings Utf8 Codec Float64 Json.

(** ** String literals *)

(** What [unquote] does with an escape of one letter and with a hex escape. *)
Lemma unquote_letter fuel d x t : d ≠ "u"%char → simple_escape d = Some x →
  unquote (S fuel) ("\"%char :: d :: t) = ('(u, rest) ← unquote fuel t; Some (x :: u, rest)).
Proof.
  intros Hd Hx. cbn [unquote]. rewrite (bool_decide_false ("\"%char = chr 34)), (bool_decide_true ("\"%char = _)) by done.
  by rewrite bool_decide_false, Hx.
Qed.

Lemma unquote_hex fuel s r t : hex4 s = Some (r, t) → is_surrogate r = false →
  unquote (S fuel) ("\"%char :: "u"%char :: s) = ('(u, rest) ← unquote fuel t; Some (EncodeRune r ++ u, rest)).
Proof.
  intros Hh Hr. cbn [unquote]. rewrite (bool_decide_false ("\"%char = chr 34)), !bool_decide_true, Hh by done.
  cbn. unfold u_escape. by rewrite Hr.
Qed.

Lemma unquote_plain fuel c t : c ≠ chr 34 → c ≠ "\"%char → 32 ≤ code c → is_ascii c = true →
  unquote (S fuel) (c :: t) = ('(u, rest) ← unquote fuel t; Some (c :: u, rest)).
Proof.
  intros H1 H2 H3 H4. cbn [unquote]. by rewrite !bool_decide_false, (proj2 (Z.ltb_ge _ _)), H4.
Qed.

Lemma hex4_byte c t : is_ascii c = true →
  hex4 ("0"%char :: "0"%char :: hex_digit (code c / 16) :: hex_digit (code c mod 16) :: t) = Some (code c, t).
Proof. intros Hc. destruct c as [[] [] [] [] [] [] [] []]; try discriminate Hc; vm_compute; reflexivity. Qed.

(** One escaped ASCII byte is read back. *)
Lemma unquote_escape_byte c fuel t : is_ascii c = true →
  unquote (S fuel) (escape_byte c ++ t) = ('(u, rest) ← unquote fuel t; Some (c :: u, rest)).
Proof.
  intros Hc. unfold escape_byte. destruct (html_safe c) eqn:Hs.
  { unfold html_safe in Hs. apply andb_true_iff in Hs as [[H1%Z.leb_le _]%andb_true_iff H2%negb_true_iff].
    apply bool_decide_eq_false in H2. apply unquote_plain; [intros ->; apply H2; set_solver..|done|done]. }
  case_bool_decide as Hq.
  { apply unquote_letter; [by intros ->; destruct Hq|]. unfold simple_escape. rewrite bool_decide_true; [done|set_solver]. }
  assert (∀ d x, code c = code x → d ≠ "u"%char → simple_escape d = Some x →
    unquote (S fuel) ("\"%char :: d :: t) = ('(u, rest) ← unquote fuel t; Some (c :: u, rest))) as Hl.
  { intros d x ->%code_inj. apply unquote_letter. }
  destruct (Z.eqb_spec (code c) 8); [by apply (Hl "b"%char (chr 8))|].
  destruct (Z.eqb_spec (code c) 12); [by apply (Hl "f"%char (chr 12))|].
  destruct (Z.eqb_spec (code c) 10); [by apply (Hl "n"%char (chr 10))|].
  destruct (Z.eqb_spec (code c) 13); [by apply (Hl "r"%char (chr 13))|].
  destruct (Z.eqb_spec (code c) 9); [by apply (Hl "t"%char (chr 9))|].
  change ((lit "\u00" ++ [hex_digit (code c / 16); hex_digit (code c mod 16)]) ++ t)
    with ("\"%char :: "u"%char :: "0"%char :: "0"%char :: hex_digit (code c / 16) :: hex_digit (code c mod 16) :: t).
  rewrite (unquote_hex fuel _ (code c) t (hex4_byte c t Hc)), ascii_EncodeRune; [done|done|].
  unfold is_surrogate. unfold is_ascii in Hc. apply Z.ltb_lt in Hc. by rewrite (proj2 (Z.leb_gt _ _)) by lia.
Qed.

(** A byte outside ASCII opens no escape and ends no literal. *)
Lemma unquote_rune fuel s r w c s' : s = c :: s' → is_ascii c = false → DecodeRune s = (r, w) →
  unquote (S fuel) s = ('(u, rest) ← unquote fuel (drop w s); Some (EncodeRune r ++ u, rest)).
Proof.
  intros -> Hc Hd. cbn [unquote].
  assert (c ≠ chr 34 ∧ c ≠ "\"%char ∧ code c <? 32 = false) as (H1 & H2 & H3).
  { revert Hc. unfold is_ascii. intros Hc%Z.ltb_ge. split_and!.
    - intros ->. vm_compute in Hc. congruence.
    - intros ->. vm_compute in Hc. congruence.
    - apply Z.ltb_ge. lia. }
  by rewrite !bool_decide_false, H3, Hc, Hd.
Qed.

Lemma EncodeRune_head r : scalar r → 128 ≤ r → ∃ c w, EncodeRune r = c :: w ∧ w ≠ [] ∧ is_ascii c = false.
Proof.
  intros Hr Hge. unfold EncodeRune. cbv zeta. rewrite (proj2 (Z.ltb_ge r 128)), andb_false_r by lia.
  unfold scalar in Hr. destruct (_ && _) eqn:E.
  - apply andb_true_iff in E as [_ E%Z.ltb_lt]. eexists _, _. split; [reflexivity|]. split; [done|].
    rewrite is_ascii_chr by (Z.to_euclidean_division_equations; lia). apply Z.ltb_ge. Z.to_euclidean_division_equations; lia.
  - match goal with |- context [if ?b then RuneError else r] => set (r' := if b then RuneError else r) end.
    assert (2048 ≤ r' ≤ 1114111) as Hr'.
    { unfold r'. apply andb_false_iff in E as [E%Z.leb_gt|E%Z.ltb_ge]; [lia|]. destruct (_ || _) eqn:E'; [unfold RuneError; lia|].
      apply orb_false_iff in E' as [[E1%Z.ltb_ge E2%Z.ltb_ge]%orb_false_iff _]. lia. }
    destruct (Z.ltb_spec r' 65536); (eexists _, _; split; [reflexivity|]; split; [done|]);
      (rewrite is_ascii_chr by (Z.to_euclidean_division_equations; lia)); apply Z.ltb_ge; Z.to_euclidean_division_equations; lia.
Qed.

(** One escaped rune is read back. *)
Lemma unquote_escape_rune r fuel t : scalar r →
  unquote (S fuel) (escape_rune (r, EncodeRune r) ++ t) = ('(u, rest) ← unquote fuel t; Some (EncodeRune r ++ u, rest)).
Proof.
  intros Hr. destruct (decide (r < 128)) as [Hlt|Hge].
  - assert (0 ≤ r) as H0 by (unfold scalar in Hr; lia).
    assert (is_ascii (chr r) = true) as Ha by (rewrite is_ascii_chr by lia; by apply Z.ltb_lt).
    replace r with (code (chr r)) by (apply code_chr_small; lia). rewrite ascii_EncodeRune by done.
    cbn [escape_rune]. rewrite Ha. by apply unquote_escape_byte.
  - destruct (EncodeRune_head r Hr) as (c & w & He & Hne & Hc); [lia|].
    assert (escape_rune (r, EncodeRune r) = if (r =? 8232) || (r =? 8233)
      then lit "\u202" ++ [hex_digit (r mod 16)] else EncodeRune r) as ->.
    { rewrite He. destruct w; [done|]. reflexivity. }
    destruct (Z.eqb_spec r 8232) as [->|]; [by apply (unquote_hex fuel _ 8232 t)|].
    destruct (Z.eqb_spec r 8233) as [->|]; [by apply (unquote_hex fuel _ 8233 t)|]. cbn [orb].
    rewrite (unquote_rune fuel _ r (length (EncodeRune r)) c (w ++ t)).
    + by rewrite drop_app_length.
    + by rewrite He.
    + done.
    + by apply DecodeRune_EncodeRune.
Qed.

Lemma unquote_escape rs : ∀ fuel rest, Forall scalar rs → (length rs < fuel)%nat →
  unquote fuel (flat_map escape_rune ((λ r, (r, EncodeRune r)) <$> rs) ++ chr 34 :: rest) = Some (utf8 rs, rest).
Proof.
  induction rs as [|r rs IH]; intros [|fuel] rest Hrs Hf; try (cbn in Hf; lia); [done|].
  apply Forall_cons in Hrs as [Hr Hrs]. cbn [fmap list_fmap flat_map]. rewrite <- app_assoc, unquote_escape_rune by done.
  cbn in Hf. rewrite IH by (done || lia). done.
Qed.

(** Escapes are not empty. *)
Lemma escape_length rs : Forall scalar rs →
  (length rs ≤ length (flat_map escape_rune ((λ r, (r, EncodeRune r)) <$> rs)))%nat.
Proof.
  induction 1 as [|r rs Hr _ IH]; [done|]. cbn [fmap list_fmap flat_map length]. rewrite length_app.
  assert (escape_rune (r, EncodeRune r) ≠ []) as Hne.
  { intros E. pose proof (unquote_escape_rune r 0 [] Hr) as H. rewrite E in H. cbn in H.
    pose proof (unquote_escape_rune r 1 [chr 34] Hr) as H'. rewrite E in H'. cbn in H'.
    injection H' as H'. symmetry in H'. apply app_nil in H' as [H' _]. by apply EncodeRune_nonempty in H'. }
  assert (0 < length (escape_rune (r, EncodeRune r)))%nat by (destruct (escape_rune _); [done|cbn; lia]). lia.
Qed.

Lemma encode_string_app s rest : encode_string s ++ rest = chr 34 :: escape s ++ chr 34 :: rest.
Proof. unfold encode_string, quote. by rewrite <- !app_assoc. Qed.

Lemma parse_escape s rest : valid s → parse_string (escape s ++ chr 34 :: rest) = Some (s, rest).
Proof.
  intros (rs & Hrs & ->). unfold escape. rewrite runes_utf8 by done. apply unquote_escape; [done|].
  rewrite length_app. pose proof (escape_length rs Hrs). lia.
Qed.

(** A string that is read is valid. *)
Lemma unquote_valid fuel : ∀ s u rest, unquote fuel s = Some (u, rest) → valid u.
Proof.
  induction fuel as [|fuel IH]; intros s u rest; [done|]. cbn [unquote]. destruct s as [|c s]; [done|].
  case_bool_decide; [intros [= <- <-]; apply valid_nil|].
  case_bool_decide.
  - destruct s as [|d s]; [done|]. case_bool_decide.
    + destruct (hex4 s) as [[r t]|]; cbn; [|done]. destruct (u_escape r t) as [w t'] eqn:E.
      destruct (unquote fuel t') as [[u' rest']|] eqn:Eu; cbn; [|done]. intros [= <- <-].
      apply valid_app; [|by eapply IH]. unfold u_escape in E. repeat case_match; simplify_eq; apply EncodeRune_valid.
    + destruct (simple_escape d) as [x|] eqn:Ex; cbn; [|done].
      destruct (unquote fuel s) as [[u' rest']|] eqn:Eu; cbn; [|done]. intros [= <- <-].
      apply (valid_app [x]); [|by eapply IH]. apply valid_ascii. unfold simple_escape in Ex.
      repeat (case_bool_decide; [simplify_eq; try reflexivity|]); [set_solver|done].
  - destruct (code c <? 32); [done|]. destruct (is_ascii c) eqn:Ec.
    + destruct (unquote fuel s) as [[u' rest']|] eqn:Eu; cbn; [|done]. intros [= <- <-].
      apply (valid_app [c]); [by apply valid_ascii|by eapply IH].
    + destruct (DecodeRune (c :: s)) as [r w]. destruct (unquote fuel (drop w (c :: s))) as [[u' rest']|] eqn:Eu; cbn; [|done].
      intros [= <- <-]. apply valid_app; [apply EncodeRune_valid|by eapply IH].
Qed.

(** ** Numbers *)

(** The bytes that may follow a value. *)
Definition stops (rest : str) : bool :=
  match rest with [] => true | c :: _ => bool_decide (c ∈ [","; "]"; "}"]%char) end.

Lemma span_digits_cons c s : span_digits (c :: s) =
  if is_digit c then let '(a, b) := span_digits s in (c :: a, b) else ([], c :: s).
Proof. reflexivity. Qed.

Lemma stops_head rest : stops rest = true → rest = [] ∨ ∃ c t, rest = c :: t ∧ (c = ","%char ∨ c = "]"%char ∨ c = "}"%char).
Proof.
  destruct rest as [|c t]; [by left|]. cbn. intros H%bool_decide_eq_true. right. exists c, t. split; [done|]. set_solver.
Qed.

Lemma span_digits_app s : ∀ d r rest, span_digits s = (d, r) → stops rest = true → span_digits (s ++ rest) = (d, r ++ rest).
Proof.
  induction s as [|c s IH]; intros d r rest H Hs.
  - injection H as <- <-. apply stops_head in Hs as [->|(c & t & -> & [->|[->| ->]])]; reflexivity.
  - cbn [app]. rewrite span_digits_cons in *. destruct (is_digit c); [|by injection H as <- <-].
    destruct (span_digits s) as [a b] eqn:E. injection H as <- <-. by rewrite (IH a b).
Qed.

Lemma span_digits_split s : ∀ d r, span_digits s = (d, r) → s = d ++ r.
Proof.
  induction s as [|c s IH]; intros d r; [by intros [= <- <-]|]. rewrite span_digits_cons.
  destruct (is_digit c); [|by intros [= <- <-]]. destruct (span_digits s) as [a b] eqn:E. intros [= <- <-]. cbn. by rewrite (IH a b).
Qed.

(** The four parts of the grammar. *)
Definition scan_sign (s : str) : str * str := match s with "-"%char :: s' => (lit "-", s') | _ => ([], s) end.
Definition scan_digits (s : str) : option (str * str) := match span_digits s with ([], _) => None | p => Some p end.
Definition scan_int (s : str) : option (str * str) :=
  match s with "0"%char :: s' => Some (lit "0", s') | _ => scan_digits s end.
Definition scan_frac (s : str) : option (str * str) :=
  match s with "."%char :: s' => '(d, r) ← scan_digits s'; Some (lit "." ++ d, r) | _ => Some ([], s) end.
Definition scan_exp (s : str) : option (str * str) :=
  match s with
  | c :: s' =>
      if bool_decide (c = "e"%char ∨ c = "E"%char) then
        let '(es, s'') := match s' with
                          | d :: t => if bool_decide (d = "+"%char ∨ d = "-"%char) then ([d], t) else ([], s')
                          | [] => ([], s')
                          end in
        '(d, r) ← scan_digits s''; Some (c :: es ++ d, r)
      else Some ([], s)
  | [] => Some ([], [])
  end.

Lemma scan_number_parts s : scan_number s =
  let '(sign, s1) := scan_sign s in
  '(i, s2) ← scan_int s1; '(f, s3) ← scan_frac s2; '(e, r) ← scan_exp s3; Some (sign ++ i ++ f ++ e, r).
Proof.
  unfold scan_number. fold (scan_sign s). destruct (scan_sign s) as [sign s1]. fold (scan_digits s1). fold (scan_int s1).
  destruct (scan_int s1) as [[i s2]|]; [|done]. cbn [option_bind mbind].
  assert (match s2 with "."%char :: s' => match span_digits s' with ([], _) => None | (d, r) => Some (lit "." ++ d, r) end
          | _ => Some ([], s2) end = scan_frac s2) as ->.
  { unfold scan_frac, scan_digits. destruct s2 as [|[[] [] [] [] [] [] [] []] s2]; try reflexivity.
    by destruct (span_digits s2) as [[|]]. }
  destruct (scan_frac s2) as [[f s3]|]; [|done]. cbn. unfold scan_exp, scan_digits.
  destruct s3 as [|c s3]; [cbn; by rewrite app_nil_r|]. case_bool_decide; [|cbn; by rewrite app_nil_r].
  destruct (match s3 with [] => _ | _ => _ end) as [es s4]. by destruct (span_digits s4) as [[|]].
Qed.

Lemma scan_digits_app s d r rest : scan_digits s = Some (d, r) → stops rest = true →
  scan_digits (s ++ rest) = Some (d, r ++ rest) ∧ s = d ++ r.
Proof.
  unfold scan_digits. destruct (span_digits s) as [a b] eqn:E. intros H Hs.
  rewrite (span_digits_app s a b rest E Hs). split; [by destruct a; simplify_eq|].
  rewrite (span_digits_split s a b E). by destruct a; simplify_eq.
Qed.

Lemma scan_int_app s i r rest : scan_int s = Some (i, r) → stops rest = true →
  scan_int (s ++ rest) = Some (i, r ++ rest) ∧ s = i ++ r.
Proof.
  intros H Hs. destruct s as [|c s]; [done|].
  destruct (decide (c = "0"%char)) as [->|Hc]; [by injection H as <- <-|].
  assert (∀ t, scan_int (c :: t) = scan_digits (c :: t)) as E.
  { intros t. unfold scan_int. by destruct c as [[] [] [] [] [] [] [] []]. }
  rewrite E in H. cbn [app]. rewrite E. by apply (scan_digits_app (c :: s)).
Qed.

Lemma scan_frac_other c t : c ≠ "."%char → scan_frac (c :: t) = Some ([], c :: t).
Proof. intros Hc. unfold scan_frac. by destruct c as [[] [] [] [] [] [] [] []]. Qed.

Lemma scan_frac_stops rest : stops rest = true → scan_frac rest = Some ([], rest).
Proof. intros [->|(c & t & -> & [->|[->| ->]])]%stops_head; reflexivity. Qed.

Lemma scan_frac_app s x r rest : scan_frac s = Some (x, r) → stops rest = true →
  scan_frac (s ++ rest) = Some (x, r ++ rest) ∧ s = x ++ r.
Proof.
  intros H Hs. destruct s as [|c s]; [injection H as <- <-; split; [by apply scan_frac_stops|done]|].
  destruct (decide (c = "."%char)) as [->|Hc].
  - cbn [app]. unfold scan_frac in *. destruct (scan_digits s) as [[d r']|] eqn:E; [|done]. cbn in H. injection H as <- <-.
    destruct (scan_digits_app s d r' rest E Hs) as [-> ->]. done.
  - rewrite scan_frac_other in H by done. injection H as <- <-. cbn [app]. by rewrite scan_frac_other.
Qed.

Lemma scan_exp_app s x r rest : scan_exp s = Some (x, r) → stops rest = true →
  scan_exp (s ++ rest) = Some (x, r ++ rest) ∧ s = x ++ r.
Proof.
  intros H Hs. destruct s as [|c s].
  { injection H as <- <-. split; [|done]. apply stops_head in Hs as [->|(c & t & -> & [->|[->| ->]])]; reflexivity. }
  cbn [app]. unfold scan_exp in *. case_bool_decide as Hc; [|by injection H as <- <-].
  destruct s as [|d t]; [done|]. cbn [app]. case_bool_decide.
  - destruct (scan_digits t) as [[ds r']|] eqn:E; [|done]. cbn in H. injection H as <- <-.
    destruct (scan_digits_app t ds r' rest E Hs) as [-> ->]. done.
  - destruct (scan_digits (d :: t)) as [[ds r']|] eqn:E; [|done]. cbn in H. injection H as <- <-.
    destruct (scan_digits_app (d :: t) ds r' rest E Hs) as [E1 E2]. cbn [app] in E1. rewrite E1. cbn. by rewrite E2.
Qed.

Lemma scan_number_app s n r rest : scan_number s = Some (n, r) → stops rest = true →
  scan_number (s ++ rest) = Some (n, r ++ rest) ∧ s = n ++ r.
Proof.
  rewrite !scan_number_parts. intros H Hs.
  assert (scan_sign (s ++ rest) = ((scan_sign s).1, (scan_sign s).2 ++ rest) ∧ s = (scan_sign s).1 ++ (scan_sign s).2) as [-> E0].
  { destruct s as [|c s]; [split; [|done]; by apply stops_head in Hs as [->|(c & t & -> & [->|[->| ->]])]|].
    unfold scan_sign. by destruct c as [[] [] [] [] [] [] [] []]. }
  destruct (scan_sign s) as [sign s1]. cbn [fst snd] in E0 |- *. subst s.
  destruct (scan_int s1) as [[i s2]|] eqn:E1; [|done]. destruct (scan_int_app _ _ _ rest E1 Hs) as [-> ->].
  cbn [option_bind mbind] in *.
  destruct (scan_frac s2) as [[f s3]|] eqn:E2; [|done]. destruct (scan_frac_app _ _ _ rest E2 Hs) as [-> ->].
  cbn [option_bind mbind] in *.
  destruct (scan_exp s3) as [[e s4]|] eqn:E3; [|done]. destruct (scan_exp_app _ _ _ rest E3 Hs) as [-> ->].
  cbn in *. injection H as <- <-. by rewrite <- !app_assoc.
Qed.

Lemma scan_number_valid w rest : isValidNumber w = true → stops rest = true → scan_number (w ++ rest) = Some (w, rest).
Proof.
  unfold isValidNumber. destruct (scan_number w) as [[n [|]]|] eqn:E; try done. intros _ Hs.
  destruct (scan_number_app _ _ _ rest E Hs) as [-> H]. by rewrite app_nil_r in H; subst.
Qed.

Lemma isValidNumber_head w : isValidNumber w = true → ∃ c t, w = c :: t ∧ (c = "-"%char ∨ is_digit c = true).
Proof.
  unfold isValidNumber. destruct w as [|c t]; [done|]. rewrite scan_number_parts. intros H. exists c, t. split; [done|].
  destruct (decide (c = "-"%char)) as [|Hc]; [by left|]. right.
  assert (scan_sign (c :: t) = ([], c :: t)) as E by (unfold scan_sign; by destruct c as [[] [] [] [] [] [] [] []]).
  rewrite E in H. destruct (decide (c = "0"%char)) as [->|Hc0]; [done|].
  assert (scan_int (c :: t) = scan_digits (c :: t)) as Ei by (unfold scan_int; by destruct c as [[] [] [] [] [] [] [] []]).
  rewrite Ei in H. unfold scan_digits in H. rewrite span_digits_cons in H. by destruct (is_digit c).
Qed.

(** The head of a number: a digit, with or without a minus. *)
Definition numeral (w : str) : Prop :=
  ∃ c t, (w = c :: t ∨ w = "-"%char :: c :: t) ∧ is_digit c = true.

Lemma scan_digits_numeral s d r : scan_digits s = Some (d, r) → ∃ c t, d = c :: t ∧ is_digit c = true.
Proof.
  unfold scan_digits. destruct s as [|c s]; [done|]. rewrite span_digits_cons.
  destruct (is_digit c) eqn:Hc; [|done]. destruct (span_digits s) as [a b]. intros [= <- _]. eauto.
Qed.

Lemma scan_number_numeral s w r : scan_number s = Some (w, r) → numeral w.
Proof.
  rewrite scan_number_parts. destruct (scan_sign s) as [sign s1] eqn:Es.
  destruct (scan_int s1) as [[i s2]|] eqn:Ei; [|done].
  assert (∃ c t, i = c :: t ∧ is_digit c = true) as (c & t & -> & Hc).
  { unfold scan_int in Ei. destruct s1 as [|[[] [] [] [] [] [] [] []] s1]; try by apply scan_digits_numeral in Ei.
    injection Ei as <- _. by exists "0"%char, []. }
  assert (∀ x, numeral (sign ++ (c :: t) ++ x)) as Hn.
  { intros x. exists c, (t ++ x). split; [|done]. unfold scan_sign in Es.
    destruct s as [|[[] [] [] [] [] [] [] []] s]; injection Es as <- _; cbn; auto. }
  cbn [mbind option_bind]. destruct (scan_frac s2) as [[f s3]|]; [|done]. cbn [mbind option_bind].
  destruct (scan_exp s3) as [[e s4]|]; [|done]. cbn [mbind option_bind]. intros [= <- _]. rewrite <- ?app_assoc. apply Hn.
Qed.

(** ** Induction on values *)

Section Induction.
Variable P : value → Prop.
Hypothesis (Hnil : P VNil) (Hbool : ∀ b, P (VBool b)) (Hstr : ∀ s, P (VString s)) (Hfl : ∀ f, P (VFloat f))
  (Hnum : ∀ s, P (VNumber s)) (Hss : ∀ l, P (VStrings l))
  (Hlist : ∀ l, Forall P l → P (VList l)) (Hmap : ∀ m, Forall (λ kv, P kv.2) m → P (VMap m)).

Fixpoint value_nested_ind (v : value) : P v :=
  match v with
  | VNil => Hnil
  | VBool b => Hbool b
  | VString s => Hstr s
  | VFloat f => Hfl f
  | VNumber s => Hnum s
  | VStrings l => Hss l
  | VList l => Hlist l ((fix go l := match l return Forall P l with
                                     | [] => Forall_nil_2 _
                                     | x :: l' => Forall_cons_2 _ _ _ (value_nested_ind x) (go l')
                                     end) l)
  | VMap m => Hmap m ((fix go m := match m return Forall (λ kv, P kv.2) m with
                                   | [] => Forall_nil_2 _
                                   | kv :: m' => Forall_cons_2 _ _ _ (value_nested_ind kv.2) (go m')
                                   end) m)
  end.
End Induction.

(** ** Maps *)

Lemma map_set_elem {A} k (v : A) m kv : kv ∈ map_set k v m → kv = (k, v) ∨ kv ∈ m.
Proof.
  induction m as [|[k0 v0] m IH]; cbn [map_set]; [set_solver|].
  case_bool_decide; [set_solver|]. destruct (str_leb k k0); set_solver.
Qed.

Lemma fold_set_elem {A} (l : list (str * A)) kv : ∀ b, kv ∈ foldl (λ m '(k, x), map_set k x m) b l → kv ∈ b ∨ kv ∈ l.
Proof.
  induction l as [|[k x] l IH]; intros b; cbn [foldl]; [auto|]. intros [H|H]%IH; [|set_solver].
  apply map_set_elem in H as [->|H]; set_solver.
Qed.


(** Keys in strictly increasing order. *)
Definition before (k k' : str) : Prop := str_le k k' ∧ k ≠ k'.
Definition sorted {A} (m : list (str * A)) : Prop := StronglySorted before m.*1.

Lemma before_not_le k k' : before k k' → str_leb k' k = false.
Proof.
  intros [H Hne]. destruct (str_leb k' k) eqn:E; [|done]. destruct Hne. by apply (anti_symm str_le).
Qed.

Lemma map_set_last {A} k (v : A) m : Forall (λ k', before k' k) m.*1 → map_set k v m = m ++ [(k, v)].
Proof.
  induction m as [|[k' v'] m IH]; cbn; [done|]. intros [Hk Hm]%Forall_cons.
  rewrite bool_decide_false by (intros ->; by destruct Hk). rewrite (before_not_le k' k Hk). f_equal. by apply IH.
Qed.

(** Inserting the entries of a sorted map in order gives the map. *)
Lemma fold_set_sorted {A} (l : list (str * A)) : ∀ acc, sorted (acc ++ l) → foldl (λ m '(k, v), map_set k v m) acc l = acc ++ l.
Proof.
  unfold sorted. induction l as [|[k v] l IH]; intros acc Hs; cbn [foldl]; [by rewrite app_nil_r|].
  assert (map_set k v acc = acc ++ [(k, v)]) as ->.
  { apply map_set_last. rewrite fmap_app in Hs. clear IH. induction acc as [|[k' v'] acc IH]; [constructor|].
    cbn in Hs. apply StronglySorted_inv in Hs as [Hs Hall]. constructor; [|by apply IH].
    rewrite Forall_app in Hall. destruct Hall as [_ Hall]. by apply Forall_inv in Hall. }
  rewrite IH; rewrite <- app_assoc; done.
Qed.

Lemma before_trans : Transitive before.
Proof.
  intros a b c [H1 N1] [H2 N2]. split; [by etrans|]. intros ->. apply N1. by apply (anti_symm str_le).
Qed.

Lemma map_set_sorted {A} k (v : A) m : sorted m → sorted (map_set k v m).
Proof.
  unfold sorted. induction m as [|[k' v'] m IH]; cbn [map_set]; intros Hs; [by repeat constructor|].
  cbn in Hs. apply StronglySorted_inv in Hs as [Hs Hall]. case_bool_decide as Hk.
  - subst. cbn. by constructor.
  - destruct (str_leb k k') eqn:E; cbn.
    + constructor; [by constructor|]. constructor; [done|]. eapply Forall_impl; [exact Hall|].
      intros k'' H. by apply (before_trans k k').
    + constructor; [by apply IH|]. apply Forall_forall. intros k'' ([k0 v0] & -> & Hin)%list_elem_of_fmap.
      apply map_set_elem in Hin as [[= -> ->]|Hin].
      * split; [|by intros ->]. destruct (total str_le k' k) as [H|H]; [done|]. unfold str_le in H. congruence.
      * rewrite Forall_forall in Hall. apply Hall, list_elem_of_fmap. by exists (k0, v0).
Qed.

Lemma fold_set_is_sorted {A} (l : list (str * A)) : ∀ b, sorted b → sorted (foldl (λ m '(k, v), map_set k v m) b l).
Proof. induction l as [|[k v] l IH]; intros b Hb; cbn [foldl]; [done|]. by apply IH, map_set_sorted. Qed.

(** ** Values *)

(** A float whose text is a number that reads back as the float. *)
Definition float_ok (f : f64) : Prop :=
  ∃ w, encode_float f = Ok w ∧ isValidNumber w = true ∧ ParseFloat w = Ok f.

(** What an item can hold that came from JSON, nested at most [n] deep. *)
Inductive plain : nat → value → Prop :=
  | plain_nil n : plain n VNil
  | plain_bool n b : plain n (VBool b)
  | plain_string n s : valid s → plain n (VString s)
  | plain_float n f : float_ok f → plain n (VFloat f)
  | plain_list n l : Forall (plain n) l → plain (S n) (VList l)
  | plain_map n m : Forall (λ kv, valid kv.1 ∧ plain n kv.2) m → sorted m → plain (S n) (VMap m).

(** A text that opens a value: no white space and no closing bracket. *)
Definition opens (w : str) : Prop := ∃ c t, w = c :: t ∧ is_ws c = false ∧ c ≠ "]"%char.

(** [w] is the text of [v], and wherever it stands it is read back. *)
Definition read_back (n : nat) (v : value) (w : str) (j : jv) : Prop :=
  opens w ∧ to_value j = Ok v
  ∧ ∀ fuel depth rest, (2 * length w ≤ fuel)%nat → depth + Z.of_nat n ≤ maxNestingDepth → stops rest = true →
      parse_value fuel depth (w ++ rest) = Some (j, rest).

Lemma skip_ws_stops rest : stops rest = true → skip_ws rest = rest.
Proof. intros [->|(c & t & -> & [->|[->| ->]])]%stops_head; reflexivity. Qed.

Lemma skip_ws_opens w rest : opens w → skip_ws (w ++ rest) = w ++ rest.
Proof. intros (c & t & -> & Hc & _). cbn. by rewrite Hc. Qed.

(** *** Scalars *)

Lemma read_null n : read_back n VNil (lit "null") JNull.
Proof.
  split; [by exists "n"%char, (lit "ull")|]. split; [done|].
  intros [|fuel] depth rest Hf _ _; [cbn in Hf; lia|]. reflexivity.
Qed.

Lemma read_bool n b : read_back n (VBool b) (if b then lit "true" else lit "false") (JBool b).
Proof.
  split; [destruct b; [by exists "t"%char, (lit "rue")|by exists "f"%char, (lit "alse")]|]. split; [done|].
  intros [|fuel] depth rest Hf _ _; [destruct b; cbn in Hf; lia|]. destruct b; reflexivity.
Qed.

Lemma read_string n s : valid s → read_back n (VString s) (encode_string s) (JStr s).
Proof.
  intros Hs. split; [by exists (chr 34), (escape s ++ quote)|]. split; [done|].
  intros [|fuel] depth rest Hf _ _; [cbn in Hf; lia|]. rewrite encode_string_app.
  change (parse_value (S fuel) depth (chr 34 :: escape s ++ chr 34 :: rest))
    with ('(x, rest') ← parse_string (escape s ++ chr 34 :: rest); Some (JStr x, rest')).
  by rewrite parse_escape.
Qed.

Lemma parse_number fuel depth c t rest n : c = "-"%char ∨ is_digit c = true → scan_number (c :: t) = Some (n, rest) →
  parse_value (S fuel) depth (c :: t) = Some (JNum n, rest).
Proof.
  intros Hc Hn. assert (parse_value (S fuel) depth (c :: t) = ('(n, rest) ← scan_number (c :: t); Some (JNum n, rest))) as ->.
  - destruct Hc as [->|Hc]; [reflexivity|]. destruct c as [[] [] [] [] [] [] [] []]; try discriminate Hc; reflexivity.
  - by rewrite Hn.
Qed.

Lemma read_float n f w : encode_float f = Ok w → isValidNumber w = true → ParseFloat w = Ok f →
  read_back n (VFloat f) w (JNum w).
Proof.
  intros He Hv Hp. destruct (isValidNumber_head w Hv) as (c & t & -> & Hc). split; [|split].
  - exists c, t. split; [done|]. destruct Hc as [->|Hc]; [done|].
    destruct c as [[] [] [] [] [] [] [] []]; try discriminate Hc; done.
  - cbn [to_value]. by rewrite Hp.
  - intros [|fuel] depth rest Hf _ Hs; [cbn in Hf; lia|]. cbn [app].
    apply (parse_number fuel depth c (t ++ rest) rest (c :: t) Hc). by apply (scan_number_valid (c :: t)).
Qed.

(** *** Lists *)

Lemma concat_sep_cons2 sep w1 w2 ws : concat_sep sep (w1 :: w2 :: ws) = w1 ++ sep ++ concat_sep sep (w2 :: ws).
Proof. reflexivity. Qed.

Lemma parse_elems_back n vs ws js : Forall3 (read_back n) vs ws js → vs ≠ [] →
  ∀ fuel depth rest, (2 * length (concat_sep (lit ",") ws) + 1 ≤ fuel)%nat → depth + Z.of_nat n ≤ maxNestingDepth →
  parse_elems fuel depth (concat_sep (lit ",") ws ++ "]"%char :: rest) = Some (js, rest).
Proof.
  induction 1 as [|v w j vs ws js (Ho & _ & Hp) Hall IH]; [done|]. intros _ [|fuel] depth rest Hf Hd; [lia|].
  destruct Hall as [|v2 w2 j2 vs ws js Hr2 Hall].
  - cbn [concat_sep]. cbn [concat_sep] in Hf. cbn [parse_elems]. rewrite Hp by (done || lia). reflexivity.
  - rewrite concat_sep_cons2 in *. rewrite !length_app in Hf. rewrite <- !app_assoc. cbn [parse_elems].
    rewrite Hp by (done || lia).
    change (lit "," ++ concat_sep (lit ",") (w2 :: ws) ++ "]"%char :: rest)
      with (","%char :: concat_sep (lit ",") (w2 :: ws) ++ "]"%char :: rest).
    change (length (lit ",")) with 1%nat in Hf.
    pose proof (IH ltac:(done) fuel depth rest ltac:(lia) Hd) as E.
    set (tail := concat_sep (lit ",") (w2 :: ws) ++ "]"%char :: rest) in *.
    cbn [mbind option_bind].
    assert (skip_ws (","%char :: tail) = ","%char :: tail) as -> by reflexivity. cbn iota. by rewrite E.
Qed.

Lemma opens_concat w ws : opens w → opens (concat_sep (lit ",") (w :: ws)).
Proof. intros (c & t & -> & Hc). destruct ws; [by exists c, t|]. eexists c, _. split; [reflexivity|done]. Qed.

Lemma parse_array fuel depth s : (maxNestingDepth <=? depth) = false → opens s →
  parse_value (S fuel) depth ("["%char :: s) = ('(l, rest) ← parse_elems fuel (depth + 1) s; Some (JArr l, rest)).
Proof.
  intros Hd (c & t & -> & Hws & Hc). cbn [parse_value]. change (skip_ws ("["%char :: c :: t)) with ("["%char :: c :: t).
  cbn iota. rewrite Hd. cbn [skip_ws]. rewrite Hws. by destruct c as [[] [] [] [] [] [] [] []].
Qed.

Lemma Forall3_encode n vs ws js : Forall3 (read_back n) vs ws js → mapM_res to_value js = Ok vs.
Proof.
  induction 1 as [|v w j vs ws js (_ & Ht & _) _ IH]; cbn; [done|]. by rewrite Ht; cbn; rewrite IH.
Qed.

Lemma read_list n vs ws js : Forall3 (read_back n) vs ws js →
  read_back (S n) (VList vs) (encode_array ws) (JArr js).
Proof.
  intros Hall. split; [by eexists "["%char, _|]. split.
  { cbn [to_value]. by rewrite (Forall3_encode n vs ws js). }
  intros [|fuel] depth rest Hf Hd Hs; [unfold encode_array in Hf; cbn in Hf; lia|].
  assert ((maxNestingDepth <=? depth) = false) as Hdepth by (apply Z.leb_gt; lia).
  destruct Hall as [|v w j vs ws js Hr Hall].
  - unfold encode_array. cbn [concat_sep app lit]. cbn [parse_value]. cbn. by rewrite Hdepth.
  - unfold encode_array in *. rewrite !length_app in Hf. cbn [length] in Hf.
    change ((lit "[" ++ concat_sep (lit ",") (w :: ws) ++ lit "]") ++ rest)
      with ("["%char :: (concat_sep (lit ",") (w :: ws) ++ lit "]") ++ rest).
    rewrite <- app_assoc. change (lit "]" ++ rest) with ("]"%char :: rest).
    destruct (opens_concat w ws (proj1 Hr)) as (c & t & Ec & Hc).
    rewrite parse_array; [|done|rewrite Ec; by exists c, (t ++ "]"%char :: rest)].
    rewrite (parse_elems_back n (v :: vs) (w :: ws) (j :: js)); [done|by constructor|done| |lia].
    change (length (lit "[")) with 1%nat in Hf. change (length (lit "]")) with 1%nat in Hf. lia.
Qed.

(** *** Maps *)

(** The text of one member. *)
Definition member (kw : str * str) : str := encode_string kw.1 ++ lit ":" ++ kw.2.

Definition member_back (n : nat) (kv : str * value) (kw : str * str) (kj : str * jv) : Prop :=
  kw.1 = kv.1 ∧ kj.1 = kv.1 ∧ valid kv.1 ∧ read_back n kv.2 kw.2 kj.2.

Lemma parse_member fuel depth n kv kw kj tail : member_back n kv kw kj →
  (2 * length (member kw) ≤ fuel)%nat → depth + Z.of_nat n ≤ maxNestingDepth → stops tail = true →
  parse_members (S fuel) depth (member kw ++ tail) =
  match skip_ws tail with
  | "}"%char :: rest => Some ([kj], rest)
  | ","%char :: s4 => '(l, rest) ← parse_members fuel depth s4; Some (kj :: l, rest)
  | _ => None
  end.
Proof.
  destruct kv as [k v], kw as [k' w], kj as [k'' j]. intros (E1 & E2 & Hv & _ & _ & Hp). cbn [fst snd] in *. subst k' k''.
  unfold member. cbn [fst snd]. intros Hf Hd Hs. rewrite <- !app_assoc, encode_string_app.
  rewrite !length_app in Hf. change (length (lit ":")) with 1%nat in Hf.
  pose proof (Hp fuel depth tail ltac:(lia) Hd Hs) as Ep. cbn [parse_members].
  set (tl := lit ":" ++ w ++ tail). change (skip_ws (chr 34 :: escape k ++ chr 34 :: tl)) with (chr 34 :: escape k ++ chr 34 :: tl).
  cbn iota. rewrite bool_decide_true by done. cbn [negb]. rewrite parse_escape by done. cbn [mbind option_bind].
  unfold tl. change (lit ":" ++ w ++ tail) with (":"%char :: (w ++ tail)).
  change (skip_ws (":"%char :: (w ++ tail))) with (":"%char :: (w ++ tail)). cbn iota. by rewrite Ep.
Qed.

Lemma parse_members_back n m ws js : Forall3 (member_back n) m ws js → m ≠ [] →
  ∀ fuel depth rest, (2 * length (concat_sep (lit ",") (member <$> ws)) + 1 ≤ fuel)%nat →
  depth + Z.of_nat n ≤ maxNestingDepth →
  parse_members fuel depth (concat_sep (lit ",") (member <$> ws) ++ "}"%char :: rest) = Some (js, rest).
Proof.
  induction 1 as [|kv kw kj m ws js Hm Hall IH]; [done|]. intros _ [|fuel] depth rest Hf Hd; [lia|].
  destruct Hall as [|kv2 kw2 kj2 m ws js Hm2 Hall].
  - cbn [fmap list_fmap concat_sep] in *. rewrite (parse_member fuel depth n kv kw kj) by (done || lia). reflexivity.
  - change (member <$> kw :: kw2 :: ws) with (member kw :: member kw2 :: (member <$> ws)) in *.
    change (member <$> kw2 :: ws) with (member kw2 :: (member <$> ws)) in IH.
    rewrite concat_sep_cons2 in *. rewrite !length_app in Hf. change (length (lit ",")) with 1%nat in Hf.
    rewrite <- !app_assoc. pose proof (IH ltac:(done) fuel depth rest ltac:(lia) Hd) as E.
    set (tail := concat_sep (lit ",") (member kw2 :: (member <$> ws)) ++ "}"%char :: rest) in *.
    rewrite (parse_member fuel depth n kv kw kj) by (done || lia).
    change (lit "," ++ tail) with (","%char :: tail).
    assert (skip_ws (","%char :: tail) = ","%char :: tail) as -> by reflexivity. cbn iota. by rewrite E.
Qed.

Lemma parse_object fuel depth c s : (maxNestingDepth <=? depth) = false → c = chr 34 →
  parse_value (S fuel) depth ("{"%char :: c :: s) = ('(l, rest) ← parse_members fuel (depth + 1) (c :: s); Some (JObj l, rest)).
Proof.
  intros Hd ->. cbn [parse_value]. change (skip_ws ("{"%char :: chr 34 :: s)) with ("{"%char :: chr 34 :: s).
  cbn iota. rewrite Hd. reflexivity.
Qed.

Lemma Forall3_members n m ws js : Forall3 (member_back n) m ws js →
  mapM_res (λ '(k, e), v <-? to_value e; Ok (k, v)) js = Ok m.
Proof.
  induction 1 as [|[k v] [k' w] [k'' j] m ws js (E1 & E2 & _ & _ & Ht & _) _ IH]; [done|]. cbn in *. subst k''.
  by rewrite Ht; cbn; rewrite IH.
Qed.

Lemma read_map n m ws js : Forall3 (member_back n) m ws js → sorted m →
  read_back (S n) (VMap m) (encode_object ws) (JObj js).
Proof.
  intros Hall Hm. split; [by eexists "{"%char, _|]. split.
  { cbn [to_value]. rewrite (Forall3_members n m ws js Hall). cbn. by rewrite (fold_set_sorted m []). }
  assert (encode_object ws = lit "{" ++ concat_sep (lit ",") (member <$> ws) ++ lit "}") as ->.
  { unfold encode_object. do 3 f_equal. apply list_fmap_ext. by intros i [k w] _. }
  intros [|fuel] depth rest Hf Hd Hs; [cbn in Hf; lia|].
  assert ((maxNestingDepth <=? depth) = false) as Hdepth by (apply Z.leb_gt; lia).
  destruct Hall as [|kv kw kj m ws js Hr Hall].
  - cbn [fmap list_fmap concat_sep app lit]. cbn [parse_value]. cbn. by rewrite Hdepth.
  - rewrite !length_app in Hf. change (length (lit "{")) with 1%nat in Hf. change (length (lit "}")) with 1%nat in Hf.
    rewrite <- !app_assoc. change (lit "}" ++ rest) with ("}"%char :: rest).
    pose proof (parse_members_back n (kv :: m) (kw :: ws) (kj :: js) ltac:(by constructor) ltac:(done) fuel (depth + 1) rest
      ltac:(lia) ltac:(lia)) as E.
    assert (∃ t, concat_sep (lit ",") (member <$> kw :: ws) ++ "}"%char :: rest = chr 34 :: t) as [t Et].
    { destruct ws; [by eexists|]. cbn [fmap list_fmap]. rewrite concat_sep_cons2. by eexists. }
    rewrite Et in *. change (lit "{" ++ chr 34 :: t) with ("{"%char :: chr 34 :: t). rewrite parse_object by done. by rewrite E.
Qed.

(** *** All values *)

Lemma Forall_choose {A B C} (P : A → B → C → Prop) l : Forall (λ x, ∃ y z, P x y z) l → ∃ ys zs, Forall3 P l ys zs.
Proof.
  induction 1 as [|x l (y & z & H) _ (ys & zs & IH)]; [by exists [], []; constructor|].
  exists (y :: ys), (z :: zs). by constructor.
Qed.

Lemma plain_back n : ∀ v, plain n v → ∃ w j, encode_value v = Ok w ∧ read_back n v w j.
Proof.
  induction n as [|n IH]; intros v Hv; inversion Hv as [| | |? ? (w & H1 & H2 & H3)|? l Hl|? m Hm Hs]; subst;
    try (eexists _, _; split; [reflexivity|]; by apply read_null || by apply read_bool || by apply read_string);
    try (exists w, (JNum w); split; [done|]; by apply read_float).
  - assert (∃ ws js, Forall3 (λ v w j, encode_value v = Ok w ∧ read_back n v w j) l ws js) as (ws & js & H3).
    { apply Forall_choose. eapply Forall_impl; [exact Hl|]. intros v. apply IH. }
    exists (encode_array ws), (JArr js). split.
    + cbn [encode_value]. assert (mapM_res encode_value l = Ok ws) as ->; [|done].
      clear -H3. induction H3 as [|v w j l ws js [H _] _ IH]; [done|]. cbn. by rewrite H; cbn; rewrite IH.
    + apply read_list. clear -H3. induction H3 as [|v w j l ws js [_ H] _ IH]; by constructor.
  - assert (∃ ws js, Forall3 (λ kv kw kj, encode_value kv.2 = Ok kw.2 ∧ member_back n kv kw kj) m ws js) as (ws & js & H3).
    { apply Forall_choose. eapply Forall_impl; [exact Hm|]. intros [k v] [Hk (w & j & Hw & Hb)%IH].
      exists (k, w), (k, j). done. }
    exists (encode_object ws), (JObj js). split.
    + cbn [encode_value]. assert (mapM_res (λ '(k, e), w <-? encode_value e; Ok (k, w)) m = Ok ws) as ->; [|done].
      clear -H3. induction H3 as [|[k v] [k' w] kj m ws js [H [E _]] _ IH]; [done|]. cbn in *. subst k'.
      by rewrite H; cbn; rewrite IH.
    + apply read_map; [|done]. clear -H3. induction H3 as [|kv kw kj m ws js [_ H] _ IH]; by constructor.
Qed.

(** ** What the parser yields *)

(** Parsed JSON, nested at most [n] deep. *)
Inductive jplain : nat → jv → Prop :=
  | jplain_null n : jplain n JNull
  | jplain_bool n b : jplain n (JBool b)
  | jplain_num n w : numeral w → jplain n (JNum w)
  | jplain_str n s : valid s → jplain n (JStr s)
  | jplain_arr n l : Forall (jplain n) l → jplain (S n) (JArr l)
  | jplain_obj n l : Forall (λ kj, valid kj.1 ∧ jplain n kj.2) l → jplain (S n) (JObj l).

(** The bytes the parser distinguishes, by cases. *)
Lemma brace_cases {A} s (f : str → option A) b x :
  match s with "}"%char :: r => f r | _ => b end = Some x → (∃ r, f r = Some x) ∨ b = Some x.
Proof. destruct s as [|[[] [] [] [] [] [] [] []] s]; eauto. Qed.
Lemma bracket_cases {A} s (f : str → option A) b x :
  match s with "]"%char :: r => f r | _ => b end = Some x → (∃ r, f r = Some x) ∨ b = Some x.
Proof. destruct s as [|[[] [] [] [] [] [] [] []] s]; eauto. Qed.
Lemma brace_comma_cases {A} s (f g : str → option A) x :
  match s with "}"%char :: r => f r | ","%char :: r => g r | _ => None end = Some x → (∃ r, f r = Some x) ∨ ∃ r, g r = Some x.
Proof. destruct s as [|[[] [] [] [] [] [] [] []] s]; eauto; discriminate. Qed.
Lemma bracket_comma_cases {A} s (f g : str → option A) x :
  match s with "]"%char :: r => f r | ","%char :: r => g r | _ => None end = Some x → (∃ r, f r = Some x) ∨ ∃ r, g r = Some x.
Proof. destruct s as [|[[] [] [] [] [] [] [] []] s]; eauto; discriminate. Qed.
Lemma colon_cases {A} s (f : str → option A) x :
  match s with ":"%char :: r => f r | _ => None end = Some x → ∃ r, f r = Some x.
Proof. destruct s as [|[[] [] [] [] [] [] [] []] s]; eauto; discriminate. Qed.

(** What [parse_value] does with the first byte. *)
Definition parse_first (fuel : nat) (depth : Z) (c : ascii) (s' : str) : option (jv * str) :=
  let t := c :: s' in
  if bool_decide (c = "{"%char) then
    if maxNestingDepth <=? depth then None else
    match skip_ws s' with
    | "}"%char :: rest => Some (JObj [], rest)
    | _ => '(l, rest) ← parse_members fuel (depth + 1) s'; Some (JObj l, rest)
    end
  else if bool_decide (c = "["%char) then
    if maxNestingDepth <=? depth then None else
    match skip_ws s' with
    | "]"%char :: rest => Some (JArr [], rest)
    | _ => '(l, rest) ← parse_elems fuel (depth + 1) s'; Some (JArr l, rest)
    end
  else if bool_decide (c = chr 34) then '(x, rest) ← parse_string s'; Some (JStr x, rest)
  else if HasPrefix t (lit "null") then Some (JNull, drop 4 t)
  else if HasPrefix t (lit "true") then Some (JBool true, drop 4 t)
  else if HasPrefix t (lit "false") then Some (JBool false, drop 5 t)
  else '(n, rest) ← scan_number t; Some (JNum n, rest).

Lemma parse_value_first fuel depth s :
  parse_value (S fuel) depth s = match skip_ws s with [] => None | c :: s' => parse_first fuel depth c s' end.
Proof. cbn [parse_value]. destruct (skip_ws s) as [|[[] [] [] [] [] [] [] []] s']; reflexivity. Qed.

(** How deep a value can still be at a depth. *)
Definition room (depth : Z) : nat := Z.to_nat (maxNestingDepth - depth).

Lemma room_S depth : (maxNestingDepth <=? depth) = false → room depth = S (room (depth + 1)).
Proof. intros H%Z.leb_gt. unfold room. lia. Qed.

Lemma parse_jplain fuel :
  (∀ depth s j rest, parse_value fuel depth s = Some (j, rest) → jplain (room depth) j)
  ∧ (∀ depth s l rest, parse_members fuel depth s = Some (l, rest) → Forall (λ kj, valid kj.1 ∧ jplain (room depth) kj.2) l)
  ∧ (∀ depth s l rest, parse_elems fuel depth s = Some (l, rest) → Forall (jplain (room depth)) l).
Proof.
  induction fuel as [|fuel (IHv & IHm & IHe)]; [done|]. split_and!; intros depth s.
  - intros j rest. rewrite parse_value_first. destruct (skip_ws s) as [|c s']; [done|]. unfold parse_first.
    case_bool_decide; [|case_bool_decide; [|case_bool_decide]].
    + destruct (maxNestingDepth <=? depth) eqn:Hd; [done|]. rewrite (room_S depth Hd).
      intros [[r H']|H']%brace_cases; [injection H' as <- _; by constructor|].
      destruct (parse_members fuel (depth + 1) s') as [[l r]|] eqn:E; [|done]. injection H' as <- _.
      constructor. by eapply IHm.
    + destruct (maxNestingDepth <=? depth) eqn:Hd; [done|]. rewrite (room_S depth Hd).
      intros [[r H']|H']%bracket_cases; [injection H' as <- _; by constructor|].
      destruct (parse_elems fuel (depth + 1) s') as [[l r]|] eqn:E; [|done]. injection H' as <- _.
      constructor. by eapply IHe.
    + destruct (parse_string s') as [[u r]|] eqn:E; [|done]. intros [= <- _]. constructor. by eapply unquote_valid.
    + destruct (HasPrefix _ _); [intros [= <- _]; constructor|]. destruct (HasPrefix _ _); [intros [= <- _]; constructor|].
      destruct (HasPrefix _ _); [intros [= <- _]; constructor|].
      destruct (scan_number _) as [[n r]|] eqn:E; [|done]. intros [= <- _]. constructor. by eapply scan_number_numeral.
  - intros l rest. cbn [parse_members]. destruct (skip_ws s) as [|c s']; [done|]. destruct (negb _); [done|].
    destruct (parse_string s') as [[k s1]|] eqn:Ek; [|done]. cbn [mbind option_bind].
    intros [s2 H]%colon_cases. destruct (parse_value fuel depth s2) as [[v s3]|] eqn:Ev; [|done]. cbn [mbind option_bind] in H.
    assert (valid k ∧ jplain (room depth) v) as Hkv by (split; [by eapply unquote_valid|by eapply IHv]).
    apply brace_comma_cases in H as [[r H]|[r H]]; [injection H as <- _; by apply Forall_singleton|].
    destruct (parse_members fuel depth r) as [[l' r']|] eqn:E; [|done]. injection H as <- _.
    constructor; [done|]. by eapply IHm.
  - intros l rest. cbn [parse_elems]. destruct (parse_value fuel depth s) as [[v s1]|] eqn:Ev; [|done]. cbn [mbind option_bind].
    apply IHv in Ev. intros [[r H]|[r H]]%bracket_comma_cases; [injection H as <- _; by apply Forall_singleton|].
    destruct (parse_elems fuel depth r) as [[l' r']|] eqn:E; [|done]. injection H as <- _.
    constructor; [done|]. by eapply IHe.
Qed.

(** The floats of a value. *)
Fixpoint floats (v : value) : list f64 :=
  match v with
  | VFloat f => [f]
  | VList l => flat_map floats l
  | VMap m => flat_map (λ '(_, e), floats e) m
  | _ => []
  end.

Lemma mapM_res_elem {A B} (f : A → res B) l l' y : mapM_res f l = Ok l' → y ∈ l' → ∃ x, x ∈ l ∧ f x = Ok y.
Proof.
  revert l'. induction l as [|x l IH]; intros l'; cbn; [by intros [= <-] ?%elem_of_nil|].
  destruct (f x) as [z|] eqn:E; cbn; [|done]. destruct (mapM_res f l) as [zs|]; cbn; [|done]. intros [= <-].
  intros [->|Hin]%elem_of_cons; [exists x; split; [by left|done]|].
  destruct (IH zs eq_refl Hin) as (x' & ? & ?). exists x'. split; [by right|done].
Qed.

Lemma to_value_plain n : ∀ j v, jplain n j → to_value j = Ok v → Forall float_ok (floats v) → plain n v.
Proof.
  induction n as [|n IH]; intros j v Hj; inversion Hj as [| | | |? l Hl|? l Hl]; subst; cbn [to_value];
    try (intros [= <-]; by constructor);
    try (destruct (ParseFloat _) as [f|]; [|done]; intros [= <-] Hf%Forall_inv; by constructor).
  - destruct (mapM_res to_value l) as [vs|] eqn:E; cbn; [|done]. intros [= <-] Hf. constructor.
    apply Forall_forall. intros v Hv. destruct (mapM_res_elem _ _ _ v E Hv) as (j & Hin & Ht).
    rewrite Forall_forall in Hl. apply (IH j v); [by apply Hl|done|]. apply Forall_forall. intros f Hff.
    rewrite Forall_forall in Hf. apply Hf. cbn. apply list_elem_of_In, in_flat_map. exists v. by rewrite <- !list_elem_of_In.
  - destruct (mapM_res _ l) as [es|] eqn:E; cbn; [|done]. intros [= <-] Hf. constructor.
    + apply Forall_forall. intros [k v] Hkv. pose proof Hkv as [Hnil|Hin]%fold_set_elem; [by apply elem_of_nil in Hnil|].
      destruct (mapM_res_elem _ _ _ _ E Hin) as ([k' j] & Hin' & Ht). rewrite Forall_forall in Hl.
      destruct (Hl _ Hin') as [Hk Hj']. destruct (to_value j) as [v'|] eqn:Ev; [|done]. cbn in Ht. injection Ht as -> ->.
      split; [done|]. apply (IH j v Hj' Ev). apply Forall_forall. intros f Hff. rewrite Forall_forall in Hf. apply Hf.
      cbn. apply list_elem_of_In, in_flat_map. exists (k, v). by rewrite <- !list_elem_of_In.
    + apply fold_set_is_sorted. constructor.
Qed.

(** ** Properties *)

Lemma Unmarshal_plain data m : Unmarshal data = Ok (Some m) → Forall float_ok (floats (VMap m)) → plain (room 0) (VMap m).
Proof.
  unfold Unmarshal, parse. destruct (parse_value _ 0 data) as [[j rest]|] eqn:E; [|done].
  destruct (skip_ws rest); [|done]. apply (proj1 (parse_jplain _)) in E.
  destruct j as [| | | | |l]; try done. destruct (to_value (JObj l)) as [v|] eqn:Ev; cbn [res_bind]; [|done].
  intros H Hf. assert (v = VMap m) as -> by (destruct v; congruence). by eapply to_value_plain.
Qed.

Lemma plain_Unmarshal m : plain (room 0) (VMap m) →
  ∃ blob, Marshal (Some m) = Ok blob ∧ Valid blob = true ∧ Unmarshal blob = Ok (Some m).
Proof.
  intros Hm. destruct (plain_back (room 0) (VMap m) Hm) as (w & j & Hw & _ & Ht & Hp). exists w. split; [exact Hw|].
  assert (parse w = Some j) as Hj.
  { unfold parse. rewrite <- (app_nil_r w) at 2. rewrite Hp; [done|lia|unfold room, maxNestingDepth; lia|done]. }
  unfold Valid, Unmarshal. rewrite Hj. split; [done|]. destruct j as [| |w'| | |l]; try done.
  - cbn in Ht. by destruct (ParseFloat w').
  - cbn in Ht. by destruct (mapM_res to_value l).
  - by rewrite Ht.
Qed.

(** An item that was read from JSON is written as JSON that is read back as
    the same item, whatever the escapes, the order, the repetitions and the
    spacing of the text it came from; of its numbers this needs that each is
    written as text that reads back as it. *)
Theorem Marshal_Unmarshal data m :
  Unmarshal data = Ok (Some m) → Forall float_ok (floats (VMap m)) →
  ∃ blob, Marshal (Some m) = Ok blob ∧ Valid blob = true ∧ Unmarshal blob = Ok (Some m).
Proof. intros Hu Hf. by eapply plain_Unmarshal, Unmarshal_plain. Qed.

(** ** Witness *)

Definition messy : str :=
  dq " { 'b' : [1, 2.50, -0, 1e21, 1E-7], 'a' : {'x':null,'t':true} , 'a':'q\'<\u00e9\ud83d\ude00\ud800/' } ".
Definition messy_map : gomap := match Unmarshal messy with Ok (Some m) => m | _ => [] end.

Definition float_okb (f : f64) : bool :=
  match encode_float f with
  | Ok w => isValidNumber w && match ParseFloat w with Ok g => bool_decide (g = f) | Err _ => false end
  | Err _ => false
  end.

Lemma float_okb_spec f : float_okb f = true → float_ok f.
Proof.
  unfold float_okb, float_ok. destruct (encode_float f) as [w|]; [|done]. intros [Hv Hp]%andb_true_iff.
  exists w. split; [done|]. split; [done|]. destruct (ParseFloat w); [|done]. apply bool_decide_eq_true in Hp. by subst.
Qed.

Lemma Marshal_Unmarshal_witness : ∃ blob, Marshal (Some messy_map) = Ok blob ∧ Unmarshal blob = Ok (Some messy_map).
Proof.
  destruct (Marshal_Unmarshal messy messy_map) as (blob & H1 & _ & H2).
  - vm_compute. reflexivity.
  - assert (forallb float_okb (floats (VMap messy_map)) = true) as H by (vm_compute; reflexivity).
    apply Forall_forall. intros f Hf%list_elem_of_In. rewrite forallb_forall in H. by apply float_okb_spec, H.
  - exists blob. split; [exact H1|exact H2].
Defined.
