(* ===== verification/JsonTyping.v ===== *)
(** * Well-typed JSON values

    The values that encoding/json can write: finite floats, numbers that are
    JSON literals, maps with each key once and in order.  Decoding yields only
    such values, and these are exactly the ones whose encoding succeeds. *)

From Stdlib Require Import SpecFloat.
From S2P Require Import Prelude GoStrings Utf8 Codec Float64 Json JsonSpec.

Definition finite (f : f64) : Prop := is_inf f = false ∧ is_nan f = false.

(** The type discipline of an [any]. *)
Inductive typed : value → Prop :=
  | typed_nil : typed VNil
  | typed_bool b : typed (VBool b)
  | typed_string s : typed (VString s)
  | typed_float f : finite f → typed (VFloat f)
  | typed_number s : s = [] ∨ isValidNumber s = true → typed (VNumber s)
  | typed_strings l : typed (VStrings l)
  | typed_list l : Forall typed l → typed (VList l)
  | typed_map m : sorted m → Forall (λ kv, typed kv.2) m → typed (VMap m).

(** ** Parsed floats are numbers *)

Section Rounding.
Variables prec emax : Z.

Lemma shr_1_nonneg r : 0 ≤ shr_m r → 0 ≤ shr_m (shr_1 r).
Proof. destruct r as [[|[p|p|]|p] r s]; cbn; lia. Qed.

Lemma shr_nonneg r e n : 0 ≤ shr_m r → 0 ≤ shr_m (shr r e n).1.
Proof.
  unfold shr. destruct n as [|p|p]; cbn; [done| |done].
  revert r. induction p as [p IH|p IH|]; intros r Hr; cbn; [by apply IH, IH, shr_1_nonneg|by apply IH, IH|by apply shr_1_nonneg].
Qed.

Lemma shr_fexp_nonneg m e l : 0 ≤ m → 0 ≤ shr_m (shr_fexp prec emax m e l).1.
Proof. intros H. unfold shr_fexp. apply shr_nonneg. by destruct l as [|[]]. Qed.

Lemma round_nonneg m l : 0 ≤ m → 0 ≤ round_nearest_even m l.
Proof. intros H. destruct l as [|[]]; cbn; try lia. destruct (Z.even m); lia. Qed.

Lemma rounded_number sx m e l : 0 ≤ m → is_nan (binary_round_aux prec emax sx m e l) = false.
Proof.
  intros H. unfold binary_round_aux. pose proof (shr_fexp_nonneg m e l H) as H1.
  destruct (shr_fexp prec emax m e l) as [r e']. cbn in H1.
  pose proof (shr_fexp_nonneg _ e' loc_Exact (round_nonneg _ (loc_of_shr_record r) H1)) as H2.
  destruct (shr_fexp prec emax _ e' loc_Exact) as [r2 e2]. cbn in H2.
  destruct (shr_m r2) as [|p|p]; [done| |lia]. by destruct (_ <=? _).
Qed.

Lemma normalized_number m e sx : is_nan (binary_normalize prec emax m e sx) = false.
Proof.
  unfold binary_normalize, binary_round. destruct m as [|p|p]; [done|..];
    destruct (shl_align _ _ _) as [m' e']; by apply rounded_number.
Qed.
End Rounding.

Lemma decimal_number neg mant exp : 0 ≤ mant → is_nan (dec_to_f64 neg mant exp) = false.
Proof.
  intros Hm. unfold dec_to_f64. destruct (mant =? 0); [done|]. destruct (310 <? _); [done|]. destruct (_ <? -330); [done|].
  destruct (0 <=? exp) eqn:He; [apply normalized_number|]. apply Z.leb_gt in He.
  unfold SFdiv_core_binary. set (m' := match _ - _ with Z0 => mant | Zpos _ => _ | Zneg _ => 0 end).
  assert (0 ≤ m') as H'. { unfold m'. destruct (_ - _); [done|by apply Z.shiftl_nonneg|done]. }
  pose proof (Z_div_mod m' (10 ^ (- exp)) ltac:(apply Z.lt_gt, Z.pow_pos_nonneg; lia)) as Hd.
  destruct (Z.div_eucl m' (10 ^ (- exp))) as [q r]. apply rounded_number.
  assert (0 < 10 ^ (- exp)) by (apply Z.pow_pos_nonneg; lia). nia.
Qed.

(** *** The mantissa is never negative *)

Lemma digit_val_nonneg hex c : is_digit c || (hex && is_hex_letter c) = true → 0 ≤ hex_val c.
Proof. destruct c as [[] [] [] [] [] [] [] []], hex; intros H; try discriminate H; by vm_compute. Qed.

Lemma read_mant_nonneg hex s : ∀ st, 0 ≤ ms_mant st → 0 ≤ ms_mant (read_mant hex st s).1.
Proof.
  induction s as [|c s IH]; intros st Hst; cbn [read_mant]; [done|].
  case_bool_decide; [by apply IH|]. case_bool_decide; [destruct (ms_sawdot st); [done|by apply IH]|].
  destruct (_ || _) eqn:E; [|done]. apply IH. cbn. apply digit_val_nonneg in E. destruct hex; lia.
Qed.

Lemma readFloat_nonneg s neg hex mant exp : readFloat s = Some (neg, hex, mant, exp) → 0 ≤ mant.
Proof.
  unfold readFloat. destruct (strip_sign s) as [n s1].
  destruct (match s1 with "0"%char :: x :: (_ :: _) as s' => _ | _ => _ end) as [hx s2].
  set (st0 := {| ms_mant := 0 |}). pose proof (read_mant_nonneg hx s2 st0 ltac:(done)) as H.
  destruct (read_mant hx st0 s2) as [st s3]. cbn in H. destruct (negb (ms_sawdigits st)); [done|].
  destruct s3 as [|c s4]; [destruct hx; [done|]; destruct (_ && _); [done|]; by intros [= _ _ <- _]|].
  destruct (negb _); [done|]. destruct (strip_sign s4) as [en s5]. destruct s5 as [|d s5]; [done|].
  destruct (negb _); [done|]. destruct (read_exp 0 _ _) as [[e un] s6]. destruct s6; [|done].
  destruct (_ && _); [done|]. by intros [= _ _ <- _].
Qed.

Lemma lower_digit c : is_digit c = true → lower_byte c = c ∧ c ≠ "i"%char ∧ c ≠ "n"%char ∧ c ≠ "-"%char ∧ c ≠ "+"%char.
Proof. destruct c as [[] [] [] [] [] [] [] []]; intros H; try discriminate H; by vm_compute. Qed.

Lemma special_numeral w : numeral w → special w = None.
Proof.
  intros (c & t & Hw & Hc). pose proof (lower_digit c Hc) as (Hl & Hi & Hn & Hm & Hp). unfold special.
  destruct Hw as [->| ->]; cbn [fmap list_fmap].
  - rewrite Hl. assert (strip_sign (c :: (lower_byte <$> t)) = (false, c :: (lower_byte <$> t))) as ->
      by (clear -Hm Hp; destruct c as [[] [] [] [] [] [] [] []]; done).
    rewrite bool_decide_false by (intros [[= ? _]|[= ? _]]; done). by rewrite bool_decide_false by (by intros [= ? _]).
  - change (lower_byte "-"%char) with "-"%char. cbn [strip_sign]. rewrite Hl.
    rewrite bool_decide_false by (intros [[= ? _]|[= ? _]]; done). by rewrite bool_decide_false.
Qed.

(** A number of JSON text is read as a finite float or refused. *)
Lemma ParseFloat_finite w f : numeral w → ParseFloat w = Ok f → finite f.
Proof.
  intros Hw. unfold ParseFloat. rewrite special_numeral by done.
  destruct (readFloat w) as [[[[neg hex] mant] exp]|] eqn:E; [|done]. apply readFloat_nonneg in E.
  destruct (is_inf _) eqn:Hi; [done|]. intros [= <-]. split; [done|].
  destruct hex; [apply normalized_number|by apply decimal_number].
Qed.

(** ** Decoding *)

Lemma to_value_typed n : ∀ j v, jplain n j → to_value j = Ok v → typed v.
Proof.
  induction n as [|n IH]; intros j v Hj; inversion Hj as [| |? w Hw| |? l Hl|? l Hl]; subst; cbn [to_value];
    try (intros [= <-]; by constructor);
    try (destruct (ParseFloat w) as [f|] eqn:E; cbn; [|done]; intros [= <-]; constructor; by eapply ParseFloat_finite).
  - destruct (mapM_res to_value l) as [vs|] eqn:E; cbn; [|done]. intros [= <-]. constructor.
    apply Forall_forall. intros v Hv. destruct (mapM_res_elem _ _ _ v E Hv) as (j & Hin & Ht).
    rewrite Forall_forall in Hl. by eapply IH; [apply Hl|].
  - destruct (mapM_res _ l) as [es|] eqn:E; cbn; [|done]. intros [= <-]. constructor; [apply fold_set_is_sorted; constructor|].
    apply Forall_forall. intros [k v] [Hnil|Hin]%fold_set_elem; [by apply elem_of_nil in Hnil|].
    destruct (mapM_res_elem _ _ _ _ E Hin) as ([k' j] & Hin' & Ht). rewrite Forall_forall in Hl.
    destruct (Hl _ Hin') as [_ Hj']. destruct (to_value j) as [v'|] eqn:Ev; [|done]. cbn in Ht. injection Ht as -> ->.
    by eapply IH.
Qed.

(** An item: the nil map, or a typed map. *)
Definition typed_item (i : Item) : Prop := ∀ m, i = Some m → typed (VMap m).

Lemma Unmarshal_typed data i : Unmarshal data = Ok i → typed_item i.
Proof.
  unfold Unmarshal, parse. destruct (parse_value _ 0 data) as [[j rest]|] eqn:E; [|done].
  destruct (skip_ws rest); [|done]. apply (proj1 (parse_jplain _)) in E.
  destruct j as [| | | | |l]; try done; [by intros [= <-] m|].
  destruct (to_value (JObj l)) as [v|] eqn:Ev; cbn [res_bind]; [|done]. apply (to_value_typed _ _ _ E) in Ev as Hv.
  intros [= <-] m Hm. destruct v; try done. injection Hm as ->. done.
Qed.

(** ** Encoding *)

Lemma encode_typed v : typed v → ∃ w, encode_value v = Ok w.
Proof.
  induction v as [| | | | | |l IH|m IH] using value_nested_ind; intros Ht; inversion Ht as [| | |? Hf|? Hn| |? Hl|? Hs Hm]; subst; cbn [encode_value]; eauto.
  - destruct Hf as [Hi Hn]. unfold encode_float. rewrite Hi, Hn. cbn [orb]. repeat case_match; eauto.
  - destruct s as [|c s]; [eauto|]. destruct Hn as [|Hn]; [done|]. rewrite Hn. eauto.
  - assert (∃ ws, mapM_res encode_value l = Ok ws) as [ws ->]; [|by eexists].
    induction IH as [|v l Hv _ IHl]; [by exists []|]. apply Forall_cons in Hl as [H1 H2].
    destruct (Hv H1) as [w Hw]. destruct IHl as [ws Hws]; [by constructor|done|]. cbn. rewrite Hw, Hws. by eexists.
  - assert (∃ ws, mapM_res (λ '(k, e), w <-? encode_value e; Ok (k, w)) m = Ok ws) as [ws ->]; [|by eexists].
    clear Hs Ht. induction IH as [|[k v] m Hv _ IHl]; [by exists []|]. apply Forall_cons in Hm as [H1 H2].
    destruct (Hv H1) as [w Hw]. destruct IHl as [ws Hws]; [done|]. cbn in *. rewrite Hw. cbn. rewrite Hws. by eexists.
Qed.

Lemma Marshal_typed i : typed_item i → ∃ blob, Marshal i = Ok blob.
Proof. destruct i as [m|]; intros H; [|by eexists]. apply encode_typed. by apply H. Qed.

(** ** Checking a value *)

Fixpoint sortedb {A} (m : list (str * A)) : bool :=
  match m with
  | [] => true
  | (k, _) :: m' => forallb (λ kv, str_leb k kv.1 && negb (bool_decide (k = kv.1))) m' && sortedb m'
  end.

Fixpoint typedb (v : value) : bool :=
  match v with
  | VFloat f => negb (is_inf f) && negb (is_nan f)
  | VNumber s => bool_decide (s = []) || isValidNumber s
  | VList l => forallb typedb l
  | VMap m => sortedb m && forallb (λ '(_, e), typedb e) m
  | _ => true
  end.

Lemma sortedb_spec {A} (m : list (str * A)) : sortedb m = true → sorted m.
Proof.
  unfold sorted. induction m as [|[k v] m IH]; cbn; [constructor|]. intros [Hk Hm]%andb_prop.
  constructor; [by apply IH|]. apply Forall_fmap, Forall_forall. intros kv Hkv.
  rewrite forallb_forall in Hk. apply list_elem_of_In, Hk, andb_prop in Hkv as [H1 H2%negb_true_iff%bool_decide_eq_false].
  by split.
Qed.

Lemma typedb_spec v : typedb v = true → typed v.
Proof.
  induction v as [| | | | | |l IH|m IH] using value_nested_ind; cbn [typedb]; intros H; try by constructor.
  - apply andb_prop in H as [H1%negb_true_iff H2%negb_true_iff]. by constructor.
  - apply orb_prop in H as [H%bool_decide_eq_true_1|H]; constructor; auto.
  - constructor. apply Forall_forall. intros v Hv. rewrite Forall_forall in IH. apply IH; [done|].
    rewrite forallb_forall in H. by apply H, list_elem_of_In.
  - apply andb_prop in H as [Hs H]. constructor; [by apply sortedb_spec|].
    apply Forall_forall. intros [k v] Hv. rewrite Forall_forall in IH. apply (IH (k, v)); [done|].
    rewrite forallb_forall in H. by apply (H (k, v)), list_elem_of_In.
Qed.
