(* ===== verification/Dns.v ===== *)
(** * DNS messages and the miekg/dns interface

    The message data of github.com/miekg/dns that the server reads and writes,
    the protocol's numbers, and the library's functions as parameters
    ([DnsLib]).  [DnsLaws] states the documented behaviour the theorems rely
    on; [ref_dns] is a concrete library that has it. *)

From S2P Require Import Prelude GoStrings.

(** ** Numbers *)

Definition TypeA : Z := 1.
Definition TypeNS : Z := 2.
Definition TypeSOA : Z := 6.
Definition TypeTXT : Z := 16.
Definition TypeAAAA : Z := 28.
Definition TypeOPT : Z := 41.
Definition TypeRRSIG : Z := 46.
Definition TypeNSEC : Z := 47.
Definition TypeDNSKEY : Z := 48.
Definition TypeTSIG : Z := 250.
Definition TypeIXFR : Z := 251.
Definition TypeAXFR : Z := 252.
Definition TypeANY : Z := 255.

Definition ClassINET : Z := 1.
Definition ClassNONE : Z := 254.
Definition ClassANY : Z := 255.

Definition OpcodeQuery : Z := 0.
Definition OpcodeNotify : Z := 4.
Definition OpcodeUpdate : Z := 5.

Definition RcodeSuccess : Z := 0.
Definition RcodeFormatError : Z := 1.
Definition RcodeServerFailure : Z := 2.
Definition RcodeNameError : Z := 3.
Definition RcodeRefused : Z := 5.
Definition RcodeYXDomain : Z := 6.
Definition RcodeYXRrset : Z := 7.
Definition RcodeNXRrset : Z := 8.
Definition RcodeNotZone : Z := 10.

Definition MinMsgSize : Z := 512.
Definition MaxMsgSize : Z := 65535.

(** ** Records *)

Record Hdr := mkHdr { hName : str; hRrtype : Z; hClass : Z; hTtl : Z }.

(** A [net.IP]: nil or sixteen bytes. *)
Definition IP : Type := option str.

(** The concrete record types the program builds or tests for; any other
    (dns.ANY, dns.CNAME, ...) is [RR_Other] with its rdata uninterpreted.  An
    OPT's UDP size and DO bit are the values its accessors return. *)
Inductive RR : Type :=
  | RR_SOA (h : Hdr) (Ns Mbox : str) (Serial Refresh Retry Expire Minttl : Z)
  | RR_NS (h : Hdr) (Ns : str)
  | RR_A (h : Hdr) (ip : IP)
  | RR_AAAA (h : Hdr) (ip : IP)
  | RR_TXT (h : Hdr) (Txt : list str)
  | RR_OPT (h : Hdr) (UDPSize : Z) (Do : bool)
  | RR_TSIG (h : Hdr) (Algorithm MAC : str) (TimeSigned Fudge : Z)
  | RR_NSEC (h : Hdr) (NextDomain : str) (TypeBitMap : list Z)
  | RR_DNSKEY (h : Hdr) (Flags Protocol Alg : Z) (PublicKey : str)
  | RR_RRSIG (h : Hdr) (TypeCovered Alg OrigTtl Expiration Inception KeyTag : Z) (SignerName Signature : str)
  | RR_Other (h : Hdr) (rdata : str).

Definition Header (rr : RR) : Hdr :=
  match rr with
  | RR_SOA h _ _ _ _ _ _ _ | RR_NS h _ | RR_A h _ | RR_AAAA h _ | RR_TXT h _ | RR_OPT h _ _
  | RR_TSIG h _ _ _ _ | RR_NSEC h _ _ | RR_DNSKEY h _ _ _ _ | RR_RRSIG h _ _ _ _ _ _ _ _
  | RR_Other h _ => h
  end.

#[export] Instance Hdr_eq_dec : EqDecision Hdr.
Proof. solve_decision. Defined.
#[export] Instance RR_eq_dec : EqDecision RR.
Proof. solve_decision. Defined.

Record Question := mkQuestion { qName : str; qType : Z; qClass : Z }.

Record Msg := mkMsg {
  mId : Z; mResponse : bool; mOpcode : Z; mAuthoritative : bool; mTruncated : bool;
  mRecursionDesired : bool; mRcode : Z;
  mQuestion : list Question; mAnswer : list RR; mNs : list RR; mExtra : list RR }.

(** [new(dns.Msg)] *)
Definition new_Msg : Msg := mkMsg 0 false 0 false false false 0 [] [] [] [].

Definition set_Id (x : Z) (m : Msg) : Msg :=
  mkMsg x (mResponse m) (mOpcode m) (mAuthoritative m) (mTruncated m) (mRecursionDesired m)
    (mRcode m) (mQuestion m) (mAnswer m) (mNs m) (mExtra m).
Definition set_Authoritative (x : bool) (m : Msg) : Msg :=
  mkMsg (mId m) (mResponse m) (mOpcode m) x (mTruncated m) (mRecursionDesired m)
    (mRcode m) (mQuestion m) (mAnswer m) (mNs m) (mExtra m).
Definition set_Truncated (x : bool) (m : Msg) : Msg :=
  mkMsg (mId m) (mResponse m) (mOpcode m) (mAuthoritative m) x (mRecursionDesired m)
    (mRcode m) (mQuestion m) (mAnswer m) (mNs m) (mExtra m).
Definition set_Rcode (x : Z) (m : Msg) : Msg :=
  mkMsg (mId m) (mResponse m) (mOpcode m) (mAuthoritative m) (mTruncated m) (mRecursionDesired m)
    x (mQuestion m) (mAnswer m) (mNs m) (mExtra m).
Definition set_Answer (x : list RR) (m : Msg) : Msg :=
  mkMsg (mId m) (mResponse m) (mOpcode m) (mAuthoritative m) (mTruncated m) (mRecursionDesired m)
    (mRcode m) (mQuestion m) x (mNs m) (mExtra m).
Definition set_Ns (x : list RR) (m : Msg) : Msg :=
  mkMsg (mId m) (mResponse m) (mOpcode m) (mAuthoritative m) (mTruncated m) (mRecursionDesired m)
    (mRcode m) (mQuestion m) (mAnswer m) x (mExtra m).
Definition set_Extra (x : list RR) (m : Msg) : Msg :=
  mkMsg (mId m) (mResponse m) (mOpcode m) (mAuthoritative m) (mTruncated m) (mRecursionDesired m)
    (mRcode m) (mQuestion m) (mAnswer m) (mNs m) x.

(** [m.Answer = append(m.Answer, rrs...)], and the same for [m.Ns], [m.Extra]. *)
Definition add_Answer (rrs : list RR) (m : Msg) : Msg := set_Answer (mAnswer m ++ rrs) m.
Definition add_Ns (rrs : list RR) (m : Msg) : Msg := set_Ns (mNs m ++ rrs) m.
Definition add_Extra (rrs : list RR) (m : Msg) : Msg := set_Extra (mExtra m ++ rrs) m.

(** ** The library's functions *)

Class DnsLib := {
  (** [m.SetReply(req)], [m.SetRcode(req, rcode)], [m.SetTsig(name, algo, fudge, now)]:
      the receiver comes first, the updated receiver is the result. *)
  SetReply : Msg → Msg → Msg;
  SetRcode : Msg → Msg → Z → Msg;
  SetTsig : Msg → str → str → Z → Z → Msg;
  (** [m.IsEdns0()]: the OPT's UDP size and DO bit. *)
  IsEdns0 : Msg → option (Z * bool);
  (** [m.IsTsig()]: the TSIG's owner name and algorithm. *)
  IsTsig : Msg → option (str * str);
  MsgLen : Msg → Z;                        (* m.Len() *)
  Truncate : Msg → Z → Msg;                (* m.Truncate(size) *)
  RRLen : RR → Z;                          (* dns.Len(rr) *)
  failure_reply : Msg → Msg;               (* the message dns.HandleFailed writes *)
}.

(** A message with its header, question and OPT only. *)
Definition is_OPT (rr : RR) : bool := match rr with RR_OPT _ _ _ => true | _ => false end.
Definition bare (m : Msg) : Msg :=
  set_Answer [] (set_Ns [] (set_Extra (filter (λ r, is_OPT r = true) (mExtra m)) m)).

(** What the library documents.  [SetReply] "creates a reply message from a
    request message": it copies the id and the first question, sets the
    response bit and a success rcode, and leaves the receiver's sections and
    authoritative bit alone.  [SetRcode] is [SetReply] with an rcode.  [SetTsig]
    appends a TSIG to the additional section.  [Truncate] "ensures the reply
    message will fit into the requested buffer size by removing records": it
    keeps the question and the OPT, so these must fit themselves. *)
Class DnsLaws (D : DnsLib) : Prop := {
  SetReply_Id m req : mId (SetReply m req) = mId req;
  SetReply_Response m req : mResponse (SetReply m req) = true;
  SetReply_Rcode m req : mRcode (SetReply m req) = RcodeSuccess;
  SetReply_Question m req : mQuestion (SetReply m req) = take 1 (mQuestion req);
  SetReply_Authoritative m req : mAuthoritative (SetReply m req) = mAuthoritative m;
  SetReply_Answer m req : mAnswer (SetReply m req) = mAnswer m;
  SetReply_Ns m req : mNs (SetReply m req) = mNs m;
  SetReply_Extra m req : mExtra (SetReply m req) = mExtra m;
  SetRcode_SetReply m req rc : SetRcode m req rc = set_Rcode rc (SetReply m req);
  SetTsig_Rcode m n a f t : mRcode (SetTsig m n a f t) = mRcode m;
  SetTsig_Answer m n a f t : mAnswer (SetTsig m n a f t) = mAnswer m;
  SetTsig_Ns m n a f t : mNs (SetTsig m n a f t) = mNs m;
  SetTsig_Authoritative m n a f t : mAuthoritative (SetTsig m n a f t) = mAuthoritative m;
  failure_Rcode req : mRcode (failure_reply req) = RcodeServerFailure;
  failure_Answer req : mAnswer (failure_reply req) = [];
  failure_Ns req : mNs (failure_reply req) = [];
  Truncate_size m size : MinMsgSize <= size → MsgLen (bare m) <= MinMsgSize → MsgLen (Truncate m size) <= size;
}.

#[export] Hint Rewrite @SetReply_Id @SetReply_Response @SetReply_Rcode @SetReply_Question
  @SetReply_Authoritative @SetReply_Answer @SetReply_Ns @SetReply_Extra @SetRcode_SetReply
  @SetTsig_Rcode @SetTsig_Answer @SetTsig_Ns @SetTsig_Authoritative
  @failure_Rcode @failure_Answer @failure_Ns using typeclasses eauto : dns.

(** ** A concrete library, for evaluating the model *)

Definition ref_SetReply (m req : Msg) : Msg :=
  mkMsg (mId req) true (mOpcode req) (mAuthoritative m) (mTruncated m)
    (if mOpcode req =? OpcodeQuery then mRecursionDesired req else mRecursionDesired m)
    RcodeSuccess (take 1 (mQuestion req)) (mAnswer m) (mNs m) (mExtra m).

Definition ref_RRLen (rr : RR) : Z :=
  let name := Z.of_nat (length (hName (Header rr))) + 1 in
  10 + name +
  match rr with
  | RR_SOA _ ns mbox _ _ _ _ _ => Z.of_nat (length ns + length mbox) + 22
  | RR_NS _ ns => Z.of_nat (length ns) + 1
  | RR_A _ _ => 4
  | RR_AAAA _ _ => 16
  | RR_TXT _ txt => foldr (λ s n, Z.of_nat (length s) + 1 + n) 0 txt
  | RR_OPT _ _ _ => 0
  | RR_TSIG _ a m _ _ => Z.of_nat (length a + length m) + 16
  | RR_NSEC _ n b => Z.of_nat (length n + length b) + 2
  | RR_DNSKEY _ _ _ _ k => Z.of_nat (length k) + 4
  | RR_RRSIG _ _ _ _ _ _ _ n s => Z.of_nat (length n + length s) + 18
  | RR_Other _ d => Z.of_nat (length d)
  end.

Definition ref_sum (l : list RR) : Z := foldr (λ r n, ref_RRLen r + n) 0 l.

Definition ref_MsgLen (m : Msg) : Z :=
  12 + foldr (λ q n, Z.of_nat (length (qName q)) + 5 + n) 0 (mQuestion m)
  + ref_sum (mAnswer m) + ref_sum (mNs m) + ref_sum (mExtra m).

Definition ref_Truncate (m : Msg) (size : Z) : Msg :=
  if ref_MsgLen m <=? size then m else set_Truncated true (bare m).

Definition ref_dns : DnsLib := {|
  SetReply := ref_SetReply;
  SetRcode m req rc := set_Rcode rc (ref_SetReply m req);
  SetTsig m n a f t := add_Extra [RR_TSIG (mkHdr n TypeTSIG ClassANY 0) a [] t f] m;
  IsEdns0 m :=
    match filter (λ r, is_OPT r = true) (mExtra m) with
    | RR_OPT _ size d :: _ => Some (size, d)
    | _ => None
    end;
  IsTsig m := match last (mExtra m) with Some (RR_TSIG h a _ _ _) => Some (hName h, a) | _ => None end;
  MsgLen := ref_MsgLen;
  Truncate := ref_Truncate;
  RRLen := ref_RRLen;
  failure_reply req := set_Rcode RcodeServerFailure (ref_SetReply new_Msg req);
|}.

Lemma ref_dns_laws : DnsLaws ref_dns.
Proof.
  constructor; intros; try reflexivity. cbn. unfold ref_Truncate.
  destruct (Z.leb_spec (ref_MsgLen m) size); [done|].
  change (ref_MsgLen (set_Truncated true (bare m))) with (ref_MsgLen (bare m)). cbn in *. lia.
Qed.
