(* ===== verification/GoNet.v ===== *)
(** * net.ParseIP and IP.To4

    Go's textual IP addresses (package net, through net/netip), as the server
    uses them for the ns1 address record. *)

From S2P Require Import Prelude GoStrings Float64 Dns.

Definition v4_field (s : str) : option Z :=
  match s with
  | [] => None
  | c :: s' =>
      if negb (forallb is_digit s) then None
      else if bool_decide (c = "0"%char) && negb (bool_decide (s' = [])) then None
      else let v := foldl (λ a d, if 255 <? a then a else a * 10 + digit_val d) 0 s in
           if 255 <? v then None else Some v
  end.

(** Four dotted fields of one to three digits, no leading zero, at most 255. *)
Definition parseIPv4 (s : str) : option str :=
  match v4_field <$> Split s "." with
  | [Some a; Some b; Some c; Some d] => Some (chr <$> [a; b; c; d])
  | _ => None
  end.

Definition v4_prefix : str := replicate 10 Ascii.zero ++ [chr 255; chr 255].

Fixpoint hex_span (s : str) : str * str :=
  match s with
  | c :: s' => if is_digit c || is_hex_letter c then let '(a, b) := hex_span s' in (c :: a, b) else ([], s)
  | [] => ([], [])
  end.

(** The field loop of [netip.parseIPv6]: [ip] the bytes so far, [ell] the
    position of "::".  Each iteration adds bytes, so sixteen are enough. *)
Fixpoint v6_loop (fuel : nat) (s : str) (ip : str) (ell : option nat) : option (str * option nat * str) :=
  match fuel with
  | O => Some (ip, ell, s)
  | S fuel =>
      if (16 <=? length ip)%nat then Some (ip, ell, s) else
      let '(h, r) := hex_span s in
      if bool_decide (h = []) || (4 <? length h)%nat then None else
      match r with
      | "."%char :: _ =>
          if (bool_decide (ell = None) && negb (length ip =? 12)%nat) || (12 <? length ip)%nat then None
          else v4 ← parseIPv4 s; Some (ip ++ v4, ell, [])
      | _ =>
          let v := foldl (λ a d, a * 16 + hex_val d) 0 h in
          let ip := ip ++ [chr (v / 256); chr (v mod 256)] in
          match r with
          | [] => Some (ip, ell, [])
          | ":"%char :: ":"%char :: r' =>
              if negb (bool_decide (ell = None)) then None
              else if bool_decide (r' = []) then Some (ip, Some (length ip), [])
              else v6_loop fuel r' ip (Some (length ip))
          | ":"%char :: (_ :: _) as r' => v6_loop fuel (drop 1 r) ip ell
          | _ => None
          end
      end
  end.

Definition parseIPv6 (s : str) : option str :=
  let '(ell, s') := match s with ":"%char :: ":"%char :: r => (Some 0%nat, r) | _ => (None, s) end in
  if bool_decide (ell = Some 0%nat ∧ s' = []) then Some (replicate 16 Ascii.zero) else
  match v6_loop 16 s' [] ell with
  | Some (ip, ell, []) =>
      if (length ip <? 16)%nat then
        match ell with
        | None => None
        | Some e => Some (take e ip ++ replicate (16 - length ip) Ascii.zero ++ drop e ip)
        end
      else match ell with None => Some ip | Some _ => None end
  | _ => None
  end.

(** [net.ParseIP]: the first of '.', ':' and '%' in the text chooses the
    grammar; a zone makes the address invalid. *)
Fixpoint parse_addr (s t : str) : IP :=
  match t with
  | [] => None
  | c :: t' =>
      if bool_decide (c = "."%char) then (app v4_prefix) <$> parseIPv4 s
      else if bool_decide (c = ":"%char) then
        if ContainsByte s "%" then None else parseIPv6 s
      else if bool_decide (c = "%"%char) then None
      else parse_addr s t'
  end.
Definition ParseIP (s : str) : IP := parse_addr s s.

(** [ip.To4()] *)
Definition To4 (ip : IP) : option str :=
  match ip with
  | Some b => if bool_decide (take 12 b = v4_prefix) then Some (drop 12 b) else None
  | None => None
  end.

Example parse_v4 : To4 (ParseIP (lit "127.0.0.1")) = Some (chr <$> [127; 0; 0; 1]).
Proof. vm_compute. reflexivity. Qed.
Example parse_v6 : ParseIP (lit "2001:db8::1") = Some (chr <$> [32; 1; 13; 184; 0; 0; 0; 0; 0; 0; 0; 0; 0; 0; 0; 1]).
Proof. vm_compute. reflexivity. Qed.
Example parse_mapped : To4 (ParseIP (lit "::ffff:10.1.2.3")) = Some (chr <$> [10; 1; 2; 3]).
Proof. vm_compute. reflexivity. Qed.
Example parse_bad :
  ParseIP <$> (lit <$> [""; "1.2.3"; "1.2.3.4.5"; "01.2.3.4"; "1.2.3.256"; "::1%eth0"; "1:2"; ":1"; "1::2::3";
                        "1:2:3:4:5:6:7:8:9"; "12345::"; "1:"]%string)
  = replicate 12 None.
Proof. vm_compute. reflexivity. Qed.
