(* ===== verification/Journal.v ===== *)
(** * The IXFR journal (journal.go; the ChangeLog interface of server.go)

    [ChangeLog] is the interface the handler uses, with the contract its doc
    comment states ([ChangeLogSpec]).  [MemChangeLog] is the implementation.
    The abstract state of a journal is the base serial and the list of all
    deltas ever recorded; the implementation retains the last 4096. *)

From S2P Require Import Prelude Dns.

Record Delta := mkDelta { dSerial : Z; dRemoved : list RR; dAdded : list RR }.

#[export] Instance Delta_eq_dec : EqDecision Delta.
Proof. solve_decision. Defined.

(** ** The interface *)

Class ChangeLog (L : Type) := {
  Record_ : Z → list RR → list RR → L → L;
  (** The second component is [ok]; [None] is the nil slice. *)
  Deltas : Z → L → option (list Delta) * bool;
}.

(** The history [h] after base serial [b]: consecutive serials from [b + 1]. *)
Definition consecutive (b : Z) (h : list Delta) : Prop :=
  ∀ i d, h !! i = Some d → dSerial d = b + 1 + Z.of_nat i.

Class ChangeLogSpec (L : Type) `{ChangeLog L} := {
  log_repr : L → Z → list Delta → Prop;
  log_consecutive l b h : log_repr l b h → consecutive b h;
  log_record l b h removed added :
    log_repr l b h → 0 ≤ b → b + Z.of_nat (length h) + 1 < 2 ^ 32 →
    let s := b + Z.of_nat (length h) + 1 in
    log_repr (Record_ s removed added l) b (h ++ [mkDelta s removed added]);
  (** Every delta newer than [since], in application order, or nothing. *)
  log_deltas l b h since :
    log_repr l b h → 0 ≤ b → b + Z.of_nat (length h) < 2 ^ 32 → 0 ≤ since < 2 ^ 32 →
    Deltas since l = (None, false)
    ∨ (b ≤ since ≤ b + Z.of_nat (length h)
       ∧ Deltas since l = (Some (drop (Z.to_nat (since - b)) h), true));
}.

(** ** The in-memory journal *)

Module MemChangeLog.

(** A nil [deltas] map and an empty one behave the same; both are ∅. *)
Record t := mk {
  oldest : Z;                  (* lowest serial retained *)
  latest : Z;                  (* highest serial recorded *)
  deltas : gmap Z Delta;
  started : bool }.

Definition memChangeLogCap : Z := 4096.

Definition NewMemChangeLog (startSerial : Z) : t :=
  mk (u32 (startSerial + 1)) startSerial ∅ false.

(** One iteration of the pruning loop, on (oldest, deltas). *)
Definition prune_step (st : Z * gmap Z Delta) : (Z * gmap Z Delta) + (Z * gmap Z Delta) :=
  let '(o, m) := st in
  if memChangeLogCap <? Z.of_nat (size m) then inl (u32 (o + 1), delete o m) else inr (o, m).

(** [oldest] is a uint32, so 2^32 deletions empty the map. *)
Definition prune_fuel : positive := 4294967297.

Definition prune (o : Z) (m : gmap Z Delta) : Z * gmap Z Delta :=
  match loop prune_fuel prune_step (o, m) with inl r | inr r => r end.

Definition Record_ (serial : Z) (removed added : list RR) (c : t) : t :=
  let o := if negb (started c) && (oldest c =? 0) then serial else oldest c in
  let m := <[serial := mkDelta serial removed added]> (deltas c) in
  let l := if latest c <? serial then serial else latest c in
  let '(o', m') := prune o m in
  mk o' l m' true.

(** One iteration of the collecting loop, on (s, out). *)
Definition deltas_step (c : t) (st : Z * list Delta) :
    (Z * list Delta) + (option (list Delta) * bool) :=
  let '(s, out) := st in
  if s <=? latest c then
    match deltas c !! s with
    | None => inr (None, false)
    | Some d => inl (u32 (s + 1), out ++ [d])
    end
  else inr (Some out, true).

Definition Deltas (since : Z) (c : t) : option (list Delta) * bool :=
  if (latest c <? since) || (since <? u32 (oldest c - 1)) then (None, false)
  else
    match loop prune_fuel (deltas_step c) (u32 (since + 1), []) with
    | inr r => r
    | inl _ => (None, false)
    end.

#[export] Instance changelog : ChangeLog t := {| Journal.Record_ := Record_; Journal.Deltas := Deltas |}.

(** ** The abstraction *)

Definition cap : nat := Z.to_nat memChangeLogCap.

(** [c] retains the last [cap] deltas of the history [h] after base [b]. *)
Record repr (c : t) (b : Z) (h : list Delta) : Prop := {
  repr_consecutive : consecutive b h;
  repr_latest : latest c = b + Z.of_nat (length h);
  repr_oldest : oldest c = u32 (latest c - Z.of_nat (length h `min` cap) + 1);
  repr_deltas s : deltas c !! s =
    if decide (latest c - Z.of_nat (length h `min` cap) < s ≤ latest c)
    then h !! Z.to_nat (s - b - 1) else None;
  repr_size : size (deltas c) = (length h `min` cap)%nat;
  repr_started : h ≠ [] → started c = true;
}.

(** Serials the map can hold. *)
Definition u32_keys (m : gmap Z Delta) : Prop := ∀ s d, m !! s = Some d → 0 ≤ s < 2 ^ 32.

(** *** Pruning *)

Lemma prune_done o m : Z.of_nat (size m) ≤ memChangeLogCap → prune o m = (o, m).
Proof.
  intros H. unfold prune.
  rewrite (loop_inr _ 1 _ _ (o, m)); [done| |unfold prune_fuel; lia].
  cbn. by rewrite (proj2 (Z.ltb_ge _ _)).
Qed.

Lemma prune_one o m d : m !! o = Some d → Z.of_nat (size m) = memChangeLogCap + 1 →
  prune o m = (u32 (o + 1), delete o m).
Proof.
  intros Ho H. unfold prune.
  rewrite (loop_inr _ 2 _ _ (u32 (o + 1), delete o m)); [done| |unfold prune_fuel; lia].
  cbn. rewrite (proj2 (Z.ltb_lt _ _)) by lia. cbn.
  rewrite (proj2 (Z.ltb_ge _ _)); [done|]. rewrite map_size_delete, Ho. unfold memChangeLogCap in *. lia.
Qed.

(** After [n] deletions the first [n] serials from [o] are gone. *)
Lemma prune_progress n : ∀ o m o' m', 0 ≤ o < 2 ^ 32 →
  nloop n prune_step (o, m) = inl (o', m') →
  m' ⊆ m ∧ ∀ i, 0 ≤ i < Z.of_nat n → m' !! u32 (o + i) = None.
Proof.
  induction n as [|n IH]; intros o m o' m' Ho; cbn [nloop]; [intros [= <- <-]; split; [done|lia]|].
  unfold prune_step at 1. destruct (_ <? _); [|done]. intros Hn.
  apply IH in Hn as [Hsub Hnone]; [|apply u32_range]. split.
  - etrans; [exact Hsub|apply delete_subseteq].
  - intros i Hi. destruct (decide (i = 0)) as [->|Hne].
    + rewrite Z.add_0_r, u32_small by done. apply (lookup_weaken_None _ (delete o m)); [|done].
      apply lookup_delete_eq.
    + replace (u32 (o + i)) with (u32 (u32 (o + 1) + (i - 1))); [apply Hnone; lia|].
      unfold u32. rewrite Zplus_mod_idemp_l. f_equal. lia.
Qed.

Lemma nloop_prune_inr n : ∀ o m r, nloop n prune_step (o, m) = inr r →
  Z.of_nat (size r.2) ≤ memChangeLogCap.
Proof.
  induction n as [|n IH]; intros o m r; cbn [nloop]; [done|].
  unfold prune_step at 1. destruct (_ <? _) eqn:E; [apply IH|]. intros [= <-]. by apply Z.ltb_ge in E.
Qed.

(** The pruning loop ends within its fuel, whatever the map holds. *)
Lemma prune_terminates o m : 0 ≤ o < 2 ^ 32 → u32_keys m →
  ∃ r, loop prune_fuel prune_step (o, m) = inr r ∧ Z.of_nat (size r.2) ≤ memChangeLogCap.
Proof.
  intros Ho Hk. rewrite loop_nloop.
  replace (Pos.to_nat prune_fuel) with (Z.to_nat (2 ^ 32) + 1)%nat by (unfold prune_fuel; lia).
  rewrite nloop_add. destruct (nloop (Z.to_nat (2 ^ 32)) prune_step (o, m)) as [[o' m']|r] eqn:E.
  - apply prune_progress in E as [Hsub Hnone]; [|done].
    assert (m' = ∅) as ->.
    { apply map_empty. intros s. destruct (m' !! s) as [d|] eqn:Hs; [|done].
      assert (0 ≤ s < 2 ^ 32) as Hr by (eapply Hk, lookup_weaken; done).
      assert (m' !! u32 (o + u32 (s - o)) = None) as Hn.
      { apply Hnone. pose proof (u32_range (s - o)). lia. }
      replace (u32 (o + u32 (s - o))) with s in Hn; [congruence|].
      unfold u32. rewrite Zplus_mod_idemp_r. replace (o + (s - o)) with s by lia.
      symmetry. by apply Z.mod_small. }
    exists (o', ∅). cbn. split; [done|]. by unfold memChangeLogCap.
  - exists r. split; [done|]. by eapply nloop_prune_inr.
Qed.

(** *** Collecting *)

Lemma deltas_loop c b h k : ∀ s out, repr c b h → 0 ≤ b → latest c < 2 ^ 32 - 1 →
  latest c - Z.of_nat (length h `min` cap) < s → s + Z.of_nat k = latest c + 1 →
  nloop (S k) (deltas_step c) (s, out) = inr (Some (out ++ drop (Z.to_nat (s - b - 1)) h), true).
Proof.
  induction k as [|k IH]; intros s out Hr Hb Hl Hs Hk.
  - cbn. rewrite (proj2 (Z.leb_gt _ _)) by lia.
    rewrite drop_ge, app_nil_r; [done|]. rewrite (repr_latest _ _ _ Hr) in *. lia.
  - change (nloop (S (S k)) (deltas_step c) (s, out))
      with (match deltas_step c (s, out) with inl a' => nloop (S k) (deltas_step c) a' | r => r end).
    unfold deltas_step at 1. rewrite (proj2 (Z.leb_le _ _)) by lia.
    rewrite (repr_deltas _ _ _ Hr), decide_True by lia.
    pose proof (repr_latest _ _ _ Hr) as HL.
    destruct (h !! Z.to_nat (s - b - 1)) as [d|] eqn:Hd; [|apply lookup_ge_None in Hd; lia].
    rewrite u32_small, IH by (done || lia). rewrite <- app_assoc. f_equal. f_equal. f_equal. f_equal.
    rewrite (drop_S _ _ _ Hd). cbn. f_equal. f_equal. lia.
Qed.

(** *** The operations on a represented history *)

Lemma New_repr b : 0 ≤ b < 2 ^ 32 → repr (NewMemChangeLog b) b [].
Proof.
  intros Hb. split; cbn; try done; try lia.
  - f_equal. lia.
  - intros s. by case_decide; [lia|].
Qed.

Lemma repr_bounds c b h : repr c b h → 0 ≤ b →
  0 ≤ latest c - Z.of_nat (length h `min` cap) ≤ latest c.
Proof. intros [_ -> _ _ _ _] Hb. lia. Qed.

Lemma consecutive_snoc b h removed added : consecutive b h →
  consecutive b (h ++ [mkDelta (b + Z.of_nat (length h) + 1) removed added]).
Proof.
  intros Hc i d. rewrite lookup_app_Some. intros [H|[Hi H]]; [by apply Hc|].
  apply list_lookup_singleton_Some in H as [Hi' <-]. cbn. lia.
Qed.

(** The lookup side of [Record_]: the new delta is in, the window moves by [n]. *)
Lemma insert_window c b h d s' : repr c b h → 0 ≤ b →
  (<[latest c + 1 := d]> (deltas c)) !! s' =
    if decide (latest c - Z.of_nat (length h `min` cap) < s' ≤ latest c + 1)
    then (h ++ [d]) !! Z.to_nat (s' - b - 1) else None.
Proof.
  intros Hr Hb. pose proof (repr_bounds _ _ _ Hr Hb). pose proof (repr_latest _ _ _ Hr) as HL.
  destruct (decide (s' = latest c + 1)) as [->|Hne].
  - rewrite lookup_insert_eq, decide_True by lia.
    rewrite lookup_app_r by lia. by replace (_ - _)%nat with 0%nat by lia.
  - rewrite lookup_insert_ne by done. rewrite (repr_deltas _ _ _ Hr).
    repeat case_decide; try lia; [|done]. rewrite lookup_app_l; [done|lia].
Qed.

Lemma Record_repr c b h removed added :
  repr c b h → 0 ≤ b → b + Z.of_nat (length h) + 1 < 2 ^ 32 →
  let s := b + Z.of_nat (length h) + 1 in
  repr (Record_ s removed added c) b (h ++ [mkDelta s removed added]).
Proof.
  intros Hr Hb Hlt s. pose proof (repr_bounds _ _ _ Hr Hb) as Hw.
  pose proof (repr_latest _ _ _ Hr) as HL.
  set (d := mkDelta s removed added).
  assert (s = latest c + 1) as Hs by lia.
  pose proof (repr_oldest _ _ _ Hr) as Ho. rewrite u32_small in Ho by lia.
  assert (negb (started c) && (oldest c =? 0) = false) as Hst.
  { apply andb_false_iff. right. apply Z.eqb_neq. lia. }
  assert (deltas c !! s = None) as Hfresh.
  { rewrite (repr_deltas _ _ _ Hr). case_decide; [lia|done]. }
  assert (size (<[s := d]> (deltas c)) = S (length h `min` cap)) as Hsz.
  { by rewrite map_size_insert_None, (repr_size _ _ _ Hr). }
  unfold Record_. rewrite Hst. fold d. rewrite (proj2 (Z.ltb_lt _ _)) by lia.
  assert (Z.of_nat cap = 4096 ∧ memChangeLogCap = 4096) as [Hcap Hcap'] by (split; reflexivity).
  destruct (decide (length h < cap)%nat) as [Hc|Hc].
  - rewrite prune_done by lia. split; cbn.
    + by apply consecutive_snoc, (repr_consecutive _ _ _ Hr).
    + rewrite length_app. cbn. lia.
    + rewrite Ho, length_app, u32_small; cbn; lia.
    + intros s'. rewrite Hs, (insert_window _ _ _ _ _ Hr Hb), length_app. cbn [length].
      replace ((length h + 1) `min` cap)%nat with (length h `min` cap + 1)%nat by lia.
      repeat case_decide; lia || done.
    + rewrite Hsz, length_app. cbn. lia.
    + done.
  - assert (oldest c < s) as Hos by lia.
    rewrite (prune_one _ _ (default d (h !! Z.to_nat (oldest c - b - 1)))); [|rewrite lookup_insert_ne by lia|lia].
    2:{ rewrite (repr_deltas _ _ _ Hr), decide_True by lia.
        destruct (h !! _) eqn:E; [done|]. apply lookup_ge_None in E. lia. }
    split; cbn.
    + by apply consecutive_snoc, (repr_consecutive _ _ _ Hr).
    + rewrite length_app. cbn. lia.
    + rewrite Ho, length_app. cbn. f_equal. lia.
    + intros s'. rewrite length_app. cbn [length]. destruct (decide (s' = oldest c)) as [->|Hne].
      * rewrite lookup_delete_eq, decide_False by lia. done.
      * rewrite lookup_delete_ne, Hs, (insert_window _ _ _ _ _ Hr Hb) by done.
        repeat case_decide; lia || done.
    + rewrite map_size_delete, lookup_insert_ne, (repr_deltas _ _ _ Hr), decide_True by lia.
      destruct (h !! _) eqn:E; [rewrite Hsz, length_app; cbn; lia|apply lookup_ge_None in E; lia].
    + done.
Qed.

Lemma Deltas_repr c b h since :
  repr c b h → 0 ≤ b → latest c < 2 ^ 32 - 1 → 0 ≤ since →
  Deltas since c =
    if decide (latest c - Z.of_nat (length h `min` cap) ≤ since ≤ latest c)
    then (Some (drop (Z.to_nat (since - b)) h), true) else (None, false).
Proof.
  intros Hr Hb Hl Hs. pose proof (repr_bounds _ _ _ Hr Hb) as Hw.
  pose proof (repr_latest _ _ _ Hr) as HL. unfold Deltas.
  rewrite (repr_oldest _ _ _ Hr). rewrite (u32_small (_ - _ + 1)) by lia.
  rewrite (u32_small (_ - 1)) by lia.
  case_decide as Hd.
  - rewrite (proj2 (Z.ltb_ge _ _)), (proj2 (Z.ltb_ge _ _)) by lia. cbn [orb].
    rewrite u32_small by lia.
    rewrite (loop_inr _ (S (Z.to_nat (latest c - since))) _ _
      (Some (drop (Z.to_nat (since - b)) h), true)); [done| |unfold prune_fuel; lia].
    rewrite (deltas_loop c b h) by (done || lia). by replace (since + 1 - b - 1) with (since - b) by lia.
  - destruct (Z.ltb_spec (latest c) since); [done|].
    rewrite (proj2 (Z.ltb_lt _ _)); [done|lia].
Qed.

(** At the last serial the loop variable wraps to 0 instead of passing [latest]. *)
Lemma deltas_loop_wrap c k : ∀ s out, latest c = 2 ^ 32 - 1 → deltas c !! 0 = None →
  (0 < k)%nat → s + Z.of_nat k = 2 ^ 32 → 0 ≤ s →
  nloop (S k) (deltas_step c) (s, out) = inr (None, false).
Proof.
  induction k as [|k IH]; intros s out Hl H0 Hk Hs Hp; [lia|].
  change (nloop (S (S k)) (deltas_step c) (s, out))
    with (match deltas_step c (s, out) with inl a' => nloop (S k) (deltas_step c) a' | r => r end).
  unfold deltas_step at 1. rewrite (proj2 (Z.leb_le _ _)) by lia.
  destruct (deltas c !! s) as [d|]; [|done].
  destruct k as [|k]; [|rewrite u32_small by lia; apply IH; (done || lia)].
  replace (u32 (s + 1)) with 0 by (replace (s + 1) with (2 ^ 32) by lia; reflexivity).
  cbn. rewrite Hl, H0. done.
Qed.

Lemma Deltas_wrap c since : latest c = 2 ^ 32 - 1 → deltas c !! 0 = None → 0 ≤ since < 2 ^ 32 →
  Deltas since c = (None, false).
Proof.
  intros Hl H0 Hs. unfold Deltas. case_match; [done|].
  destruct (decide (since = 2 ^ 32 - 1)) as [->|Hne].
  - rewrite (loop_inr _ 1 _ _ (None, false)); [done| |unfold prune_fuel; lia].
    replace (u32 _) with 0 by reflexivity. cbn. by rewrite Hl, H0.
  - rewrite u32_small by lia.
    rewrite (loop_inr _ (S (Z.to_nat (2 ^ 32 - since - 1))) _ _ (None, false));
      [done| |unfold prune_fuel; lia].
    apply deltas_loop_wrap; (done || lia).
Qed.

(** The implementation keeps the interface's contract. *)
#[export] Instance changelog_spec : ChangeLogSpec t.
Proof.
  refine {| log_repr := repr |}.
  - by intros c b h [].
  - intros c b h removed added. apply Record_repr.
  - intros c b h since Hr Hb Hlt Hs. change (Journal.Deltas since c) with (Deltas since c).
    pose proof (repr_latest _ _ _ Hr) as HL. pose proof (repr_bounds _ _ _ Hr Hb) as Hw.
    destruct (decide (latest c = 2 ^ 32 - 1)) as [Hl|Hl].
    + left. apply Deltas_wrap; [done| |lia]. rewrite (repr_deltas _ _ _ Hr), decide_False; [done|].
      assert (Z.of_nat cap = 4096) by reflexivity. lia.
    + rewrite (Deltas_repr _ _ _ _ Hr Hb) by lia. case_decide; [right|by left]. split; [lia|done].
Defined.

(** *** Properties *)

(** C25. Recording the next serial refines appending to the history: the journal
    keeps exactly the last 4096 deltas, whatever was recorded before. *)
Theorem Record_refines_append c b h removed added :
  repr c b h → 0 ≤ b → b + Z.of_nat (length h) + 1 < 2 ^ 32 →
  repr (Record_ (b + Z.of_nat (length h) + 1) removed added c) b
    (h ++ [mkDelta (b + Z.of_nat (length h) + 1) removed added]).
Proof. apply Record_repr. Qed.

(** C26. Below the last serial, [Deltas since] answers exactly: every delta newer
    than [since] in application order when the last 4096 reach back to it, and
    "unknown" otherwise. *)
Theorem Deltas_exact c b h since :
  repr c b h → 0 ≤ b → latest c < 2 ^ 32 - 1 → 0 ≤ since →
  Deltas since c =
    if decide (latest c - Z.of_nat (length h `min` cap) ≤ since ≤ latest c)
    then (Some (drop (Z.to_nat (since - b)) h), true) else (None, false).
Proof. apply Deltas_repr. Qed.

(** C27. A record leaves at most 4096 deltas whatever state it starts in, and its
    pruning loop ends within 2^32 iterations. *)
Theorem Record_bounded c serial removed added :
  0 ≤ oldest c < 2 ^ 32 → 0 ≤ serial < 2 ^ 32 → u32_keys (deltas c) →
  (∃ r, loop prune_fuel prune_step
          (if negb (started c) && (oldest c =? 0) then serial else oldest c,
           <[serial := mkDelta serial removed added]> (deltas c)) = inr r)
  ∧ Z.of_nat (size (deltas (Record_ serial removed added c))) ≤ memChangeLogCap.
Proof.
  intros Ho Hs Hk. unfold Record_, prune.
  edestruct prune_terminates as (r & Hr & Hsz); [| |rewrite Hr].
  - destruct (_ && _); lia.
  - intros s d. rewrite lookup_insert_Some. intros [[<- _]|[_ H]]; [done|by eapply Hk].
  - split; [by exists r|]. by destruct r.
Qed.

(** Once the serial reaches 2^32 - 1 the journal answers "unknown" to every
    client, an up-to-date one included: the loop counter wraps to 0 before it
    can pass [latest]. *)
Theorem Deltas_last_serial_unknown c b h since :
  repr c b h → 0 ≤ b → b + Z.of_nat (length h) = 2 ^ 32 - 1 → 0 ≤ since < 2 ^ 32 →
  Deltas since c = (None, false).
Proof.
  intros Hr Hb Hl Hs. pose proof (repr_latest _ _ _ Hr) as HL.
  apply Deltas_wrap; [lia| |done]. rewrite (repr_deltas _ _ _ Hr), decide_False; [done|].
  assert (Z.of_nat cap = 4096) by reflexivity. lia.
Qed.

(** *** Witnesses *)

Definition one_record : t := Record_ 101 [] [] (NewMemChangeLog 100).

Lemma one_record_repr : repr one_record 100 [mkDelta 101 [] []].
Proof. apply (Record_repr _ 100 []); [apply New_repr|cbn..]; lia. Qed.

Lemma Record_refines_append_witness :
  repr (Record_ 102 [] [] one_record) 100 [mkDelta 101 [] []; mkDelta 102 [] []].
Proof. apply (Record_refines_append one_record 100 [mkDelta 101 [] []]); [apply one_record_repr|cbn; lia..]. Defined.

Lemma Deltas_exact_witness : Deltas 100 one_record = (Some [mkDelta 101 [] []], true).
Proof. apply (Deltas_exact one_record 100 [mkDelta 101 [] []]); [apply one_record_repr|vm_compute; congruence..]. Defined.

Lemma Record_bounded_witness : Z.of_nat (size (deltas (Record_ 101 [] [] (NewMemChangeLog 100)))) ≤ 4096.
Proof.
  apply (Record_bounded (NewMemChangeLog 100)); [by vm_compute; split; discriminate || reflexivity..|].
  intros s d H. by apply (lookup_empty_Some s d) in H.
Defined.

Lemma Deltas_last_serial_unknown_witness : Deltas 4294967295 (NewMemChangeLog 4294967295) = (None, false).
Proof. apply (Deltas_last_serial_unknown _ 4294967295 []); [apply New_repr|cbn..]; lia. Defined.
End MemChangeLog.
