(* ===== verification/Store.v ===== *)
(** * Storage (the interfaces of store.go; the demo store of sample.go)

    [Store], [Reader] and [Writer] are the Go interfaces; a type assertion such
    as [h.store.(Writer)] is the field [writer] of the instance.
    [FullStoreSpec] is what the handlers' theorems assume of a store, and
    [sampleStore] discharges it. *)

From S2P Require Import Prelude GoStrings Json.

Record Entry := mkEntry { eKey : str; eItem : Item }.

(** ** Interfaces *)

(** [List_] is the sequence of pages the callback is given, and the error the
    enumeration ends with; a callback that fails stops it early, which is the
    caller's fold. *)
Record Reader (W : Type) := {
  List_ : W → list (list Entry) * option error;
  QueryIndex : W → str → str → res (list Entry);
}.
Arguments List_ {W}.
Arguments QueryIndex {W}.

(** A write returns the new state of the store and the Go error. *)
Record Writer (W : Type) := {
  Put : W → str → Item → W * option error;
  Delete : W → str → W * option error;
}.
Arguments Put {W}.
Arguments Delete {W}.

Class Store (W : Type) := {
  Get : W → str → res Item;
  reader : option (Reader W);
  writer : option (Writer W);
}.

(** What a store with all interfaces promises.  [view w] is the table: the
    items with a non-nil value.  [stored k i] is what an item written under [k]
    reads back as. *)
Class FullStoreSpec (W : Type) `{Store W} := {
  full_reader : Reader W;
  full_writer : Writer W;
  reader_full : reader = Some full_reader;
  writer_full : writer = Some full_writer;
  view : W → gmap str gomap;
  stored : str → Item → Item;
  get_view w k i : Get w k = Ok i → i = view w !! k;
  put_view w k i w' : Put full_writer w k i = (w', None) →
    view w' = partial_alter (λ _, stored k i) k (view w);
  delete_view w k w' : Delete full_writer w k = (w', None) → view w' = delete k (view w);
  list_view w pages : List_ full_reader w = (pages, None) →
    (∀ e, e ∈ concat pages → eItem e = view w !! eKey e)
    ∧ (∀ k m, view w !! k = Some m → mkEntry k (Some m) ∈ concat pages)
    ∧ NoDup (eKey <$> concat pages);
}.

(** ** The demo store *)

Module Sample.

Record sampleStore := mk {
  items : gmap str Item;
  gsIs : gmap str (Item → str);
}.

(** [v, _ := item[a].(string); return v] *)
Definition extractor (a : str) (item : Item) : str :=
  match item with
  | Some m => match map_get a m with Some (VString v) => v | _ => [] end
  | None => []
  end.

Definition of_list (l : list (str * value)) : Item := Some (foldr (λ '(k, v) m, map_set k v m) [] l).

Definition f64_lit (s : String.string) : value := VFloat (Float64.parse_ok s).

Definition clause4 : str := concat (replicate 60 (lit "4. This clause exists purely to force truncation. ")).

Definition demoItems : list (str * Item) :=
  [ (lit "user.alice", of_list [
       (lit "pk", VString (lit "user.alice"));
       (lit "plan", VString (lit "enterprise"));
       (lit "email", VString (lit "alice@example.com"));
       (lit "limits", VMap (default [] (of_list [(lit "riCoverage", f64_lit "100.0");
                                    (lit "dataTransferBudgetTb", f64_lit "42.0")])))]);
    (lit "user.bob", of_list [
       (lit "pk", VString (lit "user.bob"));
       (lit "plan", VString (lit "free-tier"));
       (lit "email", VString (lit "bob@example.com"))]);
    (lit "user.carol", of_list [
       (lit "pk", VString (lit "user.carol"));
       (lit "plan", VString (lit "enterprise"));
       (lit "email", VString (lit "carol@example.com"))]);
    (lit "contract.nda-001", of_list [
       (lit "pk", VString (lit "contract.nda-001"));
       (lit "parties", VList [VString (lit "Alice LLC"); VString (lit "Bob Corp")]);
       (lit "effective", VString (lit "2026-01-15"));
       (lit "clauses", VList [
          VString (lit "1. The Parties agree that DNS is a database protocol.");
          VString (lit "2. Queries over UDP exceeding 512 bytes shall set the truncate bit.");
          VString (lit "3. The receiving client may retry over TCP at its discretion.");
          VString clause4])]) ].

Definition NewFullSampleStore (gsiAttrs : gmap str str) : sampleStore :=
  mk (list_to_map demoItems) (extractor <$> gsiAttrs).

Definition Get (m : sampleStore) (pk : str) : res Item :=
  match items m !! pk with Some v => Ok v | None => Ok None end.

Definition Put (m : sampleStore) (pk : str) (item : Item) : sampleStore * option error :=
  (mk (<[pk := item]> (items m)) (gsIs m), None).

Definition Delete (m : sampleStore) (pk : str) : sampleStore * option error :=
  (mk (delete pk (items m)) (gsIs m), None).

(** The keys in sorted order; Go collects them in the map's random order. *)
Definition sorted_keys (m : sampleStore) : list str := Strings (elements (dom (items m))).

(** [m.items[k]]: a missing key reads as the nil map. *)
Definition item_at (m : sampleStore) (k : str) : Item := default None (items m !! k).

Definition List (m : sampleStore) : list (list Entry) * option error :=
  ([ (λ k, mkEntry k (item_at m k)) <$> sorted_keys m ], None).

Definition unknownIndexError (index : str) : error := EMsg (lit "unknown index ") index.

Definition QueryIndex (m : sampleStore) (index value : str) : res (list Entry) :=
  match gsIs m !! index with
  | None => Err (unknownIndexError index)
  | Some extract =>
      Ok ((λ k, mkEntry k (item_at m k)) <$>
          filter (λ k, extract (item_at m k) = value) (sorted_keys m))
  end.

Definition sample_reader : Reader sampleStore := {| List_ := List; Store.QueryIndex := QueryIndex |}.
Definition sample_writer : Writer sampleStore := {| Store.Put := Put; Store.Delete := Delete |}.

#[export] Instance sample_store : Store sampleStore := {|
  Store.Get := Get; reader := Some sample_reader; writer := Some sample_writer |}.

Definition view (m : sampleStore) : gmap str gomap := omap id (items m).

(** *** Lemmas *)

Lemma view_lookup m k : view m !! k = item_at m k.
Proof. unfold view, item_at. rewrite lookup_omap. by destruct (items m !! k) as [[i|]|]. Qed.

Lemma sorted_keys_spec m k : k ∈ sorted_keys m ↔ is_Some (items m !! k).
Proof.
  unfold sorted_keys. by rewrite Strings_perm, elem_of_elements, elem_of_dom.
Qed.

Lemma sorted_keys_NoDup m : NoDup (sorted_keys m).
Proof. unfold sorted_keys. rewrite Strings_perm. apply NoDup_elements. Qed.

Lemma view_put m k i m' : Put m k i = (m', None) → view m' = partial_alter (λ _, i) k (view m).
Proof.
  intros [= <-]. apply map_eq. intros k'. rewrite view_lookup. unfold item_at. cbn.
  destruct (decide (k = k')) as [->|Hne].
  - by rewrite lookup_insert_eq, lookup_partial_alter_eq.
  - rewrite lookup_insert_ne, lookup_partial_alter_ne, view_lookup by done. done.
Qed.

Lemma view_delete m k m' : Delete m k = (m', None) → view m' = delete k (view m).
Proof.
  intros [= <-]. apply map_eq. intros k'. rewrite view_lookup. unfold item_at. cbn.
  destruct (decide (k = k')) as [->|Hne].
  - by rewrite !lookup_delete_eq.
  - rewrite !lookup_delete_ne, view_lookup by done. done.
Qed.

#[export] Instance sample_store_spec : FullStoreSpec sampleStore.
Proof.
  refine {| full_reader := sample_reader; full_writer := sample_writer;
            Store.view := view; stored _ i := i |}; try done.
  - intros m k i. cbn. unfold Get. rewrite view_lookup. unfold item_at.
    by destruct (items m !! k); intros [= <-].
  - apply view_put.
  - apply view_delete.
  - intros m pages [= <-]. cbn [concat]. rewrite app_nil_r. split_and!.
    + intros e (k & -> & _)%list_elem_of_fmap. by rewrite view_lookup.
    + intros k v Hk. apply list_elem_of_fmap. exists k. rewrite view_lookup in Hk. rewrite Hk.
      split; [done|]. apply sorted_keys_spec. unfold item_at in Hk.
      by destruct (items m !! k); [eauto|].
    + rewrite <- list_fmap_compose. rewrite (list_fmap_ext _ id) by done.
      rewrite list_fmap_id. apply sorted_keys_NoDup.
Defined.

(** *** Properties *)

(** An index query on the demo store answers, in key order, exactly the
    items whose indexed attribute has the value; an index that is not
    configured is an error. *)
Theorem QueryIndex_exact m index value entries :
  QueryIndex m index value = Ok entries →
  ∃ extract, gsIs m !! index = Some extract
  ∧ StronglySorted str_le (eKey <$> entries)
  ∧ NoDup (eKey <$> entries)
  ∧ ∀ k i, mkEntry k i ∈ entries ↔ items m !! k = Some i ∧ extract i = value.
Proof.
  unfold QueryIndex. destruct (gsIs m !! index) as [extract|]; [|done]. intros [= <-].
  exists extract. split; [done|].
  rewrite <- list_fmap_compose, (list_fmap_ext _ id), list_fmap_id by done.
  split_and!.
  - apply StronglySorted_filter, Strings_sorted.
  - apply NoDup_filter, sorted_keys_NoDup.
  - intros k i. rewrite list_elem_of_fmap. setoid_rewrite list_elem_of_filter.
    setoid_rewrite sorted_keys_spec. split.
    + intros (k' & [= <- ->] & Hv & [j Hj]). unfold item_at in *. by rewrite Hj in *.
    + intros [Hk Hv]. exists k. unfold item_at. rewrite Hk. cbn. eauto.
Qed.

Definition demo_store : sampleStore := NewFullSampleStore {[lit "gsi-plan" := lit "plan"]}.

Lemma QueryIndex_exact_witness :
  (eKey <$> match QueryIndex demo_store (lit "gsi-plan") (lit "enterprise") with Ok l => l | Err _ => [] end)
    = [lit "user.alice"; lit "user.carol"]
  ∧ ∃ extract, gsIs demo_store !! lit "gsi-plan" = Some extract.
Proof.
  split; [vm_compute; reflexivity|].
  destruct (QueryIndex demo_store (lit "gsi-plan") (lit "enterprise")) as [l|e] eqn:E.
  - destruct (QueryIndex_exact demo_store _ _ l E) as (x & Hx & _). eauto.
  - exfalso. vm_compute in E. discriminate E.
Defined.
End Sample.
