(* ===== verification/Dynamo.v ===== *)
(** * The DynamoDB store (store.go)

    [dynamoStore] over an abstract client.  The AWS SDK is the class
    [DynamoDB]: its calls on a state of the service.  The fields of the Go
    struct never change after construction, so they are a parameter of the
    store instance and the service's state is the store's state.
    What a table that nobody else writes does with rows that are read
    consistently is in DynamoSpec.v ([DynamoRows]). *)

From S2P Require Import Prelude GoStrings Codec Float64 Json Store.

(** ** Attribute values (package types) *)

Inductive AttributeValue : Type :=
  | AV_S (s : str)
  | AV_N (s : str)
  | AV_B (b : str)
  | AV_BOOL (b : bool)
  | AV_NULL (b : bool)
  | AV_SS (l : list str)
  | AV_NS (l : list str)
  | AV_BS (l : list str)
  | AV_L (l : list AttributeValue)
  | AV_M (m : list (str * AttributeValue))
  | AV_Unknown (tag : str).

(** A Go map is its entry list in key order, as in Json.v. *)
Abbreviation avmap := (list (str * AttributeValue)).

(** ** flatten and unflatten *)

Definition jsonNumber (n : str) : res value :=
  match ParseFloat n with
  | Err _ => Err (EMsg (lit "invalid number") n)
  | Ok _ => Ok (VNumber n)
  end.

Definition base64 (b : str) : str := Base64.EncodeToString Base64.StdEncoding b.

Fixpoint flatten (v : AttributeValue) : res value :=
  match v with
  | AV_S s => Ok (VString s)
  | AV_N n => jsonNumber n
  | AV_B b => Ok (VString (base64 b))
  | AV_BOOL b => Ok (VBool b)
  | AV_NULL _ => Ok VNil
  | AV_SS l => Ok (VStrings l)
  | AV_NS l => res_map VList (mapM_res jsonNumber l)
  | AV_BS l => Ok (VStrings (base64 <$> l))
  | AV_L l => res_map VList (mapM_res flatten l)
  | AV_M m => res_map VMap (mapM_res (λ '(k, e), x <-? res_wrap (lit "attribute") k (flatten e); Ok (k, x)) m)
  | AV_Unknown t => Err (EMsg (lit "unsupported attribute value type") t)
  end.

Fixpoint unflatten (v : value) : res AttributeValue :=
  match v with
  | VNil => Ok (AV_NULL true)
  | VString s => Ok (AV_S s)
  | VBool b => Ok (AV_BOOL b)
  | VFloat f => Ok (AV_N (FormatFloat_f f))
  | VNumber n => Ok (AV_N n)
  | VStrings l => Ok (AV_SS l)
  | VList l => res_map AV_L (mapM_res unflatten l)
  | VMap m => res_map AV_M (mapM_res (λ '(k, e), x <-? res_wrap (lit "attribute") k (unflatten e); Ok (k, x)) m)
  end.

(** The loop over the attributes of one row. *)
Definition flatten_row (r : avmap) : res gomap :=
  mapM_res (λ '(k, v), x <-? res_wrap (lit "attribute") k (flatten v); Ok (k, x)) r.

(** ** The client *)

Class DynamoDB (C : Type) := {
  (** table, key attribute, key, ConsistentRead; [None] is a nil Item *)
  GetItem : C → str → str → str → bool → res (option avmap);
  PutItem : C → str → avmap → C * option error;
  DeleteItem : C → str → str → str → C * option error;
  (** the pages of a paginator and the error that ends it *)
  Scan : C → str → list (list avmap) * option error;
  (** table, index, attribute, value *)
  QueryPages : C → str → str → str → str → list (list avmap) * option error;
}.

(** The immutable fields of the Go struct. *)
Record dynamoStore := mkDynamo {
  table : str; pkAttr : str; consistent : bool; gsiAttrs : gmap str str }.

Definition NewFullDynamoStore (table pkAttr : str) (consistent : bool) (gsiAttrs : gmap str str) : dynamoStore :=
  mkDynamo table pkAttr consistent gsiAttrs.

Definition NewDynamoStore (table pkAttr : str) (consistent : bool) : dynamoStore :=
  NewFullDynamoStore table pkAttr consistent ∅.

Section Dynamo.
Context {C : Type} `{API : DynamoDB C}.
Variable s : dynamoStore.

Definition Get (c : C) (pk : str) : res Item :=
  match GetItem c (table s) (pkAttr s) pk (consistent s) with
  | Err e => Err (EWrap (lit "dynamodb GetItem") [] e)
  | Ok None => Ok None
  | Ok (Some r) => res_map Some (flatten_row r)
  end.

(** The attribute map Put builds: the key first, then every other attribute. *)
Definition put_row (pk : str) (item : Item) : res avmap :=
  vals <-? mapM_res (λ '(k, v), x <-? res_wrap (lit "attribute") k (unflatten v); Ok (k, x))
             (filter (λ kv, kv.1 ≠ pkAttr s) (default [] item));
  Ok (foldl (λ m '(k, x), map_set k x m) [(pkAttr s, AV_S pk)] vals).

Definition wrap_err (ctx : str) (e : option error) : option error :=
  match e with Some e => Some (EWrap ctx [] e) | None => None end.

Definition Put (c : C) (pk : str) (item : Item) : C * option error :=
  match put_row pk item with
  | Err e => (c, Some e)
  | Ok r => let '(c', e) := PutItem c (table s) r in (c', wrap_err (lit "dynamodb PutItem") e)
  end.

Definition Delete (c : C) (pk : str) : C * option error :=
  let '(c', e) := DeleteItem c (table s) (pkAttr s) pk in (c', wrap_err (lit "dynamodb DeleteItem") e).

(** The entry of one scanned row; rows without a string key are skipped. *)
Definition row_entry (r : avmap) : res (option Entry) :=
  match map_get (pkAttr s) r with
  | Some (AV_S k) => m <-? flatten_row r; Ok (Some (mkEntry k (Some m)))
  | _ => Ok None
  end.

Definition page_entries (p : list avmap) : res (list Entry) :=
  l <-? mapM_res row_entry p; Ok (omap id l).

(** The pages handed to the callback before an attribute fails to flatten or
    the paginator does. *)
Fixpoint list_pages (pages : list (list avmap)) (final : option error) : list (list Entry) * option error :=
  match pages with
  | [] => ([], wrap_err (lit "dynamodb Scan") final)
  | p :: rest =>
      match page_entries p with
      | Err e => ([], Some e)
      | Ok es => let '(out, err) := list_pages rest final in (es :: out, err)
      end
  end.

Definition List (c : C) : list (list Entry) * option error :=
  let '(pages, err) := Scan c (table s) in list_pages pages err.

(** The entry of one queried row.  [flat.(string)] on a key attribute that is
    no string panics, which ends the process; that is the last error here. *)
Definition query_entry (r : avmap) : res Entry :=
  m <-? flatten_row r;
  match map_get (pkAttr s) m with
  | None => Ok (mkEntry [] (Some m))
  | Some (VString k) => Ok (mkEntry k (Some m))
  | Some _ => Err (EMsg (lit "panic: interface conversion") (pkAttr s))
  end.

Definition QueryIndex (c : C) (index value : str) : res (list Entry) :=
  match gsiAttrs s !! index with
  | None => Err (EMsg (lit "unknown index") index)
  | Some attr =>
      let '(pages, err) := QueryPages c (table s) index attr value in
      out <-? mapM_res query_entry (concat pages);
      match err with
      | Some e => Err (EWrap (lit "dynamodb Query") index e)
      | None => Ok out
      end
  end.

Definition dynamo_reader : Reader C := {| List_ := List; Store.QueryIndex := QueryIndex |}.
Definition dynamo_writer : Writer C := {| Store.Put := Put; Store.Delete := Delete |}.

Definition dynamo_store : Store C := {|
  Store.Get := Get; reader := Some dynamo_reader; writer := Some dynamo_writer |}.
End Dynamo.
