(* ===== verification/DynamoSpec.v ===== *)
(** * Correctness of the DynamoDB store

    Under the documented behaviour of a table at rest, [dynamoStore] keeps the
    store contract, so the handlers' theorems hold for it; what a value loses
    on its way to the table and back. *)

From S2P Require Import Prelude GoStrings Codec Float64 Utf8 Json JsonSpec Store Dynamo.

(** ** Generic lemmas *)

Lemma mapM_res_Forall2 {A B} (f : A → res B) l k : mapM_res f l = Ok k → Forall2 (λ x y, f x = Ok y) l k.
Proof.
  revert k. induction l as [|x l IH]; intros k; cbn; [by intros [= <-]|].
  destruct (f x) eqn:E; cbn; [|done]. destruct (mapM_res f l); cbn; [|done]. intros [= <-]. auto.
Qed.

Lemma Forall2_mapM_res {A B} (f : A → res B) l k : Forall2 (λ x y, f x = Ok y) l k → mapM_res f l = Ok k.
Proof. induction 1 as [|x y l k Hf _ IH]; cbn; [done|]. by rewrite Hf, IH. Qed.

Lemma Forall2_concat_lists {A B} (R : A → B → Prop) ls ks :
  Forall2 (Forall2 R) ls ks → Forall2 R (concat ls) (concat ks).
Proof. induction 1; cbn; [constructor|]. by apply Forall2_app. Qed.

Lemma map_get_set {A} k (v : A) m k' : map_get k' (map_set k v m) = if bool_decide (k' = k) then Some v else map_get k' m.
Proof.
  induction m as [|[k0 v0] m IH]; cbn [map_set map_get].
  - done.
  - repeat case_bool_decide; subst; cbn [map_get]; repeat case_bool_decide; subst; try done;
      destruct (str_leb k k0); cbn [map_get]; rewrite ?IH; repeat case_bool_decide; subst; done.
Qed.

(** A loop that converts the values of a map keeps its keys. *)
Lemma map_get_mapM {A B} (f : A → res B) m m' k :
  mapM_res (λ '(k, v), x <-? res_wrap (lit "attribute") k (f v); Ok (k, x)) m = Ok m' →
  match map_get k m with
  | None => map_get k m' = None
  | Some v => ∃ x, f v = Ok x ∧ map_get k m' = Some x
  end.
Proof.
  revert m'. induction m as [|[k0 v0] m IH]; intros m'; cbn.
  - by intros [= <-].
  - destruct (f v0) as [x|e] eqn:E; cbn; [|done]. destruct (mapM_res _ m) as [m1|]; cbn; [|done].
    intros [= <-]. cbn. case_bool_decide; [eauto|]. by apply IH.
Qed.

(** ** What a table does to a row

    DynamoDB "trims leading and trailing zeroes" of numbers, and "the order of
    the values within a set is not preserved": a row is read back up to these. *)

(** The decimal that a numeral denotes, as a mantissa and an exponent. *)
Definition decimal_of (n : str) : option (Z * Z) :=
  match readFloat n with
  | Some (neg, false, m, e) => Some (if neg : bool then - m else m, e)
  | _ => None
  end.

Definition same_decimal (x y : Z * Z) : Prop :=
  let e := Z.min x.2 y.2 in x.1 * 10 ^ (x.2 - e) = y.1 * 10 ^ (y.2 - e).

Definition number_same (a b : str) : Prop :=
  a = b ∨ ∃ x y, decimal_of a = Some x ∧ decimal_of b = Some y ∧ same_decimal x y.

Example trimmed_zeroes : number_same (lit "07.50") (lit "7.5").
Proof. right. eexists _, _. split; [vm_compute; reflexivity|]. split; vm_compute; reflexivity. Qed.

Inductive av_same : AttributeValue → AttributeValue → Prop :=
  | same_refl v : av_same v v
  | same_N a b : number_same a b → av_same (AV_N a) (AV_N b)
  | same_SS l k : l ≡ₚ k → av_same (AV_SS l) (AV_SS k)
  | same_BS l k : l ≡ₚ k → av_same (AV_BS l) (AV_BS k)
  | same_NS l j k : l ≡ₚ j → Forall2 number_same j k → av_same (AV_NS l) (AV_NS k)
  | same_L l k : Forall2 av_same l k → av_same (AV_L l) (AV_L k)
  | same_M l k : Forall2 (λ x y, x.1 = y.1 ∧ av_same x.2 y.2) l k → av_same (AV_M l) (AV_M k).

Definition row_same (r r' : avmap) : Prop := Forall2 (λ x y, x.1 = y.1 ∧ av_same x.2 y.2) r r'.

(** The same on values: what differs between two JSON objects read from it. *)
Inductive value_same : value → value → Prop :=
  | vsame_refl v : value_same v v
  | vsame_number a b : number_same a b → value_same (VNumber a) (VNumber b)
  | vsame_strings l k : l ≡ₚ k → value_same (VStrings l) (VStrings k)
  | vsame_list l k : Forall2 value_same l k → value_same (VList l) (VList k)
  | vsame_map l k : Forall2 (λ x y, x.1 = y.1 ∧ value_same x.2 y.2) l k → value_same (VMap l) (VMap k).

Lemma map_get_same {A B} (R : A → B → Prop) r r' a :
  Forall2 (λ x y, x.1 = y.1 ∧ R x.2 y.2) r r' → option_Forall2 R (map_get a r) (map_get a r').
Proof.
  induction 1 as [|[k x] [k' y] r r' [Hk Hx] _ IH]; cbn in *; [constructor|]. subst k'.
  case_bool_decide; [by constructor|done].
Qed.

Lemma row_same_key r r' a k : row_same r r' → map_get a r = Some (AV_S k) → map_get a r' = Some (AV_S k).
Proof. intros H%(map_get_same _ _ _ a) E. rewrite E in H. inversion H as [? y Hy|]; subst. by inversion Hy. Qed.

Section Laws.
Context {C : Type} `{API : DynamoDB C}.

(** The rows that were put, by key, and what GetItem, PutItem, DeleteItem and
    Scan do on a table at rest whose key schema is the one string attribute
    [pkAttr s]: a consistent read answers the row that was put up to
    [row_same]. *)
Class DynamoRows (s : dynamoStore) := {
  rows : C → gmap str avmap;
  rows_key c k r : rows c !! k = Some r → map_get (pkAttr s) r = Some (AV_S k);
  GetItem_rows c k o : GetItem c (table s) (pkAttr s) k (consistent s) = Ok o → option_Forall2 row_same (rows c !! k) o;
  PutItem_rows c r k c' : map_get (pkAttr s) r = Some (AV_S k) →
    PutItem c (table s) r = (c', None) → rows c' = <[k := r]> (rows c);
  DeleteItem_rows c k c' : DeleteItem c (table s) (pkAttr s) k = (c', None) → rows c' = delete k (rows c);
}.

(** The store contract also wants reads of one row to agree: the table keeps
    one representation of each row, [kept]. *)
Class DynamoLaws (s : dynamoStore) := {
  #[global] laws_rows :: DynamoRows s;
  kept : avmap → avmap;
  kept_same r : row_same r (kept r);
  GetItem_kept c k o : GetItem c (table s) (pkAttr s) k (consistent s) = Ok o → o = kept <$> rows c !! k;
  Scan_kept c pages : Scan c (table s) = (pages, None) → concat pages ≡ₚ kept <$> (map_to_list (rows c)).*2;
}.

Variable s : dynamoStore.
Context `{LAWS : !DynamoLaws s}.

(** What the table holds. *)
Definition held (c : C) : gmap str avmap := kept <$> rows c.

Lemma held_key c k r : held c !! k = Some r → map_get (pkAttr s) r = Some (AV_S k).
Proof.
  unfold held. rewrite lookup_fmap. intros (r0 & Hr%rows_key & ->)%fmap_Some. by apply (row_same_key r0); [apply kept_same|].
Qed.

Lemma GetItem_held c k o : GetItem c (table s) (pkAttr s) k (consistent s) = Ok o → o = held c !! k.
Proof. unfold held. rewrite lookup_fmap. apply GetItem_kept. Qed.

Lemma PutItem_held c r k c' : map_get (pkAttr s) r = Some (AV_S k) →
  PutItem c (table s) r = (c', None) → held c' = <[k := kept r]> (held c).
Proof. intros Hk Hp. unfold held. by rewrite (PutItem_rows c r k c' Hk Hp), fmap_insert. Qed.

Lemma DeleteItem_held c k c' : DeleteItem c (table s) (pkAttr s) k = (c', None) → held c' = delete k (held c).
Proof. intros Hd. unfold held. by rewrite (DeleteItem_rows c k c' Hd), fmap_delete. Qed.

Lemma Scan_held c pages : Scan c (table s) = (pages, None) → concat pages ≡ₚ (map_to_list (held c)).*2.
Proof.
  intros ->%Scan_kept. unfold held. rewrite map_to_list_fmap, <- !list_fmap_compose. apply reflexive_eq.
  apply list_fmap_ext. by intros i [k r].
Qed.

Definition row_item (r : avmap) : option gomap := match flatten_row r with Ok m => Some m | Err _ => None end.

Definition dynamo_view (c : C) : gmap str gomap := omap row_item (held c).

(** What an item written under [k] reads back as. *)
Definition dynamo_stored (k : str) (i : Item) : Item :=
  match put_row s k i with Ok r => row_item (kept r) | Err _ => None end.

Lemma put_row_key k i r : put_row s k i = Ok r → map_get (pkAttr s) r = Some (AV_S k).
Proof.
  unfold put_row. destruct (mapM_res _ _) as [vals|e] eqn:E; cbn; [|done]. intros [= <-].
  apply mapM_res_Forall2 in E.
  assert (Forall (λ kv : str * AttributeValue, kv.1 ≠ pkAttr s) vals) as Hv.
  { apply Forall_forall. intros [k' x] Hin. apply list_elem_of_lookup in Hin as [j Hj].
    destruct (Forall2_lookup_r _ _ _ _ _ E Hj) as ([k0 v0] & Hl & Hx).
    apply list_elem_of_lookup_2, list_elem_of_filter in Hl as [Hne _].
    destruct (unflatten v0); cbn in Hx; [|done]. by injection Hx as -> ->. }
  clear E. assert (map_get (pkAttr s) [(pkAttr s, AV_S k)] = Some (AV_S k)) as Hb
    by (cbn; by rewrite bool_decide_true).
  revert Hb. generalize [(pkAttr s, AV_S k)] as b. induction Hv as [|[k' x] vals Hne _ IH]; intros b Hb; [done|].
  cbn [foldl]. apply IH. rewrite map_get_set, bool_decide_false; [done|]. cbn in Hne. congruence.
Qed.

Lemma dynamo_get_view c k i : Get s c k = Ok i → i = dynamo_view c !! k.
Proof.
  unfold Get, dynamo_view. destruct (GetItem _ _ _ _ _) as [o|e] eqn:E; [|done].
  apply GetItem_held in E. rewrite lookup_omap, <- E. destruct o as [r|]; cbn; [|by intros [= <-]].
  unfold row_item. destruct (flatten_row r); cbn; [by intros [= <-]|done].
Qed.

Lemma dynamo_put_view c k i c' : Put s c k i = (c', None) →
  dynamo_view c' = partial_alter (λ _, dynamo_stored k i) k (dynamo_view c).
Proof.
  unfold Put, dynamo_view, dynamo_stored. destruct (put_row s k i) as [r|e] eqn:E; [|done].
  destruct (PutItem _ _ _) as [c1 [e|]] eqn:EP; [done|]. intros [= <-].
  rewrite (PutItem_held c r k c1 (put_row_key _ _ _ E) EP). apply map_eq. intros k'. rewrite lookup_omap.
  destruct (decide (k = k')) as [->|Hne].
  - by rewrite lookup_insert_eq, lookup_partial_alter_eq.
  - by rewrite lookup_insert_ne, lookup_partial_alter_ne, lookup_omap.
Qed.

Lemma dynamo_delete_view c k c' : Delete s c k = (c', None) → dynamo_view c' = delete k (dynamo_view c).
Proof.
  unfold Delete, dynamo_view. destruct (DeleteItem _ _ _ _) as [c1 [e|]] eqn:E; [done|]. intros [= <-].
  rewrite (DeleteItem_held _ _ _ E). apply map_eq. intros k'. rewrite lookup_omap.
  destruct (decide (k = k')) as [->|Hne].
  - by rewrite !lookup_delete_eq.
  - by rewrite !lookup_delete_ne, lookup_omap.
Qed.

(** *** Enumeration *)

Lemma list_pages_ok pages out : list_pages s pages None = (out, None) →
  Forall2 (λ p es, page_entries s p = Ok es) pages out.
Proof.
  revert out. induction pages as [|p pages IH]; intros out; cbn [list_pages]; [by intros [= <-]|].
  destruct (page_entries s p) as [es|e] eqn:E; [|done].
  destruct (list_pages s pages None) as [o err]. intros [= <- ->]. auto.
Qed.

Lemma list_pages_final pages final out : list_pages s pages final = (out, None) → final = None.
Proof.
  revert out. induction pages as [|p pages IH]; intros out; cbn [list_pages]; [by destruct final|].
  destruct (page_entries s p); [|done]. destruct (list_pages s pages final) as [o err].
  intros [= <- ->]. eauto.
Qed.

Lemma page_entries_ok p es : (∀ r, r ∈ p → ∃ k, map_get (pkAttr s) r = Some (AV_S k)) →
  page_entries s p = Ok es → Forall2 (λ r e, row_entry s r = Ok (Some e)) p es.
Proof.
  unfold page_entries. intros Hk. destruct (mapM_res _ _) as [l|e] eqn:E; cbn; [|done]. intros [= <-].
  apply mapM_res_Forall2 in E. induction E as [|r o p l Hr _ IH]; [constructor|].
  assert (∃ e, o = Some e) as [e ->].
  { destruct (Hk r ltac:(set_solver)) as [k Hrk]. unfold row_entry in Hr. rewrite Hrk in Hr.
    destruct (flatten_row r); cbn in Hr; [|done]. injection Hr as <-. eauto. }
  cbn. constructor; [done|]. apply IH. set_solver.
Qed.

Lemma List_held c out : List s c = (out, None) →
  ∃ rs, rs ≡ₚ (map_to_list (held c)).*2 ∧ Forall2 (λ r e, row_entry s r = Ok (Some e)) rs (concat out).
Proof.
  unfold List. destruct (Scan c (table s)) as [pages err] eqn:E. intros Hl.
  pose proof (list_pages_final _ _ _ Hl) as ->. apply list_pages_ok in Hl.
  pose proof (Scan_held _ _ E) as Hp. exists (concat pages). split; [done|].
  apply Forall2_concat_lists.
  assert (∀ p, p ∈ pages → ∀ r, r ∈ p → ∃ k, map_get (pkAttr s) r = Some (AV_S k)) as Hkeys.
  { intros p Hin r Hr. assert (r ∈ concat pages) as Hc.
    { rewrite list_elem_of_In, in_concat. exists p. by rewrite <- !list_elem_of_In. }
    rewrite Hp in Hc. apply list_elem_of_fmap in Hc as ([k r'] & -> & Hkr%elem_of_map_to_list).
    exists k. by eapply held_key. }
  clear Hp E. induction Hl as [|p es pages out Hpe _ IH]; [constructor|].
  constructor; [apply page_entries_ok; [apply Hkeys; set_solver|done]|]. apply IH. set_solver.
Qed.

(** The entry of a stored row. *)
Lemma row_entry_inv c k r e : held c !! k = Some r → row_entry s r = Ok (Some e) →
  eKey e = k ∧ eItem e = dynamo_view c !! k ∧ ∃ m, flatten_row r = Ok m.
Proof.
  intros Hr. unfold row_entry. rewrite (held_key _ _ _ Hr).
  destruct (flatten_row r) as [m|] eqn:E; cbn; [|done]. intros [= <-]. cbn. split_and!; [done| |eauto].
  unfold dynamo_view. rewrite lookup_omap, Hr. cbn. unfold row_item. by rewrite E.
Qed.

Lemma dynamo_list_view c out : List s c = (out, None) →
  (∀ e, e ∈ concat out → eItem e = dynamo_view c !! eKey e)
  ∧ (∀ k m, dynamo_view c !! k = Some m → mkEntry k (Some m) ∈ concat out)
  ∧ NoDup (eKey <$> concat out).
Proof.
  intros (rs & Hp & Hf)%List_held.
  assert (∀ r, r ∈ rs → ∃ k, held c !! k = Some r) as Hrs.
  { intros r Hr. rewrite Hp in Hr. apply list_elem_of_fmap in Hr as ([k r'] & -> & Hkr%elem_of_map_to_list). eauto. }
  split_and!.
  - intros e [i Hi]%list_elem_of_lookup. destruct (Forall2_lookup_r _ _ _ _ _ Hf Hi) as (r & Hr & He).
    apply list_elem_of_lookup_2 in Hr as [k Hk]%Hrs.
    by destruct (row_entry_inv _ _ _ _ Hk He) as (-> & -> & _).
  - intros k m Hv. unfold dynamo_view in Hv. rewrite lookup_omap in Hv.
    destruct (held c !! k) as [r|] eqn:Hr; [|done]. cbn in Hv.
    assert (r ∈ rs) as [i Hi]%list_elem_of_lookup.
    { rewrite Hp. apply list_elem_of_fmap. exists (k, r). split; [done|]. by apply elem_of_map_to_list. }
    destruct (Forall2_lookup_l _ _ _ _ _ Hf Hi) as ([k' i'] & He & Hre).
    destruct (row_entry_inv _ _ _ _ Hr Hre) as (Hk' & Hi' & _). cbn in Hk', Hi'. subst k'.
    apply list_elem_of_lookup_2 in He. rewrite Hi' in He.
    assert (dynamo_view c !! k = Some m) as <-; [|done]. unfold dynamo_view. by rewrite lookup_omap, Hr.
  - assert (eKey <$> concat out = (λ r, match map_get (pkAttr s) r with Some (AV_S k) => k | _ => [] end) <$> rs) as ->.
    { clear Hp. induction Hf as [|r e rs' es He _ IH]; [done|]. cbn. rewrite IH by set_solver. f_equal.
      destruct (Hrs r ltac:(set_solver)) as [k Hk]. rewrite (held_key _ _ _ Hk).
      by destruct (row_entry_inv _ _ _ _ Hk He) as (-> & _). }
    rewrite Hp, <- list_fmap_compose.
    assert (((λ r, match map_get (pkAttr s) r with Some (AV_S k) => k | _ => [] end) ∘ snd) <$> map_to_list (held c)
            = (map_to_list (held c)).*1) as ->; [|apply NoDup_fst_map_to_list].
    apply list_fmap_ext. intros i [k r] Hi. cbn.
    apply list_elem_of_lookup_2, elem_of_map_to_list in Hi. by rewrite (held_key _ _ _ Hi).
Qed.

(** The store contract, so that every theorem about the handlers applies. *)
Definition dynamo_store_spec : @FullStoreSpec C (dynamo_store s).
Proof.
  refine (@Build_FullStoreSpec C (dynamo_store s) (dynamo_reader s) (dynamo_writer s) eq_refl eq_refl
            dynamo_view dynamo_stored _ _ _ _).
  - exact dynamo_get_view.
  - exact dynamo_put_view.
  - exact dynamo_delete_view.
  - exact dynamo_list_view.
Defined.
End Laws.

(** ** Values on the way to the table and back *)

(** The value an attribute reads back as: floats come back as json.Number. *)
Fixpoint norm (v : value) : value :=
  match v with
  | VFloat f => VNumber (FormatFloat_f f)
  | VList l => VList (norm <$> l)
  | VMap m => VMap ((λ '(k, e), (k, norm e)) <$> m)
  | _ => v
  end.

Lemma map_entries_inv {A B} (f : A → res B) (k : str) (v : A) y :
  (x <-? res_wrap (lit "attribute") k (f v); Ok (k, x)) = Ok y → ∃ x, f v = Ok x ∧ y = (k, x).
Proof. destruct (f v) as [x|e]; cbn; [|done]. intros [= <-]. eauto. Qed.

(** A value that is written, and read back from what the table makes of it. *)
Lemma unflatten_same v : ∀ av av' v', unflatten v = Ok av → av_same av av' → flatten av' = Ok v' → value_same (norm v) v'.
Proof.
  assert (∀ n av' v', av_same (AV_N n) av' → flatten av' = Ok v' → value_same (VNumber n) v') as Hnum.
  { intros n av' v' Hs Hf. assert (∃ b, av' = AV_N b ∧ number_same n b) as (b & -> & Hb)
      by (inversion Hs; subst; eexists; split; try done; by left).
    cbn in Hf. unfold jsonNumber in Hf. destruct (ParseFloat b); [|done]. injection Hf as <-. by constructor. }
  induction v as [| | | | |l|l IH|m IH] using value_nested_ind; cbn [unflatten norm]; intros av av' v' Hu Hs Hf.
  1-5: injection Hu as <-; try (by eapply Hnum); inversion Hs; subst; cbn in Hf; injection Hf as <-; constructor.
  - injection Hu as <-. inversion Hs; subst; cbn in Hf; injection Hf as <-; by constructor.
  - destruct (mapM_res unflatten l) as [avs|] eqn:E; cbn in Hu; [|done]. injection Hu as <-.
    assert (∃ avs', av' = AV_L avs' ∧ Forall2 av_same avs avs') as (avs' & -> & Hav).
    { inversion Hs; subst; eexists; split; try done. apply Forall_Forall2_diag, Forall_true. intros x. apply same_refl. }
    cbn [flatten] in Hf. destruct (mapM_res flatten avs') as [vs|] eqn:E'; cbn in Hf; [|done]. injection Hf as <-.
    apply mapM_res_Forall2 in E, E'. constructor. clear Hs. revert avs' vs Hav E'.
    induction E as [|x y l avs Hx _ IHE]; intros avs' vs Hav E'.
    + inversion Hav; subst. inversion E'; subst. constructor.
    + apply Forall_cons in IH as [Hh Ht]. inversion Hav; subst. inversion E'; subst. cbn. constructor; [by eapply Hh|by eapply IHE].
  - destruct (mapM_res _ m) as [avs|] eqn:E; cbn in Hu; [|done]. injection Hu as <-.
    assert (∃ avs', av' = AV_M avs' ∧ Forall2 (λ x y, x.1 = y.1 ∧ av_same x.2 y.2) avs avs') as (avs' & -> & Hav).
    { inversion Hs; subst; eexists; split; try done. apply Forall_Forall2_diag, Forall_true. intros x. split; [done|apply same_refl]. }
    cbn [flatten] in Hf. destruct (mapM_res _ avs') as [vs|] eqn:E'; cbn in Hf; [|done]. injection Hf as <-.
    apply mapM_res_Forall2 in E, E'. constructor. clear Hs. revert avs' vs Hav E'.
    induction E as [|[k x] y m avs Hx _ IHE]; intros avs' vs Hav E'.
    + inversion Hav; subst. inversion E'; subst. constructor.
    + apply map_entries_inv in Hx as (z & Hz & ->). apply Forall_cons in IH as [Hh Ht].
      inversion Hav as [|? [k1 z1] ? ? [E1 Hz1] Hav']; subst. inversion E' as [|? ? ? ? Hx' E'']; subst. cbn in E1. subst k1.
      apply map_entries_inv in Hx' as (w & Hw & ->). cbn. constructor; [split; [done|by eapply Hh]|by eapply IHE].
Qed.

Section AvInduction.
Variable P : AttributeValue → Prop.
Hypothesis (HS : ∀ s, P (AV_S s)) (HN : ∀ s, P (AV_N s)) (HB : ∀ b, P (AV_B b)) (HBOOL : ∀ b, P (AV_BOOL b))
  (HNULL : ∀ b, P (AV_NULL b)) (HSS : ∀ l, P (AV_SS l)) (HNS : ∀ l, P (AV_NS l)) (HBS : ∀ l, P (AV_BS l))
  (HL : ∀ l, Forall P l → P (AV_L l)) (HM : ∀ m, Forall (λ kv, P kv.2) m → P (AV_M m))
  (HU : ∀ t, P (AV_Unknown t)).

Fixpoint av_nested_ind (v : AttributeValue) : P v :=
  match v with
  | AV_S s => HS s | AV_N s => HN s | AV_B b => HB b | AV_BOOL b => HBOOL b | AV_NULL b => HNULL b
  | AV_SS l => HSS l | AV_NS l => HNS l | AV_BS l => HBS l | AV_Unknown t => HU t
  | AV_L l => HL l ((fix go l := match l return Forall P l with
                                 | [] => Forall_nil_2 _
                                 | x :: l' => Forall_cons_2 _ _ _ (av_nested_ind x) (go l')
                                 end) l)
  | AV_M m => HM m ((fix go m := match m return Forall (λ kv, P kv.2) m with
                                 | [] => Forall_nil_2 _
                                 | kv :: m' => Forall_cons_2 _ _ _ (av_nested_ind kv.2) (go m')
                                 end) m)
  end.
End AvInduction.

(** What an attribute becomes when its flattened value is written back. *)
Fixpoint lossy (v : AttributeValue) : AttributeValue :=
  match v with
  | AV_B b => AV_S (base64 b)
  | AV_NULL _ => AV_NULL true
  | AV_NS l => AV_L (AV_N <$> l)
  | AV_BS l => AV_SS (base64 <$> l)
  | AV_L l => AV_L (lossy <$> l)
  | AV_M m => AV_M ((λ '(k, e), (k, lossy e)) <$> m)
  | _ => v
  end.

(** The attributes that survive. *)
Fixpoint lossless (v : AttributeValue) : bool :=
  match v with
  | AV_B _ | AV_NS _ | AV_BS _ => false
  | AV_NULL b => b
  | AV_L l => forallb lossless l
  | AV_M m => forallb (λ '(_, e), lossless e) m
  | _ => true
  end.

Lemma jsonNumbers l vs : mapM_res jsonNumber l = Ok vs → mapM_res unflatten vs = Ok (AV_N <$> l).
Proof.
  intros H%mapM_res_Forall2. apply Forall2_mapM_res.
  induction H as [|n v l vs Hn _ IH]; [constructor|]. cbn. constructor; [|done].
  unfold jsonNumber in Hn. destruct (ParseFloat n); [|done]. by injection Hn as <-.
Qed.

Lemma unflatten_flatten av v : flatten av = Ok v → unflatten v = Ok (lossy av).
Proof.
  revert v. induction av as [| | | | | | | |l IH|m IH|] using av_nested_ind; cbn [flatten lossy]; intros v H.
  all: try (by injection H as <-); try discriminate H.
  - unfold jsonNumber in H. destruct (ParseFloat s); [|done]. by injection H as <-.
  - destruct (mapM_res jsonNumber l) as [vs|] eqn:E; cbn in H; [|done]. injection H as <-.
    cbn. by rewrite (jsonNumbers _ _ E).
  - destruct (mapM_res flatten l) as [vs|] eqn:E; cbn in H; [|done]. injection H as <-.
    apply mapM_res_Forall2 in E. cbn. erewrite Forall2_mapM_res; [done|].
    induction E as [|x v l vs Hx _ IHE]; [constructor|]. apply Forall_cons in IH as [Hh Ht].
    cbn. constructor; auto.
  - destruct (mapM_res _ m) as [vs|] eqn:E; cbn in H; [|done]. injection H as <-.
    apply mapM_res_Forall2 in E. cbn [unflatten]. erewrite Forall2_mapM_res; [done|].
    induction E as [|[k x] [k' v] m vs Hx _ IHE]; [constructor|]. apply Forall_cons in IH as [Hh Ht].
    destruct (flatten x) as [y|] eqn:Ex; cbn in Hx; [|done]. injection Hx as -> ->.
    constructor; [|auto]. cbn in *. by rewrite (Hh _ Ex).
Qed.

Lemma lossy_lossless av : lossy av = av ↔ lossless av = true.
Proof.
  induction av as [| | | |[]| | | |l IH|m IH|] using av_nested_ind; cbn [lossy lossless]; try done.
  - rewrite forallb_forall. split.
    + intros [= Hl] x Hx%list_elem_of_In. rewrite Forall_forall in IH. apply IH; [done|].
      apply list_elem_of_lookup in Hx as [i Hi]. assert ((lossy <$> l) !! i = Some x) as H2 by by rewrite Hl.
      rewrite list_lookup_fmap, Hi in H2. by injection H2.
    + intros Hx. f_equal. rewrite <- (list_fmap_id l) at 2. apply list_fmap_ext.
      intros i x Hi. apply list_elem_of_lookup_2 in Hi. rewrite Forall_forall in IH.
      by apply IH, Hx, list_elem_of_In.
  - rewrite forallb_forall. split.
    + intros [= Hl] [k x] Hx%list_elem_of_In. rewrite Forall_forall in IH. apply (IH (k, x)); [done|].
      apply list_elem_of_lookup in Hx as [i Hi].
      assert (((λ '(k, e), (k, lossy e)) <$> m) !! i = Some (k, x)) as H2 by by rewrite Hl.
      rewrite list_lookup_fmap, Hi in H2. by injection H2.
    + intros Hx. f_equal. rewrite <- (list_fmap_id m) at 2. apply list_fmap_ext.
      intros i [k x] Hi. apply list_elem_of_lookup_2 in Hi. rewrite Forall_forall in IH. cbn. f_equal.
      apply (IH (k, x) Hi). by apply (Hx (k, x)), list_elem_of_In.
Qed.

(** ** Properties *)

Section Properties.
Context {C : Type} `{API : DynamoDB C}.
Variable s : dynamoStore.
Context `{LAWS : !DynamoLaws s}.

(** A fold of insertions into a map. *)
Lemma map_get_fold {A} (l : list (str * A)) a : ∀ b, NoDup l.*1 →
  map_get a (foldl (λ m '(k, x), map_set k x m) b l) =
  match map_get a l with Some x => Some x | None => map_get a b end.
Proof.
  induction l as [|[k x] l IH]; intros b; cbn [foldl fmap list_fmap map_get]; [done|].
  intros [Hk Hl]%NoDup_cons. rewrite IH, map_get_set by done. case_bool_decide as E; [|done]. subst a.
  assert (map_get k l = None) as ->; [|done].
  clear -Hk. induction l as [|[k' x'] l IH]; [done|]. cbn in *. rewrite bool_decide_false by set_solver.
  apply IH. set_solver.
Qed.

Lemma map_get_filter {A} (l : list (str * A)) (p a : str) :
  map_get a (filter (λ kv, kv.1 ≠ p) l) = if bool_decide (a = p) then None else map_get a l.
Proof.
  induction l as [|[k x] l IH]; cbn [map_get]; [by case_bool_decide|].
  destruct (decide (k = p)) as [->|Hne].
  - rewrite (filter_cons_False (λ kv : str * A, kv.1 ≠ p)) by (cbn; tauto). rewrite IH.
    by repeat case_bool_decide.
  - rewrite (filter_cons_True (λ kv : str * A, kv.1 ≠ p)) by done. cbn [map_get]. rewrite IH.
    repeat case_bool_decide; subst; done.
Qed.

Lemma mapM_keys {A B} (f : A → res B) m m' :
  mapM_res (λ '(k, v), x <-? res_wrap (lit "attribute") k (f v); Ok (k, x)) m = Ok m' → m'.*1 = m.*1.
Proof.
  intros H%mapM_res_Forall2. induction H as [|[k v] [k' x] m m' Hf _ IH]; [done|].
  cbn in *. rewrite IH. destruct (f v); cbn in Hf; [|done]. by injection Hf as -> _.
Qed.

Lemma NoDup_filter_fst {A} (l : list (str * A)) p : NoDup l.*1 → NoDup (filter (λ kv, kv.1 ≠ p) l).*1.
Proof.
  intros H. induction l as [|[k x] l IH]; [done|]. apply NoDup_cons in H as [Hk Hl].
  rewrite filter_cons. case_decide; [|by apply IH]. cbn. apply NoDup_cons. split; [|by apply IH].
  intros ([k' x'] & -> & [_ Hin]%list_elem_of_filter)%list_elem_of_fmap. apply Hk. apply list_elem_of_fmap. by exists (k', x').
Qed.

(** What an attribute of an item written under [k] should read back as. *)
Definition expected (k : str) (i : Item) (a : str) : option value :=
  if bool_decide (a = pkAttr s) then Some (VString k) else norm <$> map_get a (default [] i).

(** An item that is written, and read back from what the table makes of its row. *)
Lemma read_back k i r r' m' : NoDup (default [] i).*1 →
  put_row s k i = Ok r → row_same r r' → flatten_row r' = Ok m' →
  ∀ a, option_Forall2 value_same (expected k i a) (map_get a m').
Proof.
  set (m := default [] i). intros Hnd Hr Hs Hm a. unfold put_row in Hr. fold m in Hr.
  destruct (mapM_res _ _) as [vals|e] eqn:Hvals; cbn [res_bind] in Hr; [|done]. injection Hr as <-.
  apply (map_get_same _ _ _ a) in Hs. pose proof (map_get_mapM _ _ _ a Hm) as Hg.
  rewrite map_get_fold in Hs by (rewrite (mapM_keys _ _ _ Hvals); by apply NoDup_filter_fst).
  pose proof (map_get_mapM _ _ _ a Hvals) as Hv. rewrite map_get_filter in Hv. unfold expected. fold m.
  case_bool_decide as E.
  - rewrite Hv in Hs. cbn in Hs. rewrite bool_decide_true in Hs by done. inversion Hs as [? y Hy Ex Ey|]; subst.
    rewrite <- Ey in Hg. destruct Hg as (x & Hx & ->). inversion Hy; subst. injection Hx as <-. constructor. constructor.
  - destruct (map_get a m) as [v|]; cbn [fmap option_fmap option_map].
    + destruct Hv as (av & Hu & Hav). rewrite Hav in Hs. inversion Hs as [? y Hy Ex Ey|]; subst. rewrite <- Ey in Hg.
      destruct Hg as (x & Hx & ->). constructor. by eapply unflatten_same.
    + rewrite Hv in Hs. cbn in Hs. rewrite bool_decide_false in Hs by done. inversion Hs as [|Ex Ey]; subst.
      rewrite <- Ey in Hg. rewrite Hg. constructor.
Qed.

(** A read that answers the row that was put, up to [row_same]. *)
Definition reads (o : option avmap) (v : Item) : Prop :=
  ∃ o', option_Forall2 row_same o o' ∧ match o', v with None, None => True | Some r, Some m => flatten_row r = Ok m | _, _ => False end.

Lemma Get_reads `{ROWS : !DynamoRows s} c k v : Get s c k = Ok v → reads (rows c !! k) v.
Proof.
  unfold Get, reads. destruct (GetItem _ _ _ _ _) as [o|e] eqn:E; [|done]. apply GetItem_rows in E.
  destruct o as [r|]; [|intros [= <-]; by exists None].
  destruct (flatten_row r) as [m|] eqn:Em; cbn; [|done]. intros [= <-]. by exists (Some r).
Qed.

(** C39. A put is what the next consistent read returns, up to what DynamoDB
    does to a row (the spelling of numbers and the order of sets): the key
    attribute is the key, whatever the item says, every other attribute has its
    value with floats as decimal numbers, and nothing else is there.  What is
    read under any other key comes from the same row as before. *)
Theorem dynamo_put_get `{ROWS : !DynamoRows s} c c' k i v :
  NoDup (default [] i).*1 → Put s c k i = (c', None) → Get s c' k = Ok v →
  (∃ m', v = Some m' ∧ ∀ a, option_Forall2 value_same (expected k i a) (map_get a m'))
  ∧ ∀ k' v' w, k' ≠ k → Get s c' k' = Ok v' → Get s c k' = Ok w → ∃ o, reads o v' ∧ reads o w.
Proof.
  intros Hnd Hp Hg. unfold Put in Hp. destruct (put_row s k i) as [r|e] eqn:Hr; [|done].
  destruct (PutItem _ _ _) as [c1 [e|]] eqn:EP; [done|]. injection Hp as <-.
  pose proof (PutItem_rows c r k c1 (put_row_key s _ _ _ Hr) EP) as Hrows. split.
  - apply Get_reads in Hg as (o' & Ho & Hv). rewrite Hrows, lookup_insert_eq in Ho. inversion Ho as [? r' Hs|]; subst.
    destruct v as [m'|]; [|done]. exists m'. split; [done|]. by eapply read_back.
  - intros k' v' w Hne H1%Get_reads H2%Get_reads. rewrite Hrows, lookup_insert_ne in H1 by done. eauto.
Qed.

(** An enumeration that ends without an error yields every row exactly once,
    under its key, with the item a point read would return. *)
Theorem dynamo_list_exact c pages :
  List s c = (pages, None) →
  (∀ k m, mkEntry k (Some m) ∈ concat pages ↔ dynamo_view s c !! k = Some m)
  ∧ (∀ e, e ∈ concat pages → eItem e ≠ None) ∧ NoDup (eKey <$> concat pages).
Proof.
  intros Hl. destruct (dynamo_list_view s c pages Hl) as (H1 & H2 & H3). split_and!; [|..|done].
  - intros k m. split; [|apply H2]. intros Hin. by apply H1 in Hin.
  - apply (List_held s) in Hl as (rs & _ & Hf). intros e [i Hi]%list_elem_of_lookup.
    destruct (Forall2_lookup_r _ _ _ _ _ Hf Hi) as (r & _ & He). unfold row_entry in He.
    destruct (map_get _ r) as [[]|]; try done. destruct (flatten_row r); cbn in He; [|done]. by injection He as <-.
Qed.

(** An object whose key attribute is not the key it is written under is not
    what the table holds afterwards, though it is what the journal records. *)
Theorem dynamo_key_overridden k m :
  NoDup m.*1 → map_get (pkAttr s) m ≠ Some (VString k) → dynamo_stored s k (Some m) ≠ Some m.
Proof.
  intros Hnd Hk. unfold dynamo_stored, row_item. destruct (put_row s k (Some m)) as [r|] eqn:Hr; [|done].
  destruct (flatten_row (kept r)) as [m'|] eqn:Hm; [|done]. intros [= ->].
  pose proof (read_back k (Some m) r (kept r) m Hnd Hr (kept_same r) Hm (pkAttr s)) as H.
  unfold expected in H. rewrite bool_decide_true in H by done. inversion H as [? y Hy Ex Ey|]; subst.
  inversion Hy; subst. by rewrite <- Ey in Hk.
Qed.
End Properties.

(** Reading an attribute and writing its value back loses its type exactly
    when it is, or contains, binary, a set of numbers or binaries, or a false
    NULL: binaries become base64 strings, number sets become lists. *)
Theorem rewrite_types av v :
  flatten av = Ok v → unflatten v = Ok (lossy av) ∧ (lossy av = av ↔ lossless av = true).
Proof. intros H. split; [by apply unflatten_flatten|apply lossy_lossless]. Qed.

(** Numbers keep their 38 digits on the way out and lose them on the way in:
    the JSON served for a long number, sent back as an update, is parsed as a
    float64 and written as another number. *)
Theorem update_loses_precision :
  let n := lit "12345678901234567890123456789012345678" in
  ∃ v blob item n', flatten (AV_N n) = Ok v ∧ Marshal (Some [(lit "n", v)]) = Ok blob
  ∧ Unmarshal blob = Ok (Some item) ∧ unflatten (VMap item) = Ok (AV_M [(lit "n", AV_N n')])
  ∧ blob = dq "{'n':12345678901234567890123456789012345678}" ∧ n' ≠ n.
Proof.
  eexists _, _, _, _. split; [vm_compute; reflexivity|]. split; [vm_compute; reflexivity|].
  split; [vm_compute; reflexivity|]. split; [vm_compute; reflexivity|].
  split; [vm_compute; reflexivity|]. vm_compute. discriminate.
Qed.

(** ** A concrete client, for evaluating the model *)

Section RefClient.
Variable s : dynamoStore.

(** The rows that carry their key. *)
Definition keyed (kr : str * avmap) : Prop := map_get (pkAttr s) kr.2 = Some (AV_S kr.1).

Instance has_value_dec attr v (r : avmap) :
  Decision (match map_get attr r with Some (AV_S y) => y = v | _ => False end).
Proof. destruct (map_get attr r) as [[]|]; apply _. Defined.

#[export] Instance keyed_dec kr : Decision (keyed kr).
Proof.
  unfold keyed. destruct (map_get (pkAttr s) kr.2) as [[x| | | | | | | | | |]|]; try (right; done).
  destruct (decide (x = kr.1)) as [->|H]; [by left|right; congruence].
Defined.

Definition ref_rows (c : gmap str avmap) : gmap str avmap := filter keyed c.

(** It hands the elements of a set of strings out in another order. *)
Definition ref_keep (r : avmap) : avmap :=
  (λ '(k, v), (k, match v with AV_SS l => AV_SS (rev l) | _ => v end)) <$> r.

Definition ref_client : DynamoDB (gmap str avmap) := {|
  GetItem c _ _ k _ := Ok (ref_keep <$> ref_rows c !! k);
  PutItem c _ r := match map_get (pkAttr s) r with
                   | Some (AV_S k) => (<[k := r]> c, None)
                   | _ => (c, Some (EMsg (lit "ValidationException") []))
                   end;
  DeleteItem c _ _ k := (delete k c, None);
  Scan c _ := ([ref_keep <$> (map_to_list (ref_rows c)).*2], None);
  QueryPages c _ _ attr v :=
    ([ref_keep <$> filter (λ r, match map_get attr r with Some (AV_S y) => y = v | _ => False end) (map_to_list (ref_rows c)).*2],
     None);
|}.

Lemma ref_rows_insert c k r : map_get (pkAttr s) r = Some (AV_S k) → ref_rows (<[k := r]> c) = <[k := r]> (ref_rows c).
Proof. intros H. unfold ref_rows. by apply map_filter_insert_True. Qed.

Lemma ref_rows_delete c k : ref_rows (delete k c) = delete k (ref_rows c).
Proof. apply map_filter_delete. Qed.

Lemma ref_keep_same r : row_same r (ref_keep r).
Proof.
  induction r as [|[k v] r IH]; cbn; constructor; [split; [done|]|done].
  destruct v; try apply same_refl. cbn. apply same_SS, Permutation_rev.
Qed.

Definition ref_rows_laws : @DynamoRows _ ref_client s.
Proof.
  refine (@Build_DynamoRows _ ref_client s ref_rows _ _ _ _).
  - intros c k r [_ H]%map_lookup_filter_Some. exact H.
  - intros c k o. cbn. intros [= <-]. destruct (ref_rows c !! k); cbn; constructor. apply ref_keep_same.
  - intros c r k c' Hk. cbn. rewrite Hk. intros [= <-]. by apply ref_rows_insert.
  - intros c k c'. cbn. intros [= <-]. apply ref_rows_delete.
Defined.

Definition ref_laws : @DynamoLaws _ ref_client s.
Proof.
  refine (@Build_DynamoLaws _ ref_client s ref_rows_laws ref_keep _ _ _).
  - apply ref_keep_same.
  - intros c k o. cbn. by intros [= <-].
  - intros c pages. cbn. intros [= <-]. cbn. by rewrite app_nil_r.
Defined.
End RefClient.

(** ** Witnesses *)

Definition demo_table : dynamoStore := NewFullDynamoStore (lit "demo") (lit "pk") true ∅.
Definition zoe : gomap :=
  [(lit "age", VFloat (parse_ok "7")); (lit "pk", VString (lit "somebody")); (lit "tags", VStrings [lit "a"; lit "b"])].
Definition zoe_table : gmap str avmap := (@Put _ (ref_client demo_table) demo_table ∅ (lit "zoe") (Some zoe)).1.

Lemma zoe_put : @Put _ (ref_client demo_table) demo_table ∅ (lit "zoe") (Some zoe) = (zoe_table, None).
Proof. vm_compute. reflexivity. Qed.

Lemma zoe_keys : NoDup zoe.*1.
Proof. apply (bool_decide_eq_true_1 _). vm_compute. reflexivity. Qed.

Lemma dynamo_put_get_witness :
  ∃ m', @Get _ (ref_client demo_table) demo_table zoe_table (lit "zoe") = Ok (Some m')
  ∧ option_Forall2 value_same (Some (VString (lit "zoe"))) (map_get (lit "pk") m')
  ∧ option_Forall2 value_same (Some (VNumber (lit "7"))) (map_get (lit "age") m')
  ∧ map_get (lit "tags") m' = Some (VStrings [lit "b"; lit "a"]).
Proof.
  destruct (@Get _ (ref_client demo_table) demo_table zoe_table (lit "zoe")) as [v|e] eqn:E;
    [|vm_compute in E; discriminate E].
  destruct (@dynamo_put_get _ (ref_client demo_table) demo_table (ref_rows_laws demo_table) ∅ zoe_table (lit "zoe")
    (Some zoe) v zoe_keys zoe_put E) as [(m' & -> & Hm) _].
  exists m'. split; [reflexivity|]. split; [exact (Hm (lit "pk"))|]. split; [exact (Hm (lit "age"))|].
  vm_compute in E. injection E as <-. vm_compute. reflexivity.
Defined.

Lemma dynamo_list_exact_witness :
  NoDup (eKey <$> concat (@List _ (ref_client demo_table) demo_table zoe_table).1).
Proof.
  apply (@dynamo_list_exact _ (ref_client demo_table) demo_table (ref_laws demo_table) zoe_table).
  vm_compute. reflexivity.
Defined.

Lemma dynamo_key_overridden_witness :
  @dynamo_stored _ (ref_client demo_table) demo_table (ref_laws demo_table) (lit "zoe") (Some zoe) ≠ Some zoe.
Proof.
  apply (@dynamo_key_overridden _ (ref_client demo_table) demo_table (ref_laws demo_table) (lit "zoe") zoe zoe_keys).
  vm_compute. discriminate.
Defined.

Lemma rewrite_types_witness :
  flatten (AV_BS [lit "ab"]) = Ok (VStrings [base64 (lit "ab")])
  ∧ unflatten (VStrings [base64 (lit "ab")]) = Ok (lossy (AV_BS [lit "ab"])).
Proof. split; [reflexivity|]. apply (rewrite_types (AV_BS [lit "ab"])). reflexivity. Defined.
