(* ===== verification/Handler.v ===== *)
(** * The request handler's state and query answering (server.go)

    [Handler] mirrors the Go struct; its storage [W] and change log [L] are
    types with the interfaces of Store.v and Journal.v.  The read path
    ([buildResponse], [gsiLookup], the record builders) is pure.  Operations
    that write to the connection or change the handler run in the state monad
    [M] over [Srv]: the handler, the messages written so far and the NOTIFY
    fan-outs started. *)

From S2P Require Import Prelude GoStrings Float64 Json Names Dns GoNet Journal Store.

Definition Version : str := lit "0.2.0".
Definition udpDefaultSize : Z := 512.
Definition statusName : str := lit "_contractdb".
Definition ourUDPSize : Z := 1232.

Record Config := mkConfig {
  cZone : str; cTable : str; cPKAttr : str; cTTL : Z; cAdvertiseIP : str; cSerial : Z;
  cGSIs : gmap str str }.

Record Metrics := mkMetrics {
  Queries : Z; NXDomain : Z; Truncated : Z; Updates : Z; Transfers : Z; Refused : Z }.

(** The dns.TsigProvider interface. *)
Record TsigProvider := mkTsigProvider {
  tsig_Generate : str → str → str → res str;        (* msg, key name, algorithm *)
  tsig_Verify : str → str → str → str → option error;  (* msg, key name, algorithm, hex MAC *)
}.

(** The Signer interface: the clock, the request and the response. *)
Definition Signer : Type := Z → Msg → Msg → Msg.

Record Handler (W L : Type) := mkHandler {
  store : W; cfg : Config; serial : Z; metrics : Metrics;
  signer : option Signer; changelog : option L; tsigProvider : option TsigProvider;
  authRequired : bool; notifiees : list str }.
Arguments mkHandler {W L}.
Arguments store {W L}. Arguments cfg {W L}. Arguments serial {W L}. Arguments metrics {W L}.
Arguments signer {W L}. Arguments changelog {W L}. Arguments tsigProvider {W L}.
Arguments authRequired {W L}. Arguments notifiees {W L}.

Section Setters.
Context {W L : Type}.

Definition set_store (x : W) (h : Handler W L) : Handler W L :=
  mkHandler x (cfg h) (serial h) (metrics h) (signer h) (changelog h) (tsigProvider h)
    (authRequired h) (notifiees h).
Definition set_serial (x : Z) (h : Handler W L) : Handler W L :=
  mkHandler (store h) (cfg h) x (metrics h) (signer h) (changelog h) (tsigProvider h)
    (authRequired h) (notifiees h).
Definition set_metrics (x : Metrics) (h : Handler W L) : Handler W L :=
  mkHandler (store h) (cfg h) (serial h) x (signer h) (changelog h) (tsigProvider h)
    (authRequired h) (notifiees h).
Definition set_signer (x : option Signer) (h : Handler W L) : Handler W L :=
  mkHandler (store h) (cfg h) (serial h) (metrics h) x (changelog h) (tsigProvider h)
    (authRequired h) (notifiees h).
Definition set_changelog (x : option L) (h : Handler W L) : Handler W L :=
  mkHandler (store h) (cfg h) (serial h) (metrics h) (signer h) x (tsigProvider h)
    (authRequired h) (notifiees h).
Definition set_tsigProvider (x : option TsigProvider) (h : Handler W L) : Handler W L :=
  mkHandler (store h) (cfg h) (serial h) (metrics h) (signer h) (changelog h) x
    (authRequired h) (notifiees h).
Definition set_authRequired (x : bool) (h : Handler W L) : Handler W L :=
  mkHandler (store h) (cfg h) (serial h) (metrics h) (signer h) (changelog h) (tsigProvider h)
    x (notifiees h).
Definition set_notifiees (x : list str) (h : Handler W L) : Handler W L :=
  mkHandler (store h) (cfg h) (serial h) (metrics h) (signer h) (changelog h) (tsigProvider h)
    (authRequired h) x.
End Setters.

Definition zero_metrics : Metrics := mkMetrics 0 0 0 0 0 0.

Definition NewHandler {W L} (st : W) (c : Config) : Handler W L :=
  mkHandler st c (cSerial c) zero_metrics None None None false [].

(** *** RunOption (server.go) *)

Definition WithSigner {W L} (s : Signer) : Handler W L → Handler W L := set_signer (Some s).
Definition WithAuthRequired {W L} : Handler W L → Handler W L := set_authRequired true.
Definition WithTsigProvider {W L} (p : TsigProvider) : Handler W L → Handler W L := set_tsigProvider (Some p).
Definition WithNotifiees {W L} (addrs : list str) : Handler W L → Handler W L := set_notifiees addrs.

(** *** Counters *)

Inductive counter := CQueries | CNXDomain | CTruncated | CUpdates | CTransfers | CRefused.

(** [h.metrics.X.Add(1)] on an atomic.Int64 *)
Definition bump (c : counter) (m : Metrics) : Metrics :=
  let '(mkMetrics a b c' d e f) := m in
  match c with
  | CQueries => mkMetrics (i64 (a + 1)) b c' d e f
  | CNXDomain => mkMetrics a (i64 (b + 1)) c' d e f
  | CTruncated => mkMetrics a b (i64 (c' + 1)) d e f
  | CUpdates => mkMetrics a b c' (i64 (d + 1)) e f
  | CTransfers => mkMetrics a b c' d (i64 (e + 1)) f
  | CRefused => mkMetrics a b c' d e (i64 (f + 1))
  end.

Definition int_str (z : Z) : str := if z <? 0 then lit "-" ++ dec_str (- z) else dec_str z.

(** The snapshot map, in key order. *)
Definition Snapshot (m : Metrics) : list (str * Z) :=
  foldr (λ '(k, v), map_set k v) []
    [ (lit "queries", Queries m); (lit "nxdomain", NXDomain m);
      (lit "truncated_responses", Truncated m); (lit "updates", Updates m);
      (lit "zone_transfers", Transfers m); (lit "refused", Refused m) ].

(** [json.Marshal] of a map[string]int64 *)
Definition Marshal_ints (m : list (str * Z)) : str :=
  encode_object ((λ '(k, v), (k, int_str v)) <$> m).

(** ** Records *)

Definition txtRRChunks (name : str) (ttl : Z) (chunks : list str) : RR :=
  RR_TXT (mkHdr name TypeTXT ClassINET ttl) chunks.

Definition txtRR (name : str) (ttl : Z) (s : str) : RR := txtRRChunks name ttl [s].

Section Handler.
Context `{UT : UnicodeTables, D : DnsLib} {W L : Type} `{ST : !Store W, CL : !ChangeLog L}.
Implicit Types h : Handler W L.

Definition itemRRs h (key : str) (item : Item) : res (list RR) :=
  blob <-? Marshal item;
  let name := itemName (cZone (cfg h)) key in
  let chunks := chunkBytes blob maxTxtChunk in
  Ok [txtRRChunks name (cTTL (cfg h)) chunks].

Definition soa_at h (s : Z) : RR :=
  let c := cfg h in
  RR_SOA (mkHdr (cZone c) TypeSOA ClassINET (cTTL c))
    (lit "ns1." ++ cZone c) (lit "hostmaster." ++ cZone c) s 7200 900 1209600 (cTTL c).

Definition soa h : RR := soa_at h (serial h).

Definition addNS h (m : Msg) : Msg :=
  add_Answer [RR_NS (mkHdr (cZone (cfg h)) TypeNS ClassINET (cTTL (cfg h))) (lit "ns1." ++ cZone (cfg h))] m.

Definition nxDomain h (m : Msg) : Msg := add_Ns [soa h] (set_Rcode RcodeNameError m).

(** ** Authentication *)

(** The connection one request arrived on: [w.RemoteAddr().Network()], the
    library's TSIG verdict [w.TsigStatus()], the result of the n-th
    [w.WriteMsg], and the clock. *)
Record Conn := mkConn {
  network : str; tsigStatus : option error; writeErr : nat → option error; now : Z }.

Definition is_none {A} (o : option A) : bool := match o with None => true | Some _ => false end.

Definition tsigValid h (w : Conn) (req : Msg) : bool :=
  negb (is_none (tsigProvider h)) && negb (is_none (IsTsig req)) && is_none (tsigStatus w).

Definition authOK h (w : Conn) (req : Msg) : bool :=
  if negb (authRequired h) then true else tsigValid h w req.

Definition setupReplyTsig h (w : Conn) (req resp : Msg) : Msg :=
  if is_none (tsigProvider h) then resp else
  match IsTsig req with
  | Some (name, algo) => if is_none (IsTsig resp) then SetTsig resp name algo 300 (now w) else resp
  | None => resp
  end.

(** ** Answering a query *)

(** [q] is [req.Question[0]]. *)
Definition gsiLookup h (m req : Msg) (q : Question) (index value : str) : Msg :=
  match reader with
  | None => SetRcode m req RcodeServerFailure
  | Some r =>
      match QueryIndex r (store h) index value with
      | Err _ => SetRcode m req RcodeServerFailure
      | Ok entries =>
          if bool_decide (length entries = 0%nat) then nxDomain h m
          else if negb (qType q =? TypeTXT) && negb (qType q =? TypeANY) then add_Ns [soa h] m
          else
            foldl (λ m e, match itemRRs h (eKey e) (eItem e) with
                          | Ok rrs => add_Answer rrs m
                          | Err _ => m
                          end) m entries
      end
  end.

(** The map built for the status record. *)
Definition status_item h : Item :=
  Some (foldr (λ '(k, v), map_set k (VString v)) []
    [ (lit "service", lit "contractdb"); (lit "version", Version);
      (lit "table", cTable (cfg h)); (lit "pkAttr", cPKAttr (cfg h)) ]).

(** [value, _ := json.Marshal(...)]: a failed marshal reads as empty. *)
Definition bytes_of (r : res str) : str := match r with Ok b => b | Err _ => [] end.

(** The apex of the zone. *)
Definition apexResponse h (m : Msg) (q : Question) : Msg :=
  if qType q =? TypeSOA then add_Answer [soa h] m
  else if qType q =? TypeNS then addNS h m
  else if qType q =? TypeANY then addNS h (add_Answer [soa h] m)
  else add_Ns [soa h] m.

Definition addressResponse h (m : Msg) (q : Question) : Msg :=
  let ip := ParseIP (cAdvertiseIP (cfg h)) in
  if is_none (To4 ip)
  then add_Answer [RR_AAAA (mkHdr (qName q) TypeAAAA ClassINET (cTTL (cfg h))) ip] m
  else add_Answer [RR_A (mkHdr (qName q) TypeA ClassINET (cTTL (cfg h))) ip] m.

(** A point lookup: everything after the GSI test. *)
Definition pointLookup h (m req : Msg) (q : Question) (key : str) : Msg :=
  match Get (store h) key with
  | Err _ => SetRcode m req RcodeServerFailure
  | Ok None => nxDomain h m
  | Ok item =>
      if negb (qType q =? TypeTXT) && negb (qType q =? TypeANY) then add_Ns [soa h] m
      else
        match itemRRs h key item with
        | Err _ => SetRcode m req RcodeServerFailure
        | Ok rrs => set_Answer rrs m
        end
  end.

(** The attribute value of a GSI query name: the labels below the index label,
    or the decoded bytes of a single k- label. *)
Definition gsiValue h (qname : str) (labels : list str) : str :=
  let value := Join (take (length labels - 1) labels) (lit ".") in
  if (length labels =? 2)%nat && HasPrefix (hd [] labels) (lit "k-") then
    match parseKey (cZone (cfg h)) qname with
    | Some decoded => decoded
    | None => value
    end
  else value.

Definition txt_or_any (q : Question) : bool := (qType q =? TypeTXT) || (qType q =? TypeANY).

(** [q] is [req.Question[0]]: both callers have checked that there is one. *)
Definition buildResponse h (req : Msg) (q : Question) : Msg :=
  let m := set_Authoritative true (SetReply new_Msg req) in
  let zone := cZone (cfg h) in
  let ttl := cTTL (cfg h) in
  let qname := ToLower (qName q) in
  if bool_decide (qname = zone) then apexResponse h m q
  else if bool_decide (qname = statusName ++ lit "." ++ zone) && txt_or_any q then
    add_Answer [txtRR (qName q) ttl (bytes_of (Marshal (status_item h)))] m
  else if bool_decide (qname = statusName ++ lit ".health." ++ zone) && txt_or_any q then
    add_Answer [txtRR (qName q) ttl (lit "UP")] m
  else if bool_decide (qname = statusName ++ lit ".metrics." ++ zone) && txt_or_any q then
    add_Answer (txtRR (qName q) ttl <$> chunkBytes (Marshal_ints (Snapshot (metrics h))) maxTxtChunk) m
  else if bool_decide (qname = lit "ns1." ++ zone) && ((qType q =? TypeA) || (qType q =? TypeANY)) then
    addressResponse h m q
  else
    match parseKey zone qname with
    | None => nxDomain h m
    | Some key =>
        if bool_decide (key = []) then nxDomain h m else
        let labels := Split (TrimSuffix qname (lit "." ++ zone)) "." in
        let idx := List.last labels [] in
        if (2 <=? length labels)%nat
           && negb (bool_decide (default [] (cGSIs (cfg h) !! idx) = []))
        then gsiLookup h m req q idx (gsiValue h qname labels)
        else pointLookup h m req q key
    end.

(** ** Committing a write *)

(** The returned serial is the second component. *)
Definition commitWrite h (removed added : list RR) : Handler W L * Z :=
  let s := u32 (serial h + 1) in
  let h := set_serial s h in
  (match changelog h with
   | Some c => set_changelog (Some (Record_ s removed added c)) h
   | None => h
   end, s).
End Handler.

(** ** The state monad of the handlers *)

Record Srv (W L : Type) := mkSrv {
  hd_ : Handler W L; sent : list Msg; notified : list (list str * str) }.
Arguments mkSrv {W L}. Arguments hd_ {W L}. Arguments sent {W L}. Arguments notified {W L}.

Definition M (W L A : Type) : Type := Srv W L → A * Srv W L.

Section Monad.
Context {W L : Type}.

Definition ret {A} (a : A) : M W L A := λ s, (a, s).
Definition bind {A B} (m : M W L A) (f : A → M W L B) : M W L B :=
  λ s, let '(a, s') := m s in f a s'.
Definition get_h : M W L (Handler W L) := λ s, (hd_ s, s).
Definition put_h (h : Handler W L) : M W L unit := λ s, (tt, mkSrv h (sent s) (notified s)).

(** A handler that returns nothing is its final state. *)
Lemma run_unit (r : unit * Srv W L) : r = (tt, r.2).
Proof. by destruct r as [[] s]. Qed.

(** [h.metrics.X.Add(1)] *)
Definition count (c : counter) : M W L unit :=
  λ s, (tt, mkSrv (set_metrics (bump c (metrics (hd_ s))) (hd_ s)) (sent s) (notified s)).

(** [w.WriteMsg(m)]: the message is handed to the connection; the result is the
    connection's error, if any. *)
Definition WriteMsg (w : Conn) (m : Msg) : M W L (option error) :=
  λ s, (writeErr w (length (sent s)), mkSrv (hd_ s) (sent s ++ [m]) (notified s)).

(** [go NotifyAll(addrs, zone)] *)
Definition go_notify (addrs : list str) (zone : str) : M W L unit :=
  λ s, (tt, mkSrv (hd_ s) (sent s) (notified s ++ [(addrs, zone)])).
End Monad.

Notation "x <-- c ; k" := (bind c (λ x, k))
  (at level 100, c at next level, right associativity) : go_scope.
Notation "c ;; k" := (bind c (λ _, k))
  (at level 100, k at level 200, right associativity) : go_scope.
