(* ===== verification/Update.v ===== *)
(** * RFC 2136 dynamic update (update.go)

    [processUpdate] validates a packet, evaluates its prerequisites, applies at
    most one storage operation and journals it; [handleUpdate] is the
    transport-facing entry point.  miekg/dns carries the prerequisites in
    [mAnswer] and the update records in [mNs]. *)

From S2P Require Import Prelude GoStrings Float64 Json Names Dns Journal Store Handler.

(** ** decodeTXTStrings *)

Definition ddd_val (a b d : ascii) : Z := (digit_val a * 10 + digit_val b) * 10 + digit_val d.

(** One character string: backslash escapes become octets. *)
Fixpoint decode_chunk (s : str) : option str :=
  match s with
  | [] => Some []
  | c :: s1 =>
      if negb (bool_decide (c = "\"%char)) then cons c <$> decode_chunk s1 else
      match s1 with
      | [] => None
      | a :: s2 =>
          match s2 with
          | b :: (d :: s3) =>
              if is_digit a && is_digit b && is_digit d then
                if 255 <? ddd_val a b d then None
                else cons (chr (ddd_val a b d)) <$> decode_chunk s3
              else cons a <$> decode_chunk s2
          | _ => cons a <$> decode_chunk s2
          end
      end
  end.

(** [None] is strconv.ErrSyntax. *)
Fixpoint decodeTXTStrings (chunks : list str) : option str :=
  match chunks with
  | [] => Some []
  | c :: cs => x ← decode_chunk c; y ← decodeTXTStrings cs; Some (x ++ y)
  end.

Section Update.
Context `{UT : UnicodeTables, D : DnsLib} {W L : Type} `{ST : !Store W, CL : !ChangeLog L}.
Implicit Types h : Handler W L.

(** ** Prerequisites *)

(** The switch over one prerequisite's class and type, with the stored item:
    [None] lets the loop go on, [Some rcode] returns. *)
Definition checkPrerequisite (rr : RR) (item : Item) : option Z :=
  let hdr := Header rr in
  let c := hClass hdr in
  let t := hRrtype hdr in
  if (c =? ClassANY) && (t =? TypeANY) then
    if is_none item then Some RcodeNameError else None
  else if (c =? ClassNONE) && (t =? TypeANY) then
    if negb (is_none item) then Some RcodeYXDomain else None
  else if (c =? ClassANY) && (t =? TypeTXT) then
    if is_none item then Some RcodeNXRrset else None
  else if (c =? ClassNONE) && (t =? TypeTXT) then
    if negb (is_none item) then Some RcodeYXRrset else None
  else if (c =? ClassINET) && (t =? TypeTXT) then
    match rr with
    | RR_TXT _ txt =>
        if is_none item then Some RcodeNXRrset else
        match decodeTXTStrings txt with
        | None => Some RcodeFormatError
        | Some want =>
            match Marshal item with
            | Err _ => Some RcodeServerFailure
            | Ok blob => if bool_decide (blob = want) then None else Some RcodeNXRrset
            end
        end
    | _ => Some RcodeNXRrset
    end
  else Some RcodeFormatError.

Fixpoint evalPrerequisites h (prereqs : list RR) : Z :=
  match prereqs with
  | [] => RcodeSuccess
  | rr :: rest =>
      let hdr := Header rr in
      match parseKey (cZone (cfg h)) (ToLower (hName hdr)) with
      | None => RcodeNotZone
      | Some key =>
          if negb (hTtl hdr =? 0) then RcodeFormatError else
          match Get (store h) key with
          | Err _ => RcodeServerFailure
          | Ok item =>
              match checkPrerequisite rr item with
              | Some rcode => rcode
              | None => evalPrerequisites h rest
              end
          end
      end
  end.

(** ** First pass over the update section *)

Record collected := mkCollected {
  co_deletes : list str;                   (* keys *)
  co_order : list str;                     (* owner names, first arrival first *)
  co_blobs : gmap str (list str);          (* owner name -> TXT strings *)
}.

Definition is_delete (hdr : Hdr) : bool :=
  ((hClass hdr =? ClassANY) && ((hRrtype hdr =? TypeANY) || (hRrtype hdr =? TypeTXT)))
  || ((hClass hdr =? ClassNONE) && ((hRrtype hdr =? TypeANY) || (hRrtype hdr =? TypeTXT))).

(** [inl rcode] returns from processUpdate. *)
Definition collect_rr (zone : str) (st : collected) (rr : RR) : Z + collected :=
  let hdr := Header rr in
  let name := ToLower (hName hdr) in
  if is_delete hdr then
    match parseKey zone name with
    | None => inl RcodeNotZone
    | Some key => inr (mkCollected (co_deletes st ++ [key]) (co_order st) (co_blobs st))
    end
  else if (hClass hdr =? ClassINET) && (hRrtype hdr =? TypeTXT) then
    match rr with
    | RR_TXT _ txt =>
        if negb (HasSuffix name (lit "." ++ zone)) then inl RcodeNotZone else
        let seen := co_blobs st !! name in
        let order := if is_none seen then co_order st ++ [name] else co_order st in
        inr (mkCollected (co_deletes st) order (<[name := default [] seen ++ txt]> (co_blobs st)))
    | _ => inl RcodeRefused
    end
  else inl RcodeRefused.

Fixpoint collect (zone : str) (st : collected) (rrs : list RR) : Z + collected :=
  match rrs with
  | [] => inr st
  | rr :: rest => match collect_rr zone st rr with inl rc => inl rc | inr st' => collect zone st' rest end
  end.

(** ** The insertions: one per owner name, in arrival order *)

Definition build_insert (zone : str) (blobs : gmap str (list str)) (name : str) : Z + (str * Item) :=
  match parseKey zone name with
  | None => inl RcodeRefused
  | Some key =>
      match decodeTXTStrings (default [] (blobs !! name)) with
      | None => inl RcodeFormatError
      | Some payload =>
          if negb (Valid payload) then inl RcodeFormatError else
          match Unmarshal payload with
          | Err _ => inl RcodeFormatError
          | Ok item => inr (key, item)
          end
      end
  end.

Fixpoint build_inserts (zone : str) (blobs : gmap str (list str)) (order : list str) :
    Z + list (str * Item) :=
  match order with
  | [] => inr []
  | name :: rest =>
      match build_insert zone blobs name with
      | inl rc => inl rc
      | inr ins =>
          match build_inserts zone blobs rest with inl rc => inl rc | inr l => inr (ins :: l) end
      end
  end.

(** ** The delta of a write *)

(** An item that does not marshal is logged and left out. *)
Definition render h (key : str) (item : Item) : list RR :=
  match itemRRs h key item with Ok rrs => rrs | Err _ => [] end.

Definition removed_rrs h (old : list (str * Item)) : list RR :=
  flat_map (λ '(key, item), if is_none item then [] else render h key item) old.

Definition added_rrs h (inserts : list (str * Item)) : list RR :=
  flat_map (λ '(key, item), render h key item) inserts.

(** ** processUpdate *)

(** The storage operation: a put supersedes a delete for the same owner. *)
Definition apply_write (wr : Writer W) (st : W) (inserts : list (str * Item)) (affected : list str) :
    W * option error :=
  match inserts with
  | (pk, item) :: _ => Put wr st pk item
  | [] => Delete wr st (hd [] affected)
  end.

(** Everything from the snapshot of the old state on. *)
Definition commitUpdate (wr : Writer W) (inserts : list (str * Item)) (affected : list str) : M W L Z :=
  h <-- get_h;
  match mapM_res (λ key, item <-? Get (store h) key; Ok (key, item)) affected with
  | Err _ => ret RcodeServerFailure
  | Ok old =>
      let '(st, err) := apply_write wr (store h) inserts affected in
      let h := set_store st h in
      put_h h;;
      if negb (is_none err) then ret RcodeServerFailure else
      count CUpdates;;
      let removed := removed_rrs h old in
      let added := added_rrs h inserts in
      h <-- get_h;
      put_h (commitWrite h removed added).1;;
      (if negb (bool_decide (notifiees h = [])) then go_notify (notifiees h) (cZone (cfg h)) else ret tt);;
      ret RcodeSuccess
  end.

Definition affectedSet (deletes : list str) (inserts : list (str * Item)) : gset str :=
  list_to_set (deletes ++ (fst <$> inserts)).

Definition processUpdate (req : Msg) : M W L Z :=
  h <-- get_h;
  let zone := cZone (cfg h) in
  match writer with
  | None => ret RcodeRefused
  | Some wr =>
      match mQuestion req with
      | [q] =>
          if negb (EqualFold (qName q) zone) || negb (qType q =? TypeSOA) || negb (qClass q =? ClassINET)
          then ret RcodeFormatError else
          let rcode := evalPrerequisites h (mAnswer req) in
          if negb (rcode =? RcodeSuccess) then ret rcode else
          match collect zone (mkCollected [] [] ∅) (mNs req) with
          | inl rc => ret rc
          | inr co =>
              match build_inserts zone (co_blobs co) (co_order co) with
              | inl rc => ret rc
              | inr inserts =>
                  let affected := affectedSet (co_deletes co) inserts in
                  if (1 <? size affected)%nat then ret RcodeRefused
                  else if (size affected =? 0)%nat then ret RcodeSuccess
                  else commitUpdate wr inserts (Strings (elements affected))
              end
          end
      | _ => ret RcodeFormatError
      end
  end.

Definition handleUpdate (w : Conn) (req : Msg) : M W L unit :=
  h <-- get_h;
  if negb (tsigValid h w req) then
    count CRefused;;
    WriteMsg w (SetRcode new_Msg req RcodeRefused);;
    ret tt
  else
    rcode <-- processUpdate req;
    h <-- get_h;
    let resp := set_Authoritative true (SetRcode new_Msg req rcode) in
    let resp := if rcode =? RcodeSuccess then add_Answer [soa h] resp else resp in
    WriteMsg w (setupReplyTsig h w req resp);;
    ret tt.
End Update.
