(* ===== verification/Transfer.v ===== *)
(** * Zone transfers (transfer.go)

    Full transfers ([handleAXFR]), incremental transfers ([handleIXFR]) and
    the message stream both use ([streamZone], [batchRRs]). *)

From S2P Require Import Prelude GoStrings Dns Journal Store Handler.

Definition axfrMaxRRsPerMsg : nat := 500.
Definition axfrMaxBytes : Z := 65536.
Definition overheadPerMsg : Z := 512.

(** [context.Canceled], compared by identity. *)
Definition Canceled : error := EMsg (lit "context canceled") [].

#[export] Instance error_eq_dec : EqDecision error.
Proof. solve_decision. Defined.

Definition tcp : str := lit "tcp".

Section Transfer.
Context `{UT : UnicodeTables, D : DnsLib} {W L : Type} `{ST : !Store W, CL : !ChangeLog L}.
Implicit Types h : Handler W L.

Definition refuse (w : Conn) (req : Msg) : M W L unit :=
  h <-- get_h;
  let m := SetRcode new_Msg req RcodeRefused in
  let m := if tsigValid h w req then setupReplyTsig h w req m else m in
  WriteMsg w m;;
  count CRefused.

Definition udpCap (req : Msg) : Z :=
  match IsEdns0 req with
  | Some (size, _) => if udpDefaultSize <? size then size else udpDefaultSize
  | None => udpDefaultSize
  end.

(** The guard both batching loops share: the batch is not empty and one more
    record would exceed the record or the byte limit. *)
Definition batch_full (n : nat) (len l capBytes : Z) : bool :=
  (0 <? n)%nat && ((axfrMaxRRsPerMsg <? n + 1)%nat || (capBytes <? len + l)).

(** The loop of [batchRRs]: [out] the finished batches, [cur] the open one. *)
Fixpoint batch_loop (capBytes : Z) (out : list (list RR)) (cur : list RR) (curLen : Z) (rrs : list RR) :
    list (list RR) :=
  match rrs with
  | [] => if (0 <? length cur)%nat then out ++ [cur] else out
  | rr :: rest =>
      let l := RRLen rr in
      if batch_full (length cur) curLen l capBytes
      then batch_loop capBytes (out ++ [cur]) [rr] (overheadPerMsg + l) rest
      else batch_loop capBytes out (cur ++ [rr]) (curLen + l) rest
  end.

Definition batchRRs (rrs : list RR) (capBytes : Z) : list (list RR) :=
  batch_loop capBytes [] [] overheadPerMsg rrs.

(** The closure [send] of streamZone. *)
Definition send (w : Conn) (req : Msg) (rrs : list RR) : M W L bool :=
  match rrs with
  | [] => ret true
  | _ =>
      h <-- get_h;
      let m := set_Answer rrs (set_Authoritative true (SetReply new_Msg req)) in
      err <-- WriteMsg w (setupReplyTsig h w req m);
      ret (is_none err)
  end.

(** Send a list of batches, stopping at the first failure. *)
Fixpoint send_all (w : Conn) (req : Msg) (batches : list (list RR)) : M W L bool :=
  match batches with
  | [] => ret true
  | b :: rest =>
      ok <-- send w req b;
      if negb ok then ret false else send_all w req rest
  end.

(** [s := h.soa(); s.Serial = serial] *)
Definition soaWithSerial h (serial : Z) : RR :=
  match soa h with
  | RR_SOA hdr ns mbox _ refresh retry expire minttl => RR_SOA hdr ns mbox serial refresh retry expire minttl
  | rr => rr
  end.

(** RFC 1995 difference sequence: old SOA, deletions, new SOA, additions. *)
Definition difference h (d : Delta) : list RR :=
  [soaWithSerial h (u32 (dSerial d - 1))] ++ dRemoved d ++ [soaWithSerial h (dSerial d)] ++ dAdded d.

Fixpoint send_deltas (w : Conn) (req : Msg) (capBytes : Z) (deltas : list Delta) : M W L bool :=
  match deltas with
  | [] => ret true
  | d :: rest =>
      h <-- get_h;
      ok <-- send_all w req (batchRRs (difference h d) capBytes);
      if negb ok then ret false else send_deltas w req capBytes rest
  end.

(** The callback of [List]: records are buffered and flushed; [None] is the
    abort after a failed write. *)
Fixpoint stream_rrs (w : Conn) (req : Msg) (capBytes : Z) (buf : list RR) (bufLen : Z) (rrs : list RR) :
    M W L (option (list RR * Z)) :=
  match rrs with
  | [] => ret (Some (buf, bufLen))
  | rr :: rest =>
      let l := RRLen rr in
      if batch_full (length buf) bufLen l capBytes then
        ok <-- send w req buf;
        if negb ok then ret None
        else stream_rrs w req capBytes [rr] (overheadPerMsg + l) rest
      else stream_rrs w req capBytes (buf ++ [rr]) (bufLen + l) rest
  end.

(** An entry that does not marshal is skipped. *)
Definition entry_rrs h (e : Entry) : list RR :=
  match itemRRs h (eKey e) (eItem e) with Ok rrs => rrs | Err _ => [] end.

Fixpoint stream_entries (w : Conn) (req : Msg) (capBytes : Z) (buf : list RR) (bufLen : Z)
    (page : list Entry) : M W L (option (list RR * Z)) :=
  match page with
  | [] => ret (Some (buf, bufLen))
  | e :: rest =>
      h <-- get_h;
      r <-- stream_rrs w req capBytes buf bufLen (entry_rrs h e);
      match r with
      | None => ret None
      | Some (buf, bufLen) => stream_entries w req capBytes buf bufLen rest
      end
  end.

Fixpoint stream_pages (w : Conn) (req : Msg) (capBytes : Z) (buf : list RR) (bufLen : Z)
    (pages : list (list Entry)) : M W L (option (list RR * Z)) :=
  match pages with
  | [] => ret (Some (buf, bufLen))
  | p :: rest =>
      r <-- stream_entries w req capBytes buf bufLen p;
      match r with
      | None => ret None
      | Some (buf, bufLen) => stream_pages w req capBytes buf bufLen rest
      end
  end.

(** The full-transfer branch: enumerate the store, then flush the rest. *)
Definition stream_full (w : Conn) (req : Msg) (capBytes : Z) (r : Reader W) : M W L bool :=
  h <-- get_h;
  let '(pages, err) := List_ r (store h) in
  res <-- stream_pages w req capBytes [] overheadPerMsg pages;
  match res with
  | None => ret false
  | Some (buf, _) =>
      if negb (is_none err) && negb (bool_decide (err = Some Canceled)) then ret false
      else send w req buf
  end.

(** [deltas = None] is Go's nil slice: a full transfer. *)
Definition streamZone (w : Conn) (req : Msg) (q : Question) (deltas : option (list Delta)) : M W L bool :=
  let isTCP := bool_decide (network w = tcp) in
  if (qType q =? TypeAXFR) && negb isTCP then (refuse w req;; ret false)
  else if is_none deltas && is_none reader then (refuse w req;; ret false)
  else
    let capBytes := if isTCP then axfrMaxBytes else Z.min (udpCap req - overheadPerMsg) axfrMaxBytes in
    h <-- get_h;
    ok <-- send w req [soa h];
    if negb ok then ret false else
    ok <-- match deltas, reader with
           | Some ds, _ => send_deltas w req capBytes ds
           | None, Some r => stream_full w req capBytes r
           | None, None => ret false
           end;
    if negb ok then ret false else
    h <-- get_h;
    ok <-- send w req [soa h];
    if negb ok then ret false else
    count CTransfers;;
    ret true.

(** [q] is [req.Question[0]]; the handlers always report the query as handled. *)
Definition handleAXFR (w : Conn) (req : Msg) (q : Question) : M W L unit :=
  h <-- get_h;
  if negb (EqualFold (qName q) (cZone (cfg h))) then refuse w req
  else streamZone w req q None;; ret tt.

(** The lone-SOA reply of handleIXFR. *)
Definition reply_soa (w : Conn) (req : Msg) : M W L unit :=
  h <-- get_h;
  let m := set_Answer [soa h] (set_Authoritative true (SetReply new_Msg req)) in
  WriteMsg w (setupReplyTsig h w req m);;
  ret tt.

Definition handleIXFR (w : Conn) (req : Msg) (q : Question) : M W L unit :=
  h <-- get_h;
  match mNs req with
  | [RR_SOA _ _ _ clientSerial _ _ _ _] =>
      if negb (EqualFold (qName q) (cZone (cfg h))) then refuse w req
      else if serial h <=? clientSerial then reply_soa w req
      else if negb (bool_decide (network w = tcp)) then reply_soa w req
      else
        let deltas := match changelog h with
                      | Some c => (Deltas clientSerial c).1
                      | None => None
                      end in
        streamZone w req q deltas;; ret tt
  | _ => refuse w req
  end.
End Transfer.
