(* ===== verification/Server.v ===== *)
(** * Dispatch (server.go: ServeDNS, acceptFunc; the registrations of update.go and transfer.go)

    [ServeDNS] is the entry point for every DNS message; the maps that the
    init functions fill ([opcodeExtensions], [queryExtensions]) are functions
    here.  [acceptFunc] filters messages by their header before that. *)

From S2P Require Import Prelude GoStrings Dns Journal Store Handler Update Transfer.

(** ** acceptFunc *)

Record Header_ := mkHeader { Bits : Z; Qdcount : Z; Ancount : Z; Nscount : Z; Arcount : Z }.

Inductive MsgAcceptAction := MsgAccept | MsgReject | MsgIgnore | MsgRejectNotImplemented.

Definition acceptFunc (dh : Header_) : MsgAcceptAction :=
  let qrBit := Z.shiftl 1 15 in
  if negb (Z.land (Bits dh) qrBit =? 0) then MsgIgnore else
  let opcode := Z.land (Z.shiftr (Bits dh) 11) 15 in
  if opcode =? OpcodeUpdate then
    if negb (Qdcount dh =? 1) || (2 <? Arcount dh) then MsgReject else MsgAccept
  else if negb (opcode =? OpcodeQuery) && negb (opcode =? OpcodeNotify) then MsgRejectNotImplemented
  else if negb (Qdcount dh =? 1) then MsgReject
  else if 1 <? Nscount dh then MsgReject
  else if (1 <? Ancount dh) && (opcode =? OpcodeNotify) then MsgReject
  else if 2 <? Arcount dh then MsgReject
  else MsgAccept.

Section Server.
Context `{UT : UnicodeTables, D : DnsLib} {W L : Type} `{ST : !Store W, CL : !ChangeLog L}.
Implicit Types h : Handler W L.

Definition opcodeExtensions (op : Z) : option (Conn → Msg → M W L unit) :=
  if op =? OpcodeUpdate then Some handleUpdate else None.

Definition queryExtensions (qtype : Z) : option (Conn → Msg → Question → M W L unit) :=
  if qtype =? TypeAXFR then Some handleAXFR
  else if qtype =? TypeIXFR then Some handleIXFR
  else None.

(** [dns.HandleFailed(w, req)] *)
Definition HandleFailed (w : Conn) (req : Msg) : M W L unit := WriteMsg w (failure_reply req);; ret tt.

(** The OPT record a reply to an EDNS0 query carries. *)
Definition reply_opt (do_ : bool) : RR := RR_OPT (mkHdr (lit ".") TypeOPT 0 0) ourUDPSize do_.

Definition echo_edns0 (req resp : Msg) : Msg :=
  match IsEdns0 req with
  | Some (_, d) => add_Extra [reply_opt d] resp
  | None => resp
  end.

Definition sign_response h (w : Conn) (req resp : Msg) : Msg :=
  match signer h, IsEdns0 req with
  | Some sign, Some (_, true) => sign (now w) req resp
  | _, _ => resp
  end.

Definition max_size (w : Conn) (req : Msg) : Z :=
  if bool_decide (network w = lit "udp") then
    match IsEdns0 req with
    | Some (size, _) => if udpDefaultSize <? size then size else udpDefaultSize
    | None => udpDefaultSize
    end
  else MaxMsgSize.

Definition refused_reply (w : Conn) (req : Msg) : M W L unit :=
  count CRefused;;
  WriteMsg w (SetRcode new_Msg req RcodeRefused);;
  ret tt.

(** The ordinary query path, from [buildResponse] on. *)
Definition serveQuery (w : Conn) (req : Msg) (q : Question) : M W L unit :=
  h <-- get_h;
  let resp := buildResponse h req q in
  (if mRcode resp =? RcodeNameError then count CNXDomain else ret tt);;
  let max := max_size w req in
  let resp := echo_edns0 req resp in
  let resp := sign_response h w req resp in
  (if max <? MsgLen resp then count CTruncated else ret tt);;
  let resp := if max <? MsgLen resp then Truncate resp max else resp in
  WriteMsg w (setupReplyTsig h w req resp);;
  ret tt.

Definition ServeDNS (w : Conn) (req : Msg) : M W L unit :=
  count CQueries;;
  h <-- get_h;
  match mQuestion req with
  | [] => HandleFailed w req
  | q :: _ =>
      if negb (mOpcode req =? OpcodeQuery) then
        match opcodeExtensions (mOpcode req) with
        | Some ext => ext w req
        | None => HandleFailed w req
        end
      else if negb (authOK h w req) then refused_reply w req
      else
        match queryExtensions (qType q) with
        | Some ext => if negb (tsigValid h w req) then refuse w req else ext w req q
        | None => serveQuery w req q
        end
  end.
End Server.
