(* ===== verification/Race.v ===== *)
(** * Updates in parallel (update.go, server.go, journal.go)

    The DNS library serves every message in a goroutine of its own and
    [processUpdate] takes no lock: only single calls are atomic, those of the
    store, of the metrics and the serial (sync/atomic) and of the journal (its
    mutex).  Here an update is a thread that runs [processUpdate] from one such
    call to the next, on the handler all threads share; a schedule names the
    thread that moves next.  The reply and the NOTIFY that follow an update
    touch none of this state. *)

From S2P Require Import Prelude GoStrings Json Names Dns Journal Store Handler Update.

Section Race.
Context `{UT : UnicodeTables, D : DnsLib} {W L : Type} `{ST : !Store W, CL : !ChangeLog L}.
Implicit Types h : Handler W L.

(** Where a thread stands: before the call that it makes next. *)
Inductive phase :=
  | Started
  | Checking (rest : list RR)
  | Reading (inserts : list (str * Item)) (affected : list str)
  | Writing (inserts : list (str * Item)) (affected : list str) (old : list (str * Item))
  | Counting (inserts : list (str * Item)) (old : list (str * Item))
  | Bumping (inserts : list (str * Item)) (old : list (str * Item))
  | Recording (inserts : list (str * Item)) (old : list (str * Item)) (s : Z)
  | Finished (rcode : Z).

(** The passes over the update section, which read the zone name only. *)
Definition after_checks (zone : str) (req : Msg) : phase :=
  match collect zone (mkCollected [] [] ∅) (mNs req) with
  | inl rc => Finished rc
  | inr co =>
      match build_inserts zone (co_blobs co) (co_order co) with
      | inl rc => Finished rc
      | inr inserts =>
          let affected := affectedSet (co_deletes co) inserts in
          if (1 <? size affected)%nat then Finished RcodeRefused
          else if (size affected =? 0)%nat then Finished RcodeSuccess
          else Reading inserts (Strings (elements affected))
      end
  end.

(** [h.serial.Add(1)] and [h.changelog.Record], the two calls of [commitWrite]. *)
Definition bump_serial h : Handler W L := set_serial (u32 (serial h + 1)) h.

Definition record_delta h (s : Z) (removed added : list RR) : Handler W L :=
  match changelog h with
  | Some c => set_changelog (Some (Record_ s removed added c)) h
  | None => h
  end.

(** One call of a thread, and what it computes until the next. *)
Definition advance h (req : Msg) (p : phase) : Handler W L * phase :=
  match p with
  | Started =>
      match writer with
      | None => (h, Finished RcodeRefused)
      | Some _ =>
          match mQuestion req with
          | [q] =>
              if negb (EqualFold (qName q) (cZone (cfg h))) || negb (qType q =? TypeSOA) || negb (qClass q =? ClassINET)
              then (h, Finished RcodeFormatError) else (h, Checking (mAnswer req))
          | _ => (h, Finished RcodeFormatError)
          end
      end
  | Checking (rr :: rest) =>
      let rc := evalPrerequisites h [rr] in
      (h, if rc =? RcodeSuccess then Checking rest else Finished rc)
  | Checking [] => (h, after_checks (cZone (cfg h)) req)
  | Reading inserts affected =>
      match mapM_res (λ key, item <-? Get (store h) key; Ok (key, item)) affected with
      | Err _ => (h, Finished RcodeServerFailure)
      | Ok old => (h, Writing inserts affected old)
      end
  | Writing inserts affected old =>
      match writer with
      | None => (h, Finished RcodeRefused)
      | Some wr =>
          let '(st, err) := apply_write wr (store h) inserts affected in
          (set_store st h, if negb (is_none err) then Finished RcodeServerFailure else Counting inserts old)
      end
  | Counting inserts old => (set_metrics (bump CUpdates (metrics h)) h, Bumping inserts old)
  | Bumping inserts old => let h := bump_serial h in (h, Recording inserts old (serial h))
  | Recording inserts old s =>
      (record_delta h s (removed_rrs h old) (added_rrs h inserts), Finished RcodeSuccess)
  | Finished rc => (h, Finished rc)
  end.

(** The shared handler and the threads, each with its message. *)
Record system := mkSystem { shared : Handler W L; threads : list (Msg * phase) }.

Definition step_thread (sys : system) (i : nat) : system :=
  match threads sys !! i with
  | None => sys
  | Some (req, p) =>
      let '(h, p') := advance (shared sys) req p in mkSystem h (<[i := (req, p')]> (threads sys))
  end.

(** A schedule is the list of the threads that move, in order. *)
Definition run (sys : system) (sched : list nat) : system := foldl step_thread sys sched.

Definition launch h (reqs : list Msg) : system := mkSystem h ((λ req, (req, Started)) <$> reqs).

Definition finished (p : phase) : bool := match p with Finished _ => true | _ => false end.
Definition all_finished (sys : system) : bool := forallb (λ t, finished t.2) (threads sys).

(** A thread that is never interrupted, for [n] calls. *)
Definition solo (h : Handler W L) (req : Msg) (p : phase) (n : nat) : Handler W L * phase :=
  Nat.iter n (λ '(h, p), advance h req p) (h, p).
End Race.
