(* ===== verification/RaceTransfer.v ===== *)
(** * A transfer beside updates (transfer.go, server.go)

    A full transfer over TCP is served in a goroutine of its own, beside the
    updates of [Race].  It reads shared state at these moments only: the serial
    for the opening SOA, the table whenever the store's enumeration reads a
    page, and the serial again for the closing SOA.  The transfer runs the code
    of [Transfer] between them; a schedule says when the pages are read and
    which keys each one covers. *)

From S2P Require Import Prelude GoStrings Json Names Dns Journal Store Handler Update Transfer Race.

Section RaceTransfer.
Context `{UT : UnicodeTables, D : DnsLib} {W L : Type} `{ST : !Store W, !FullStoreSpec W, CL : !ChangeLog L}.

(** Before the opening SOA; in the enumeration, with the records not sent yet
    and their size; after the closing SOA, or after a failure. *)
Inductive xphase :=
  | XWaiting
  | XScanning (buf : list RR) (bufLen : Z)
  | XEnded (ok : bool).

(** The updates with the handler they share, the transfer and the messages its
    connection was given. *)
Record xsystem := mkXSystem { updates : system (W := W) (L := L); transfer : xphase; stream : list Msg }.

Inductive event :=
  | Turn (i : nat)          (* thread [i] of the updates makes its next call *)
  | Open
  | Page (ks : list str)    (* the enumeration reads these keys *)
  | Broken                  (* the enumeration fails *)
  | Close.

(** What a page that covers [ks] holds: those that are in the table. *)
Definition page_of (t : gmap str gomap) (ks : list str) : list Entry :=
  omap (λ k, (λ m, mkEntry k (Some m)) <$> t !! k) ks.

(** The transfer's part of the state, as its code sees it, and back. *)
Definition as_srv (x : xsystem) : Srv W L := mkSrv (shared (updates x)) (stream x) [].
Definition resume (x : xsystem) (p : xphase) (s : Srv W L) : xsystem :=
  mkXSystem (mkSystem (hd_ s) (threads (updates x))) p (sent s).

Definition open_soa (w : Conn) (req : Msg) : M W L bool := h <-- get_h; send w req [soa h].

(** From the end of the enumeration: the last batch and the closing SOA. *)
Definition close_stream (w : Conn) (req : Msg) (buf : list RR) : M W L bool :=
  ok <-- send w req buf;
  if negb ok then ret false else
  ok <-- open_soa w req;
  if negb ok then ret false else
  count CTransfers;;
  ret true.

Definition xstep (w : Conn) (req : Msg) (x : xsystem) (e : event) : xsystem :=
  match e, transfer x with
  | Turn i, _ => mkXSystem (step_thread (updates x) i) (transfer x) (stream x)
  | Open, XWaiting =>
      let '(ok, s) := open_soa w req (as_srv x) in
      resume x (if ok then XScanning [] overheadPerMsg else XEnded false) s
  | Page ks, XScanning buf bufLen =>
      let '(r, s) := stream_entries w req axfrMaxBytes buf bufLen (page_of (view (store (shared (updates x)))) ks) (as_srv x) in
      resume x (match r with Some (buf, bufLen) => XScanning buf bufLen | None => XEnded false end) s
  | Broken, XScanning _ _ => mkXSystem (updates x) (XEnded false) (stream x)
  | Close, XScanning buf _ =>
      let '(ok, s) := close_stream w req buf (as_srv x) in resume x (XEnded ok) s
  | _, _ => x
  end.

Definition xrun (w : Conn) (req : Msg) (x : xsystem) (evs : list event) : xsystem := foldl (xstep w req) x evs.

Definition xlaunch (h : Handler W L) (reqs : list Msg) : xsystem := mkXSystem (launch h reqs) XWaiting [].

(** ** An incremental transfer (handleIXFR) *)

(** What a handler of an IXFR over TCP does next: read the serial that the
    client's is compared with; the SOA of the lone reply; the journal; the
    opening SOA, and the differences after it; the closing SOA.  Without a
    history the transfer goes on as a full one. *)
Inductive iphase :=
  | IAsked (since : Z)
  | IUpToDate
  | ILoaded (since : Z)
  | IFetched (deltas : list Delta)
  | IReplayed
  | IFallback
  | IEnded (ok : bool).

Definition icall (w : Conn) (req : Msg) (p : iphase) : M W L iphase :=
  match p with
  | IAsked since => h <-- get_h; ret (if serial h <=? since then IUpToDate else ILoaded since)
  | IUpToDate => reply_soa w req;; ret (IEnded true)
  | ILoaded since =>
      h <-- get_h;
      ret match (match changelog h with Some c => (Deltas since c).1 | None => None end) with
          | Some ds => IFetched ds
          | None => IFallback
          end
  | IFetched ds =>
      ok <-- open_soa w req;
      if negb ok then ret (IEnded false) else
      ok <-- send_deltas w req axfrMaxBytes ds;
      ret (if ok : bool then IReplayed else IEnded false)
  | IReplayed =>
      ok <-- open_soa w req;
      if negb ok then ret (IEnded false) else
      count CTransfers;;
      ret (IEnded true)
  | _ => ret p
  end.

Record isystem := mkISystem { iupdates : system (W := W) (L := L); iphase_ : iphase; istream : list Msg }.

(** A turn of an update, or the next call of the transfer. *)
Definition istep (w : Conn) (req : Msg) (x : isystem) (e : option nat) : isystem :=
  match e with
  | Some i => mkISystem (step_thread (iupdates x) i) (iphase_ x) (istream x)
  | None =>
      let '(p, s) := icall w req (iphase_ x) (mkSrv (shared (iupdates x)) (istream x) []) in
      mkISystem (mkSystem (hd_ s) (threads (iupdates x))) p (sent s)
  end.

Definition irun (w : Conn) (req : Msg) (x : isystem) (evs : list (option nat)) : isystem := foldl (istep w req) x evs.
End RaceTransfer.
