(* ===== verification/Dnssec.v ===== *)
(** * Online DNSSEC signing (dnssec.go)

    [OnlineSigner.Sign] and what it calls.  The private key and the signature
    algorithm are parameters ([DnssecLib]): [RRSIG_Sign] is the library's
    [RRSIG.Sign], which fills in a template, [KeyTag] its [DNSKEY.KeyTag].  Key
    generation and the PEM file are library calls and file I/O. *)

From S2P Require Import Prelude GoStrings Codec Dns Handler.

Definition ECDSAP256SHA256 : Z := 13.
Definition dnskeyFlagsCSK : Z := 257.
Definition defaultTTL : Z := 300.
Definition inceptionSkew : Z := 3600.
Definition signatureLife : Z := 604800.

Class DnssecLib (K : Type) := {
  KeyTag : RR → Z;
  RRSIG_Sign : K → RR → list RR → res RR;      (* key, template, RRset *)
  RRSIG_Verify : RR → RR → list RR → bool;     (* DNSKEY, signature, RRset *)
  key_pair : K → RR → Prop;                    (* the DNSKEY holds the public half of the key *)
}.

(** The DNSKEY of the zone with a public key. *)
Definition zone_key (zone publicKey : str) : RR :=
  RR_DNSKEY (mkHdr zone TypeDNSKEY ClassINET 0) dnskeyFlagsCSK 3 ECDSAP256SHA256 publicKey.

(** [sig.Hdr.Ttl = ttl] *)
Definition set_sig_ttl (ttl : Z) (sig : RR) : RR :=
  match sig with
  | RR_RRSIG h tc alg ot expi inc tag sn sg => RR_RRSIG (mkHdr (hName h) (hRrtype h) (hClass h) ttl) tc alg ot expi inc tag sn sg
  | _ => sig
  end.

(** An RRset of a zone: records of one owner in the zone, one type and class IN. *)
Definition rrset_of_zone `{UT : UnicodeTables} (zone : str) (rrs : list RR) : Prop :=
  rrs ≠ [] ∧ ∃ n t, (ToLower n = zone ∨ HasSuffix (ToLower n) (lit "." ++ zone) = true)
  ∧ Forall (λ rr, hName (Header rr) = n ∧ hRrtype (Header rr) = t ∧ hClass (Header rr) = ClassINET) rrs.

(** "Sign signs an RRSet. The signature needs to be filled in with the values:
    Inception, Expiration, KeyTag, SignerName and Algorithm.  The rest is copied
    from the RRset."  A non-zero OrigTtl is kept.  Sign may fail, and does for a
    template that is not filled in.  "Verify validates an RRSet with the
    signature and key": what Sign made of an RRset of a zone, with the tag, name
    and algorithm of the zone's key, passes with the other half of the key, and
    with any TTL of the signature record itself, which is not signed. *)
Class DnssecLaws (K : Type) `{UT : UnicodeTables, DL : DnssecLib K} : Prop := {
  RRSIG_Sign_fills k h tc alg ottl expi inc tag sn sg rr rrs sig :
    RRSIG_Sign k (RR_RRSIG h tc alg ottl expi inc tag sn sg) (rr :: rrs) = Ok sig →
    ∃ sg', sig = RR_RRSIG (mkHdr (hName (Header rr)) TypeRRSIG (hClass (Header rr)) (hTtl h))
                   (hRrtype (Header rr)) alg (if ottl =? 0 then hTtl (Header rr) else ottl) expi inc tag sn sg';
  RRSIG_Sign_verifies k zone pub h tc ottl expi inc sg rrs sig ttl :
    let key := zone_key zone pub in
    key_pair k key → rrset_of_zone zone rrs →
    RRSIG_Sign k (RR_RRSIG h tc ECDSAP256SHA256 ottl expi inc (KeyTag key) zone sg) rrs = Ok sig →
    RRSIG_Verify key (set_sig_ttl ttl sig) rrs = true;
}.

Record OnlineSigner (K : Type) := mkOnlineSigner { sgZone : str; sgKey : RR; sgPriv : K }.
Arguments mkOnlineSigner {K}. Arguments sgZone {K}. Arguments sgKey {K}. Arguments sgPriv {K}.

(** ** Key records *)

Section Keys.
Context `{UT : UnicodeTables}.

Definition sanitize_rune (p : Z * str) : str :=
  let r := p.1 in
  if ((97 <=? r) && (r <=? 122)) || ((48 <=? r) && (r <=? 57)) || (r =? 45) || (r =? 46)
  then EncodeRune r else lit "-".

Definition sanitizeZone (zone : str) : str :=
  flat_map sanitize_rune (runes (TrimSuffix (ToLower zone) (lit "."))).
End Keys.

(** The end of loadPEM: the SEC1 encoding of the public point as DNSKEY data. *)
Definition key_of_public (zone publicBytes : str) : res RR :=
  if negb (length publicBytes =? 65)%nat || negb (bool_decide (head publicBytes = Some (chr 4)))
  then Err (EMsg (lit "unexpected P-256 public key encoding") zone)
  else Ok (zone_key zone (Base64.EncodeToString Base64.StdEncoding (drop 1 publicBytes))).

(** ** Building blocks *)

Definition apexNSEC (zone : str) (ttl : Z) : RR :=
  RR_NSEC (mkHdr zone TypeNSEC ClassINET ttl) zone [TypeNS; TypeSOA; TypeTXT; TypeRRSIG; TypeNSEC; TypeDNSKEY].

Definition nodataNSEC (zone qname : str) (ttl : Z) : RR :=
  RR_NSEC (mkHdr qname TypeNSEC ClassINET ttl) zone [TypeTXT; TypeRRSIG; TypeNSEC].

(** The first SOA of the authority section decides. *)
Fixpoint soa_ttl (ns : list RR) : Z :=
  match ns with
  | [] => defaultTTL
  | RR_SOA h _ _ _ _ _ _ minttl :: _ => if 0 <? minttl then minttl else hTtl h
  | _ :: rest => soa_ttl rest
  end.

Definition responseTTL (resp : Msg) : Z := soa_ttl (mNs resp).

Section Sign.
Context `{UT : UnicodeTables, D : DnsLib} {K : Type} `{DL : !DnssecLib K}.
Variable s : OnlineSigner K.

Definition rrsetKey (rr : RR) : str * Z := (ToLower (hName (Header rr)), hRrtype (Header rr)).

(** Housekeeping types are not signed. *)
Definition skipped (rr : RR) : bool :=
  let t := hRrtype (Header rr) in (t =? TypeOPT) || (t =? TypeTSIG) || (t =? TypeRRSIG).

(** The grouping loop, on (order, groups). *)
Definition group_step (st : list (str * Z) * gmap (str * Z) (list RR)) (rr : RR) :
    list (str * Z) * gmap (str * Z) (list RR) :=
  let '(order, groups) := st in
  if skipped rr then st else
  let k := rrsetKey rr in
  (if is_none (groups !! k) then order ++ [k] else order,
   <[k := default [] (groups !! k) ++ [rr]]> groups).

(** What is signed with: everything but the signature itself. *)
Definition sig_template (now ttl : Z) (k : str * Z) (rrset : list RR) : RR :=
  let t := match rrset with rr :: _ => hTtl (Header rr) | [] => 0 end in
  let origTtl := if t =? 0 then ttl else t in
  RR_RRSIG (mkHdr [] 0 0 0) k.2 ECDSAP256SHA256 origTtl
    (u32 (now + signatureLife)) (u32 (now - inceptionSkew)) (KeyTag (sgKey s)) (sgZone s) [].

(** The signature over one RRset; a failure leaves the set unsigned. *)
Definition sign_set (now ttl : Z) (k : str * Z) (rrset : list RR) : option RR :=
  match RRSIG_Sign (sgPriv s) (sig_template now ttl k rrset) rrset with
  | Err _ => None
  | Ok (RR_RRSIG h tc alg ot expi inc tag sn sg) => Some (set_sig_ttl ot (RR_RRSIG h tc alg ot expi inc tag sn sg))
  | Ok sig => Some sig
  end.

Definition signSection (rrs : list RR) (now ttl : Z) : list RR :=
  let '(order, groups) := foldl group_step ([], ∅) rrs in
  foldl (λ out k, match sign_set now ttl k (default [] (groups !! k)) with
                  | Some sig => out ++ [sig]
                  | None => out
                  end) rrs order.

Definition is_RRSIG (rr : RR) : bool := hRrtype (Header rr) =? TypeRRSIG.

Definition set_key_ttl (ttl : Z) (k : RR) : RR :=
  match k with
  | RR_DNSKEY h f p a pk => RR_DNSKEY (mkHdr (hName h) (hRrtype h) (hClass h) ttl) f p a pk
  | _ => k
  end.

(** The denial records. *)
Definition add_denial (req : Msg) (ttl : Z) (resp : Msg) : Msg :=
  if mRcode resp =? RcodeNameError then add_Ns [apexNSEC (sgZone s) ttl] resp
  else match mQuestion req with
       | q :: _ =>
           if (mRcode resp =? RcodeSuccess) && bool_decide (mAnswer resp = [])
           then add_Ns [nodataNSEC (sgZone s) (qName q) ttl] resp else resp
       | [] => resp
       end.

(** The key at the apex. *)
Definition add_key (req : Msg) (ttl : Z) (resp : Msg) : Msg :=
  match mQuestion req with
  | q :: _ => if bool_decide (ToLower (qName q) = sgZone s) then add_Answer [set_key_ttl ttl (sgKey s)] resp else resp
  | [] => resp
  end.

Definition Sign (now : Z) (req resp : Msg) : Msg :=
  match IsEdns0 req with
  | Some (_, true) =>
      if existsb is_RRSIG (mAnswer resp ++ mNs resp) then resp else
      let ttl := responseTTL resp in
      let resp := add_key req ttl (add_denial req ttl resp) in
      set_Ns (signSection (mNs resp) now ttl) (set_Answer (signSection (mAnswer resp) now ttl) resp)
  | _ => resp
  end.

(** The signer as the handler's interface. *)
Definition online_signer : Signer := Sign.
End Sign.
