(* ===== verification/GoText.v ===== *)
(** * Spaces, fields and query strings

    [strings.TrimSpace] and [strings.Fields], and from net/url the reading of a
    query string ([QueryUnescape], [URL.Query().Get]). *)

From S2P Require Import Prelude GoStrings Codec.

(** ** unicode.IsSpace *)

(** The White_Space code points. *)
Definition spaces : list Z :=
  [9; 10; 11; 12; 13; 32; 133; 160; 5760] ++ ((λ i, 8192 + Z.of_nat i) <$> seq 0 11) ++ [8232; 8233; 8239; 8287; 12288].

Definition IsSpace (r : Z) : bool := bool_decide (r ∈ spaces).

(** The encoded spaces.  The first (last) rune of a string is a space exactly
    when one of these is a prefix (suffix): no other bytes decode to it. *)
Definition encoded_spaces : list str := EncodeRune <$> spaces.

Fixpoint TrimLeft_fuel (n : nat) (s : str) : str :=
  match n with
  | O => s
  | S n => match list_find (λ p, HasPrefix s p = true) encoded_spaces with
           | Some (_, p) => TrimLeft_fuel n (drop (length p) s)
           | None => s
           end
  end.

Fixpoint TrimRight_fuel (n : nat) (s : str) : str :=
  match n with
  | O => s
  | S n => match list_find (λ p, HasSuffix s p = true) encoded_spaces with
           | Some (_, p) => TrimRight_fuel n (TrimSuffix s p)
           | None => s
           end
  end.

Definition TrimSpace (s : str) : str :=
  let s := TrimLeft_fuel (length s) s in TrimRight_fuel (length s) s.

(** [strings.Fields]: the runs of runes that are no spaces. *)
Fixpoint fields_loop (rs : list (Z * str)) (word : str) : list str :=
  match rs with
  | [] => if bool_decide (word = []) then [] else [word]
  | (r, w) :: rs =>
      if IsSpace r then
        if bool_decide (word = []) then fields_loop rs [] else word :: fields_loop rs []
      else fields_loop rs (word ++ w)
  end.

Definition Fields (s : str) : list str := fields_loop (runes s) [].

(** ** Query strings (net/url) *)

(** [url.QueryUnescape] *)
Fixpoint QueryUnescape (s : str) : option str :=
  match s with
  | [] => Some []
  | c :: s1 =>
      if bool_decide (c = "%"%char) then
        match s1 with
        | a :: b :: s2 => x ← Hex.val a; y ← Hex.val b; cons (chr (x * 16 + y)) <$> QueryUnescape s2
        | _ => None
        end
      else cons (if bool_decide (c = "+"%char) then " "%char else c) <$> QueryUnescape s1
  end.

(** One setting of [url.ParseQuery]; malformed ones are left out. *)
Definition query_pair (p : str) : option (str * str) :=
  if ContainsByte p ";" || bool_decide (p = []) then None else
  let '(k, v, _) := Cut p "=" in
  k ← QueryUnescape k; v ← QueryUnescape v; Some (k, v).

Definition Query (raw : str) : list (str * str) := omap query_pair (Split raw "&").

(** [url.Values.Get] *)
Definition Query_Get (raw key : str) : str :=
  match list_find (λ kv, kv.1 = key) (Query raw) with Some (_, (_, v)) => v | None => [] end.

(** ** Printable text *)

(** Visible ASCII: no space and no part of one. *)
Definition visible (c : ascii) : bool := (33 <=? code c) && (code c <=? 126).
Definition visible_str (s : str) : Prop := Forall (λ c, visible c = true) s.

Lemma encoded_spaces_invisible p : p ∈ encoded_spaces → p ≠ [] ∧ Forall (λ c, visible c = false) p.
Proof.
  intros Hp. assert (Forall (λ p, p ≠ [] ∧ Forall (λ c, visible c = false) p) encoded_spaces) as H;
    [|by rewrite Forall_forall in H; apply H].
  vm_compute. repeat (constructor; [split; [done|repeat constructor]|]). constructor.
Qed.

Lemma no_space_part s p : visible_str s → p ∈ encoded_spaces → ∀ u v, s ≠ u ++ p ++ v.
Proof.
  intros Hs [Hne Hp]%encoded_spaces_invisible u v ->. destruct p as [|c p]; [done|].
  unfold visible_str in Hs. rewrite !Forall_app in Hs. destruct Hs as (_ & Hs & _).
  apply Forall_cons in Hs as [Hs _]. apply Forall_cons in Hp as [Hp _]. congruence.
Qed.

Lemma TrimSpace_visible s : visible_str s → TrimSpace s = s.
Proof.
  intros Hs. unfold TrimSpace.
  assert (∀ n, TrimLeft_fuel n s = s) as ->.
  { intros [|n]; [done|]. cbn [TrimLeft_fuel]. destruct (list_find _ _) as [[i p]|] eqn:E; [|done].
    apply list_find_Some in E as (Hp & Hpre & _). apply list_elem_of_lookup_2 in Hp.
    apply HasPrefix_spec in Hpre as [u Hu]. by destruct (no_space_part s p Hs Hp [] u). }
  destruct (length s) as [|n]; [done|]. cbn [TrimRight_fuel].
  destruct (list_find _ _) as [[i p]|] eqn:E; [|done].
  apply list_find_Some in E as (Hp & Hsuf & _). apply list_elem_of_lookup_2 in Hp.
  apply HasSuffix_spec in Hsuf as [u Hu]. destruct (no_space_part s p Hs Hp u []). by rewrite app_nil_r.
Qed.

(** Text that begins and ends with visible bytes is not trimmed. *)
Lemma TrimSpace_ends c mid d s : visible c = true → visible d = true → s = c :: mid ++ [d] → TrimSpace s = s.
Proof.
  intros Hc Hd ->. unfold TrimSpace.
  assert (∀ n, TrimLeft_fuel n (c :: mid ++ [d]) = c :: mid ++ [d]) as ->.
  { intros [|n]; [done|]. cbn [TrimLeft_fuel]. destruct (list_find _ _) as [[i p]|] eqn:E; [|done].
    apply list_find_Some in E as (Hp & Hpre & _).
    apply list_elem_of_lookup_2, encoded_spaces_invisible in Hp as [Hne Hp].
    apply HasPrefix_spec in Hpre as [u Hu]. destruct p as [|x p]; [done|]. apply Forall_cons in Hp as [Hx _].
    injection Hu as -> _. congruence. }
  destruct (length _) as [|n]; [done|]. cbn [TrimRight_fuel].
  destruct (list_find _ _) as [[i p]|] eqn:E; [|done]. apply list_find_Some in E as (Hp & Hsuf & _).
  apply list_elem_of_lookup_2, encoded_spaces_invisible in Hp as [Hne Hp].
  apply HasSuffix_spec in Hsuf as [u Hu]. destruct (exists_last Hne) as (p' & x & ->).
  apply Forall_app in Hp as [_ [Hx _]%Forall_cons].
  rewrite app_comm_cons, (app_assoc u) in Hu. apply app_inj_tail in Hu as [_ ->]. congruence.
Qed.

Lemma Split_Join ws sep : ws ≠ [] → Forall (λ w, sep ∉ w) ws → Split (Join ws [sep]) sep = ws.
Proof.
  intros Hne Hf. induction Hf as [|w ws Hw Hf IH]; [done|]. destruct ws as [|w' ws]; [by apply Split_no_sep|].
  assert (Join (w :: w' :: ws) [sep] = w ++ sep :: Join (w' :: ws) [sep]) as -> by done.
  rewrite Split_app by done. by rewrite IH.
Qed.

Lemma visible_ascii c : visible c = true → is_ascii c = true.
Proof. unfold visible, is_ascii. rewrite andb_true_iff, !Z.leb_le, Z.ltb_lt. lia. Qed.

Lemma visible_not_space c : visible c = true → IsSpace (code c) = false.
Proof. byte_cases c. Qed.

Lemma visible_ascii_str s : visible_str s → ascii_str s.
Proof. intros H. apply forallb_forall. intros c Hc%list_elem_of_In. unfold visible_str in H. rewrite Forall_forall in H. by apply visible_ascii, H. Qed.

Lemma fields_loop_word s rest word : visible_str s →
  fields_loop (((λ c, (code c, [c])) <$> s) ++ rest) word = fields_loop rest (word ++ s).
Proof.
  revert word. induction s as [|c s IH]; intros word Hs; cbn; [by rewrite app_nil_r|].
  apply Forall_cons in Hs as [Hc Hs]. rewrite visible_not_space by done. rewrite IH by done. by rewrite <- app_assoc.
Qed.

(** Two words with a space between them. *)
Lemma Fields_pair a b : visible_str a → visible_str b → a ≠ [] → b ≠ [] → Fields (a ++ lit " " ++ b) = [a; b].
Proof.
  intros Ha Hb Hna Hnb. unfold Fields. rewrite runes_ascii.
  2:{ by rewrite forallb_app, visible_ascii_str by done; cbn; apply visible_ascii_str. }
  rewrite fmap_app, fields_loop_word by done. cbn [app lit fmap list_fmap].
  cbn -[fields_loop IsSpace]. cbn [fields_loop].
  change (IsSpace (code " ")) with true. cbn iota. rewrite bool_decide_false by done. f_equal.
  rewrite <- (app_nil_r (_ <$> b)), fields_loop_word by done. cbn. by rewrite bool_decide_false.
Qed.

(** *** Query strings of plain text *)

(** Bytes that mean themselves in a query string. *)
Definition unreserved (c : ascii) : bool := bool_decide (c ∉ ["&"; ";"; "%"; "+"; "="]%char).

Lemma QueryUnescape_plain s : Forall (λ c, c ≠ "%"%char ∧ c ≠ "+"%char) s → QueryUnescape s = Some s.
Proof.
  induction 1 as [|c s [Hp Hs] _ IH]; [done|]. cbn [QueryUnescape]. rewrite !bool_decide_false by done.
  by rewrite IH.
Qed.

Lemma Query_Get_only key v :
  Forall (λ c, unreserved c = true) key → key ≠ [] →
  Forall (λ c, c ≠ "&"%char ∧ c ≠ ";"%char ∧ c ≠ "%"%char ∧ c ≠ "+"%char) v →
  Query_Get (key ++ lit "=" ++ v) key = v.
Proof.
  intros Hk Hne Hv. unfold Query_Get, Query.
  assert (∀ c, unreserved c = true → c ≠ "&"%char ∧ c ≠ ";"%char ∧ c ≠ "%"%char ∧ c ≠ "+"%char ∧ c ≠ "="%char) as Hu.
  { intros c Hc%bool_decide_eq_true. split_and!; intros ->; apply Hc; set_solver. }
  assert (∀ x : ascii, x = "&"%char ∨ x = ";"%char → x ∉ key ++ lit "=" ++ v) as Hno.
  { intros x Hx. rewrite !elem_of_app. rewrite Forall_forall in Hk, Hv.
    intros [H|[H|H]]; [apply Hk, Hu in H|apply list_elem_of_singleton in H; subst; by destruct Hx|apply Hv in H];
      destruct Hx as [-> | ->]; naive_solver. }
  rewrite Split_no_sep by (apply Hno; by left). cbn [omap list_omap]. unfold query_pair.
  assert (ContainsByte (key ++ lit "=" ++ v) ";" = false) as -> by (apply bool_decide_eq_false; apply Hno; by right).
  rewrite bool_decide_false by by destruct key. cbn [orb].
  assert (Cut (key ++ lit "=" ++ v) "=" = (key, v, true)) as ->.
  { clear -Hk Hu. induction key as [|c key IH]; cbn; [done|]. apply Forall_cons in Hk as [Hc Hk].
    rewrite bool_decide_false by naive_solver. cbn [app lit] in IH. cbn in IH. by rewrite IH. }
  cbn -[QueryUnescape]. rewrite !QueryUnescape_plain.
  - cbn. by rewrite decide_True.
  - eapply Forall_impl; [exact Hk|]. intros c Hc%Hu. tauto.
  - eapply Forall_impl; [exact Hv|]. cbn. intros c Hc. tauto.
Qed.
