(* ===== verification/Doh.v ===== *)
(** * DNS over HTTPS (doh.go)

    [NewDoHHandler] and the handlers it calls, on an HTTP request and response
    as net/http presents them.  [Pack] and [Unpack] of the DNS library are
    parameters ([DnsWire]).  Certificates and the TLS listener are library
    calls. *)

From S2P Require Import Prelude GoStrings Codec GoText Dns Journal Store Handler Server.

Definition dohContentType : str := lit "application/dns-message".
Definition dohMaxBody : Z := 65536.

(** ** HTTP (net/http) *)

(** What the handlers read of a request: the body's bytes and the error, if
    any, that the body ends with instead of EOF. *)
Record HttpRequest := mkHttpRequest {
  Method : str; ContentType : str; RawQuery : str; Body : str; bodyErr : option error }.

Record HttpResponse := mkHttpResponse { status : Z; headers : list (str * str); payload : str }.

(** [http.Error], on a response with the given headers *)
Definition http_Error (hs : list (str * str)) (msg : String.string) (code : Z) : HttpResponse :=
  mkHttpResponse code
    (hs ++ [(lit "Content-Type", lit "text/plain; charset=utf-8"); (lit "X-Content-Type-Options", lit "nosniff")])
    (lit msg ++ [chr 10]).

Definition StatusOK : Z := 200.
Definition StatusBadRequest : Z := 400.
Definition StatusMethodNotAllowed : Z := 405.
Definition StatusUnsupportedMediaType : Z := 415.
Definition StatusInternalServerError : Z := 500.

(** [io.ReadAll(io.LimitReader(body, n))]: the limit ends the reading before an
    error that lies beyond it. *)
Definition read_limited (n : Z) (r : HttpRequest) : res str :=
  if n <=? Z.of_nat (length (Body r)) then Ok (take (Z.to_nat n) (Body r))
  else match bodyErr r with Some e => Err e | None => Ok (Body r) end.

(** ** The wire format *)

Class DnsWire := { Unpack : str → res Msg; Pack : Msg → res str }.

(** base64url, padded or not *)
Definition base64URLDecode (s : str) : option str :=
  match Base64.DecodeString Base64.RawURLEncoding s with
  | Some raw => Some raw
  | None => Base64.DecodeString Base64.URLEncoding s
  end.

Section Doh.
Context `{UT : UnicodeTables, D : DnsLib, DW : DnsWire} {W L : Type} `{ST : !Store W, CL : !ChangeLog L}.

(** The message for a request that is answered. *)
Definition doh_reply (time : Z) (req : Msg) : M W L Msg :=
  h <-- get_h;
  if negb (mOpcode req =? OpcodeQuery) || authRequired h then ret (SetRcode new_Msg req RcodeRefused)
  else match mQuestion req with
  | [q] =>
      count CQueries;;
      h <-- get_h;
      let resp := buildResponse h req q in
      (if mRcode resp =? RcodeNameError then count CNXDomain else ret tt);;
      let resp := echo_edns0 req resp in
      ret (match signer h, IsEdns0 req with
           | Some sign, Some (_, true) => sign time req resp
           | _, _ => resp
           end)
  | _ => ret (SetRcode new_Msg req RcodeFormatError)
  end.

Definition writeDoHResponse (time : Z) (req : Msg) : M W L HttpResponse :=
  resp <-- doh_reply time req;
  h <-- get_h;
  let resp := set_Id 0 resp in
  ret (match Pack resp with
       | Err _ => http_Error [] "failed to encode response" StatusInternalServerError
       | Ok packed =>
           mkHttpResponse StatusOK
             [(lit "Content-Type", dohContentType); (lit "Cache-Control", lit "max-age=" ++ int_str (cTTL (cfg h)))]
             packed
       end).

Definition serveDoHPost (time : Z) (r : HttpRequest) : M W L HttpResponse :=
  if negb (HasPrefix (ContentType r) dohContentType)
  then ret (http_Error [] "unsupported media type" StatusUnsupportedMediaType)
  else match read_limited (dohMaxBody + 1) r with
  | Err _ => ret (http_Error [] "invalid request body" StatusBadRequest)
  | Ok body =>
      if bool_decide (body = []) || (dohMaxBody <? Z.of_nat (length body))
      then ret (http_Error [] "invalid request body" StatusBadRequest)
      else match Unpack body with
      | Err _ => ret (http_Error [] "malformed DNS message" StatusBadRequest)
      | Ok req => writeDoHResponse time req
      end
  end.

Definition serveDoHGet (time : Z) (r : HttpRequest) : M W L HttpResponse :=
  let q := TrimSpace (Query_Get (RawQuery r) (lit "dns")) in
  if bool_decide (q = []) then ret (http_Error [] "missing dns parameter" StatusBadRequest)
  else match base64URLDecode q with
  | None => ret (http_Error [] "invalid dns parameter encoding" StatusBadRequest)
  | Some raw =>
      if bool_decide (raw = []) then ret (http_Error [] "invalid dns parameter encoding" StatusBadRequest)
      else if dohMaxBody <? Z.of_nat (length raw)
      then ret (http_Error [] "dns parameter too large" StatusBadRequest)
      else match Unpack raw with
      | Err _ => ret (http_Error [] "malformed DNS message" StatusBadRequest)
      | Ok req => writeDoHResponse time req
      end
  end.

Definition NewDoHHandler (time : Z) (r : HttpRequest) : M W L HttpResponse :=
  if bool_decide (Method r = lit "GET") then serveDoHGet time r
  else if bool_decide (Method r = lit "POST") then serveDoHPost time r
  else ret (http_Error [(lit "Allow", lit "GET, POST")] "method not allowed" StatusMethodNotAllowed).
End Doh.
