(* ===== verification/Auth.v ===== *)
(** * TSIG keys and signatures (auth.go; buildTSIG of main.go)

    Parsing of the key configuration and the HMAC provider.  The hash functions
    of crypto/sha1, sha256 and sha512 and the library's [CanonicalName] are
    parameters ([Hashes], [TsigNames]); HMAC is written out over a hash
    function.  A Go map that is ranged over is the list of its entries in the
    order of that iteration. *)

From S2P Require Import Prelude GoStrings Codec GoText Handler.

(** ** Reading keys *)

Definition malformed (what : String.string) (arg : str) : error := EMsg (lit what) arg.

Definition inline_entry (keys : gmap str str) (ent : str) : res (gmap str str) :=
  let '(name, secret, found) := Cut ent ":" in
  if negb found || bool_decide (name = []) || bool_decide (secret = [])
  then Err (malformed "malformed key entry (want name:secret)" ent)
  else Ok (<[TrimSpace name := TrimSpace secret]> keys).

(** A loop over a list that an error ends. *)
Fixpoint fold_res {A B} (f : A → B → res A) (a : A) (l : list B) : res A :=
  match l with
  | [] => Ok a
  | x :: l => a' <-? f a x; fold_res f a' l
  end.

Definition loadTSIGKeysInline (spec : str) : res (gmap str str) := fold_res inline_entry ∅ (Split spec ",").

Definition file_line (keys : gmap str str) (line : str) : res (gmap str str) :=
  let line := TrimSpace line in
  if bool_decide (line = []) || HasPrefix line (lit "#") then Ok keys else
  match Fields line with
  | [name; secret] => Ok (<[name := secret]> keys)
  | _ => Err (malformed "malformed key line" line)
  end.

Section Files.
(** [os.ReadFile] *)
Variable ReadFile : str → res str.

Definition loadTSIGKeyFile (path : str) : res (gmap str str) :=
  data <-? ReadFile path; fold_res file_line ∅ (Split data (chr 10)).

Definition LoadTSIGKeys (spec : str) : res (gmap str str) :=
  if ContainsByte spec ":" then loadTSIGKeysInline spec else loadTSIGKeyFile spec.
End Files.

(** ** HMAC (crypto/hmac) *)

Record Hash := mkHash { Sum : str → str; BlockSize : nat }.

Definition xor_byte (z : Z) (c : ascii) : ascii := chr (Z.lxor (code c) z).

Definition hmac (h : Hash) (key msg : str) : str :=
  let key := if (BlockSize h <? length key)%nat then Sum h key else key in
  let block := key ++ replicate (BlockSize h - length key) (chr 0) in
  Sum h ((xor_byte 92 <$> block) ++ Sum h ((xor_byte 54 <$> block) ++ msg)).

Class Hashes := { sha1 : Hash; sha256 : Hash; sha384 : Hash; sha512 : Hash }.
Class TsigNames := { CanonicalName : str → str }.

(** ** The provider *)

Record hmacProvider := mkHmacProvider { keys : gmap str str }.

Section Provider.
Context `{UT : UnicodeTables, HS : Hashes, TN : TsigNames}.

Definition add_secret (m : gmap str str) (e : str * str) : res (gmap str str) :=
  let '(name, secret) := e in
  match Base64.DecodeString Base64.StdEncoding secret with
  | None => Err (malformed "tsig key: bad base64 secret" name)
  | Some raw => if bool_decide (raw = []) then Err (malformed "tsig key: empty secret" name)
                else Ok (<[CanonicalName name := raw]> m)
  end.

(** [newHMACProvider] on the entries of its map in the order of the loop. *)
Definition newHMACProvider_in (entries : list (str * str)) : res hmacProvider :=
  res_map mkHmacProvider (fold_res add_secret ∅ entries).

Definition hashFor (algo : str) : res Hash :=
  let a := CanonicalName algo in
  if bool_decide (a = lit "hmac-sha1.") then Ok sha1
  else if bool_decide (a = lit "hmac-sha256.") then Ok sha256
  else if bool_decide (a = lit "hmac-sha384.") then Ok sha384
  else if bool_decide (a = lit "hmac-sha512.") then Ok sha512
  else Err (malformed "unsupported TSIG algorithm" algo).

Definition Generate (p : hmacProvider) (msg name algo : str) : res str :=
  match keys p !! ToLower name with
  | None => Err (malformed "unknown tsig key" name)
  | Some secret => h <-? hashFor algo; Ok (hmac h secret msg)
  end.

Definition Verify (p : hmacProvider) (msg name algo mac : str) : option error :=
  match Hex.DecodeString mac with
  | None => Some (malformed "bad tsig mac encoding" mac)
  | Some mac =>
      match Generate p msg name algo with
      | Err e => Some e
      | Ok expected => if bool_decide (expected = mac) then None else Some (malformed "tsig signature mismatch" name)
      end
  end.

(** The provider as the handler's interface. *)
Definition hmac_provider (p : hmacProvider) : TsigProvider := mkTsigProvider (Generate p) (Verify p).

(** [buildTSIG] (main.go); the order in which the loaded map is ranged over is
    an argument. *)
Definition buildTSIG (ReadFile : str → res str) (range : gmap str str → list (str * str)) (spec : str) :
    res (option hmacProvider) :=
  if bool_decide (spec = []) then Ok None else
  ks <-? LoadTSIGKeys ReadFile spec;
  if bool_decide (ks = ∅) then Ok None else res_map Some (newHMACProvider_in (range ks)).
End Provider.
