(* ===== verification/Settings.v ===== *)
(** * Configuration of the server (main.go: cmdServe)

    Flags, environment and file are combined and checked as [cmdServe] does
    before it starts listening, up to the handler it serves; the key and the
    certificate that it prepares are in Listeners.v ([prepare]).  Parsing of
    flags and TOML, the domain-name syntax of the DNS library ([DomainNames])
    and the configuration of the AWS library ([AwsConfig]) are not part of the
    program. *)

From S2P Require Import Prelude GoStrings GoText GoNet Journal Store Dynamo Handler Auth.

(** The string flags are empty when absent. *)
Record Flags := mkFlags {
  f_addr : str; f_zone : str; f_table : str; f_pk : str; f_ttl : Z; f_endpoint : str; f_consistent : bool;
  f_demo : bool; f_gsi : str; f_auth : str; f_tsig_keys : str; f_notify : str; f_dnssec_dir : str;
  f_doh : str; f_tls_cert : str; f_tls_key : str; f_pidfile : str }.

(** The GSI table is the list of its entries in the order of the loop over it. *)
Record FileConfig := mkFileConfig {
  Server_Listen : str; Server_Zone : str; Server_TTL : Z; Server_AdvertiseIP : str; Server_Pidfile : str;
  DynamoDB_Table : str; DynamoDB_PKAttr : str; DynamoDB_Endpoint : str; DynamoDB_Consistent : bool;
  DynamoDB_GSIs : list (str * str); Demo_Enabled : bool; Auth_Mode : str; Auth_TSIGKeysFile : str;
  Notify_Notifiees : list str; DNSSEC_Enabled : bool; DNSSEC_KeyDir : str;
  DoH_Listen : str; DoH_Cert : str; DoH_Key : str }.

(** The zero value of FileConfig. *)
Definition zero_config : FileConfig :=
  mkFileConfig [] [] 0 [] [] [] [] [] false [] false [] [] [] false [] [] [] [].

Definition nonempty (s : str) : bool := negb (bool_decide (s = [])).

Definition firstNonEmpty (vals : list str) : str :=
  match list_find (λ v, nonempty v = true) vals with Some (_, v) => v | None => [] end.

(** [pick(flag, env, file, def)] *)
Definition pick (flagVal envVal fileVal def : str) : str :=
  if nonempty flagVal then flagVal else if nonempty envVal then envVal else if nonempty fileVal then fileVal else def.

Definition envOr (getenv : str → str) (key def : str) : str :=
  if nonempty (getenv key) then getenv key else def.

(** [strconv.Atoi] on 64-bit ints *)
Fixpoint digits (s : str) (n : Z) : option Z :=
  match s with
  | [] => Some n
  | c :: s => if is_digit c then digits s (n * 10 + (code c - 48)) else None
  end.

Definition Atoi (s : str) : option Z :=
  let '(neg, ds) := match s with
                    | c :: r => if bool_decide (c = "-"%char) then (true, r)
                                else if bool_decide (c = "+"%char) then (false, r) else (false, s)
                    | [] => (false, [])
                    end in
  if bool_decide (ds = []) then None else
  n ← digits ds 0;
  let z := if neg then - n else n in
  if (- 2 ^ 63 <=? z) && (z <? 2 ^ 63) then Some z else None.

(** ** Pieces of cmdServe *)

Definition finalTTL (flag : Z) (env : str) (file : Z) : Z :=
  let ttl := match (if nonempty env then Atoi env else None) with
             | Some n => if 0 <? n then u32 n else file
             | None => file
             end in
  let ttl := if 0 <? flag then u32 flag else ttl in
  if ttl =? 0 then 5 else ttl.

Section Settings.
Context `{UT : UnicodeTables}.

Definition bad_gsi (k v : str) : bool :=
  ContainsByte k "." || bool_decide (k = []) || bool_decide (v = []).

Definition file_gsi (gsis : gmap str str) (e : str * str) : res (gmap str str) :=
  let k := ToLower (TrimSpace e.1) in
  let v := TrimSpace e.2 in
  if bad_gsi k v then Err (EMsg (lit "invalid GSI mapping") k) else Ok (<[k := v]> gsis).

Definition flag_gsi (gsis : gmap str str) (pair : str) : res (gmap str str) :=
  let '(idx, attr, found) := Cut pair "=" in
  if negb found then Err (EMsg (lit "-gsi expects idx=attr pairs") []) else
  let idx := ToLower (TrimSpace idx) in
  let attr := TrimSpace attr in
  if bad_gsi idx attr then Err (EMsg (lit "invalid GSI mapping") pair) else Ok (<[idx := attr]> gsis).

Definition load_gsis (file : list (str * str)) (flag : str) : res (gmap str str) :=
  gsis <-? fold_res file_gsi ∅ file;
  if nonempty flag then fold_res flag_gsi gsis (Split flag ",") else Ok gsis.

Definition load_notifiees (file : list str) (flag : str) : list str :=
  file ++ (if nonempty flag then TrimSpace <$> Split flag "," else []).

(** ** The settings of a server *)

Inductive StoreChoice :=
  | UseDemo (st : Sample.sampleStore)
  | UseDynamo (st : dynamoStore) (endpoint : str).

(** Listener, certificate, key, and whether the default certificate is made first. *)
Record DohSettings := mkDohSettings { doh_addr : str; doh_cert : str; doh_key : str; doh_default : bool }.

Record Settings := mkSettings {
  s_addr : str; s_store : StoreChoice; s_config : Config; s_tsig : option hmacProvider; s_authRequired : bool;
  s_journal : MemChangeLog.t; s_notifiees : list str; s_dnssec : option str; s_doh : option DohSettings;
  s_pidfile : str }.

Class DomainNames := { Fqdn : str → str; IsDomainName : str → bool }.

(** [awsconfig.LoadDefaultConfig], which reads files and variables of its own. *)
Class AwsConfig := { LoadDefaultConfig : res unit }.

Context `{DN : DomainNames, AC : AwsConfig, HS : Hashes, TN : TsigNames}.

Definition usage (what : String.string) (arg : str) : error := EMsg (lit what) arg.

(** [cmdServe] up to its signer, at the given Unix time: the settings with which
    [prepare] and the services go on. *)
Definition cmdServe (f : Flags) (getenv : str → str) (fc : FileConfig) (time : Z) (ReadFile : str → res str)
    (range : gmap str str → list (str * str)) : res Settings :=
  let env k := getenv (lit k) in
  let finalAddr := pick (f_addr f) (env "CONTRACTDB_ADDR") (Server_Listen fc) (lit ":53") in
  let finalZone := ToLower (Fqdn (pick (f_zone f) (env "CONTRACTDB_ZONE") (Server_Zone fc) (lit "contractdb.internal."))) in
  if negb (IsDomainName finalZone) || bool_decide (finalZone = lit ".")
  then Err (usage "invalid authoritative zone" finalZone) else
  let finalPK := pick (f_pk f) (env "CONTRACTDB_PK") (DynamoDB_PKAttr fc) (lit "pk") in
  let finalTable := pick (f_table f) (env "CONTRACTDB_TABLE") (DynamoDB_Table fc) [] in
  let finalEndpoint := pick (f_endpoint f) (env "CONTRACTDB_ENDPOINT") (DynamoDB_Endpoint fc) [] in
  let finalAuth := pick (f_auth f) (env "CONTRACTDB_AUTH") (Auth_Mode fc) (lit "open") in
  let finalTsig := pick (f_tsig_keys f) (env "CONTRACTDB_TSIG_KEYS") (Auth_TSIGKeysFile fc) [] in
  let finalDoh := pick (f_doh f) (env "CONTRACTDB_DOH") (DoH_Listen fc) [] in
  let finalTLSCert := pick (f_tls_cert f) (env "CONTRACTDB_TLS_CERT") (DoH_Cert fc) [] in
  let finalTLSKey := pick (f_tls_key f) (env "CONTRACTDB_TLS_KEY") (DoH_Key fc) [] in
  let finalConsistent := f_consistent f || bool_decide (envOr getenv (lit "CONTRACTDB_CONSISTENT") [] = lit "1") || DynamoDB_Consistent fc in
  let useDemo := f_demo f || bool_decide (envOr getenv (lit "CONTRACTDB_DEMO") [] = lit "1") || Demo_Enabled fc in
  if negb (bool_decide (finalAuth = lit "open")) && negb (bool_decide (finalAuth = lit "tsig-required"))
  then Err (usage "invalid auth mode" finalAuth) else
  if bool_decide (finalAuth = lit "tsig-required") && negb (nonempty finalTsig)
  then Err (usage "auth mode tsig-required needs -tsig-keys / CONTRACTDB_TSIG_KEYS" []) else
  if negb (eqb (nonempty finalTLSCert) (nonempty finalTLSKey))
  then Err (usage "DoH TLS certificate and key must be configured together" []) else
  let finalAdvertiseIP := pick [] (env "CONTRACTDB_ADVERTISE_IP") (Server_AdvertiseIP fc) (lit "127.0.0.1") in
  if is_none (ParseIP finalAdvertiseIP) then Err (usage "invalid advertise IP" finalAdvertiseIP) else
  let cfgTTL := finalTTL (f_ttl f) (env "CONTRACTDB_TTL") (Server_TTL fc) in
  gsis <-? load_gsis (DynamoDB_GSIs fc) (f_gsi f);
  if negb useDemo && negb (nonempty finalTable)
  then Err (usage "no -table / CONTRACTDB_TABLE configured (or use -demo)" []) else
  loaded <-? (if useDemo then Ok tt else res_wrap (lit "load aws config") [] LoadDefaultConfig);
  let st := if useDemo then UseDemo (Sample.NewFullSampleStore gsis)
            else UseDynamo (NewFullDynamoStore finalTable finalPK finalConsistent gsis) finalEndpoint in
  let config := mkConfig finalZone finalTable finalPK cfgTTL finalAdvertiseIP (u32 time) gsis in
  provider <-? res_wrap (lit "tsig") [] (buildTSIG ReadFile range finalTsig);
  let authRequired := bool_decide (finalAuth = lit "tsig-required") in
  if authRequired && is_none provider then Err (EMsg (lit "tsig-required mode needs at least one valid TSIG key") []) else
  let dnssec := if nonempty (f_dnssec_dir f) || DNSSEC_Enabled fc
                then Some (if nonempty (f_dnssec_dir f) then f_dnssec_dir f else DNSSEC_KeyDir fc) else None in
  let doh := if nonempty finalDoh then
               if negb (nonempty finalTLSCert) && negb (nonempty finalTLSKey) then
                 let dir := envOr getenv (lit "CONTRACTDB_TLS_DIR") (lit ".contractdb-tls") in
                 Some (mkDohSettings finalDoh (dir ++ lit "/cert.pem") (dir ++ lit "/key.pem") true)
               else Some (mkDohSettings finalDoh finalTLSCert finalTLSKey false)
             else None in
  Ok (mkSettings finalAddr st config provider authRequired (MemChangeLog.NewMemChangeLog (u32 time))
        (load_notifiees (Notify_Notifiees fc) (f_notify f)) dnssec doh
        (pick (f_pidfile f) (env "CONTRACTDB_PIDFILE") (Server_Pidfile fc) [])).

(** The handler that is served, over the chosen store and signer. *)
Definition configured {W} (st : W) (sg : option Signer) (p : Settings) : Handler W MemChangeLog.t :=
  let h := NewHandler st (s_config p) in
  let h := match s_tsig p with Some k => set_tsigProvider (Some (hmac_provider k)) h | None => h end in
  let h := set_authRequired (s_authRequired p) h in
  let h := set_changelog (Some (s_journal p)) h in
  let h := set_notifiees (s_notifiees p) h in
  match sg with Some s => set_signer (Some s) h | None => h end.
End Settings.

(** [cmdStop]: the pid file it reads. *)
Definition stop_pidfile (fc : FileConfig) : str := firstNonEmpty [Server_Pidfile fc; lit "contractdb.pid"].

(** [cmdHealthcheck]: the address it asks. *)
Definition health_addr (target : str) (fc : FileConfig) : str :=
  let addr := firstNonEmpty [target; Server_Listen fc; lit "127.0.0.1:53"] in
  if ContainsByte addr ":" then addr else addr ++ lit ":53".
