(* ===== verification/Client.v ===== *)
(** * The program as a client (notify.go; the commands of main.go)

    NOTIFY messages, and the commands that look at or stop a running server.
    The client half of miekg/dns, the network and the kernel are parameters:
    [Exchange] sends one message and returns the reply, [Dial] opens a
    connection, [Kill] sends a signal; files are a map from path to content. *)

From S2P Require Import Prelude GoStrings GoText GoNet Dns Journal Store Dynamo Handler Auth Settings.

(** ** Questions (miekg/dns) *)

Class DnsQuestions := {
  (** [m.SetQuestion(name, qtype)] *)
  SetQuestion : Msg → str → Z → Msg;
  (** [dns.RcodeToString[rcode]] *)
  RcodeToString : Z → str;
}.

(** "SetQuestion creates a question message, it sets the Question section,
    generates an Id and sets the RecursionDesired (RD) bit to true." *)
Class QuestionLaws (Q : DnsQuestions) : Prop := {
  SetQuestion_Question m n t : mQuestion (SetQuestion m n t) = [mkQuestion n t ClassINET];
  SetQuestion_Opcode m n t : mOpcode (SetQuestion m n t) = mOpcode m;
  SetQuestion_Response m n t : mResponse (SetQuestion m n t) = mResponse m;
  SetQuestion_RecursionDesired m n t : mRecursionDesired (SetQuestion m n t) = true;
  SetQuestion_Answer m n t : mAnswer (SetQuestion m n t) = mAnswer m;
  SetQuestion_Ns m n t : mNs (SetQuestion m n t) = mNs m;
  SetQuestion_Extra m n t : mExtra (SetQuestion m n t) = mExtra m;
}.

#[export] Hint Rewrite @SetQuestion_Question @SetQuestion_Opcode @SetQuestion_Response @SetQuestion_Answer
  @SetQuestion_Ns @SetQuestion_Extra using typeclasses eauto : dns.

Definition set_Opcode (x : Z) (m : Msg) : Msg :=
  mkMsg (mId m) (mResponse m) x (mAuthoritative m) (mTruncated m) (mRecursionDesired m)
    (mRcode m) (mQuestion m) (mAnswer m) (mNs m) (mExtra m).
Definition set_RecursionDesired (x : bool) (m : Msg) : Msg :=
  mkMsg (mId m) (mResponse m) (mOpcode m) (mAuthoritative m) (mTruncated m) x
    (mRcode m) (mQuestion m) (mAnswer m) (mNs m) (mExtra m).

(** ** NOTIFY (notify.go) *)

Section Notify.
Context `{Q : DnsQuestions}.
Variable Exchange : str → Msg → res Msg.

Definition notify_msg (zone : str) : Msg :=
  set_RecursionDesired false (set_Opcode OpcodeNotify (SetQuestion new_Msg zone TypeSOA)).

(** The error, if any. *)
Definition SendNotify (addr zone : str) : option error :=
  match Exchange addr (notify_msg zone) with
  | Err e => Some (EWrap (lit "notify " ++ addr) zone e)
  | Ok resp =>
      if negb (mRcode resp =? RcodeSuccess)
      then Some (EWrap (lit "notify " ++ addr) zone (EMsg (lit "slave answered") (RcodeToString (mRcode resp))))
      else None
  end.

(** The errors that are logged.  The goroutines share nothing; the order of the
    lines is that of the addresses here. *)
Definition NotifyAll (addrs : list str) (zone : str) : list error := omap (λ addr, SendNotify addr zone) addrs.
End Notify.

(** ** Commands (main.go) *)

Inductive command := Init | Serve_ | Status | Stop | Healthcheck | Unknown (cmd : str).

(** [main]: the command and its arguments. *)
Definition main (args : list str) : command * list str :=
  let '(cmd, rest) := match args with
                      | a :: rest => if HasPrefix a (lit "-") then (lit "serve", args) else (a, rest)
                      | [] => (lit "serve", [])
                      end in
  (if bool_decide (cmd = lit "init") then Init
   else if bool_decide (cmd = lit "serve") then Serve_
   else if bool_decide (cmd = lit "status") then Status
   else if bool_decide (cmd = lit "stop") then Stop
   else if bool_decide (cmd = lit "healthcheck") then Healthcheck
   else Unknown cmd, rest).

(** *** Pid files *)

(** The files, and the variable [pidfilePath] of this process. *)
Record process := mkProcess { files : gmap str str; pidfilePath : str }.

(** [WriteFile] fails where [writable] says so. *)
Definition writePidfile (writable : str → bool) (pid : Z) (path : str) (p : process) : process :=
  if bool_decide (path = []) then p
  else mkProcess (if writable path then <[path := int_str pid]> (files p) else files p) path.

Definition removePidfile (p : process) : process :=
  if bool_decide (pidfilePath p = []) then p else mkProcess (delete (pidfilePath p) (files p)) [].

(** The end of [cmdServe]: the pid file is there while [serving] runs, and is
    removed when it returns, with or without an error. *)
Definition serve_with_pidfile {A} (writable : str → bool) (pid : Z) (path : str)
    (serving : gmap str str → gmap str str * A) (fs : gmap str str) : gmap str str * A :=
  let p := writePidfile writable pid path (mkProcess fs []) in
  let '(fs, a) := serving (files p) in
  (files (removePidfile (mkProcess fs (pidfilePath p))), a).

Definition ReadFile_of (fs : gmap str str) (path : str) : res str :=
  match fs !! path with Some data => Ok data | None => Err (EMsg (lit "no such file") path) end.

(** [cmdStop]: the process that gets the signal. *)
Definition cmdStop (ReadFile : str → res str) (Kill : Z → option error) (fc : FileConfig) : res Z :=
  match ReadFile (stop_pidfile fc) with
  | Err e => Err (EWrap (lit "no pidfile") [] e)
  | Ok data =>
      match Atoi (TrimSpace data) with
      | None => Err (EMsg (lit "bad pidfile") data)
      | Some pid => match Kill pid with Some e => Err (EWrap (lit "signal") (int_str pid) e) | None => Ok pid end
      end
  end.

Definition status_addr (fc : FileConfig) : str := firstNonEmpty [Server_Listen fc; lit ":53"].

(** [cmdStatus]: is it running? *)
Definition cmdStatus (Dial : str → option error) (fc : FileConfig) : bool := is_none (Dial (status_addr fc)).

(** *** The health check *)

Inductive probe := IsHealthy | ExchangeFailed (e : error) | NoUpRecord | FatalError (e : error) | IndexPanic.

Section Healthcheck.
Context `{UT : UnicodeTables, D : DnsLib, Q : DnsQuestions, DN : DomainNames, HS : Hashes, TN : TsigNames}.
Variables (getenv : str → str) (ReadFile : str → res str) (range : gmap str str → list (str * str)).
Variable Exchange : str → option hmacProvider → Msg → res Msg.

Definition health_zone (zoneFlag : str) (fc : FileConfig) : str :=
  ToLower (Fqdn (firstNonEmpty [zoneFlag; Server_Zone fc; lit "contractdb.internal."])).

Definition health_query (zone : str) : Msg := SetQuestion new_Msg (lit "_contractdb.health." ++ zone) TypeTXT.

Definition says_up (rr : RR) : bool :=
  match rr with RR_TXT _ txt => bool_decide (concat txt = lit "UP") | _ => false end.

Definition ask (addr : str) (provider : option hmacProvider) (m : Msg) : probe :=
  match Exchange addr provider m with
  | Err e => ExchangeFailed e
  | Ok resp => if existsb says_up (mAnswer resp) then IsHealthy else NoUpRecord
  end.

Definition cmdHealthcheck (target zoneFlag tsigKeys : str) (fc : FileConfig) (time : Z) : probe :=
  let addr := health_addr target fc in
  let m := health_query (health_zone zoneFlag fc) in
  let spec := firstNonEmpty [tsigKeys; getenv (lit "CONTRACTDB_TSIG_KEYS"); Auth_TSIGKeysFile fc] in
  if nonempty spec then
    match buildTSIG ReadFile range spec with
    | Err e => FatalError (EWrap (lit "tsig") [] e)
    | Ok None => ask addr None m
    | Ok (Some p) =>
        match Strings (fst <$> map_to_list (keys p)) with
        | [] => IndexPanic
        | name :: _ => ask addr (Some p) (SetTsig m name (lit "hmac-sha256.") 300 time)
        end
    end
  else ask addr None m.
End Healthcheck.
