(* ===== verification/KeyFiles.v ===== *)
(** * Key and certificate files (dnssec.go: NewOnlineSigner; doh.go: EnsureTLSCert)

    What the program does with the key of a zone and with the certificate of
    the HTTPS listener: when it reads, generates, encodes and writes them.  The
    cryptography and its encodings (crypto/ecdsa, crypto/x509, encoding/pem)
    are the parameters [KeyLib] and [CertLib]; path names are path/filepath's. *)

From S2P Require Import Prelude GoStrings Codec GoText GoNet Dns Dnssec.

(** ** Paths (path/filepath) *)

(** One element of a path that is cleaned, on the elements kept so far. *)
Definition clean_step (rooted : bool) (out : list str) (e : str) : list str :=
  if bool_decide (e = []) || bool_decide (e = lit ".") then out
  else if bool_decide (e = lit "..") then
    match last out with
    | Some l => if bool_decide (l = lit "..") then out ++ [e] else removelast out
    | None => if rooted then out else [e]
    end
  else out ++ [e].

Definition Clean (path : str) : str :=
  let rooted := HasPrefix path (lit "/") in
  let p := (if rooted then lit "/" else []) ++ Join (foldl (clean_step rooted) [] (Split path "/")) (lit "/") in
  if bool_decide (p = []) then lit "." else p.

(** [filepath.Join(dir, name)] of a non-empty directory and name *)
Definition Join_path (dir name : str) : str := Clean (dir ++ lit "/" ++ name).

(** [filepath.Dir(path)]: everything up to the last slash, cleaned. *)
Definition Dir (path : str) : str := Clean (Join (removelast (Split path "/") ++ [[]]) (lit "/")).

(** ** Files *)

(** Content and permission bits; directories are not part of the state. *)
Abbreviation filesystem := (gmap str (str * Z)).

(** The operations the system refuses; a file that may not be read or written
    exists all the same. *)
Record permissions := mkPermissions {
  no_read : str → option error; no_write : str → option error; no_mkdir : str → option error }.

Inductive reading := Contents (data : str) | NotExist | ReadError (e : error).

Section Files.
Variable os : permissions.

Definition ReadFile (fs : filesystem) (path : str) : reading :=
  match no_read os path with
  | Some e => ReadError e
  | None => match fs !! path with Some (data, _) => Contents data | None => NotExist end
  end.

(** An existing file keeps its permission bits. *)
Definition WriteFile (fs : filesystem) (path data : str) (perm : Z) : filesystem * option error :=
  match no_write os path with
  | Some e => (fs, Some e)
  | None => (<[path := (data, match fs !! path with Some (_, old) => old | None => perm end)]> fs, None)
  end.

(** [os.Stat(path)] without error *)
Definition exists_ (fs : filesystem) (path : str) : bool := bool_decide (is_Some (fs !! path)).

(** ** The zone's key *)

Class KeyLib (K : Type) := {
  (** [k.Generate(256)], from a source of randomness: the public key it sets,
      and the private key if it is an ECDSA key *)
  GenerateKey : Z → res (str * option K);
  MarshalECPrivateKey : K → res str;
  ParseECPrivateKey : str → res K;
  on_P256 : K → bool;
  (** [priv.PublicKey.Bytes()] *)
  PublicBytes : K → res str;
  pem_Encode : str → str → str;              (* block type, bytes *)
  pem_Decode : str → option (str * str);
}.

(** The encodings are inverse to the decodings; a generated key is a P-256 key
    whose DNSKEY public key is the base64 of its point without the SEC1 tag. *)
Class KeyLaws (K : Type) `{KeyLib K} : Prop := {
  pem_roundtrip ty data : pem_Decode (pem_Encode ty data) = Some (ty, data);
  ec_roundtrip k der : MarshalECPrivateKey k = Ok der → ParseECPrivateKey der = Ok k;
  generated_p256 rnd pub k : GenerateKey rnd = Ok (pub, Some k) →
    on_P256 k = true ∧ ∃ xy, PublicBytes k = Ok (chr 4 :: xy) ∧ length xy = 64%nat
      ∧ pub = Base64.EncodeToString Base64.StdEncoding xy;
}.

Section Signer.
Context `{UT : UnicodeTables} {K : Type} `{KL : !KeyLib K}.
Variable Fqdn : str → str.

Definition ec_private : str := lit "EC PRIVATE KEY".

(** [s.generate()], for the signer of a zone *)
Definition generate (rnd : Z) (zone : str) : res (OnlineSigner K) :=
  match GenerateKey rnd with
  | Err e => Err e
  | Ok (pub, None) => Err (EMsg (lit "dnssec: generated unexpected private key type") [])
  | Ok (pub, Some priv) => Ok (mkOnlineSigner zone (zone_key zone pub) priv)
  end.

Definition loadPEM (zone data : str) : res (OnlineSigner K) :=
  match pem_Decode data with
  | None => Err (EMsg (lit "not an EC PRIVATE KEY PEM block") zone)
  | Some (ty, bytes) =>
      if negb (bool_decide (ty = ec_private)) then Err (EMsg (lit "not an EC PRIVATE KEY PEM block") zone) else
      priv <-? ParseECPrivateKey bytes;
      if negb (on_P256 priv) then Err (EMsg (lit "private key is not ECDSA P-256") zone) else
      publicBytes <-? res_wrap (lit "encode P-256 public key") zone (PublicBytes priv);
      key <-? key_of_public zone publicBytes;
      Ok (mkOnlineSigner zone key priv)
  end.

(** [s.savePEM(path)] *)
Definition savePEM (fs : filesystem) (s : OnlineSigner K) (path : str) : filesystem * option error :=
  match MarshalECPrivateKey (sgPriv s) with
  | Err e => (fs, Some e)
  | Ok der =>
      match no_mkdir os (Dir path) with
      | Some e => (fs, Some e)
      | None => WriteFile fs path (pem_Encode ec_private der) 384       (* 0600 *)
      end
  end.

Definition key_path (zone keyDir : str) : str := Join_path keyDir (sanitizeZone zone ++ lit ".key").

Definition NewOnlineSigner (rnd : Z) (zone keyDir : str) (fs : filesystem) : filesystem * res (OnlineSigner K) :=
  let name := Fqdn (ToLower zone) in
  if bool_decide (keyDir = []) then (fs, generate rnd name) else
  let path := key_path zone keyDir in
  match ReadFile fs path with
  | Contents data => (fs, loadPEM name data)
  | ReadError e => (fs, Err e)
  | NotExist =>
      match generate rnd name with
      | Err e => (fs, Err e)
      | Ok s => match savePEM fs s path with
                | (fs, Some e) => (fs, Err e)
                | (fs, None) => (fs, Ok s)
                end
      end
  end.
End Signer.

(** ** The certificate *)

Record certTemplate := mkCertTemplate {
  SerialNumber : Z; CommonName : str; NotBefore : Z; NotAfter : Z; KeyUsage : Z; ExtKeyUsage : list Z;
  BasicConstraintsValid : bool; IsCA : bool; DNSNames : list str; IPAddresses : list IP }.

Definition KeyUsageDigitalSignature : Z := 1.
Definition ExtKeyUsageServerAuth : Z := 1.

Class CertLib (K : Type) := {
  GenerateECKey : Z → res K;
  RandInt : Z → Z → res Z;                   (* randomness, limit *)
  AddYears : Z → Z → Z;
  CreateCertificate : certTemplate → K → res str;
}.

Section Certificate.
Context {K : Type} `{KL : !KeyLib K, CB : !CertLib K}.

(** A new certificate and its key, PEM-encoded. *)
Definition self_signed (rnd now : Z) : res (str * str) :=
  key <-? res_wrap (lit "generate key") [] (GenerateECKey rnd);
  serial <-? res_wrap (lit "generate serial") [] (RandInt rnd (Z.shiftl 1 128));
  let tmpl := mkCertTemplate serial (lit "contractdb") (now - 3600) (AddYears now 10)
                KeyUsageDigitalSignature [ExtKeyUsageServerAuth] true false [lit "localhost"]
                [ParseIP (lit "127.0.0.1"); ParseIP (lit "::1")] in
  der <-? res_wrap (lit "create certificate") [] (CreateCertificate tmpl key);
  keyDER <-? res_wrap (lit "marshal key") [] (MarshalECPrivateKey key);
  Ok (pem_Encode (lit "CERTIFICATE") der, pem_Encode ec_private keyDER).

Definition EnsureTLSCert (rnd now : Z) (certPath keyPath : str) (fs : filesystem) : filesystem * option error :=
  if exists_ fs certPath && exists_ fs keyPath then (fs, None) else
  match no_mkdir os (Dir certPath), no_mkdir os (Dir keyPath) with
  | Some e, _ => (fs, Some (EWrap (lit "create tls dir") (Dir certPath) e))
  | None, Some e => (fs, Some (EWrap (lit "create tls dir") (Dir keyPath) e))
  | None, None =>
      match self_signed rnd now with
      | Err e => (fs, Some e)
      | Ok (certPEM, keyPEM) =>
          match WriteFile fs certPath certPEM 420 with                  (* 0644 *)
          | (fs, Some e) => (fs, Some (EWrap (lit "write") certPath e))
          | (fs, None) =>
              match WriteFile fs keyPath keyPEM 384 with                (* 0600 *)
              | (fs, Some e) => (fs, Some (EWrap (lit "write") keyPath e))
              | (fs, None) => (fs, None)
              end
          end
      end
  end.
End Certificate.
End Files.
