(* ===== verification/Configuration.v ===== *)
(** * Configuration files and command outcomes (main.go: loadFileConfig, cmdInit, fatalUsage, the commands' output)

    The file that [init] writes, the file that the other commands read, and
    what each command prints and exits with.  TOML is the library's: [Toml]
    gives the configuration that a text decodes to. *)

From S2P Require Import Prelude GoStrings GoText GoNet Json Dns Journal Store Dynamo Handler Auth Settings KeyFiles Client.

Definition defaultConfigPath : str := lit "contractdb.toml".

(** A double quote is written as a single one. *)
Definition sampleConfig : str := dq "# ContractDB configuration.
# A DynamoDB table you can query over DNS. Yes, really.

[server]
listen = ':53'                  # UDP+TCP listen address
zone = 'contractdb.internal.'   # authoritative zone
ttl = 5                         # record TTL; resolvers WILL cache your DB queries
advertise_ip = '127.0.0.1'      # served at ns1.<zone>
pidfile = ''                    # written by serve, read by stop/status

[dynamodb]
table = ''                      # CONTRACTDB_TABLE
pk_attr = 'pk'                  # partition key attribute
endpoint = ''                   # e.g. http://localhost:4566 for localstack
consistent = false              # strongly consistent reads cost 2x, even here
gsis = {}                       # e.g. { 'gsi-email' = 'email' } -> <value>.gsi-email.<zone>

[demo]
enabled = false                 # in-memory sample data instead of DynamoDB

[auth]
mode = 'open'                   # 'open' reads for everyone, 'tsig-required' gates everything
tsig_keys_file = ''             # lines of 'keyname base64-secret', or inline name:secret,name2:secret2

[notify]
notifiees = []                  # NOTIFY targets after writes, e.g. ['10.0.0.7:53']

[dnssec]
enabled = false                 # online-signing; answers DO-bit queries with RRSIG/NSEC
key_dir = ''                    # persist signing key here (empty = ephemeral)

[doh]
listen = ''                     # DNS-over-HTTPS listener, e.g. ':8443'; empty disables
cert = ''                       # TLS cert (self-signed generated if both cert+key empty and listen set)
key = ''
".

(** ** Assignments of a TOML document *)

Inductive toml_value :=
  | TomlString (s : str)
  | TomlInteger (n : Z)
  | TomlBool (b : bool)
  | TomlStrings (l : list str)
  | TomlTable (l : list (str * str)).

(** The struct tags of FileConfig: the field that a key of a table sets.  A
    value of another type, or out of the field's range, is an error. *)
Definition set_field (table key : str) (v : toml_value) (c : FileConfig) : option FileConfig :=
  let '(mkFileConfig sl sz st sa sp dt dk de dc dg en am ak nn se sk hl hc hk) := c in
  let tag (t k : String.string) := bool_decide (table = lit t) && bool_decide (key = lit k) in
  match v with
  | TomlString x =>
      if tag "server" "listen" then Some (mkFileConfig x sz st sa sp dt dk de dc dg en am ak nn se sk hl hc hk) else
      if tag "server" "zone" then Some (mkFileConfig sl x st sa sp dt dk de dc dg en am ak nn se sk hl hc hk) else
      if tag "server" "advertise_ip" then Some (mkFileConfig sl sz st x sp dt dk de dc dg en am ak nn se sk hl hc hk) else
      if tag "server" "pidfile" then Some (mkFileConfig sl sz st sa x dt dk de dc dg en am ak nn se sk hl hc hk) else
      if tag "dynamodb" "table" then Some (mkFileConfig sl sz st sa sp x dk de dc dg en am ak nn se sk hl hc hk) else
      if tag "dynamodb" "pk_attr" then Some (mkFileConfig sl sz st sa sp dt x de dc dg en am ak nn se sk hl hc hk) else
      if tag "dynamodb" "endpoint" then Some (mkFileConfig sl sz st sa sp dt dk x dc dg en am ak nn se sk hl hc hk) else
      if tag "auth" "mode" then Some (mkFileConfig sl sz st sa sp dt dk de dc dg en x ak nn se sk hl hc hk) else
      if tag "auth" "tsig_keys_file" then Some (mkFileConfig sl sz st sa sp dt dk de dc dg en am x nn se sk hl hc hk) else
      if tag "dnssec" "key_dir" then Some (mkFileConfig sl sz st sa sp dt dk de dc dg en am ak nn se x hl hc hk) else
      if tag "doh" "listen" then Some (mkFileConfig sl sz st sa sp dt dk de dc dg en am ak nn se sk x hc hk) else
      if tag "doh" "cert" then Some (mkFileConfig sl sz st sa sp dt dk de dc dg en am ak nn se sk hl x hk) else
      if tag "doh" "key" then Some (mkFileConfig sl sz st sa sp dt dk de dc dg en am ak nn se sk hl hc x) else None
  | TomlInteger x =>
      if negb ((0 <=? x) && (x <? 2 ^ 32)) then None else
      if tag "server" "ttl" then Some (mkFileConfig sl sz x sa sp dt dk de dc dg en am ak nn se sk hl hc hk) else None
  | TomlBool x =>
      if tag "dynamodb" "consistent" then Some (mkFileConfig sl sz st sa sp dt dk de x dg en am ak nn se sk hl hc hk) else
      if tag "demo" "enabled" then Some (mkFileConfig sl sz st sa sp dt dk de dc dg x am ak nn se sk hl hc hk) else
      if tag "dnssec" "enabled" then Some (mkFileConfig sl sz st sa sp dt dk de dc dg en am ak nn x sk hl hc hk) else None
  | TomlStrings x =>
      if tag "notify" "notifiees" then Some (mkFileConfig sl sz st sa sp dt dk de dc dg en am ak x se sk hl hc hk) else None
  | TomlTable x =>
      if tag "dynamodb" "gsis" then Some (mkFileConfig sl sz st sa sp dt dk de dc x en am ak nn se sk hl hc hk) else None
  end.

Definition set_fields (l : list (str * str * toml_value)) (c : FileConfig) : option FileConfig :=
  foldl (λ o '(table, key, v), c ← o; set_field table key v c) (Some c) l.

Class Toml := { toml_Decode : str → res FileConfig }.

Definition fileExists (fs : filesystem) (p : str) : bool := exists_ fs p.

Section Config.
Variable os : permissions.

(** An error is fatal. *)
Definition loadFileConfig `{Toml} (path : str) (fs : filesystem) : res FileConfig :=
  if bool_decide (path = []) || negb (fileExists fs path) then Ok zero_config else
  res_wrap (lit "parse config") path
    match ReadFile os fs path with
    | Contents data => toml_Decode data
    | ReadError e => Err e
    | NotExist => Err (EMsg (lit "no such file") path)
    end.

(** The files, and the error that ends the program. *)
Definition cmdInit (fs : filesystem) : filesystem * option error :=
  if fileExists fs defaultConfigPath then (fs, Some (EMsg (lit "already exists") defaultConfigPath))
  else WriteFile os fs defaultConfigPath sampleConfig 420.                 (* 0644 *)
End Config.

(** ** What a command prints and exits with *)

Record exit := mkExit { exit_code : Z; stdout : list str; stderr : list str }.

Definition usage_text : str := lit "
usage: contractdb <command> [flags]

commands:
  init         write a sample contractdb.toml
  serve        start the server (default)
  status       is it running?
  stop         SIGTERM via pidfile
  healthcheck  query the health record (exit 0 = UP)".

Definition fatalUsage (msg : str) : exit := mkExit 2 [] [lit "contractdb: " ++ msg; usage_text].

(** The default case of main. *)
Definition unknown_command (quoted : str) : exit := fatalUsage (lit "unknown command " ++ quoted).

Definition status_exit (running : bool) (addr : str) : exit :=
  if running then mkExit 0 [lit "running on " ++ addr] [] else mkExit 1 [lit "stopped"] [].

(** [log.Fatalf] exits with 1, and a panic with 2. *)
Definition probe_exit (show : error → str) (p : probe) : exit :=
  match p with
  | IsHealthy => mkExit 0 [lit "healthy"] []
  | ExchangeFailed e => mkExit 1 [lit "unhealthy: " ++ show e] []
  | NoUpRecord => mkExit 1 [lit "unhealthy: no UP record"] []
  | FatalError e => mkExit 1 [] [show e]
  | IndexPanic => mkExit 2 [] []
  end.
