(* ===== verification/Listeners.v ===== *)
(** * Listeners and shutdown (server.go: Serve, Run; doh.go: ServeDoH; the end of main.go: cmdServe)

    Each server listens in a goroutine of its own that sends what
    ListenAndServe returns to a buffered channel; the function that started
    them waits for that channel or for its context, shuts the servers down and
    returns.  One service is a step relation on these goroutines.  What a
    server does with a request is the handler of the other files; here requests
    come and end.  When and why ListenAndServe returns is the network's and the
    library's business, so it may return anything at any time.  Shutdown is the
    libraries': it "shuts down a server", and a context "may be passed to limit
    how long to wait for connections to terminate". *)

From S2P Require Import Prelude GoStrings GoText GoNet Dns Journal Store Handler Transfer Server Doh Auth Settings Dnssec KeyFiles.

(** ** The servers of the DNS service *)

(** What Serve sets of a [dns.Server]. *)
Record dnsServer := mkDnsServer {
  Addr : str; Net : str; srvTsigProvider : option TsigProvider; MsgAcceptFunc : Header_ → MsgAcceptAction }.

Definition udpServer {W L} (h : Handler W L) (addr : str) : dnsServer :=
  mkDnsServer addr (lit "udp") (tsigProvider h) acceptFunc.
Definition tcpServer {W L} (h : Handler W L) (addr : str) : dnsServer :=
  mkDnsServer addr (lit "tcp") (tsigProvider h) acceptFunc.

(** ** A service *)

(** A goroutine that listens and then sends what ListenAndServe returned. *)
Inductive listener :=
  | Listening
  | Sending (r : option error)
  | Sent (r : option error).

(** The function that waits: in its select; with servers still to shut down
    before it returns; inside the Shutdown of server [i]; or back at its caller.
    [bounded]: it passes Shutdown a context with a timeout. *)
Inductive waiter :=
  | Selecting
  | Stopping (todo : list nat) (bounded : bool) (result : option error)
  | Draining (i : nat) (todo : list nat) (bounded : bool) (result : option error)
  | Returned (result : option error).

(** The capacity of the channel; for a received error, the servers that are
    shut down and what is returned; the servers shut down when the context is
    done, after which nil is returned; and whether each of the two passes
    Shutdown a timeout. *)
Record service := mkService {
  capacity : nat; on_exit : option error → list nat * option error; on_done : list nat;
  exit_bounded : bool; done_bounded : bool }.

(** [active]: the connections or requests of each server that have not ended.
    [closed]: the servers that were told to shut down.  [expired]: the timeout
    of the shutdown has passed. *)
Record lstate := mkLstate {
  listeners : list listener; active : list nat; closed : list nat; errc : list (option error);
  ctx_done : bool; expired : bool; wait : waiter }.

Definition start (n : nat) : lstate := mkLstate (replicate n Listening) (replicate n 0%nat) [] [] false false Selecting.

(** Is a timeout running? *)
Definition bounded (w : waiter) : bool :=
  match w with Stopping _ b _ | Draining _ _ b _ => b | Selecting | Returned _ => false end.

Section Service.
Variable svc : service.

(** Shutdown closes the server's listener, so that it accepts nothing more, and
    then waits until its connections have ended or the timeout has passed. *)
Inductive lstep (s : lstate) : lstate → Prop :=
  | listen_returns i r : listeners s !! i = Some Listening →
      lstep s (mkLstate (<[i := Sending r]> (listeners s)) (active s) (closed s) (errc s) (ctx_done s) (expired s) (wait s))
  | listener_sends i r : listeners s !! i = Some (Sending r) → (length (errc s) < capacity svc)%nat →
      lstep s (mkLstate (<[i := Sent r]> (listeners s)) (active s) (closed s) (errc s ++ [r]) (ctx_done s) (expired s) (wait s))
  | request_comes i n : listeners s !! i = Some Listening → i ∉ closed s → active s !! i = Some n →
      lstep s (mkLstate (listeners s) (<[i := S n]> (active s)) (closed s) (errc s) (ctx_done s) (expired s) (wait s))
  | request_ends i n : active s !! i = Some (S n) →
      lstep s (mkLstate (listeners s) (<[i := n]> (active s)) (closed s) (errc s) (ctx_done s) (expired s) (wait s))
  | context_done :
      lstep s (mkLstate (listeners s) (active s) (closed s) (errc s) true (expired s) (wait s))
  | timeout_passes : bounded (wait s) = true →
      lstep s (mkLstate (listeners s) (active s) (closed s) (errc s) (ctx_done s) true (wait s))
  | waiter_receives err rest : wait s = Selecting → errc s = err :: rest →
      lstep s (mkLstate (listeners s) (active s) (closed s) rest (ctx_done s) (expired s)
                 (Stopping (on_exit svc err).1 (exit_bounded svc) (on_exit svc err).2))
  | waiter_done : wait s = Selecting → ctx_done s = true →
      lstep s (mkLstate (listeners s) (active s) (closed s) (errc s) (ctx_done s) (expired s)
                 (Stopping (on_done svc) (done_bounded svc) None))
  | waiter_shuts i todo b r : wait s = Stopping (i :: todo) b r →
      lstep s (mkLstate (listeners s) (active s) (i :: closed s) (errc s) (ctx_done s) (expired s) (Draining i todo b r))
  | waiter_drained i todo b r : wait s = Draining i todo b r → active s !! i = Some 0%nat →
      lstep s (mkLstate (listeners s) (active s) (closed s) (errc s) (ctx_done s) (expired s) (Stopping todo b r))
  | waiter_gives_up i todo r : wait s = Draining i todo true r → expired s = true →
      lstep s (mkLstate (listeners s) (active s) (closed s) (errc s) (ctx_done s) (expired s) (Stopping todo true r))
  | waiter_returns b r : wait s = Stopping [] b r →
      lstep s (mkLstate (listeners s) (active s) (closed s) (errc s) (ctx_done s) (expired s) (Returned r)).
End Service.

(** [fmt.Errorf(format, err)] with a final [%w]; nil is printed as a bad verb. *)
Definition Errorf_w (format : String.string) (err : option error) : error :=
  match err with Some e => EWrap (lit format) [] e | None => EMsg (lit format) (lit "%!w(<nil>)") end.

(** Serve: server 0 listens on UDP and server 1 on TCP.  After a listener's
    error it calls Shutdown, and when the context is done ShutdownContext with
    five seconds for both. *)
Definition Serve : service :=
  mkService 2 (λ err, ([0; 1]%nat, Some (Errorf_w "server exited" err))) [0; 1]%nat false true.

Definition ErrServerClosed : error := EMsg (lit "http: Server closed") [].

(** [errors.Is(err, target)] *)
Fixpoint is_error (e target : error) : bool :=
  bool_decide (e = target) || match e with EWrap _ _ e' => is_error e' target | EMsg _ _ => false end.

Definition errors_Is (err : option error) (target : error) : bool :=
  match err with Some e => is_error e target | None => false end.

(** ServeDoH, once its certificate is there: server 0 listens on HTTPS. *)
Definition doh_service : service :=
  mkService 1 (λ err, ([], if errors_Is err ErrServerClosed then None else Some (Errorf_w "doh server exited" err))) [0%nat] false true.

Section ServeDoH.
Context {K : Type} `{KL : !KeyLib K, CB : !CertLib K}.

(** The files and, unless the certificate cannot be had, the service. *)
Definition ServeDoH (os : permissions) (rnd now : Z) (certFile keyFile : str) (fs : filesystem) :
    filesystem * res (service * lstate) :=
  match EnsureTLSCert os rnd now certFile keyFile fs with
  | (fs, Some e) => (fs, Err (EWrap (lit "ensure tls cert") [] e))
  | (fs, None) => (fs, Ok (doh_service, start 1))
  end.
End ServeDoH.

(** ** Run *)

(** [Run] up to its call of Serve. *)
Definition Run {W L} (st : W) (c : Config) (opts : list (Handler W L → Handler W L)) : Handler W L :=
  foldl (λ h o, o h) (NewHandler st c) opts.

(** ** From the settings of cmdServe to its services *)

Section Prepare.
Context `{UT : UnicodeTables, DN : DomainNames} {K : Type} `{KL : !KeyLib K, CB : !CertLib K}.

(** The signer of the zone and, when none is configured, a certificate for
    HTTPS; a failure ends the process before anything listens. *)
Definition prepare (os : permissions) (rnd rnd' now : Z) (p : Settings) (fs : filesystem) :
    filesystem * res (option (OnlineSigner K)) :=
  let '(fs, signer) :=
    match s_dnssec p with
    | None => (fs, Ok None)
    | Some dir =>
        let '(fs, r) := NewOnlineSigner os Fqdn rnd (cZone (s_config p)) dir fs in
        (fs, res_map Some (res_wrap (lit "dnssec") [] r))
    end in
  match signer, s_doh p with
  | Ok _, Some d =>
      if doh_default d then
        match EnsureTLSCert os rnd' now (doh_cert d) (doh_key d) fs with
        | (fs, Some e) => (fs, Err (EWrap (lit "doh tls") [] e))
        | (fs, None) => (fs, signer)
        end
      else (fs, signer)
  | _, _ => (fs, signer)
  end.
End Prepare.

(** ** The process of cmdServe *)

(** Both services have the context of the signals; ServeDoH runs in a goroutine
    that nobody waits for, and the process ends when Serve has returned. *)
Record pstate := mkPstate { dns_side : lstate; doh_side : option lstate }.

Definition cancel (s : lstate) : lstate :=
  mkLstate (listeners s) (active s) (closed s) (errc s) true (expired s) (wait s).

Inductive pstep (p : pstate) : pstate → Prop :=
  | dns_steps s : lstep Serve (dns_side p) s → ctx_done s = ctx_done (dns_side p) → pstep p (mkPstate s (doh_side p))
  | doh_steps s s' : doh_side p = Some s → lstep doh_service s s' → ctx_done s' = ctx_done s →
      pstep p (mkPstate (dns_side p) (Some s'))
  | signal : pstep p (mkPstate (cancel (dns_side p)) (cancel <$> doh_side p)).

Definition process_ended (p : pstate) : Prop := ∃ r, wait (dns_side p) = Returned r.
