(* ===== verification/Demo.v ===== *)
(** * A concrete server

    The demo store, an in-memory journal and a TSIG-capable handler, with the
    connections and messages that the witnesses evaluate. *)

From S2P Require Import Prelude GoStrings Json Names Dns Journal Store Handler.

#[export] Existing Instance ascii_tables.
#[export] Existing Instance ref_dns.
#[export] Existing Instance ref_dns_laws.
#[export] Existing Instance Sample.sample_store.
#[export] Existing Instance Sample.sample_store_spec.
#[export] Existing Instance MemChangeLog.changelog.
#[export] Existing Instance MemChangeLog.changelog_spec.

Module Demo.

Definition H : Type := Handler Sample.sampleStore MemChangeLog.t.
Definition S : Type := Srv Sample.sampleStore MemChangeLog.t.

Definition config : Config :=
  mkConfig demo_zone (lit "demo") (lit "pk") 5 (lit "127.0.0.1") 100 {[lit "gsi-plan" := lit "plan"]}.

Definition provider : TsigProvider := mkTsigProvider (λ _ _ _, Ok []) (λ _ _ _ _, None).

Definition handler : H :=
  set_changelog (Some (MemChangeLog.NewMemChangeLog 100))
    (WithTsigProvider provider (NewHandler Sample.demo_store config)).

(** The same with one NOTIFY target. *)
Definition notifying : H := WithNotifiees [lit "10.0.0.7:53"] handler.

Definition start (h : H) : S := mkSrv h [] [].
Definition srv : S := start handler.

Definition conn (net : String.string) (tsig : option error) : Conn := mkConn (lit net) tsig (λ _, None) 0.
Definition tcp : Conn := conn "tcp" None.
Definition udp : Conn := conn "udp" None.
Definition unsigned : Conn := conn "tcp" (Some (EMsg (lit "dns: no signature") [])).

Definition tsig : RR := RR_TSIG (mkHdr (lit "key.") TypeTSIG ClassANY 0) (lit "hmac-sha256.") [] 0 300.
Definition owner_of (key : String.string) : str := lit key ++ lit "." ++ demo_zone.

Definition update (prereqs rrs : list RR) : Msg :=
  mkMsg 7 false OpcodeUpdate false false false 0 [mkQuestion demo_zone TypeSOA ClassINET] prereqs rrs [tsig].

Definition add (key : String.string) (txt : list str) : RR :=
  RR_TXT (mkHdr (owner_of key) TypeTXT ClassINET 0) txt.
Definition del (key : String.string) : RR := RR_Other (mkHdr (owner_of key) TypeANY ClassANY 0) [].

Definition query (name : str) (qtype : Z) : Msg :=
  mkMsg 9 false OpcodeQuery false false true 0 [mkQuestion name qtype ClassINET] [] [] [].

Definition transfer (qtype : Z) (ns : list RR) : Msg :=
  mkMsg 11 false OpcodeQuery false false false 0 [mkQuestion demo_zone qtype ClassINET] [] ns [tsig].

Definition dave : str := dq "{'pk':'user.dave','plan':'free-tier'}".
Definition put_dave : Msg := update [] [add "user.dave" [dave]].
Definition drop_bob : Msg := update [] [del "user.bob"].

(** Two updates of different keys, and a schedule that interleaves them. *)
Definition both : list Msg := [put_dave; drop_bob].
Definition zigzag : list nat := [0; 1; 0; 1; 0; 1; 1; 0; 0; 1; 1; 0; 0; 1; 0; 1]%nat.

(** The last message sent. *)
Definition reply (s : S) : Msg := List.last (sent s) new_Msg.
End Demo.
