(* ===== verification/HandlerSpec.v ===== *)
(** * Correctness of query answering

    What the reply helpers change, owner names as an injection on reachable
    keys, and the exact answer of [buildResponse] to point lookups and index
    lookups. *)

From S2P Require Import Prelude GoStrings Codec Json Names Dns Journal Store Handler Demo.

Section Replies.
Context `{D : DnsLib} `{!DnsLaws D} {W L : Type} `{CL : !ChangeLog L}.
Implicit Types h : Handler W L.

(** Arming a reply for signing changes its additional section only. *)
Lemma setupReplyTsig_Rcode h w req m : mRcode (setupReplyTsig h w req m) = mRcode m.
Proof. unfold setupReplyTsig. repeat case_match; by autorewrite with dns. Qed.

Lemma setupReplyTsig_Answer h w req m : mAnswer (setupReplyTsig h w req m) = mAnswer m.
Proof. unfold setupReplyTsig. repeat case_match; by autorewrite with dns. Qed.

Lemma setupReplyTsig_Ns h w req m : mNs (setupReplyTsig h w req m) = mNs m.
Proof. unfold setupReplyTsig. repeat case_match; by autorewrite with dns. Qed.

Lemma setupReplyTsig_Authoritative h w req m : mAuthoritative (setupReplyTsig h w req m) = mAuthoritative m.
Proof. unfold setupReplyTsig. repeat case_match; by autorewrite with dns. Qed.
End Replies.

#[export] Hint Rewrite @setupReplyTsig_Rcode @setupReplyTsig_Answer @setupReplyTsig_Ns
  @setupReplyTsig_Authoritative using typeclasses eauto : dns.


Section Names.
Context `{UT : UnicodeTables}.

(** ** Owner names *)

(** Keys that are found under the name [itemName] gives them. *)
Definition reachable (key : str) : Prop :=
  key ≠ [] ∧ (safe_key key = true → HasPrefix key (lit "k-") = false).

(** What [itemName] puts before the zone. *)
Definition item_label (key : str) : str :=
  if safe_key key then key else lit "k-" ++ ToLower (Base32.EncodeToString key).

Lemma itemName_label zone key : key ≠ [] → itemName zone key = item_label key ++ lit "." ++ zone.
Proof.
  intros H. unfold itemName, item_label. rewrite bool_decide_false by done.
  destruct (safe_key key); [done|]. by rewrite <- app_assoc.
Qed.

Lemma parseKey_itemName zone key : good_zone zone → reachable key → parseKey zone (itemName zone key) = Some key.
Proof. intros Hz [Hne Hk]. by apply parseKey_itemName_aux. Qed.

(** On reachable keys the owner name determines the key. *)
Lemma itemName_inj zone k1 k2 : good_zone zone → reachable k1 → reachable k2 →
  itemName zone k1 = itemName zone k2 → k1 = k2.
Proof.
  intros Hz H1 H2 He. apply (parseKey_itemName zone) in H1, H2; [|done..]. congruence.
Qed.

Lemma item_label_ascii key : ascii_str (item_label key).
Proof.
  unfold item_label. destruct (safe_key key) eqn:Hs.
  - apply safe_key_fixed in Hs. apply forallb_forall. intros c Hc%list_elem_of_In.
    rewrite Forall_forall in Hs. by apply Hs.
  - destruct (encoded_label key) as (Ha & _). by rewrite forallb_app, Ha.
Qed.

Lemma item_label_nonempty key : key ≠ [] → item_label key ≠ [].
Proof. intros H. unfold item_label. by destruct (safe_key key). Qed.

(** No owner name of an item begins with an underscore. *)
Lemma item_label_head key : key ≠ [] → head (item_label key) ≠ Some "_"%char.
Proof.
  intros Hne. unfold item_label. destruct (safe_key key) eqn:Hs; [|done].
  destruct key as [|c key]; [done|]. cbn. intros [= ->].
  unfold safe_key in Hs. rewrite forallb_forall in Hs.
  destruct (Split_head ("_"%char :: key) ".") as [[Hd Hsp]|(w & t & Hw & Hd & Hsp)]; rewrite Hsp in Hs.
  - specialize (Hs _ ltac:(by left)). apply safe_part_spec in Hs as (_ & Hp & _).
    apply Forall_cons in Hp as [Hp _]. by vm_compute in Hp.
  - specialize (Hs w ltac:(by left)). destruct w as [|x w]; [done|]. injection Hw as <- ->.
    apply safe_part_spec in Hs as (_ & Hp & _). apply Forall_cons in Hp as [Hp _]. by vm_compute in Hp.
Qed.

Lemma app_zone_inj (x y zone : str) : x ++ lit "." ++ zone = y ++ lit "." ++ zone → x = y.
Proof. apply (inj (λ l, l ++ lit "." ++ zone)). Qed.

Lemma app_zone_ne (x zone : str) : x ++ lit "." ++ zone ≠ zone.
Proof. intros H%(f_equal length). rewrite !length_app in H. cbn in H. lia. Qed.
End Names.

Section Queries.
Context `{UT : UnicodeTables, D : DnsLib} {W L : Type} `{ST : !Store W, CL : !ChangeLog L}.
Implicit Types h : Handler W L.

(** ** Point lookups *)

(** The name's last label is a configured index: the name is an index lookup. *)
Definition index_name h (key : str) : bool :=
  let labels := Split (item_label key) "." in
  (2 <=? length labels)%nat && negb (bool_decide (default [] (cGSIs (cfg h) !! List.last labels []) = [])).

(** The blank reply [buildResponse] starts from. *)
Definition blank_reply (req : Msg) : Msg := set_Authoritative true (SetReply new_Msg req).

Lemma buildResponse_point h req q key :
  good_zone (cZone (cfg h)) → reachable key → ToLower (qName q) = itemName (cZone (cfg h)) key →
  index_name h key = false → (key = lit "ns1" → qType q ≠ TypeA ∧ qType q ≠ TypeANY) →
  buildResponse h req q = pointLookup h (blank_reply req) req q key.
Proof.
  intros Hz Hk Hq Hi Hns. unfold buildResponse. cbv zeta. rewrite Hq, parseKey_itemName by done.
  pose proof (item_label_head key (proj1 Hk)) as Hhead. unfold index_name in Hi.
  assert (item_label key = lit "ns1" → key = lit "ns1") as Hlabel.
  { unfold item_label. by destruct (safe_key key). }
  rewrite itemName_label by apply Hk. set (zone := cZone (cfg h)) in *.
  rewrite bool_decide_false by apply app_zone_ne.
  rewrite (bool_decide_false (_ = statusName ++ lit "." ++ zone))
    by (intros He%app_zone_inj; by rewrite He in Hhead).
  rewrite (bool_decide_false (_ = statusName ++ lit ".health." ++ zone))
    by (intros He%(app_zone_inj _ (statusName ++ lit ".health")); by rewrite He in Hhead).
  rewrite (bool_decide_false (_ = statusName ++ lit ".metrics." ++ zone))
    by (intros He%(app_zone_inj _ (statusName ++ lit ".metrics")); by rewrite He in Hhead).
  cbn [andb].
  assert (bool_decide (item_label key ++ lit "." ++ zone = lit "ns1." ++ zone)
          && ((qType q =? TypeA) || (qType q =? TypeANY)) = false) as ->.
  { apply andb_false_iff. destruct (decide (key = lit "ns1")) as [E|E].
    - right. destruct (Hns E) as [H1 H2]. by rewrite (proj2 (Z.eqb_neq _ _) H1), (proj2 (Z.eqb_neq _ _) H2).
    - left. apply bool_decide_false. intros He%(app_zone_inj _ (lit "ns1")). auto. }
  rewrite bool_decide_false by apply Hk. rewrite TrimSuffix_app, Hi. done.
Qed.

(** The TXT record of a marshalled item. *)
Definition item_record h (key : str) (blob : str) : RR :=
  RR_TXT (mkHdr (itemName (cZone (cfg h)) key) TypeTXT ClassINET (cTTL (cfg h))) (chunkBytes blob maxTxtChunk).

Lemma itemRRs_spec h key item :
  itemRRs h key item = res_map (λ blob, [item_record h key blob]) (Marshal item).
Proof. unfold itemRRs. by destruct (Marshal item). Qed.

Context `{!DnsLaws D}.

Lemma blank_reply_spec req : let m := blank_reply req in
  mRcode m = RcodeSuccess ∧ mAnswer m = [] ∧ mNs m = [] ∧ mExtra m = [] ∧ mAuthoritative m = true
  ∧ mId m = mId req ∧ mResponse m = true ∧ mQuestion m = take 1 (mQuestion req).
Proof. unfold blank_reply. cbn. by autorewrite with dns. Qed.

(** What a reply says. *)
Definition says (m : Msg) (rcode : Z) (answer ns : list RR) : Prop :=
  mRcode m = rcode ∧ mAnswer m = answer ∧ mNs m = ns.

Lemma pointLookup_spec h req q key :
  let m := pointLookup h (blank_reply req) req q key in
  match Get (store h) key with
  | Err _ => says m RcodeServerFailure [] []
  | Ok None => says m RcodeNameError [] [soa h]
  | Ok item =>
      if txt_or_any q then
        match Marshal item with
        | Err _ => says m RcodeServerFailure [] []
        | Ok blob => says m RcodeSuccess [item_record h key blob] []
        end
      else says m RcodeSuccess [] [soa h]
  end.
Proof.
  destruct (blank_reply_spec req) as (Hr & Ha & Hn & _).
  unfold pointLookup, txt_or_any, says. destruct (Get (store h) key) as [[item|]|e]; cbn zeta iota.
  - replace (negb (qType q =? TypeTXT) && negb (qType q =? TypeANY))
      with (negb ((qType q =? TypeTXT) || (qType q =? TypeANY))) by by destruct (_ =? _), (_ =? _).
    destruct (_ || _); cbn [negb]; [|cbn [add_Ns set_Ns mRcode mAnswer mNs]; by rewrite Hr, Ha, Hn].
    rewrite itemRRs_spec. destruct (Marshal (Some item)); cbn [res_map]; autorewrite with dns;
      cbn; autorewrite with dns; cbn; by rewrite ?Ha, ?Hn.
  - cbn. autorewrite with dns. cbn. by rewrite ?Ha, ?Hn.
  - cbn. autorewrite with dns. cbn. autorewrite with dns. by rewrite Ha, Hn.
Qed.

(** ** Index lookups *)

(** The records of some entries, those that do not marshal left out. *)
Definition entries_rrs h (entries : list Entry) : list RR :=
  flat_map (λ e, match itemRRs h (eKey e) (eItem e) with Ok rrs => rrs | Err _ => [] end) entries.

Lemma fold_add_Answer h entries m :
  foldl (λ m e, match itemRRs h (eKey e) (eItem e) with Ok rrs => add_Answer rrs m | Err _ => m end) m entries
  = set_Answer (mAnswer m ++ entries_rrs h entries) m.
Proof.
  revert m. induction entries as [|e entries IH]; intros m; cbn [foldl entries_rrs flat_map].
  - rewrite app_nil_r. by destruct m.
  - rewrite IH. fold (entries_rrs h entries). destruct (itemRRs _ _ _); [|done].
    unfold add_Answer, set_Answer. cbn. by rewrite app_assoc.
Qed.

Lemma gsiLookup_spec h req q r index value : reader = Some r →
  let m := gsiLookup h (blank_reply req) req q index value in
  match QueryIndex r (store h) index value with
  | Err _ => says m RcodeServerFailure [] []
  | Ok entries =>
      if bool_decide (entries = []) then says m RcodeNameError [] [soa h]
      else if txt_or_any q then says m RcodeSuccess (entries_rrs h entries) []
      else says m RcodeSuccess [] [soa h]
  end.
Proof.
  intros Hr. destruct (blank_reply_spec req) as (Hrc & Ha & Hn & _).
  unfold gsiLookup, txt_or_any, says. rewrite Hr. destruct (QueryIndex _ _ _ _) as [entries|e]; cbn zeta iota.
  - replace (negb (qType q =? TypeTXT) && negb (qType q =? TypeANY))
      with (negb ((qType q =? TypeTXT) || (qType q =? TypeANY))) by by destruct (_ =? _), (_ =? _).
    rewrite fold_add_Answer, (bool_decide_ext (length entries = 0%nat) (entries = []))
      by (destruct entries; done). destruct (bool_decide _); [|destruct (_ || _)]; cbn; autorewrite with dns;
      cbn; by rewrite ?Hrc, ?Ha, ?Hn.
  - cbn. autorewrite with dns. cbn. autorewrite with dns. by rewrite ?Ha, ?Hn.
Qed.

(** The k- owner name of a value under an index. *)
Definition index_qname (zone index value : str) : str :=
  lit "k-" ++ ToLower (Base32.EncodeToString value) ++ lit "." ++ index ++ lit "." ++ zone.

Lemma buildResponse_index h req q index value :
  good_zone (cZone (cfg h)) → value ≠ [] → index ≠ [] → ascii_str index → "."%char ∉ index →
  default [] (cGSIs (cfg h) !! index) ≠ [] →
  ToLower (qName q) = index_qname (cZone (cfg h)) index value →
  buildResponse h req q = gsiLookup h (blank_reply req) req q index value.
Proof.
  intros Hz Hv Hi Hai Hdi Hg Hq. destruct (encoded_label value) as (Ha & Hdot & Hu & _).
  set (label := lit "k-" ++ ToLower (Base32.EncodeToString value)).
  set (rest := label ++ lit "." ++ index).
  assert ("."%char ∉ label) as Hdl by (unfold label; rewrite elem_of_app; set_solver).
  assert (Split rest "." = [label; index]) as Hsplit.
  { unfold rest. change (lit "." ++ index) with ("."%char :: index).
    by rewrite Split_app, Split_no_sep. }
  assert (ToLower (qName q) = rest ++ lit "." ++ cZone (cfg h)) as Hqn.
  { rewrite Hq. unfold index_qname, rest, label. by rewrite <- !app_assoc. }
  assert (parseKey (cZone (cfg h)) (rest ++ lit "." ++ cZone (cfg h)) = Some value) as Hkey.
  { rewrite parseKey_app; [|done| |done].
    - rewrite Hsplit. cbn [hd]. cbv zeta. unfold label.
      rewrite HasPrefix_app, drop_app_length' by done. rewrite Hu.
      rewrite (proj2 (Nat.Div0.mod_divides _ _) (Base32.EncodeToString_div8 value)).
      cbn. apply Base32.DecodeString_EncodeToString.
    - unfold rest, label. rewrite !forallb_app, Ha, Hai. done. }
  unfold buildResponse, gsiValue. cbv zeta. rewrite Hqn, Hkey. set (zone := cZone (cfg h)) in *.
  assert (∀ x, head x ≠ Some "k"%char → bool_decide (rest ++ lit "." ++ zone = x ++ lit "." ++ zone) = false) as Hne.
  { intros x Hx. apply bool_decide_false. intros <-%app_zone_inj. done. }
  rewrite bool_decide_false by apply app_zone_ne.
  rewrite (Hne statusName) by done. change (statusName ++ lit ".health." ++ zone)
    with ((statusName ++ lit ".health") ++ lit "." ++ zone). rewrite Hne by done.
  change (statusName ++ lit ".metrics." ++ zone) with ((statusName ++ lit ".metrics") ++ lit "." ++ zone).
  rewrite Hne by done. change (lit "ns1." ++ zone) with (lit "ns1" ++ lit "." ++ zone). rewrite Hne by done.
  cbn [andb]. rewrite bool_decide_false by done. rewrite TrimSuffix_app, Hsplit. cbn [length List.last hd].
  rewrite bool_decide_false by done. cbn [negb andb Nat.leb Nat.eqb].
  unfold label. by rewrite HasPrefix_app.
Qed.

(** ** Properties *)

(** C19. A lookup of a reachable key, under any capitalisation of its owner
    name, answers exactly the stored item: its JSON in TXT strings of 1 to 255
    bytes for TXT and ANY, NODATA with the SOA for other types, NXDOMAIN with
    the SOA when there is no item, SERVFAIL when the store or the JSON encoder
    fails. *)
Theorem point_query_exact h req q key :
  good_zone (cZone (cfg h)) → reachable key → ToLower (qName q) = itemName (cZone (cfg h)) key →
  index_name h key = false → (key = lit "ns1" → qType q ≠ TypeA ∧ qType q ≠ TypeANY) →
  let m := buildResponse h req q in
  match Get (store h) key with
  | Err _ => says m RcodeServerFailure [] []
  | Ok None => says m RcodeNameError [] [soa h]
  | Ok item =>
      if txt_or_any q then
        match Marshal item with
        | Err _ => says m RcodeServerFailure [] []
        | Ok blob => ∃ chunks,
            says m RcodeSuccess [RR_TXT (mkHdr (itemName (cZone (cfg h)) key) TypeTXT ClassINET (cTTL (cfg h))) chunks] []
            ∧ concat chunks = blob ∧ Forall (λ c, 0 < length c ≤ 255)%nat chunks
        end
      else says m RcodeSuccess [] [soa h]
  end.
Proof.
  intros Hz Hk Hq Hi Hns. cbv zeta. rewrite (buildResponse_point h req q key) by done.
  pose proof (pointLookup_spec h req q key) as H. cbv zeta in H.
  destruct (Get (store h) key) as [[item|]|e]; [|done..]. destruct (txt_or_any q); [|done].
  destruct (Marshal (Some item)) as [blob|e]; [|done]. exists (chunkBytes blob maxTxtChunk).
  split; [exact H|]. by apply chunk_loop_spec; [unfold maxTxtChunk; lia|].
Qed.

(** C20. An index lookup reaches every non-empty attribute value, whatever bytes
    it holds, through its k- label: it answers the records of all matching
    items, NXDOMAIN when none matches, NODATA for other types. *)
Theorem index_query_exact h req q r index value :
  good_zone (cZone (cfg h)) → value ≠ [] → index ≠ [] → ascii_str index → "."%char ∉ index →
  default [] (cGSIs (cfg h) !! index) ≠ [] →
  ToLower (qName q) = index_qname (cZone (cfg h)) index value → reader = Some r →
  let m := buildResponse h req q in
  match QueryIndex r (store h) index value with
  | Err _ => says m RcodeServerFailure [] []
  | Ok entries =>
      if bool_decide (entries = []) then says m RcodeNameError [] [soa h]
      else if txt_or_any q then says m RcodeSuccess (entries_rrs h entries) []
      else says m RcodeSuccess [] [soa h]
  end.
Proof.
  intros Hz Hv Hi Hai Hdi Hg Hq Hr. cbv zeta. rewrite (buildResponse_index h req q index value) by done.
  by apply gsiLookup_spec.
Qed.
End Queries.

(** ** Witnesses *)

Definition alice : Question := mkQuestion (lit "User.Alice.contractdb.internal.") TypeTXT ClassINET.
Definition enterprise : Question :=
  mkQuestion (index_qname demo_zone (lit "gsi-plan") (lit "enterprise")) TypeTXT ClassINET.

Lemma alice_reachable : reachable (lit "user.alice").
Proof. split; [discriminate|]. intros _. vm_compute. reflexivity. Qed.

Lemma point_query_exact_witness :
  let m := buildResponse Demo.handler (Demo.query (qName alice) TypeTXT) alice in
  ∃ chunks, mRcode m = RcodeSuccess ∧ mAnswer m =
      [RR_TXT (mkHdr (lit "user.alice.contractdb.internal.") TypeTXT ClassINET 5) chunks]
  ∧ concat chunks = dq "{'email':'alice@example.com','limits':{'dataTransferBudgetTb':42,'riCoverage':100},'pk':'user.alice','plan':'enterprise'}".
Proof.
  pose proof (point_query_exact Demo.handler (Demo.query (qName alice) TypeTXT) alice (lit "user.alice")) as H.
  specialize (H good_demo_zone alice_reachable ltac:(vm_compute; reflexivity) ltac:(vm_compute; reflexivity)).
  specialize (H ltac:(discriminate)). cbv zeta in H |- *.
  assert (Get (store Demo.handler) (lit "user.alice") = Ok (Sample.item_at Sample.demo_store (lit "user.alice"))) as HG
    by (vm_compute; reflexivity).
  rewrite HG in H. destruct (Sample.item_at _ _) as [i|] eqn:Hi; [|vm_compute in Hi; discriminate Hi].
  change (txt_or_any alice) with true in H. cbn iota in H. rewrite <- Hi in H.
  destruct (Marshal _) as [blob|e] eqn:Hb in H; [|vm_compute in Hb; discriminate Hb].
  destruct H as (chunks & (H1 & H2 & _) & H3 & _). exists chunks. split; [exact H1|]. split; [exact H2|].
  rewrite H3. vm_compute in Hb. injection Hb as <-. vm_compute. reflexivity.
Defined.

Lemma index_query_exact_witness :
  let m := buildResponse Demo.handler (Demo.query (qName enterprise) TypeTXT) enterprise in
  match Sample.QueryIndex Sample.demo_store (lit "gsi-plan") (lit "enterprise") with
  | Ok entries => says m RcodeSuccess (entries_rrs Demo.handler entries) [] ∧ length entries = 2%nat
  | Err _ => False
  end.
Proof.
  pose proof (index_query_exact Demo.handler (Demo.query (qName enterprise) TypeTXT) enterprise Sample.sample_reader
    (lit "gsi-plan") (lit "enterprise") good_demo_zone) as H.
  specialize (H ltac:(discriminate) ltac:(discriminate) ltac:(vm_compute; reflexivity)).
  specialize (H ltac:(apply (bool_decide_eq_false_1 _); vm_compute; reflexivity) ltac:(vm_compute; discriminate)).
  specialize (H ltac:(vm_compute; reflexivity) eq_refl). cbv zeta in H |- *.
  change (Store.QueryIndex Sample.sample_reader (store Demo.handler)) with (Sample.QueryIndex Sample.demo_store) in H.
  destruct (Sample.QueryIndex _ _ _) as [entries|e] eqn:E; [|vm_compute in E; discriminate E].
  assert (length entries = 2%nat) as Hl by (vm_compute in E; injection E as <-; reflexivity).
  clear E. destruct entries as [|x l]; [discriminate Hl|]. cbn [bool_decide] in H. split; [exact H|exact Hl].
Defined.
