(* ===== verification/DnssecSpec.v ===== *)
(** * Correctness of online signing

    What [Sign] adds to a response: one signature per RRset in the order in
    which the RRsets first appear, the denial records and the key at the apex;
    that it adds nothing without the DO bit and nothing twice. *)

From S2P Require Import Prelude GoStrings Codec Names Float64 Json Dns Store Handler HandlerSpec Server Dnssec Demo.

(** ** Distinct elements in the order of their first occurrence *)

Section Distinct.
Context {A : Type} `{EqDecision A}.

Fixpoint distinct (l : list A) : list A :=
  match l with
  | [] => []
  | x :: l => x :: filter (λ y, y ≠ x) (distinct l)
  end.

Lemma elem_of_distinct x l : x ∈ distinct l ↔ x ∈ l.
Proof.
  induction l as [|y l IH]; cbn; [done|]. rewrite !elem_of_cons, list_elem_of_filter, IH.
  destruct (decide (x = y)); tauto.
Qed.

Lemma NoDup_distinct l : NoDup (distinct l).
Proof.
  induction l as [|x l IH]; cbn; constructor; [|by apply NoDup_filter].
  rewrite list_elem_of_filter. tauto.
Qed.

Lemma distinct_snoc l x : distinct (l ++ [x]) = distinct l ++ (if decide (x ∈ l) then [] else [x]).
Proof.
  induction l as [|y l IH]; cbn; [done|]. rewrite IH, filter_app. f_equal. f_equal.
  destruct (decide (x ∈ l)) as [Hx|Hx]; destruct (decide (x ∈ y :: l)) as [Hy|Hy]; try done.
  - exfalso. set_solver.
  - assert (x = y) as -> by set_solver. by rewrite filter_cons_False by tauto.
  - rewrite filter_cons_True by set_solver. done.
Qed.
End Distinct.

Section Sets.
Context `{UT : UnicodeTables}.

(** The records the signer signs, their RRset keys, and the RRset of a key. *)
Definition signable (rrs : list RR) : list RR := filter (λ rr, skipped rr = false) rrs.
Definition rrset_keys (rrs : list RR) : list (str * Z) := distinct (rrsetKey <$> signable rrs).
Definition rrset_of (k : str * Z) (rrs : list RR) : list RR := filter (λ rr, rrsetKey rr = k) (signable rrs).

Lemma signable_snoc rrs rr : signable (rrs ++ [rr]) = signable rrs ++ (if skipped rr then [] else [rr]).
Proof. unfold signable. rewrite filter_app. destruct (skipped rr) eqn:E; cbn; by rewrite E. Qed.

Lemma rrset_of_snoc k rrs rr :
  rrset_of k (rrs ++ [rr]) = rrset_of k rrs ++ (if skipped rr then [] else if decide (rrsetKey rr = k) then [rr] else []).
Proof.
  unfold rrset_of. rewrite signable_snoc, filter_app. f_equal. destruct (skipped rr); [done|].
  rewrite filter_cons. by case_decide.
Qed.

Lemma rrset_of_nonempty k rrs : k ∈ rrset_keys rrs ↔ rrset_of k rrs ≠ [].
Proof.
  unfold rrset_keys, rrset_of. rewrite elem_of_distinct, list_elem_of_fmap. split.
  - intros (rr & -> & Hin) E. apply (not_elem_of_nil rr). rewrite <- E. by apply list_elem_of_filter.
  - intros E. destruct (filter _ _) as [|rr l] eqn:F; [done|].
    assert (rr ∈ filter (λ rr, rrsetKey rr = k) (signable rrs)) as [Hk Hin]%list_elem_of_filter by (rewrite F; left).
    by exists rr.
Qed.

(** The grouping loop computes them. *)
Lemma group_fold rrs :
  let '(order, groups) := foldl group_step ([], ∅) rrs in
  order = rrset_keys rrs ∧
  ∀ k, groups !! k = match rrset_of k rrs with [] => None | l => Some l end.
Proof.
  induction rrs as [|rr rrs IH] using rev_ind; [by split|]. rewrite foldl_app. cbn [foldl].
  destruct (foldl _ _ rrs) as [order groups]. destruct IH as [-> Hg]. unfold group_step.
  destruct (skipped rr) eqn:Es.
  - split; [by unfold rrset_keys; rewrite signable_snoc, Es, app_nil_r|].
    intros k. by rewrite rrset_of_snoc, Es, app_nil_r, Hg.
  - split.
    + transitivity (distinct (rrsetKey <$> signable (rrs ++ [rr]))); [|done]. rewrite signable_snoc, Es, fmap_app. cbn [fmap list_fmap]. rewrite distinct_snoc.
      fold (rrset_keys rrs). rewrite Hg.
      destruct (decide (rrsetKey rr ∈ rrsetKey <$> signable rrs)) as [Hin|Hin];
        rewrite <- elem_of_distinct in Hin; fold (rrset_keys rrs) in Hin; rewrite rrset_of_nonempty in Hin;
        destruct (rrset_of (rrsetKey rr) rrs); cbn; rewrite ?app_nil_r; try done; exfalso; by apply Hin.
    + intros k. rewrite rrset_of_snoc, Es. destruct (decide (rrsetKey rr = k)) as [<-|Hne].
      * rewrite lookup_insert_eq, Hg. destruct (rrset_of (rrsetKey rr) rrs); done.
      * rewrite lookup_insert_ne, Hg by done. by rewrite app_nil_r.
Qed.
End Sets.

(** ** Signatures *)

Section SignSpec.
Context `{UT : UnicodeTables, D : DnsLib} {K : Type} `{DL : !DnssecLib K} `{DLL : !DnssecLaws K}.
Variable s : OnlineSigner K.

(** The DNSKEY that the signer publishes is its zone's, and the other half of
    the key it signs with (KeyFilesSpec.v: every signer that starts is). *)
Definition paired : Prop := ∃ pub, sgKey s = zone_key (sgZone s) pub ∧ key_pair (sgPriv s) (sgKey s).

(** A signature by the zone over all records of an RRset: it verifies over the
    set with the published key, carries the set's owner, class and TTL, covers
    its type, and is valid from an hour ago for a week. *)
Definition signs (time ttl : Z) (rrset : list RR) (sig : RR) : Prop :=
  (paired → rrset_of_zone (sgZone s) rrset → RRSIG_Verify (sgKey s) sig rrset = true) ∧
  ∃ rr rest sg, rrset = rr :: rest ∧
  let t := if hTtl (Header rr) =? 0 then ttl else hTtl (Header rr) in
  let t' := if t =? 0 then hTtl (Header rr) else t in
  sig = RR_RRSIG (mkHdr (hName (Header rr)) TypeRRSIG (hClass (Header rr)) t') (hRrtype (Header rr))
          ECDSAP256SHA256 t' (u32 (time + 604800)) (u32 (time - 3600)) (KeyTag (sgKey s)) (sgZone s) sg.

Lemma sign_set_signs time ttl k rrset sig :
  rrset ≠ [] → sign_set s time ttl k rrset = Some sig → signs time ttl rrset sig.
Proof.
  intros Hne. destruct rrset as [|rr rest]; [done|]. unfold sign_set.
  destruct (RRSIG_Sign _ _ _) as [sig'|e] eqn:E; [|done]. unfold sig_template in E. intros Hs. split.
  - intros (pub & Hk & Hp) Hz. rewrite Hk in E, Hp |- *.
    pose proof (λ t, RRSIG_Sign_verifies _ _ _ _ _ _ _ _ _ _ _ t Hp Hz E) as Hv.
    destruct (RRSIG_Sign_fills _ _ _ _ _ _ _ _ _ _ _ _ _ E) as [sg ->]. injection Hs as <-. apply Hv.
  - destruct (RRSIG_Sign_fills _ _ _ _ _ _ _ _ _ _ _ _ _ E) as [sg ->]. injection Hs as <-.
    exists rr, rest, sg. by split.
Qed.

Lemma signs_RRSIG time ttl rrset sig : signs time ttl rrset sig → is_RRSIG sig = true.
Proof. by intros (_ & rr & rest & sg & _ & ->). Qed.

Lemma signSection_omap rrs time ttl :
  signSection s rrs time ttl = rrs ++ omap (λ k, sign_set s time ttl k (rrset_of k rrs)) (rrset_keys rrs).
Proof.
  unfold signSection. pose proof (group_fold rrs) as Hg. destruct (foldl _ _ rrs) as [order groups].
  destruct Hg as [-> Hg].
  assert (∀ ks out, Forall (λ k, k ∈ rrset_keys rrs) ks →
    foldl (λ out k, match sign_set s time ttl k (default [] (groups !! k)) with
                    | Some sig => out ++ [sig] | None => out end) out ks
    = out ++ omap (λ k, sign_set s time ttl k (rrset_of k rrs)) ks) as H.
  { induction ks as [|k ks IH]; intros out Hks; cbn; [by rewrite app_nil_r|].
    apply Forall_cons in Hks as [Hk Hks]. rewrite Hg. apply rrset_of_nonempty in Hk.
    destruct (rrset_of k rrs) as [|r l] eqn:El; [done|]. cbn.
    destruct (sign_set s time ttl k (r :: l)); rewrite IH by done; [|done]. by rewrite <- app_assoc. }
  apply H, Forall_forall. done.
Qed.

(** The sections [Sign] signs: with the denial record and the key. *)
Definition denial (req resp : Msg) : list RR :=
  if mRcode resp =? RcodeNameError then [apexNSEC (sgZone s) (responseTTL resp)]
  else match mQuestion req with
       | q :: _ => if (mRcode resp =? RcodeSuccess) && bool_decide (mAnswer resp = [])
                   then [nodataNSEC (sgZone s) (qName q) (responseTTL resp)] else []
       | [] => []
       end.

Definition apex_key (req resp : Msg) : list RR :=
  match mQuestion req with
  | q :: _ => if bool_decide (ToLower (qName q) = sgZone s) then [set_key_ttl (responseTTL resp) (sgKey s)] else []
  | [] => []
  end.

Lemma Sign_sections time req resp size :
  IsEdns0 req = Some (size, true) → existsb is_RRSIG (mAnswer resp ++ mNs resp) = false →
  Sign s time req resp =
  set_Ns (signSection s (mNs resp ++ denial req resp) time (responseTTL resp))
    (set_Answer (signSection s (mAnswer resp ++ apex_key req resp) time (responseTTL resp)) resp).
Proof.
  intros Ho He. unfold Sign. rewrite Ho, He. cbv zeta.
  assert (add_denial s req (responseTTL resp) resp = set_Ns (mNs resp ++ denial req resp) resp) as ->.
  { unfold add_denial, denial, add_Ns. destruct resp; cbn.
    repeat case_match; cbn; rewrite ?app_nil_r; done. }
  unfold add_key, apex_key, add_Answer. destruct resp; cbn.
  repeat case_match; cbn; rewrite ?app_nil_r; done.
Qed.

(** What becomes of an RRset: a signature over it, or none where the library
    refuses to sign it. *)
Definition attempt (time ttl : Z) (k : str * Z) (rrset : list RR) (o : option RR) : Prop :=
  match o with
  | Some sig => signs time ttl rrset sig
  | None => ∃ e, RRSIG_Sign (sgPriv s) (sig_template s time ttl k rrset) rrset = Err e
  end.

(** One attempt per RRset, in the order in which the RRsets appear. *)
Definition attempts (time ttl : Z) (rrs sigs : list RR) : Prop :=
  ∃ os, sigs = omap id os ∧ Forall2 (λ k o, attempt time ttl k (rrset_of k rrs) o) (rrset_keys rrs) os.

(** The RRsets of these records can be signed. *)
Definition signs_sets (time ttl : Z) (rrs : list RR) : Prop :=
  ∀ k, k ∈ rrset_keys rrs → is_ok (RRSIG_Sign (sgPriv s) (sig_template s time ttl k (rrset_of k rrs)) (rrset_of k rrs)) = true.

(** One signature per RRset. *)
Definition signatures (time ttl : Z) (rrs sigs : list RR) : Prop :=
  Forall2 (λ k sig, signs time ttl (rrset_of k rrs) sig) (rrset_keys rrs) sigs.

Lemma sign_set_attempt time ttl k rrset : rrset ≠ [] → attempt time ttl k rrset (sign_set s time ttl k rrset).
Proof.
  intros Hne. destruct (sign_set s time ttl k rrset) as [sig|] eqn:E; cbn; [by eapply sign_set_signs|].
  unfold sign_set in E. destruct (RRSIG_Sign _ _ _) as [[]|e]; try done. by exists e.
Qed.

Lemma signSection_attempts rrs time ttl :
  ∃ sigs, signSection s rrs time ttl = rrs ++ sigs ∧ attempts time ttl rrs sigs.
Proof.
  rewrite signSection_omap. eexists. split; [done|].
  exists ((λ k, sign_set s time ttl k (rrset_of k rrs)) <$> rrset_keys rrs). split.
  - induction (rrset_keys rrs) as [|k ks IH]; cbn; [done|]. destruct (sign_set _ _ _ _ _); cbn; by rewrite IH.
  - apply Forall2_fmap_r, Forall_Forall2_diag, Forall_forall. intros k Hk. by apply sign_set_attempt, rrset_of_nonempty.
Qed.

Lemma attempts_all time ttl rrs sigs : signs_sets time ttl rrs → attempts time ttl rrs sigs → signatures time ttl rrs sigs.
Proof.
  unfold signs_sets, signatures. intros Hall (os & -> & Hos). induction Hos as [|k o ks os Ho _ IH]; cbn; [constructor|].
  specialize (Hall k) as Hk. destruct o as [sig|]; cbn in *.
  - constructor; [done|]. apply IH. intros k' Hk'. apply Hall. by right.
  - destruct Ho as [e He]. rewrite He in Hk. discriminate Hk. by left.
Qed.

Lemma signSection_all rrs time ttl : signs_sets time ttl rrs →
  ∃ sigs, signSection s rrs time ttl = rrs ++ sigs ∧ signatures time ttl rrs sigs.
Proof.
  intros Hall. destruct (signSection_attempts rrs time ttl) as (sigs & -> & H). exists sigs. split; [done|].
  by apply attempts_all.
Qed.

Lemma signatures_RRSIG time ttl rrs sigs : signatures time ttl rrs sigs → Forall (λ sig, is_RRSIG sig = true) sigs.
Proof. induction 1 as [|k sig ks sigs H _ IH]; constructor; [by eapply signs_RRSIG|done]. Qed.

Lemma signatures_nil time ttl rrs : signatures time ttl rrs [] → signable rrs = [].
Proof.
  unfold signatures, rrset_keys. intros H. apply Forall2_nil_inv_r in H.
  destruct (signable rrs) as [|rr l]; [done|]. by cbn in H.
Qed.
(** Two records of different sets get a signature each. *)
Lemma signatures_pair time ttl a b sigs :
  skipped a = false → skipped b = false → rrsetKey a ≠ rrsetKey b → signatures time ttl [a; b] sigs →
  ∃ sig1 sig2, sigs = [sig1; sig2] ∧ signs time ttl [a] sig1 ∧ signs time ttl [b] sig2.
Proof.
  intros Ha Hb Hne. unfold signatures, rrset_keys.
  assert (signable [a; b] = [a; b]) as E.
  { unfold signable. rewrite (filter_cons_True (λ rr, skipped rr = false)) by done.
    by rewrite (filter_cons_True (λ rr, skipped rr = false)). }
  rewrite E. cbn [fmap list_fmap distinct]. rewrite filter_cons_True by congruence.
  intros (sig1 & l & H1 & (sig2 & l' & H2 & ->%Forall2_nil_inv_l & ->)%Forall2_cons_inv_l & ->)%Forall2_cons_inv_l.
  exists sig1, sig2. split; [done|]. revert H1 H2. unfold rrset_of. rewrite E.
  rewrite (filter_cons_True (λ rr, rrsetKey rr = rrsetKey a)) by done.
  rewrite (filter_cons_False (λ rr, rrsetKey rr = rrsetKey a)) by congruence.
  rewrite (filter_cons_False (λ rr, rrsetKey rr = rrsetKey b)) by congruence.
  by rewrite (filter_cons_True (λ rr, rrsetKey rr = rrsetKey b)).
Qed.
End SignSpec.

(** ** Properties *)

Section Properties.
Context `{UT : UnicodeTables, D : DnsLib, !DnsLaws D} {K : Type} `{DL : !DnssecLib K} `{DLL : !DnssecLaws K}.
Variable s : OnlineSigner K.

(** C40. A response to a DO query that carries no signature yet keeps its
    records, gets the denial record and at the apex the key, and behind each
    section at most one signature per RRset, in the order in which the RRsets
    appear, that verifies with the published key over all records of the set,
    where they are one of the zone's, and has the set's owner, class and TTL; a
    set has none only if the library refuses to sign it.  The rest of the message
    stays as it is. *)
Theorem sign_exact time req resp size :
  IsEdns0 req = Some (size, true) → existsb is_RRSIG (mAnswer resp ++ mNs resp) = false →
  ∃ sa sn,
    Sign s time req resp = set_Ns ((mNs resp ++ denial s req resp) ++ sn)
                             (set_Answer ((mAnswer resp ++ apex_key s req resp) ++ sa) resp)
    ∧ attempts s time (responseTTL resp) (mAnswer resp ++ apex_key s req resp) sa
    ∧ attempts s time (responseTTL resp) (mNs resp ++ denial s req resp) sn.
Proof.
  intros Ho He. rewrite (Sign_sections s time req resp size) by done.
  destruct (signSection_attempts s (mAnswer resp ++ apex_key s req resp) time (responseTTL resp)) as (sa & -> & Ha).
  destruct (signSection_attempts s (mNs resp ++ denial s req resp) time (responseTTL resp)) as (sn & -> & Hn).
  by exists sa, sn.
Qed.

(** Where all sets can be signed, a second pass, at any later time, adds nothing:
    signatures, denial records and the key are never stacked. *)
Theorem sign_idempotent time time' req resp pk :
  signs_sets s time (responseTTL resp) (mAnswer resp ++ apex_key s req resp) →
  signs_sets s time (responseTTL resp) (mNs resp ++ denial s req resp) → sgKey s = zone_key (sgZone s) pk →
  Sign s time' req (Sign s time req resp) = Sign s time req resp.
Proof.
  intros Hall Hall' Hkey. destruct (IsEdns0 req) as [[size []]|] eqn:Ho;
    [|unfold Sign; by rewrite Ho..].
  destruct (existsb is_RRSIG (mAnswer resp ++ mNs resp)) eqn:He;
    [assert (Sign s time req resp = resp) as -> by (unfold Sign; by rewrite Ho, He); unfold Sign; by rewrite Ho, He|].
  rewrite (Sign_sections s time req resp size) by done.
  destruct (signSection_all s (mAnswer resp ++ apex_key s req resp) time (responseTTL resp) Hall) as (sa & -> & Ha).
  destruct (signSection_all s (mNs resp ++ denial s req resp) time (responseTTL resp) Hall') as (sn & -> & Hn).
  destruct (decide (sa ++ sn = [])) as [[-> ->]%app_nil|Hne].
  - (* nothing to sign: neither a denial record nor the key was added *)
    assert (apex_key s req resp = []) as Hk.
    { apply signatures_nil in Ha. unfold signable in Ha. rewrite filter_app in Ha. apply app_nil in Ha as [_ Ha].
      revert Ha. unfold apex_key. repeat case_match; try done. rewrite Hkey. cbn. done. }
    assert (denial s req resp = []) as Hd.
    { apply signatures_nil in Hn. unfold signable in Hn. rewrite filter_app in Hn. apply app_nil in Hn as [_ Hn].
      revert Hn. unfold denial. repeat case_match; try done. }
    rewrite Hk, Hd, !app_nil_r in *.
    assert (set_Ns (mNs resp) (set_Answer (mAnswer resp) resp) = resp) as -> by (by destruct resp).
    rewrite (Sign_sections s time' req resp size), Hk, Hd, !app_nil_r by done.
    rewrite !signSection_omap. unfold rrset_keys.
    rewrite (signatures_nil _ _ _ _ Ha), (signatures_nil _ _ _ _ Hn). cbn. rewrite !app_nil_r. by destruct resp.
  - unfold Sign. rewrite Ho. assert (existsb is_RRSIG (sa ++ sn) = true) as Hs.
    { assert (Forall (λ sig, is_RRSIG sig = true) (sa ++ sn)) as H
        by (apply Forall_app; split; by eapply signatures_RRSIG).
      destruct H as [|x l Hx _]; [done|]. cbn. by rewrite Hx. }
    rewrite existsb_app in Hs. destruct resp; cbn. rewrite !existsb_app.
    apply orb_true_iff in Hs as [-> | ->]; by rewrite ?orb_true_r.
Qed.

(** *** Signed answers of the handler *)

Context {W L : Type} `{ST : !Store W, CL : !ChangeLog L}.
Implicit Types h : Handler W L.

(** A DO lookup of a key without an item is answered NXDOMAIN with the SOA,
    the NSEC record at the apex and a signature over each, and nothing else. *)
Theorem signed_nxdomain h time req q rest key size :
  good_zone (cZone (cfg h)) → reachable key → ToLower (qName q) = itemName (cZone (cfg h)) key →
  index_name h key = false → key ≠ lit "ns1" → Get (store h) key = Ok None →
  mQuestion req = q :: rest → IsEdns0 req = Some (size, true) → 0 < cTTL (cfg h) →
  sgZone s = cZone (cfg h) →
  let m := Sign s time req (buildResponse h req q) in
  let ttl := cTTL (cfg h) in
  let nsec := apexNSEC (cZone (cfg h)) ttl in
  signs_sets s time ttl [soa h; nsec] →
  ∃ sig1 sig2, says m RcodeNameError [] [soa h; nsec; sig1; sig2]
  ∧ signs s time ttl [soa h] sig1 ∧ signs s time ttl [nsec] sig2.
Proof.
  intros Hz Hk Hq Hi Hns Hget Hquestion Ho Httl Hzone. cbv zeta. intros Hall.
  rewrite (buildResponse_point h req q key) by done.
  pose proof (pointLookup_spec h req q key) as Hs. cbv zeta in Hs. rewrite Hget in Hs.
  set (r := pointLookup h (blank_reply req) req q key) in *.
  assert (mRcode r = RcodeNameError ∧ mAnswer r = [] ∧ mNs r = [soa h]) as (Hrc & Ha & Hn) by apply Hs.
  rewrite (Sign_sections s time req r size) by (try done; by rewrite Ha, Hn).
  assert (responseTTL r = cTTL (cfg h)) as Ht.
  { unfold responseTTL. rewrite Hn. cbn. by rewrite (proj2 (Z.ltb_lt _ _) Httl). }
  assert (apex_key s req r = []) as ->.
  { unfold apex_key. rewrite Hquestion, Hq, Hzone, bool_decide_false; [done|].
    rewrite itemName_label by apply Hk. apply app_zone_ne. }
  assert (denial s req r = [apexNSEC (cZone (cfg h)) (cTTL (cfg h))]) as ->.
  { unfold denial. by rewrite Hrc, Hzone, Ht. }
  rewrite Ha, Hn, Ht. cbn [app].
  destruct (signSection_all s [] time (cTTL (cfg h))) as (sa & -> & HA); [by intros k ?%elem_of_nil|].
  destruct (signSection_all s [soa h; apexNSEC (cZone (cfg h)) (cTTL (cfg h))] time (cTTL (cfg h)) Hall) as (sn & -> & HN).
  apply Forall2_nil_inv_l in HA as ->.
  apply signatures_pair in HN as (sig1 & sig2 & -> & H1 & H2); [|done..|intros E%(f_equal snd); discriminate E].
  by exists sig1, sig2.
Qed.

(** A DO query at the apex for a type other than SOA, NS and ANY, DNSKEY
    included, is answered with the zone's key and, in the same message, with an
    NSEC record that denies DNSKEY, SOA and NS at that very name. *)
Theorem apex_key_denied h time req q rest size pk :
  ToLower (qName q) = cZone (cfg h) → qType q ≠ TypeSOA → qType q ≠ TypeNS → qType q ≠ TypeANY →
  mQuestion req = q :: rest → IsEdns0 req = Some (size, true) →
  sgZone s = cZone (cfg h) → sgKey s = zone_key (sgZone s) pk →
  let m := Sign s time req (buildResponse h req q) in
  let ttl := cTTL (cfg h) in
  ∃ bits, RR_DNSKEY (mkHdr (cZone (cfg h)) TypeDNSKEY ClassINET ttl) 257 3 13 pk ∈ mAnswer m
  ∧ soa h ∈ mNs m ∧ RR_NSEC (mkHdr (qName q) TypeNSEC ClassINET ttl) (cZone (cfg h)) bits ∈ mNs m
  ∧ TypeDNSKEY ∉ bits ∧ TypeSOA ∉ bits ∧ TypeNS ∉ bits.
Proof.
  intros Hq Hsoa Hns Hany Hquestion Ho Hzone Hkey. cbv zeta.
  assert (buildResponse h req q = add_Ns [soa h] (blank_reply req)) as ->.
  { unfold buildResponse. cbv zeta. rewrite Hq, bool_decide_true by done. unfold apexResponse.
    apply Z.eqb_neq in Hsoa, Hns, Hany. by rewrite Hsoa, Hns, Hany. }
  destruct (blank_reply_spec req) as (Hr & Ha & Hn & _).
  set (r := add_Ns [soa h] (blank_reply req)) in *.
  assert (mRcode r = RcodeSuccess ∧ mAnswer r = [] ∧ mNs r = [soa h]) as (Hr' & Ha' & Hn')
    by (unfold r; cbn [add_Ns set_Ns mRcode mAnswer mNs]; by rewrite Hr, Ha, Hn).
  rewrite (Sign_sections s time req r size) by (try done; by rewrite Ha', Hn').
  assert (responseTTL r = cTTL (cfg h)) as Ht by (unfold responseTTL; rewrite Hn'; cbn; by destruct (0 <? _)).
  unfold apex_key, denial. rewrite Hquestion, Hr', Ha', Hn', Ht, Hq, Hzone, (bool_decide_true (_ = cZone _)) by done.
  rewrite bool_decide_true, Hkey, Hzone by done. rewrite !signSection_omap.
  exists [TypeTXT; TypeRRSIG; TypeNSEC]. cbn [mNs mAnswer set_Ns set_Answer app Z.eqb andb].
  split_and!; [set_solver|set_solver|cbn; set_solver|..]; apply (bool_decide_eq_true_1 _); vm_compute; reflexivity.
Qed.
End Properties.

(** ** Key files *)

Definition file_byte (c : ascii) : Prop := (97 <= code c <= 122 ∨ 48 <= code c <= 57) ∨ c = "-"%char ∨ c = "."%char.

(** The file name of a zone's key is made of letters, digits, hyphens and dots:
    whatever the zone, the path stays inside the key directory. *)
Lemma sanitizeZone_safe `{UT : UnicodeTables} zone : Forall file_byte (sanitizeZone zone).
Proof.
  unfold sanitizeZone. apply Forall_forall. intros c Hc.
  apply list_elem_of_In, in_flat_map in Hc as ([r w] & _ & Hc%list_elem_of_In).
  unfold sanitize_rune in Hc. cbn [fst] in Hc. unfold file_byte. revert Hc.
  destruct (_ || _) eqn:E.
  - apply orb_true_iff in E. rewrite orb_true_iff, orb_true_iff, !andb_true_iff, !Z.leb_le, !Z.eqb_eq in E.
    unfold EncodeRune. rewrite (proj2 (andb_true_iff _ _)) by (rewrite Z.leb_le, Z.ltb_lt; lia).
    intros ->%list_elem_of_singleton. rewrite code_chr, Z.mod_small by lia.
    destruct E as [[E|E]|E]; [left; lia|right; left; by subst|right; right; by subst].
  - intros ->%list_elem_of_singleton. by right; left.
Qed.

(** The public key of a loaded key is the point without its format byte, and
    anything but 65 bytes of an uncompressed point is refused. *)
Lemma key_of_public_exact zone pub :
  match key_of_public zone pub with
  | Ok key => ∃ xy, pub = chr 4 :: xy ∧ length xy = 64%nat
      ∧ key = zone_key zone (Base64.EncodeToString Base64.StdEncoding xy)
  | Err _ => length pub ≠ 65%nat ∨ head pub ≠ Some (chr 4)
  end.
Proof.
  unfold key_of_public. destruct (Nat.eqb_spec (length pub) 65) as [Hl|Hl]; cbn [negb orb]; [|by left].
  case_bool_decide as Hh; cbn [negb]; [|by right].
  destruct pub as [|c xy]; [done|]. injection Hh as ->. exists xy. cbn in Hl. by split_and!; [|lia|].
Qed.

(** ** A concrete signer and witnesses *)

(** A stand-in for a digest of the set. *)
Definition ref_digest (rrs : list RR) : str := concat ((λ rr, hName (Header rr) ++ dec_str (hRrtype (Header rr)) ++ lit ";") <$> rrs).

(** An incomplete template is refused. *)
Definition ref_sign (_ : unit) (t : RR) (rrs : list RR) : res RR :=
  match t, rrs with
  | RR_RRSIG h _ alg ot expi inc tag sn _, rr :: _ =>
      if (tag =? 0) || (alg =? 0) || bool_decide (sn = []) then Err (EMsg (lit "bad key") []) else
      Ok (RR_RRSIG (mkHdr (hName (Header rr)) TypeRRSIG (hClass (Header rr)) (hTtl h)) (hRrtype (Header rr)) alg
            (if ot =? 0 then hTtl (Header rr) else ot) expi inc tag sn (ref_digest rrs))
  | _, _ => Err (EMsg (lit "bad rrset") [])
  end.

(** The signer's name, the tag and the algorithm are the key's. *)
Definition ref_verify (key sig : RR) (rrs : list RR) : bool :=
  match key, sig with
  | RR_DNSKEY kh _ _ kalg _, RR_RRSIG _ _ alg _ _ _ tag sn sg =>
      (tag =? 12345) && (alg =? kalg) && bool_decide (sn = hName kh) && bool_decide (sg = ref_digest rrs)
  | _, _ => false
  end.

Definition ref_dnssec : DnssecLib unit :=
  {| KeyTag _ := 12345; RRSIG_Sign := ref_sign; RRSIG_Verify := ref_verify; key_pair _ _ := True |}.

Lemma ref_dnssec_laws `{UT : UnicodeTables} : @DnssecLaws unit UT ref_dnssec.
Proof.
  split.
  - intros k h tc alg ottl expi inc tag sn sg rr rrs sig. cbn [RRSIG_Sign ref_dnssec ref_sign].
    destruct (_ || _); [done|]. intros [= <-]. by eexists.
  - intros k zone pub h tc ottl expi inc sg rrs sig ttl key _ _. cbn [RRSIG_Sign RRSIG_Verify ref_dnssec]. unfold ref_sign, ref_verify.
    destruct rrs; [done|]. destruct (_ || _); [done|]. intros [= <-]. cbn. by rewrite !bool_decide_true.
Qed.

Definition demo_signer : OnlineSigner unit := mkOnlineSigner demo_zone (zone_key demo_zone (lit "key")) ().

Lemma demo_signs_sets `{UT : UnicodeTables} time ttl rrs : @signs_sets UT unit ref_dnssec demo_signer time ttl rrs.
Proof. intros k Hk%rrset_of_nonempty. by destruct (rrset_of k rrs). Qed.

Definition do_query (name : str) (qtype : Z) : Msg :=
  set_Extra [RR_OPT (mkHdr (lit ".") TypeOPT 0 0) 4096 true] (Demo.query name qtype).

Definition demo_answer (name : str) (qtype : Z) : Msg :=
  buildResponse Demo.handler (do_query name qtype) (mkQuestion name qtype ClassINET).

Lemma demo_good_zone : good_zone (cZone (cfg Demo.handler)).
Proof. exact good_demo_zone. Qed.

Lemma nobody_reachable : reachable (lit "nobody").
Proof. split; done. Qed.

Lemma demo_paired : paired demo_signer (DL := ref_dnssec).
Proof. exists (lit "key"). done. Qed.

Lemma sign_exact_witness :
  ∃ sa sn, @Sign ascii_tables ref_dns unit ref_dnssec demo_signer 1000 (do_query demo_zone TypeSOA) (demo_answer demo_zone TypeSOA)
           = set_Ns (([] ++ []) ++ sn) (set_Answer (([soa Demo.handler] ++
               [RR_DNSKEY (mkHdr demo_zone TypeDNSKEY ClassINET 300) 257 3 13 (lit "key")]) ++ sa)
               (demo_answer demo_zone TypeSOA))
  ∧ ∃ sig, sig ∈ sa ∧ ref_verify (zone_key demo_zone (lit "key")) sig [soa Demo.handler] = true.
Proof.
  destruct (@sign_exact ascii_tables ref_dns unit ref_dnssec ref_dnssec_laws demo_signer 1000 (do_query demo_zone TypeSOA)
    (demo_answer demo_zone TypeSOA) 4096 ltac:(reflexivity) ltac:(vm_compute; reflexivity))
    as (sa & sn & H & (os & Hsa & Hos) & _).
  exists sa, sn. split; [exact H|]. clear H.
  assert (rrset_keys (mAnswer (demo_answer demo_zone TypeSOA) ++
    apex_key demo_signer (do_query demo_zone TypeSOA) (demo_answer demo_zone TypeSOA))
    = [(demo_zone, TypeSOA); (demo_zone, TypeDNSKEY)]) as E by (vm_compute; reflexivity).
  rewrite E in Hos. destruct os as [|o os]; inversion Hos as [|k o' ks os' Hk _ Ek Eo].
  assert (rrset_of (demo_zone, TypeSOA) (mAnswer (demo_answer demo_zone TypeSOA) ++
    apex_key demo_signer (do_query demo_zone TypeSOA) (demo_answer demo_zone TypeSOA)) = [soa Demo.handler]) as E2
    by (vm_compute; reflexivity).
  rewrite E2 in Hk. destruct o as [sig|]; [|destruct Hk as [e He]; discriminate He].
  exists sig. split; [rewrite Hsa; left|]. apply (proj1 Hk demo_paired). split; [discriminate|].
  exists demo_zone, TypeSOA. split; [left; reflexivity|]. repeat constructor.
Defined.

Lemma sign_idempotent_witness :
  let sign t := @Sign ascii_tables ref_dns unit ref_dnssec demo_signer t (do_query (Demo.owner_of "nobody") TypeTXT) in
  sign 2000 (sign 1000 (demo_answer (Demo.owner_of "nobody") TypeTXT))
  = sign 1000 (demo_answer (Demo.owner_of "nobody") TypeTXT).
Proof.
  exact (@sign_idempotent ascii_tables ref_dns unit ref_dnssec ref_dnssec_laws demo_signer 1000 2000 _ _ (lit "key")
           (demo_signs_sets _ _ _) (demo_signs_sets _ _ _) eq_refl).
Defined.

Lemma signed_nxdomain_witness :
  ∃ sig1 sig2, says (@Sign ascii_tables ref_dns unit ref_dnssec demo_signer 1000 (do_query (Demo.owner_of "nobody") TypeTXT)
                       (demo_answer (Demo.owner_of "nobody") TypeTXT)) RcodeNameError []
                 [soa Demo.handler; apexNSEC demo_zone 5; sig1; sig2].
Proof.
  destruct (@signed_nxdomain ascii_tables ref_dns ref_dns_laws unit ref_dnssec ref_dnssec_laws demo_signer _ _ _ Demo.handler 1000
    (do_query (Demo.owner_of "nobody") TypeTXT) (mkQuestion (Demo.owner_of "nobody") TypeTXT ClassINET) []
    (lit "nobody") 4096 demo_good_zone nobody_reachable ltac:(vm_compute; reflexivity) ltac:(vm_compute; reflexivity)
    ltac:(done) ltac:(vm_compute; reflexivity) eq_refl ltac:(reflexivity) ltac:(reflexivity) eq_refl (demo_signs_sets _ _ _))
    as (sig1 & sig2 & H & _).
  exists sig1, sig2. exact H.
Defined.

Lemma apex_key_denied_witness :
  ∃ bits, RR_NSEC (mkHdr demo_zone TypeNSEC ClassINET 5) demo_zone bits
    ∈ mNs (@Sign ascii_tables ref_dns unit ref_dnssec demo_signer 1000 (do_query demo_zone TypeDNSKEY) (demo_answer demo_zone TypeDNSKEY))
  ∧ TypeDNSKEY ∉ bits.
Proof.
  destruct (@apex_key_denied ascii_tables ref_dns ref_dns_laws unit ref_dnssec ref_dnssec_laws demo_signer _ _ _ Demo.handler 1000
    (do_query demo_zone TypeDNSKEY) (mkQuestion demo_zone TypeDNSKEY ClassINET) [] 4096 (lit "key")
    ltac:(vm_compute; reflexivity) ltac:(done) ltac:(done) ltac:(done) eq_refl ltac:(reflexivity) eq_refl eq_refl)
    as (bits & _ & _ & H & Hd & _).
  exists bits. split; [exact H|exact Hd].
Defined.
