(* ===== verification/UpdateEffect.v ===== *)
(** * What an update changes

    [commitUpdate] in one equation, and the guarantees of [handleUpdate] built
    on it: authentication, atomicity, refinement of an abstract table and
    journal. *)

From S2P Require Import Prelude GoStrings Json Names Dns Journal Store Handler HandlerSpec Update UpdateSpec Demo.

Section Effect.
Context `{UT : UnicodeTables, D : DnsLib} {W L : Type} `{ST : !Store W, CL : !ChangeLog L}.
Implicit Types h : Handler W L.

(** ** The commit *)

(** The handler after a write of [inserts] that replaced [old] at [key] and
    left the store as [st]. *)
Definition committed h (st : W) (key : str) (old : Item) (inserts : list (str * Item)) : Handler W L :=
  (commitWrite (set_metrics (bump CUpdates (metrics h)) (set_store st h))
     (removed_rrs h [(key, old)]) (added_rrs h inserts)).1.

Definition fan_out h : list (list str * str) :=
  if decide (notifiees h = []) then [] else [(notifiees h, cZone (cfg h))].

Lemma commitUpdate_one wr inserts key s :
  let h := hd_ s in
  commitUpdate wr inserts [key] s =
  match Get (store h) key with
  | Err _ => (RcodeServerFailure, s)
  | Ok old =>
      match apply_write wr (store h) inserts [key] with
      | (st, Some _) => (RcodeServerFailure, mkSrv (set_store st h) (sent s) (notified s))
      | (st, None) => (RcodeSuccess, mkSrv (committed h st key old inserts) (sent s) (notified s ++ fan_out h))
      end
  end.
Proof.
  intros h. unfold commitUpdate, bind, get_h, put_h, count, ret, go_notify. fold h. cbn [mapM_res res_bind].
  destruct (Get (store h) key) as [old|e]; cbn [res_bind]; [|done].
  destruct (apply_write _ _ _ _) as [st [e|]]; cbn [is_none negb hd_ sent notified]; [done|].
  unfold fan_out, committed. destruct (changelog h) eqn:E; cbn; rewrite ?E; cbn;
    repeat case_decide; cbn; rewrite ?bool_decide_true, ?bool_decide_false by done; cbn; rewrite ?app_nil_r; done.
Qed.

(** ** The reply *)

Definition update_reply h (w : Conn) (req : Msg) (rcode : Z) : Msg :=
  let resp := set_Authoritative true (SetRcode new_Msg req rcode) in
  setupReplyTsig h w req (if rcode =? RcodeSuccess then add_Answer [soa h] resp else resp).

Lemma handleUpdate_valid w req s : tsigValid (hd_ s) w req = true →
  handleUpdate w req s =
  let '(rc, s') := processUpdate req s in
  (tt, mkSrv (hd_ s') (sent s' ++ [update_reply (hd_ s') w req rc]) (notified s')).
Proof.
  intros HV. unfold handleUpdate, bind, get_h, WriteMsg, ret. rewrite HV. cbn [negb].
  by destruct (processUpdate req s) as [rc s'].
Qed.

Context `{!DnsLaws D}.

Lemma update_reply_Rcode h w req rc : mRcode (update_reply h w req rc) = rc.
Proof. unfold update_reply. autorewrite with dns. case_match; cbn; by autorewrite with dns. Qed.

Lemma update_reply_Answer h w req rc :
  mAnswer (update_reply h w req rc) = if rc =? RcodeSuccess then [soa h] else [].
Proof. unfold update_reply. autorewrite with dns. case_match; cbn; by autorewrite with dns. Qed.

(** Every outcome of an authenticated update. *)
Inductive outcome (w : Conn) (req : Msg) (s : Srv W L) : Z → Srv W L → Prop :=
  | rejected rc : (rc = RcodeSuccess → mNs req = []) → outcome w req s rc s
  | write_failed wr key inserts st e : writer = Some wr → plan (hd_ s) req key inserts →
      apply_write wr (store (hd_ s)) inserts [key] = (st, Some e) →
      outcome w req s RcodeServerFailure (mkSrv (set_store st (hd_ s)) (sent s) (notified s))
  | applied wr key inserts st old : writer = Some wr → plan (hd_ s) req key inserts →
      Get (store (hd_ s)) key = Ok old →
      apply_write wr (store (hd_ s)) inserts [key] = (st, None) →
      outcome w req s RcodeSuccess
        (mkSrv (committed (hd_ s) st key old inserts) (sent s) (notified s ++ fan_out (hd_ s))).

Lemma handleUpdate_outcome w req s : tsigValid (hd_ s) w req = true →
  ∃ rc s1, outcome w req s rc s1
  ∧ handleUpdate w req s = (tt, mkSrv (hd_ s1) (sent s ++ [update_reply (hd_ s1) w req rc]) (notified s1)).
Proof.
  intros HV. rewrite handleUpdate_valid by done.
  destruct (processUpdate_cases req s) as [(rc & -> & Hs)|(wr & key & ins & Hw & Hp & ->)].
  - exists rc, s. split; [by constructor|done].
  - rewrite commitUpdate_one. destruct (Get (store (hd_ s)) key) as [old|e] eqn:HG.
    + destruct (apply_write _ _ _ _) as [st [e|]] eqn:HA; eexists _, _; (split; [|done]).
      * by eapply write_failed.
      * by eapply applied.
    + eexists _, _. split; [|done]. by constructor.
Qed.

(** ** Properties *)

(** An UPDATE without a valid TSIG is answered REFUSED, carries no records,
    and leaves store, serial, journal and every counter but [refused] alone. *)
Theorem update_requires_tsig w req s :
  tsigValid (hd_ s) w req = false →
  ∃ m, handleUpdate w req s
       = (tt, mkSrv (set_metrics (bump CRefused (metrics (hd_ s))) (hd_ s)) (sent s ++ [m]) (notified s))
  ∧ mRcode m = RcodeRefused ∧ mAnswer m = [] ∧ mNs m = [].
Proof.
  intros HV. unfold handleUpdate, bind, get_h, WriteMsg, ret, count. rewrite HV. cbn [negb].
  eexists. split; [reflexivity|]. cbn. autorewrite with dns. cbn. by autorewrite with dns.
Qed.

(** C9. Atomicity: an authenticated UPDATE is answered by one message.  Unless
    that says NOERROR, serial, journal, counters and notifications are as
    before, and so is the store unless its one operation reported an error.
    NOERROR carries the new SOA. *)
Theorem handleUpdate_atomic w req s s' :
  tsigValid (hd_ s) w req = true → handleUpdate w req s = (tt, s') →
  ∃ m, sent s' = sent s ++ [m]
  ∧ (mRcode m ≠ RcodeSuccess →
       mAnswer m = [] ∧ notified s' = notified s ∧ hd_ s' = set_store (store (hd_ s')) (hd_ s)
       ∧ (store (hd_ s') = store (hd_ s)
          ∨ mRcode m = RcodeServerFailure ∧ ∃ wr key e, writer = Some wr
            ∧ ((∃ item, Put wr (store (hd_ s)) key item = (store (hd_ s'), Some e))
               ∨ Delete wr (store (hd_ s)) key = (store (hd_ s'), Some e))))
  ∧ (mRcode m = RcodeSuccess → mAnswer m = [soa (hd_ s')]).
Proof.
  intros HV. destruct (handleUpdate_outcome w req s HV) as (rc & s1 & Ho & ->). intros [= <-].
  eexists. cbn [sent hd_ notified]. split; [done|]. rewrite update_reply_Rcode, update_reply_Answer.
  split; [|by intros ->]. intros Hrc. rewrite (proj2 (Z.eqb_neq _ _)) by done. split; [done|].
  destruct Ho as [rc _|wr key inserts st e Hw Hp Ha|wr key inserts st old]; [| |done].
  - split_and!; [done|by destruct (hd_ s)|by left].
  - split_and!; [done..|]. right. split; [done|]. exists wr, key, e. split; [done|].
    unfold apply_write in Ha. destruct inserts as [|[k i] rest]; cbn in *; [by right|].
    left. exists i. destruct Hp as [_ _ _ _ Hop]. inversion Hop. by subst.
Qed.

(** An UPDATE whose records address two different keys is never applied:
    no message of it reaches the store, the serial or the journal. *)
Theorem multi_key_update_refused w req s r1 r2 k1 k2 :
  r1 ∈ mNs req → r2 ∈ mNs req →
  parseKey (cZone (cfg (hd_ s))) (owner r1) = Some k1 →
  parseKey (cZone (cfg (hd_ s))) (owner r2) = Some k2 → k1 ≠ k2 →
  tsigValid (hd_ s) w req = true →
  ∃ m, handleUpdate w req s = (tt, mkSrv (hd_ s) (sent s ++ [m]) (notified s))
  ∧ mRcode m ≠ RcodeSuccess.
Proof.
  intros H1 H2 HK1 HK2 Hne HV.
  assert (∀ key inserts, ¬ plan (hd_ s) req key inserts) as Hno.
  { intros key inserts [_ _ Hr _ _]. destruct (Hr r1 H1) as [_ ?], (Hr r2 H2) as [_ ?]. congruence. }
  destruct (handleUpdate_outcome w req s HV) as (rc & s1 & Ho & ->).
  destruct Ho as [rc Hs|? ? ? ? ? ? Hp|? ? ? ? ? ? Hp]; [|by apply Hno in Hp..].
  eexists. split; [done|]. rewrite update_reply_Rcode. intros ->. rewrite Hs in H1 by done. set_solver.
Qed.
End Effect.

Section Refinement.
Context `{UT : UnicodeTables, D : DnsLib, !DnsLaws D} {W L : Type}
  `{ST : !Store W, !FullStoreSpec W, CL : !ChangeLog L, !ChangeLogSpec L}.
Implicit Types h : Handler W L.

(** The table and the journal an abstract zone keeps. *)
Record zone_state := mkZone { z_table : gmap str gomap; z_base : Z; z_log : list Delta }.

Definition z_serial (z : zone_state) : Z := z_base z + Z.of_nat (length (z_log z)).

(** The handler's state represents an abstract zone. *)
Record represents (h : Handler W L) (z : zone_state) : Prop := {
  rep_table : view (store h) = z_table z;
  rep_serial : serial h = z_serial z;
  rep_log : ∃ c, changelog h = Some c ∧ log_repr c (z_base z) (z_log z);
  rep_base : 0 ≤ z_base z;
}.

(** The table after the one operation of a packet. *)
Definition write_table (key : str) (inserts : list (str * Item)) (t : gmap str gomap) : gmap str gomap :=
  match inserts with
  | (_, item) :: _ => partial_alter (λ _, stored key item) key t
  | [] => delete key t
  end.

(** The abstract zone after a packet's plan: the operation, and one delta with
    the record of the old item and those of the items written. *)
Definition zone_step h (key : str) (inserts : list (str * Item)) (z : zone_state) : zone_state :=
  mkZone (write_table key inserts (z_table z)) (z_base z)
    (z_log z ++ [mkDelta (z_serial z + 1)
                   (removed_rrs h [(key, z_table z !! key)]) (added_rrs h inserts)]).

Lemma apply_write_view h req key inserts st :
  plan h req key inserts → apply_write full_writer (store h) inserts [key] = (st, None) →
  view st = write_table key inserts (view (store h)).
Proof.
  intros [_ _ _ _ Hop] Ha. unfold apply_write in Ha. inversion Hop; subst; cbn in *.
  - by apply put_view.
  - by apply delete_view.
Qed.

Lemma committed_represents h req z wr key inserts st old :
  represents h z → z_serial z + 1 < 2 ^ 32 → writer = Some wr → plan h req key inserts →
  Get (store h) key = Ok old → apply_write wr (store h) inserts [key] = (st, None) →
  represents (committed h st key old inserts) (zone_step h key inserts z).
Proof.
  intros [Ht Hs (c & Hc & Hl) Hb] Hlt Hw Hp HG Ha. rewrite writer_full in Hw. injection Hw as <-.
  pose proof (log_record c _ _ (removed_rrs h [(key, old)]) (added_rrs h inserts) Hl Hb) as Hr.
  unfold z_serial in *. cbn zeta in Hr. specialize (Hr ltac:(lia)).
  assert (u32 (serial h + 1) = z_base z + Z.of_nat (length (z_log z)) + 1) as Hu
    by (rewrite u32_small; lia).
  apply get_view in HG. subst old. rewrite Ht in Hr.
  unfold committed, commitWrite. cbn. rewrite Hc, Hu, Ht. split; cbn.
  - rewrite <- Ht. by eapply apply_write_view.
  - unfold z_serial. cbn. rewrite length_app. cbn. lia.
  - eauto.
  - done.
Qed.

(** C8. An authenticated UPDATE answered NOERROR with a non-empty update section
    refines one step of the abstract zone: the table changes by exactly the one
    planned operation, the serial grows by one, and the journal grows by one
    delta with the old record and the records written. *)
Theorem handleUpdate_refines w req s s' m z :
  represents (hd_ s) z → z_serial z + 1 < 2 ^ 32 → tsigValid (hd_ s) w req = true →
  mNs req ≠ [] → handleUpdate w req s = (tt, s') → sent s' = sent s ++ [m] → mRcode m = RcodeSuccess →
  ∃ key inserts, plan (hd_ s) req key inserts
  ∧ represents (hd_ s') (zone_step (hd_ s) key inserts z)
  ∧ notified s' = notified s ++ fan_out (hd_ s)
  ∧ Updates (metrics (hd_ s')) = i64 (Updates (metrics (hd_ s)) + 1).
Proof.
  intros Hz Hlt HV Hne. destruct (handleUpdate_outcome w req s HV) as (rc & s1 & Ho & ->).
  intros [= <-] Hm. cbn in Hm. apply app_inj_2 in Hm as [_ [= <-]]; [|done].
  rewrite update_reply_Rcode. intros ->. cbn [hd_ notified].
  inversion Ho as [? Hs| |wr key inserts st old Hw Hp HG Ha]; subst; [by destruct Hne, Hs|].
  exists key, inserts. split_and!; [done|by eapply committed_represents|done|].
  unfold committed, commitWrite. cbn. by destruct (metrics (hd_ s)), (changelog (hd_ s)).
Qed.
End Refinement.

(** ** Witnesses *)

Section Witnesses.
Let put := handleUpdate Demo.tcp Demo.put_dave Demo.srv.

Lemma demo_represents : represents Demo.handler (mkZone (view Sample.demo_store) 100 []).
Proof. split; try done. eexists. split; [done|]. cbn. apply MemChangeLog.New_repr. lia. Qed.

Lemma update_requires_tsig_witness :
  ∃ m, handleUpdate Demo.unsigned Demo.put_dave Demo.srv
       = (tt, mkSrv (set_metrics (bump CRefused (metrics (hd_ Demo.srv))) (hd_ Demo.srv))
                (sent Demo.srv ++ [m]) (notified Demo.srv))
  ∧ mRcode m = RcodeRefused ∧ mAnswer m = [] ∧ mNs m = [].
Proof. apply update_requires_tsig. vm_compute. reflexivity. Defined.

Lemma handleUpdate_atomic_witness :
  ∃ m, sent put.2 = [m] ∧ (mRcode m = RcodeSuccess → mAnswer m = [soa (hd_ put.2)]).
Proof.
  destruct (handleUpdate_atomic Demo.tcp Demo.put_dave Demo.srv put.2) as (m & Hm & _ & Ha);
    [vm_compute; reflexivity|apply run_unit|].
  exists m. split; [exact Hm|exact Ha].
Defined.

Lemma multi_key_update_refused_witness :
  ∃ m, handleUpdate Demo.tcp (Demo.update [] [Demo.add "user.dave" [Demo.dave]; Demo.del "user.bob"]) Demo.srv
       = (tt, mkSrv Demo.handler [m] []) ∧ mRcode m ≠ RcodeSuccess.
Proof.
  apply (multi_key_update_refused Demo.tcp _ Demo.srv (Demo.add "user.dave" [Demo.dave]) (Demo.del "user.bob")
           (lit "user.dave") (lit "user.bob")); [cbn; set_solver..| | | |];
    [vm_compute; reflexivity..|done|vm_compute; reflexivity].
Defined.

Lemma handleUpdate_refines_witness :
  ∃ key inserts, represents (hd_ put.2)
    (zone_step Demo.handler key inserts (mkZone (view Sample.demo_store) 100 [])).
Proof.
  destruct (handleUpdate_refines Demo.tcp Demo.put_dave Demo.srv put.2 (Demo.reply put.2)
              (mkZone (view Sample.demo_store) 100 [])) as (key & ins & _ & Hr & _);
    [apply demo_represents|vm_compute; reflexivity|vm_compute; reflexivity|discriminate|apply run_unit
    |vm_compute; reflexivity..|]. exists key, ins. exact Hr.
Defined.
End Witnesses.
