(* ===== verification/TransferSpec.v ===== *)
(** * Correctness of zone transfers

    The batching discipline as a predicate and its two implementations (the
    slice version [batchRRs] and the streaming callback of a full transfer);
    the exact message stream of [streamZone] on a connection that accepts
    every write. *)

From S2P Require Import Prelude GoStrings Dns Json Journal Store Handler HandlerSpec Names Transfer Demo.

Section Batching.
Context `{D : DnsLib}.
Variable capBytes : Z.

(** The size the code accounts to a message with these records. *)
Definition msg_size (b : list RR) : Z := overheadPerMsg + foldr (λ rr n, RRLen rr + n) 0 b.

Lemma msg_size_snoc b rr : msg_size (b ++ [rr]) = msg_size b + RRLen rr.
Proof.
  unfold msg_size. rewrite foldr_app. cbn [foldr].
  assert (∀ a, foldr (λ rr n, RRLen rr + n) a b = foldr (λ rr n, RRLen rr + n) 0 b + a) as H.
  { intros a. induction b as [|x b IH]; cbn; lia. }
  rewrite H. lia.
Qed.

(** A message that may be sent: not empty, at most 500 records, and within the
    byte limit unless it is a single record. *)
Definition fits (b : list RR) : Prop :=
  b ≠ [] ∧ (length b ≤ axfrMaxRRsPerMsg)%nat ∧ (msg_size b ≤ capBytes ∨ length b = 1%nat).

(** Every batch is as full as it can be: the next record would not fit. *)
Fixpoint greedy (bs : list (list RR)) : Prop :=
  match bs with
  | b :: rest =>
      match rest with
      | (rr :: _) :: _ => batch_full (length b) (msg_size b) (RRLen rr) capBytes = true
      | _ => True
      end ∧ greedy rest
  | [] => True
  end.

(** The streaming loop: the batches flushed while reading [rrs] into an open
    batch, and the batch left open. *)
Fixpoint flushed (buf : list RR) (len : Z) (rrs : list RR) : list (list RR) * list RR * Z :=
  match rrs with
  | [] => ([], buf, len)
  | rr :: rest =>
      if batch_full (length buf) len (RRLen rr) capBytes
      then let '(out, b, n) := flushed [rr] (overheadPerMsg + RRLen rr) rest in (buf :: out, b, n)
      else flushed (buf ++ [rr]) (len + RRLen rr) rest
  end.

Definition last_batch (b : list RR) : list (list RR) := if (0 <? length b)%nat then [b] else [].

Lemma batch_loop_flushed out cur len rrs :
  batch_loop capBytes out cur len rrs =
  let '(bs, b, _) := flushed cur len rrs in out ++ bs ++ last_batch b.
Proof.
  revert out cur len. induction rrs as [|rr rrs IH]; intros out cur len; cbn [batch_loop flushed].
  - unfold last_batch. case_match; by rewrite ?app_nil_r.
  - destruct (batch_full _ _ _ _); rewrite IH.
    + destruct (flushed _ _ _) as [[bs b] n]. by rewrite <- app_assoc.
    + by destruct (flushed _ _ _) as [[bs b] n].
Qed.

Lemma flushed_app buf len l k :
  flushed buf len (l ++ k) =
  let '(o1, b1, n1) := flushed buf len l in
  let '(o2, b2, n2) := flushed b1 n1 k in (o1 ++ o2, b2, n2).
Proof.
  revert buf len. induction l as [|rr l IH]; intros buf len; cbn [flushed app].
  - by destruct (flushed buf len k) as [[??]?].
  - destruct (batch_full _ _ _ _); rewrite IH.
    + destruct (flushed [rr] _ l) as [[??]?]. by destruct (flushed _ _ k) as [[??]?].
    + destruct (flushed _ _ l) as [[??]?]. by destruct (flushed _ _ k) as [[??]?].
Qed.

(** The open batch of the loop is empty or fits. *)
Definition open_ok (cur : list RR) (len : Z) : Prop := len = msg_size cur ∧ (cur ≠ [] → fits cur).

Lemma open_one rr : open_ok [rr] (overheadPerMsg + RRLen rr).
Proof. split; [unfold msg_size; cbn; lia|]. intros _. unfold fits, axfrMaxRRsPerMsg. cbn. split_and!; [done|lia|by right]. Qed.

Lemma open_snoc cur len rr : open_ok cur len → batch_full (length cur) len (RRLen rr) capBytes = false →
  open_ok (cur ++ [rr]) (len + RRLen rr).
Proof.
  intros [-> Hf] Hb. split; [by rewrite msg_size_snoc|]. intros _. unfold fits.
  rewrite msg_size_snoc, length_app. cbn [length]. unfold batch_full in Hb.
  destruct (decide (cur = [])) as [->|Hne]; [split_and!; [done|unfold axfrMaxRRsPerMsg; cbn; lia|by right]|].
  assert (0 < length cur)%nat as Hl by (destruct cur; cbn; [done|lia]).
  rewrite (proj2 (Nat.ltb_lt _ _)) in Hb by done.
  apply orb_false_iff in Hb as [H1%Nat.ltb_ge H2%Z.ltb_ge].
  split_and!; [by destruct cur|lia|left; lia].
Qed.

Lemma flushed_spec rrs : ∀ cur len bs b n, open_ok cur len → flushed cur len rrs = (bs, b, n) →
  concat bs ++ b = cur ++ rrs ∧ Forall fits bs ∧ open_ok b n ∧ greedy (bs ++ last_batch b)
  ∧ (cur ≠ [] → hd [] (bs ++ last_batch b) ≠ [] ∧ head (hd [] (bs ++ last_batch b)) = head cur
     ∧ b ≠ []).
Proof.
  induction rrs as [|rr rrs IH]; intros cur len bs b n Ho; cbn [flushed].
  - intros [= <- <- <-]. rewrite app_nil_r. split_and!; try done.
    + unfold last_batch. by case_match.
    + intros Hc. by destruct cur.
  - destruct (batch_full _ _ _ _) eqn:Hb.
    + destruct (flushed [rr] _ rrs) as [[bs' b'] n'] eqn:E. intros [= <- <- <-].
      apply IH in E as (Hc & Hf & Ho' & Hg & Hh); [|apply open_one].
      destruct (Hh ltac:(done)) as (Hne & Hd & Hb').
      assert (cur ≠ []) as Hcur by by destruct cur.
      split_and!; [cbn; by rewrite <- app_assoc, Hc| |done| |done].
      * constructor; [by apply Ho|done].
      * cbn [app greedy]. split; [|done]. destruct (bs' ++ last_batch b') as [|[|x l] k]; try done.
        cbn in Hd. injection Hd as ->. by destruct Ho as [<- _].
    + intros E. pose proof (open_snoc _ _ _ Ho Hb) as Ho'.
      apply IH in E as (Hc & Hf & Hob & Hg & Hh); [|done].
      split_and!; try done; [by rewrite Hc, <- app_assoc|].
      intros Hcur. destruct (Hh ltac:(by destruct cur)) as (? & Hd & ?). split_and!; try done.
      rewrite Hd. by destruct cur.
Qed.

Lemma batchRRs_flushed rrs : ∃ bs b n, flushed [] overheadPerMsg rrs = (bs, b, n)
  ∧ batchRRs rrs capBytes = bs ++ last_batch b
  ∧ concat bs ++ b = rrs ∧ Forall fits bs ∧ open_ok b n ∧ greedy (bs ++ last_batch b).
Proof.
  destruct (flushed [] overheadPerMsg rrs) as [[bs b] n] eqn:E. exists bs, b, n.
  unfold batchRRs. rewrite batch_loop_flushed, E. cbn [app].
  assert (open_ok [] overheadPerMsg) as Ho by (split; [unfold msg_size; cbn; lia|done]).
  destruct (flushed_spec _ _ _ _ _ _ Ho E) as (Hc & Hf & Ho' & Hg & _).
  rewrite app_nil_l in Hc. done.
Qed.

Lemma batchRRs_batches rrs : concat (batchRRs rrs capBytes) = rrs
  ∧ Forall fits (batchRRs rrs capBytes) ∧ greedy (batchRRs rrs capBytes).
Proof.
  destruct (batchRRs_flushed rrs) as (bs & b & n & _ & -> & Hc & Hf & [_ Ho] & Hg).
  unfold last_batch in *. destruct b as [|x b]; cbn [length Nat.ltb Nat.leb] in *.
  - by rewrite !app_nil_r in *.
  - rewrite concat_app. cbn [concat]. rewrite app_nil_r. split_and!; [done| |done].
    apply Forall_app. split; [done|]. constructor; [by apply Ho|constructor].
Qed.
End Batching.

(** ** The message stream *)

Section Stream.
Context `{UT : UnicodeTables, D : DnsLib} {W L : Type} `{ST : !Store W, CL : !ChangeLog L}.
Implicit Types h : Handler W L.

(** The message [send] writes for a batch. *)
Definition tmsg h (w : Conn) (req : Msg) (rrs : list RR) : Msg :=
  setupReplyTsig h w req (set_Answer rrs (set_Authoritative true (SetReply new_Msg req))).

(** Writing messages one after the other, the first as the [n]-th of the
    connection, up to and including the first that fails. *)
Fixpoint write_all (w : Conn) (n : nat) (ms : list Msg) : bool * list Msg :=
  match ms with
  | [] => (true, [])
  | m :: rest =>
      match writeErr w n with
      | Some _ => (false, [m])
      | None => let '(ok, l) := write_all w (S n) rest in (ok, m :: l)
      end
  end.

Lemma write_all_true w n ms l : write_all w n ms = (true, l) → l = ms.
Proof.
  revert n l. induction ms as [|m ms IH]; intros n l; cbn; [by intros [= <-]|].
  destruct (writeErr w n); [done|]. destruct (write_all w (S n) ms) as [ok l'] eqn:E.
  intros [= -> <-]. by rewrite (IH _ _ E).
Qed.

Lemma write_all_app w n a b :
  write_all w n (a ++ b) =
  let '(ok, x) := write_all w n a in
  if ok then let '(ok', y) := write_all w (n + length x) b in (ok', x ++ y) else (false, x).
Proof.
  revert n. induction a as [|m a IH]; intros n; cbn.
  - rewrite Nat.add_0_r. by destruct (write_all w n b).
  - destruct (writeErr w n); [done|]. rewrite IH. destruct (write_all w (S n) a) as [[] x]; [|done].
    cbn. rewrite Nat.add_succ_r. by destruct (write_all w (S (n + length x)) b).
Qed.

(** A connection that accepts every write. *)
Definition healthy (w : Conn) : Prop := ∀ n, writeErr w n = None.

Lemma write_all_healthy w n ms : healthy w → write_all w n ms = (true, ms).
Proof. intros Hw. revert n. induction ms as [|m ms IH]; intros n; cbn; [done|]. by rewrite Hw, IH. Qed.

(** The server after the connection took [ms]. *)
Definition push (ms : list Msg) (s : Srv W L) : Srv W L := mkSrv (hd_ s) (sent s ++ ms) (notified s).

Lemma push_nil s : push [] s = s.
Proof. unfold push. rewrite app_nil_r. by destruct s. Qed.

Lemma push_push a b s : push b (push a s) = push (a ++ b) s.
Proof. unfold push. cbn. by rewrite <- app_assoc. Qed.

Lemma sent_push ms s : length (sent (push ms s)) = (length (sent s) + length ms)%nat.
Proof. apply length_app. Qed.

(** Writing the messages of some batches, from state [s]. *)
Definition written (w : Conn) (req : Msg) (s : Srv W L) (bs : list (list RR)) : bool * list Msg :=
  write_all w (length (sent s)) (tmsg (hd_ s) w req <$> bs).

Lemma written_app w req s a b :
  written w req s (a ++ b) =
  let '(ok, x) := written w req s a in
  if ok then let '(ok', y) := written w req (push x s) b in (ok', x ++ y) else (false, x).
Proof.
  unfold written. rewrite fmap_app, write_all_app. destruct (write_all _ _ _) as [[] x]; [|done].
  by rewrite sent_push.
Qed.

Ltac run := unfold bind, get_h, ret, count, WriteMsg.

Lemma send_written w req rrs s :
  send w req rrs s = let '(ok, ms) := written w req s (last_batch rrs) in (ok, push ms s).
Proof.
  unfold send, last_batch, written. destruct rrs as [|rr rrs]; [cbn; by rewrite push_nil|].
  run. cbn. by destruct (writeErr w (length (sent s))).
Qed.

Lemma last_batch_nonempty b : b ≠ [] → last_batch b = [b].
Proof. by destruct b. Qed.

Lemma send_all_written w req bs s : Forall (λ b, b ≠ []) bs →
  send_all w req bs s = let '(ok, ms) := written w req s bs in (ok, push ms s).
Proof.
  intros Hb. revert s. induction Hb as [|b bs Hne Hb IH]; intros s; cbn [send_all].
  - cbn. by rewrite push_nil.
  - run. rewrite send_written, last_batch_nonempty by done. change (b :: bs) with ([b] ++ bs).
    rewrite written_app. destruct (written w req s [b]) as [[] x]; cbn [negb]; [|done].
    rewrite IH. destruct (written w req (push x s) bs). by rewrite push_push.
Qed.

Lemma stream_rrs_written w req cap rrs : ∀ buf len s,
  stream_rrs w req cap buf len rrs s =
  let '(bs, b, n) := flushed cap buf len rrs in
  let '(ok, ms) := written w req s bs in (if ok then Some (b, n) else None, push ms s).
Proof.
  induction rrs as [|rr rrs IH]; intros buf len s; cbn [stream_rrs flushed].
  - cbn. by rewrite push_nil.
  - destruct (batch_full _ _ _ _) eqn:Hb; [|apply IH].
    run. rewrite send_written, last_batch_nonempty by by destruct buf.
    destruct (flushed _ [rr] _ rrs) as [[bs b] n] eqn:E. change (buf :: bs) with ([buf] ++ bs).
    rewrite written_app. destruct (written w req s [buf]) as [[] x]; cbn [negb]; [|done].
    rewrite IH, E. destruct (written w req (push x s) bs) as [[] ?]; by rewrite push_push.
Qed.

(** Two consecutive pieces of the enumeration. *)
Lemma stream_step w req cap buf len s l k (f : list RR * Z → M W L (option (list RR * Z))) :
  (∀ b n s', hd_ s' = hd_ s → f (b, n) s' =
     let '(bs, b', n') := flushed cap b n k in
     let '(ok, ms) := written w req s' bs in (if ok then Some (b', n') else None, push ms s')) →
  (let '(r, s') := let '(bs, b, n) := flushed cap buf len l in
                   let '(ok, ms) := written w req s bs in (if ok then Some (b, n) else None, push ms s) in
   match r with None => ret None | Some p => f p end s') =
  let '(bs, b, n) := flushed cap buf len (l ++ k) in
  let '(ok, ms) := written w req s bs in (if ok then Some (b, n) else None, push ms s).
Proof.
  intros Hf. rewrite flushed_app. destruct (flushed _ buf len l) as [[o1 b1] n1].
  destruct (flushed cap b1 n1 k) as [[o2 b2] n2] eqn:E. rewrite written_app.
  destruct (written w req s o1) as [[] x]; [|done].
  rewrite Hf, E by done. destruct (written w req (push x s) o2) as [[] y]; by rewrite push_push.
Qed.

Lemma stream_entries_written w req cap page : ∀ buf len s,
  stream_entries w req cap buf len page s =
  let '(bs, b, n) := flushed cap buf len (flat_map (entry_rrs (hd_ s)) page) in
  let '(ok, ms) := written w req s bs in (if ok then Some (b, n) else None, push ms s).
Proof.
  induction page as [|e page IH]; intros buf len s; cbn [stream_entries flat_map].
  - cbn. by rewrite push_nil.
  - unfold bind at 1, get_h. cbn beta iota. rewrite <- stream_step with (f := λ '(b, n), stream_entries w req cap b n page).
    + unfold bind. rewrite stream_rrs_written. destruct (flushed _ _ _ _) as [[??]?].
      destruct (written _ _ _ _) as [[] ?]; [|done]. done.
    + intros b n s' Hs. by rewrite IH, Hs.
Qed.

Lemma stream_pages_written w req cap pages : ∀ buf len s,
  stream_pages w req cap buf len pages s =
  let '(bs, b, n) := flushed cap buf len (flat_map (entry_rrs (hd_ s)) (concat pages)) in
  let '(ok, ms) := written w req s bs in (if ok then Some (b, n) else None, push ms s).
Proof.
  induction pages as [|p pages IH]; intros buf len s; cbn [stream_pages concat].
  - cbn. by rewrite push_nil.
  - rewrite flat_map_app, <- stream_step with (f := λ '(b, n), stream_pages w req cap b n pages).
    + unfold bind. rewrite stream_entries_written. destruct (flushed _ _ _ _) as [[??]?].
      destruct (written _ _ _ _) as [[] ?]; [|done]. done.
    + intros b n s' Hs. by rewrite IH, Hs.
Qed.

(** The streaming callback sends exactly the batches of [batchRRs]. *)
Lemma stream_full_written w req cap r s pages : List_ r (store (hd_ s)) = (pages, None) →
  stream_full w req cap r s =
  let '(ok, ms) := written w req s (batchRRs (flat_map (entry_rrs (hd_ s)) (concat pages)) cap) in
  (ok, push ms s).
Proof.
  intros Hl. unfold stream_full. run. rewrite Hl, stream_pages_written.
  destruct (batchRRs_flushed cap (flat_map (entry_rrs (hd_ s)) (concat pages))) as (bs & b & n & -> & -> & _).
  rewrite written_app. destruct (written w req s bs) as [[] x]; [|done]. cbn [is_none negb andb].
  rewrite send_written. destruct (written w req (push x s) (last_batch b)). by rewrite push_push.
Qed.

Lemma send_deltas_written w req cap ds s :
  send_deltas w req cap ds s =
  let '(ok, ms) := written w req s (flat_map (λ d, batchRRs (difference (hd_ s) d) cap) ds) in
  (ok, push ms s).
Proof.
  revert s. induction ds as [|d ds IH]; intros s; cbn [send_deltas flat_map].
  - cbn. by rewrite push_nil.
  - run. rewrite send_all_written, written_app.
    + destruct (written w req s (batchRRs _ _)) as [[] x]; cbn [negb]; [|done].
      rewrite IH. cbn [hd_ push]. destruct (written w req (push x s) _). by rewrite push_push.
    + destruct (batchRRs_batches cap (difference (hd_ s) d)) as (_ & Hf & _).
      eapply Forall_impl; [exact Hf|]. by intros b [? _].
Qed.

(** The batches between the two SOA messages. *)
Definition body_batches h (cap : Z) (pages : list (list Entry)) (deltas : option (list Delta)) : list (list RR) :=
  match deltas with
  | Some ds => flat_map (λ d, batchRRs (difference h d) cap) ds
  | None => batchRRs (flat_map (entry_rrs h) (concat pages)) cap
  end.

Definition counted (s : Srv W L) : Srv W L :=
  mkSrv (set_metrics (bump CTransfers (metrics (hd_ s))) (hd_ s)) (sent s) (notified s).

Lemma streamZone_tcp w req q deltas s r pages :
  network w = tcp → reader = Some r → List_ r (store (hd_ s)) = (pages, None) →
  streamZone w req q deltas s =
  let '(ok, ms) := written w req s
    ([soa (hd_ s)] :: body_batches (hd_ s) axfrMaxBytes pages deltas ++ [[soa (hd_ s)]]) in
  (ok, (if ok then counted else id) (push ms s)).
Proof.
  intros Ht Hr Hl. unfold streamZone. rewrite Hr, (bool_decide_true _ Ht). cbn [negb andb is_none].
  rewrite !andb_false_r. run. rewrite send_written.
  change ([soa (hd_ s)] :: body_batches (hd_ s) axfrMaxBytes pages deltas ++ [[soa (hd_ s)]])
    with (last_batch [soa (hd_ s)] ++ body_batches (hd_ s) axfrMaxBytes pages deltas ++ [[soa (hd_ s)]]).
  rewrite written_app. destruct (written w req s (last_batch _)) as [[] x]; cbn [negb]; [|done].
  rewrite written_app.
  assert ((match deltas with
           | Some ds => send_deltas w req axfrMaxBytes ds
           | None => stream_full w req axfrMaxBytes r
           end) (push x s) =
          let '(ok, ms) := written w req (push x s) (body_batches (hd_ s) axfrMaxBytes pages deltas) in
          (ok, push ms (push x s))) as Hbody.
  { destruct deltas; [apply send_deltas_written|exact (stream_full_written w req axfrMaxBytes r (push x s) pages Hl)]. }
  destruct deltas; rewrite Hbody; (destruct (written w req (push x s) _) as [[] y]; cbn [negb];
    rewrite ?push_push; [|done]); rewrite send_written;
    (destruct (written w req (push (x ++ y) s) _) as [[] z]; cbn [negb]; rewrite push_push, <- app_assoc; done).
Qed.

(** ** Handlers *)

Lemma handleAXFR_tcp w req q s r pages :
  EqualFold (qName q) (cZone (cfg (hd_ s))) = true →
  network w = tcp → reader = Some r → List_ r (store (hd_ s)) = (pages, None) →
  handleAXFR w req q s =
  let '(ok, ms) := written w req s
    ([soa (hd_ s)] :: body_batches (hd_ s) axfrMaxBytes pages None ++ [[soa (hd_ s)]]) in
  (tt, (if ok then counted else id) (push ms s)).
Proof.
  intros Hq Ht Hr Hl. unfold handleAXFR. run. rewrite Hq. cbn [negb].
  rewrite (streamZone_tcp w req q None s r pages) by done. by destruct (written _ _ _ _).
Qed.

(** The deltas [handleIXFR] asks the journal for. *)
Definition history h (since : Z) : option (list Delta) :=
  match changelog h with Some c => (Deltas since c).1 | None => None end.

Lemma handleIXFR_tcp w req q s r pages hdr n m since a b c d :
  mNs req = [RR_SOA hdr n m since a b c d] → since < serial (hd_ s) →
  EqualFold (qName q) (cZone (cfg (hd_ s))) = true →
  network w = tcp → reader = Some r → List_ r (store (hd_ s)) = (pages, None) →
  handleIXFR w req q s =
  let '(ok, ms) := written w req s
    ([soa (hd_ s)] :: body_batches (hd_ s) axfrMaxBytes pages (history (hd_ s) since) ++ [[soa (hd_ s)]]) in
  (tt, (if ok then counted else id) (push ms s)).
Proof.
  intros Hns Hlt Hq Ht Hr Hl. unfold handleIXFR. run. rewrite Hns, Hq. cbn [negb].
  rewrite (proj2 (Z.leb_gt _ _)) by done. rewrite (bool_decide_true _ Ht). cbn [negb].
  fold (history (hd_ s) since). rewrite (streamZone_tcp w req q _ s r pages) by done.
  by destruct (written _ _ _ _).
Qed.

Context `{!DnsLaws D}.

Lemma tmsg_answers h w req (bs : list (list RR)) : mAnswer <$> (tmsg h w req <$> bs) = bs.
Proof.
  rewrite <- list_fmap_compose. rewrite (list_fmap_ext _ id); [apply list_fmap_id|].
  intros i b _. unfold compose, tmsg. by autorewrite with dns.
Qed.

Lemma body_batches_fit h pages deltas : Forall (fits axfrMaxBytes) (body_batches h axfrMaxBytes pages deltas).
Proof.
  destruct deltas as [ds|]; cbn [body_batches]; [|apply batchRRs_batches].
  induction ds as [|d ds IH]; cbn [flat_map]; [constructor|]. apply Forall_app. split; [|done].
  apply batchRRs_batches.
Qed.

Lemma body_batches_concat h pages deltas :
  concat (body_batches h axfrMaxBytes pages deltas) =
  match deltas with
  | Some ds => flat_map (difference h) ds
  | None => flat_map (entry_rrs h) (concat pages)
  end.
Proof.
  destruct deltas as [ds|]; cbn [body_batches]; [|apply batchRRs_batches].
  induction ds as [|d ds IH]; cbn [flat_map]; [done|]. rewrite concat_app, IH. f_equal. apply batchRRs_batches.
Qed.

(** ** Properties *)

(** C21. On a failing connection a transfer stops: it sends the messages of the
    whole stream (SOA, body, SOA) in order up to and including the first write
    that fails, and counts as a transfer only if none does. *)
Theorem transfer_stops_at_failure w req q s r pages :
  EqualFold (qName q) (cZone (cfg (hd_ s))) = true →
  network w = tcp → reader = Some r → List_ r (store (hd_ s)) = (pages, None) →
  ∃ body ok ms,
    concat body = flat_map (entry_rrs (hd_ s)) (concat pages)
  ∧ write_all w (length (sent s)) (tmsg (hd_ s) w req <$> [soa (hd_ s)] :: body ++ [[soa (hd_ s)]]) = (ok, ms)
  ∧ handleAXFR w req q s = (tt, (if ok then counted else id) (push ms s)).
Proof.
  intros Hq Ht Hr Hl. rewrite (handleAXFR_tcp w req q s r pages) by done.
  exists (body_batches (hd_ s) axfrMaxBytes pages None). unfold written.
  destruct (write_all _ _ _) as [ok ms] eqn:E. exists ok, ms. split_and!; [|done..].
  apply (body_batches_concat _ _ None).
Qed.

(** A client whose serial is not below ours, in plain integer order, is told
    it is up to date: one message with the SOA. *)
Theorem ixfr_up_to_date w req q s hdr n m since a b c d :
  mNs req = [RR_SOA hdr n m since a b c d] → serial (hd_ s) ≤ since →
  EqualFold (qName q) (cZone (cfg (hd_ s))) = true →
  ∃ reply, handleIXFR w req q s = (tt, push [reply] s) ∧ mAnswer reply = [soa (hd_ s)].
Proof.
  intros Hns Hle Hq. unfold handleIXFR. run. rewrite Hns, Hq. cbn [negb].
  rewrite (proj2 (Z.leb_le _ _)) by done. unfold reply_soa. run. eexists. split; [reflexivity|].
  by autorewrite with dns.
Qed.
End Stream.

(** *** Batches *)

(** [batchRRs] loses and reorders nothing; every batch is non-empty, holds
    at most 500 records and respects the byte limit unless it is one record;
    and no batch ends before the next record would overflow it. *)
Theorem batchRRs_exact `{D : DnsLib} rrs capBytes :
  concat (batchRRs rrs capBytes) = rrs
  ∧ Forall (fits capBytes) (batchRRs rrs capBytes) ∧ greedy capBytes (batchRRs rrs capBytes).
Proof. apply batchRRs_batches. Qed.

Section Full.
Context `{UT : UnicodeTables, D : DnsLib, !DnsLaws D} {W L : Type}
  `{ST : !Store W, !FullStoreSpec W, CL : !ChangeLog L, !ChangeLogSpec L}.
Implicit Types h : Handler W L.

Lemma flat_map_ext_elem {A B} (f g : A → list B) l : (∀ x, x ∈ l → f x = g x) → flat_map f l = flat_map g l.
Proof. induction l as [|x l IH]; intros Hfg; [done|]. cbn. rewrite Hfg, IH by set_solver. done. Qed.

(** The records of a table. *)
Definition table_rrs h (t : gmap str gomap) : list RR :=
  flat_map (λ '(k, m), entry_rrs h (mkEntry k (Some m))) (map_to_list t).

Lemma pages_table h pages : List_ full_reader (store h) = (pages, None) →
  (∀ e, e ∈ concat pages → eItem e ≠ None) →
  flat_map (entry_rrs h) (concat pages) ≡ₚ table_rrs h (view (store h)).
Proof.
  intros Hl Hnil. destruct (list_view _ _ Hl) as (Hs & Hc & Hn).
  assert (concat pages ≡ₚ (λ '(k, m), mkEntry k (Some m)) <$> map_to_list (view (store h))) as Hp.
  { apply NoDup_Permutation; [by apply NoDup_fmap_1 in Hn| |].
    - apply NoDup_fmap_2; [|apply NoDup_map_to_list]. intros [k1 m1] [k2 m2] [= -> ->]. done.
    - intros [k i]. rewrite list_elem_of_fmap. split.
      + intros Hin. pose proof (Hs _ Hin) as Hv. cbn in Hv. destruct i as [m|]; [|by apply Hnil in Hin].
        exists (k, m). split; [done|]. by apply elem_of_map_to_list.
      + intros ([k' m] & [= -> ->] & Hin%elem_of_map_to_list). auto. }
  rewrite Hp. unfold table_rrs. rewrite !flat_map_concat_map. f_equiv.
  change (map (entry_rrs h)) with (fmap (M := list) (entry_rrs h)). rewrite <- list_fmap_compose.
  apply reflexive_eq, list_fmap_ext. by intros i [k m] _.
Qed.

(** C12. A full transfer over TCP is the whole table: the SOA, then the record of
    every item exactly once, then the SOA again, in messages within the limits;
    it leaves the zone unchanged and counts as one transfer. *)
Theorem axfr_complete w req q s pages :
  healthy w → network w = tcp → EqualFold (qName q) (cZone (cfg (hd_ s))) = true →
  List_ full_reader (store (hd_ s)) = (pages, None) → (∀ e, e ∈ concat pages → eItem e ≠ None) →
  ∃ msgs body, handleAXFR w req q s = (tt, counted (push msgs s))
  ∧ mAnswer <$> msgs = [soa (hd_ s)] :: body ++ [[soa (hd_ s)]]
  ∧ concat body ≡ₚ table_rrs (hd_ s) (view (store (hd_ s)))
  ∧ Forall (fits axfrMaxBytes) body.
Proof.
  intros Hw Ht Hq Hl Hn. rewrite (handleAXFR_tcp w req q s full_reader pages) by (done || apply reader_full).
  unfold written. rewrite write_all_healthy by done. eexists _, _. split; [reflexivity|].
  rewrite tmsg_answers. split; [reflexivity|]. rewrite body_batches_concat. split.
  - by apply pages_table.
  - apply body_batches_fit.
Qed.

(** C13. An incremental transfer over TCP replays the journal: between two SOAs,
    the difference sequences of exactly the deltas newer than the client's
    serial, oldest first; when the journal does not reach back it is a full
    transfer instead. *)
Theorem ixfr_replays w req q s pages hdr n m since a b c d log base hist :
  healthy w → network w = tcp → EqualFold (qName q) (cZone (cfg (hd_ s))) = true →
  List_ full_reader (store (hd_ s)) = (pages, None) → (∀ e, e ∈ concat pages → eItem e ≠ None) →
  changelog (hd_ s) = Some log → log_repr log base hist → 0 ≤ base →
  serial (hd_ s) = base + Z.of_nat (length hist) → serial (hd_ s) < 2 ^ 32 →
  mNs req = [RR_SOA hdr n m since a b c d] → 0 ≤ since < serial (hd_ s) →
  ∃ msgs body, handleIXFR w req q s = (tt, counted (push msgs s))
  ∧ mAnswer <$> msgs = [soa (hd_ s)] :: body ++ [[soa (hd_ s)]]
  ∧ Forall (fits axfrMaxBytes) body
  ∧ ((base ≤ since
      ∧ concat body = flat_map (λ dl, [soa_at (hd_ s) (dSerial dl - 1)] ++ dRemoved dl
                                     ++ [soa_at (hd_ s) (dSerial dl)] ++ dAdded dl)
                        (drop (Z.to_nat (since - base)) hist))
     ∨ (Deltas since log = (None, false)
        ∧ concat body ≡ₚ table_rrs (hd_ s) (view (store (hd_ s))))).
Proof.
  intros Hw Ht Hq Hl Hnil Hc Hr Hb Hs Hlt Hns Hsi.
  rewrite (handleIXFR_tcp w req q s full_reader pages hdr n m since a b c d)
    by (done || apply reader_full || lia).
  unfold written. rewrite write_all_healthy by done. eexists _, _. split; [reflexivity|].
  rewrite tmsg_answers. split; [reflexivity|]. split; [apply body_batches_fit|].
  rewrite body_batches_concat. unfold history. rewrite Hc.
  destruct (log_deltas log base hist since Hr) as [E|[Hbs E]]; [lia..| |]; rewrite E; cbn [fst].
  - right. split; [done|]. by apply pages_table.
  - left. split; [lia|]. apply flat_map_ext_elem. intros dl [i Hi]%list_elem_of_lookup.
    rewrite lookup_drop in Hi. pose proof (log_consecutive _ _ _ Hr _ _ Hi) as Hd.
    apply lookup_lt_Some in Hi. unfold difference. rewrite u32_small by lia. done.
Qed.
End Full.

(** ** Witnesses *)

Definition demo_pages : list (list Entry) := (Sample.List Sample.demo_store).1.
Definition axfr : Msg := Demo.transfer TypeAXFR [].
Definition client_soa (since : Z) : RR := RR_SOA (mkHdr demo_zone TypeSOA ClassINET 0) [] [] since 0 0 0 0.
Definition ixfr (since : Z) : Msg := Demo.transfer TypeIXFR [client_soa since].
Definition ask (t : Z) : Question := mkQuestion demo_zone t ClassINET.

(** The demo server one write later. *)
Definition later : Demo.S :=
  Demo.start (set_serial 101 (set_changelog (Some MemChangeLog.one_record) Demo.handler)).

Lemma demo_pages_items : ∀ e, e ∈ concat demo_pages → eItem e ≠ None.
Proof.
  assert (forallb (λ e, negb (is_none (eItem e))) (concat demo_pages) = true) as H by (vm_compute; reflexivity).
  rewrite forallb_forall in H. intros e He%list_elem_of_In%H. by destruct (eItem e).
Qed.

Lemma tcp_healthy : healthy Demo.tcp.
Proof. by intros n. Qed.

(** The second write fails. *)
Definition failing : Conn := mkConn Transfer.tcp None (λ n, if (n =? 1)%nat then Some Canceled else None) 0.

Lemma transfer_stops_at_failure_witness :
  ∃ body ok ms, concat body = flat_map (entry_rrs (hd_ Demo.srv)) (concat demo_pages)
  ∧ write_all failing (length (sent Demo.srv))
      (tmsg (hd_ Demo.srv) failing axfr <$> [soa (hd_ Demo.srv)] :: body ++ [[soa (hd_ Demo.srv)]]) = (ok, ms)
  ∧ handleAXFR failing axfr (ask TypeAXFR) Demo.srv = (tt, (if ok : bool then counted else id) (push ms Demo.srv)).
Proof.
  apply (transfer_stops_at_failure failing axfr (ask TypeAXFR) Demo.srv Sample.sample_reader demo_pages);
    [vm_compute; reflexivity|reflexivity|reflexivity|vm_compute; reflexivity].
Defined.

Lemma ixfr_up_to_date_witness :
  ∃ reply, handleIXFR Demo.tcp (ixfr 100) (ask TypeIXFR) Demo.srv = (tt, push [reply] Demo.srv)
  ∧ mAnswer reply = [soa (hd_ Demo.srv)].
Proof.
  apply (ixfr_up_to_date Demo.tcp (ixfr 100) (ask TypeIXFR) Demo.srv _ _ _ 100 _ _ _ _ eq_refl);
    [vm_compute; discriminate|vm_compute; reflexivity].
Defined.

Lemma axfr_complete_witness :
  ∃ msgs body, handleAXFR Demo.tcp axfr (ask TypeAXFR) Demo.srv = (tt, counted (push msgs Demo.srv))
  ∧ concat body ≡ₚ table_rrs Demo.handler (view Sample.demo_store) ∧ Forall (fits axfrMaxBytes) body.
Proof.
  destruct (axfr_complete Demo.tcp axfr (ask TypeAXFR) Demo.srv demo_pages) as (msgs & body & H1 & _ & H2 & H3);
    [apply tcp_healthy|vm_compute; reflexivity..|apply demo_pages_items|].
  exists msgs, body. split; [exact H1|]. split; [exact H2|exact H3].
Defined.

Lemma ixfr_replays_witness :
  ∃ msgs body, handleIXFR Demo.tcp (ixfr 100) (ask TypeIXFR) later = (tt, counted (push msgs later))
  ∧ mAnswer <$> msgs = [soa (hd_ later)] :: body ++ [[soa (hd_ later)]].
Proof.
  destruct (ixfr_replays Demo.tcp (ixfr 100) (ask TypeIXFR) later demo_pages (mkHdr demo_zone TypeSOA ClassINET 0)
              [] [] 100 0 0 0 0 MemChangeLog.one_record 100 [mkDelta 101 [] []])
    as (msgs & body & H1 & H2 & _);
    [apply tcp_healthy|vm_compute; reflexivity..|apply demo_pages_items|reflexivity
    |apply MemChangeLog.one_record_repr|lia|reflexivity|vm_compute; reflexivity|reflexivity
    |change (serial (hd_ later)) with 101; lia|].
  exists msgs, body. split; [exact H1|exact H2].
Defined.
