(* ===== verification/ServerSpec.v ===== *)
(** * Correctness of dispatch

    Which requests can change the zone, what an unauthenticated client can
    learn, the size of replies and the messages [acceptFunc] admits. *)

From S2P Require Import Prelude GoStrings Json Names Dns Journal Store Handler HandlerSpec Update UpdateSpec UpdateEffect Transfer TransferSpec Server Demo.

Create HintDb reads.

Section ReadOnly.
Context `{UT : UnicodeTables, D : DnsLib} {W L : Type} `{ST : !Store W, CL : !ChangeLog L}.
Implicit Types (h : Handler W L) (s : Srv W L).

(** ** Operations that do not write

    They count, send messages, and leave the rest of the server alone. *)

Definition reads {A} (m : M W L A) : Prop :=
  ∀ s, ∃ mt ms, (m s).2 = mkSrv (set_metrics mt (hd_ s)) (sent s ++ ms) (notified s).

Lemma set_metrics_same h : set_metrics (metrics h) h = h.
Proof. by destruct h. Qed.

Lemma reads_id {A} (m : M W L A) : (∀ s, (m s).2 = s) → reads m.
Proof. intros H s. exists (metrics (hd_ s)), []. rewrite H, set_metrics_same, app_nil_r. by destruct s. Qed.

Lemma reads_ret {A} (a : A) : reads (ret a).
Proof. by apply reads_id. Qed.
Lemma reads_get_h : reads (@get_h W L).
Proof. by apply reads_id. Qed.
Lemma reads_count c : reads (@count W L c).
Proof. intros s. eexists _, []. unfold count. cbn. by rewrite app_nil_r. Qed.
Lemma reads_WriteMsg w m : reads (@WriteMsg W L w m).
Proof. intros s. exists (metrics (hd_ s)), [m]. unfold WriteMsg. cbn. by rewrite set_metrics_same. Qed.

Lemma reads_bind {A B} (m : M W L A) (f : A → M W L B) : reads m → (∀ a, reads (f a)) → reads (bind m f).
Proof.
  intros Hm Hf s. unfold bind. destruct (Hm s) as (mt & ms & E). destruct (m s) as [a s1]. cbn in E. subst s1.
  destruct (Hf a (mkSrv (set_metrics mt (hd_ s)) (sent s ++ ms) (notified s))) as (mt' & ms' & ->).
  exists mt', (ms ++ ms'). cbn. by rewrite app_assoc.
Qed.

#[local] Hint Resolve reads_ret reads_get_h reads_count reads_WriteMsg : reads.

(** Walk through a program's binds and branches. *)
Ltac reads :=
  repeat first
    [ solve [auto with reads]
    | apply reads_bind; [|intros ?]
    | match goal with |- reads (match ?x with _ => _ end) => destruct x end ].

Lemma reads_refuse w req : reads (@refuse _ W L w req).
Proof. unfold refuse. reads. Qed.
Lemma reads_send w req rrs : reads (@send _ W L w req rrs).
Proof. unfold send. reads. Qed.
#[local] Hint Resolve reads_refuse reads_send : reads.

Lemma reads_send_all w req bs : reads (@send_all _ W L w req bs).
Proof. induction bs; cbn [send_all]; reads. Qed.
#[local] Hint Resolve reads_send_all : reads.

Lemma reads_send_deltas w req cap ds : reads (@send_deltas _ W L w req cap ds).
Proof. induction ds; cbn [send_deltas]; reads. Qed.

Lemma reads_stream_rrs w req cap rrs : ∀ buf len, reads (@stream_rrs _ W L w req cap buf len rrs).
Proof. induction rrs; intros; cbn [stream_rrs]; reads. Qed.
#[local] Hint Resolve reads_send_deltas reads_stream_rrs : reads.

Lemma reads_stream_entries w req cap es : ∀ buf len, reads (@stream_entries _ _ W L w req cap buf len es).
Proof. induction es; intros; cbn [stream_entries]; reads. Qed.
#[local] Hint Resolve reads_stream_entries : reads.

Lemma reads_stream_pages w req cap ps : ∀ buf len, reads (@stream_pages _ _ W L w req cap buf len ps).
Proof. induction ps; intros; cbn [stream_pages]; reads. Qed.
#[local] Hint Resolve reads_stream_pages : reads.

Lemma reads_stream_full w req cap r : reads (@stream_full _ _ W L w req cap r).
Proof. unfold stream_full. reads. Qed.
#[local] Hint Resolve reads_stream_full : reads.

Lemma reads_streamZone w req q ds : reads (streamZone (W:=W) (L:=L) w req q ds).
Proof. unfold streamZone. reads. Qed.
#[local] Hint Resolve reads_streamZone : reads.

Lemma reads_handleAXFR w req q : reads (handleAXFR (W:=W) (L:=L) w req q).
Proof. unfold handleAXFR. reads. Qed.

Lemma reads_handleIXFR w req q : reads (handleIXFR (W:=W) (L:=L) w req q).
Proof. unfold handleIXFR, reply_soa. reads. Qed.

Lemma reads_serveQuery w req q : reads (serveQuery (W:=W) (L:=L) w req q).
Proof. unfold serveQuery. reads. Qed.
#[local] Hint Resolve reads_handleAXFR reads_handleIXFR reads_serveQuery : reads.

Lemma handleUpdate_invalid w req s : tsigValid (hd_ s) w req = false →
  handleUpdate w req s = (tt, mkSrv (set_metrics (bump CRefused (metrics (hd_ s))) (hd_ s))
    (sent s ++ [SetRcode new_Msg req RcodeRefused]) (notified s)).
Proof. intros HV. unfold handleUpdate, bind, get_h, WriteMsg, ret, count. by rewrite HV. Qed.

(** [ServeDNS] after the counter. *)
Definition serve (w : Conn) (req : Msg) : M W L unit :=
  h <-- get_h;
  match mQuestion req with
  | [] => HandleFailed w req
  | q :: _ =>
      if negb (mOpcode req =? OpcodeQuery) then
        match opcodeExtensions (mOpcode req) with
        | Some ext => ext w req
        | None => HandleFailed w req
        end
      else if negb (authOK h w req) then refused_reply w req
      else
        match queryExtensions (qType q) with
        | Some ext => if negb (tsigValid h w req) then refuse w req else ext w req q
        | None => serveQuery w req q
        end
  end.

Definition queried (s : Srv W L) : Srv W L :=
  mkSrv (set_metrics (bump CQueries (metrics (hd_ s))) (hd_ s)) (sent s) (notified s).

Lemma ServeDNS_serve w req s : ServeDNS w req s = serve w req (queried s).
Proof. reflexivity. Qed.

Lemma reads_queryExtensions t ext w req q : queryExtensions (W:=W) (L:=L) t = Some ext → reads (ext w req q).
Proof.
  unfold queryExtensions. destruct (_ =? _); [intros [= <-]; auto with reads|].
  destruct (_ =? _); [intros [= <-]; auto with reads|done].
Qed.

Lemma serve_reads w req s : mOpcode req ≠ OpcodeUpdate ∨ tsigValid (hd_ s) w req = false →
  ∃ mt ms, (serve w req s).2 = mkSrv (set_metrics mt (hd_ s)) (sent s ++ ms) (notified s).
Proof.
  intros Hw. assert (reads (HandleFailed (W:=W) (L:=L) w req)) as Hf by (unfold HandleFailed; reads).
  assert (reads (refused_reply (W:=W) (L:=L) w req)) as Hr by (unfold refused_reply; reads).
  unfold serve, bind, get_h. destruct (mQuestion req) as [|q rest]; [apply Hf|].
  destruct (mOpcode req =? OpcodeQuery) eqn:Hop; cbn [negb]; go_bool.
  - destruct (negb (authOK _ _ _)); [apply Hr|].
    destruct (queryExtensions (qType q)) as [ext|] eqn:He; [|apply reads_serveQuery].
    destruct (negb (tsigValid _ _ _)); [apply reads_refuse|]. by eapply reads_queryExtensions.
  - unfold opcodeExtensions. destruct (mOpcode req =? OpcodeUpdate) eqn:Hu; [|apply Hf]. go_bool.
    destruct Hw as [?|Hw]; [done|]. rewrite handleUpdate_invalid by done. eexists _, _. reflexivity.
Qed.

(** ** Unauthenticated clients *)

Context `{!DnsLaws D}.

Lemma tsigValid_metrics h mt w req : tsigValid (set_metrics mt h) w req = tsigValid h w req.
Proof. reflexivity. Qed.

(** The requests that need a TSIG. *)
Definition needs_tsig h (req : Msg) (q : Question) : Prop :=
  authRequired h = true ∨ mOpcode req ≠ OpcodeQuery ∨ qType q = TypeAXFR ∨ qType q = TypeIXFR.

(** A reply that carries no records. *)
Definition empty_refusal (req m : Msg) : Prop :=
  mAnswer m = [] ∧ mNs m = []
  ∧ (mRcode m = RcodeRefused
     ∨ (mOpcode req ≠ OpcodeQuery ∧ mOpcode req ≠ OpcodeUpdate ∧ mRcode m = RcodeServerFailure)).

Lemma empty_refused req : empty_refusal req (SetRcode new_Msg req RcodeRefused).
Proof. unfold empty_refusal. autorewrite with dns. cbn. autorewrite with dns. auto. Qed.

Lemma refuse_invalid w req s : tsigValid (hd_ s) w req = false →
  refuse w req s = (tt, mkSrv (set_metrics (bump CRefused (metrics (hd_ s))) (hd_ s))
    (sent s ++ [SetRcode new_Msg req RcodeRefused]) (notified s)).
Proof. intros HV. unfold refuse, bind, get_h, WriteMsg, count. by rewrite HV. Qed.

Lemma serve_unauthenticated w req s q rest :
  mQuestion req = q :: rest → tsigValid (hd_ s) w req = false → needs_tsig (hd_ s) req q →
  ∃ m mt, serve w req s = (tt, mkSrv (set_metrics mt (hd_ s)) (sent s ++ [m]) (notified s))
  ∧ empty_refusal req m.
Proof.
  intros Hq HV Hn. unfold serve, bind, get_h. rewrite Hq.
  destruct (mOpcode req =? OpcodeQuery) eqn:Hop; cbn [negb]; go_bool.
  - assert (empty_refusal req (SetRcode new_Msg req RcodeRefused)) as He by apply empty_refused.
    destruct (authOK (hd_ s) w req) eqn:Hok; cbn [negb].
    + assert (qType q = TypeAXFR ∨ qType q = TypeIXFR) as Ht.
      { destruct Hn as [Ha|[?|?]]; [|done..]. unfold authOK in Hok. rewrite Ha in Hok. cbn in Hok. congruence. }
      assert (∃ ext, queryExtensions (W:=W) (L:=L) (qType q) = Some ext) as [ext ->]
        by (destruct Ht as [-> | ->]; eexists; reflexivity).
      rewrite HV. cbn [negb]. rewrite refuse_invalid by done. eauto.
    + unfold refused_reply, bind, count, WriteMsg, ret. eauto.
  - unfold opcodeExtensions. destruct (mOpcode req =? OpcodeUpdate) eqn:Hu; go_bool.
    + rewrite handleUpdate_invalid by done. eexists _, _. split; [done|apply empty_refused].
    + unfold HandleFailed, bind, WriteMsg, ret. exists (failure_reply req), (metrics (hd_ s)).
      rewrite set_metrics_same. split; [done|]. unfold empty_refusal. autorewrite with dns. auto 10.
Qed.

(** ** The reply to an ordinary query *)

Definition full_reply h (w : Conn) (req : Msg) (q : Question) : Msg :=
  sign_response h w req (echo_edns0 req (buildResponse h req q)).

Definition count_if (b : bool) (c : counter) (mt : Metrics) : Metrics := if b then bump c mt else mt.

Lemma serveQuery_reply w req q s :
  let h := hd_ s in
  let full := full_reply h w req q in
  let big := max_size w req <? MsgLen full in
  serveQuery w req q s =
  (tt, mkSrv (set_metrics (count_if big CTruncated
                (count_if (mRcode (buildResponse h req q) =? RcodeNameError) CNXDomain (metrics h))) h)
         (sent s ++ [setupReplyTsig h w req (if big then Truncate full (max_size w req) else full)])
         (notified s)).
Proof.
  cbv zeta. unfold serveQuery, bind, get_h, WriteMsg, ret, count. fold (full_reply (hd_ s) w req q).
  destruct (mRcode _ =? _); destruct (_ <? _) eqn:E; fold (full_reply (hd_ s) w req q); rewrite ?E; cbn;
    rewrite ?E, ?set_metrics_same; reflexivity.
Qed.

Lemma max_size_min w req : 512 ≤ max_size w req.
Proof.
  unfold max_size, MaxMsgSize, udpDefaultSize. destruct (bool_decide _); [|lia].
  destruct (IsEdns0 req) as [[size d]|]; [|lia]. destruct (Z.ltb_spec 512 size); lia.
Qed.

(** ** Transfers away from TCP *)

(** One message with at most the SOA. *)
Definition one_small_reply (w : Conn) (s s' : Srv W L) : Prop :=
  ∃ m, sent s' = sent s ++ [m] ∧ (mAnswer m = [] ∨ mAnswer m = [soa (hd_ s)]) ∧ mNs m = [].

Lemma refuse_small w req s : one_small_reply w s (refuse w req s).2.
Proof.
  unfold refuse, bind, get_h, WriteMsg, count, one_small_reply. cbn. eexists. split; [done|].
  destruct (tsigValid _ _ _); autorewrite with dns; cbn; autorewrite with dns; auto.
Qed.

Lemma reply_soa_small w req s : one_small_reply w s (reply_soa w req s).2.
Proof.
  unfold reply_soa, bind, get_h, WriteMsg, ret, one_small_reply. cbn. eexists. split; [done|].
  autorewrite with dns. cbn. autorewrite with dns. auto.
Qed.

Lemma udp_transfer_small w req q s ext :
  network w ≠ Transfer.tcp → queryExtensions (qType q) = Some ext →
  one_small_reply w s (ext w req q s).2.
Proof.
  intros Hn He. unfold queryExtensions in He.
  destruct (qType q =? TypeAXFR) eqn:Ha; [|destruct (qType q =? TypeIXFR); [|done]]; injection He as <-.
  - unfold handleAXFR, bind at 1, get_h. destruct (negb _); [apply refuse_small|].
    unfold streamZone. rewrite Ha, (bool_decide_false _ Hn). cbn [negb andb].
    pose proof (refuse_small w req s) as H. unfold bind, ret. by destruct (refuse w req s).
  - unfold handleIXFR, bind at 1, get_h.
    destruct (mNs req) as [|[| | | | | | | | | |] [|]]; try apply refuse_small.
    destruct (negb _); [apply refuse_small|]. destruct (_ <=? _); [apply reply_soa_small|].
    rewrite (bool_decide_false _ Hn). apply reply_soa_small.
Qed.

(** ** Properties *)

(** C10. Only an authenticated UPDATE changes the zone: every other message, of
    any opcode, type and transport, leaves store, serial, journal,
    configuration and notifications alone; it can only count and send. *)
Theorem only_signed_updates_write w req s s' :
  mOpcode req ≠ OpcodeUpdate ∨ tsigValid (hd_ s) w req = false → ServeDNS w req s = (tt, s') →
  ∃ mt ms, s' = mkSrv (set_metrics mt (hd_ s)) (sent s ++ ms) (notified s).
Proof.
  intros Hw Hs. destruct (serve_reads w req (queried s) Hw) as (mt & ms & H).
  exists mt, ms. rewrite <- ServeDNS_serve, Hs in H. exact H.
Qed.

(** C11. A request without a valid TSIG that needs one, which is every request
    under required authentication, every opcode but QUERY and every zone
    transfer, gets a single message without records, REFUSED for queries and
    updates, and changes counters only. *)
Theorem unauthenticated_learns_nothing w req s q rest :
  mQuestion req = q :: rest → tsigValid (hd_ s) w req = false → needs_tsig (hd_ s) req q →
  ∃ m mt, ServeDNS w req s = (tt, mkSrv (set_metrics mt (hd_ s)) (sent s ++ [m]) (notified s))
  ∧ empty_refusal req m.
Proof.
  intros Hq HV Hn. rewrite ServeDNS_serve.
  exact (serve_unauthenticated w req (queried s) q rest Hq HV Hn).
Qed.

(** No table leaves over UDP: a transfer request on any transport but TCP is
    answered with one message that holds the SOA at most, authenticated or
    not. *)
Theorem no_transfer_over_udp w req s q rest :
  mQuestion req = q :: rest → mOpcode req = OpcodeQuery → qType q = TypeAXFR ∨ qType q = TypeIXFR →
  network w ≠ Transfer.tcp →
  ∃ m, sent (ServeDNS w req s).2 = sent s ++ [m]
  ∧ (mAnswer m = [] ∨ mAnswer m = [soa (hd_ s)]) ∧ mNs m = [].
Proof.
  intros Hq Hop Ht Hn. rewrite ServeDNS_serve. unfold serve, bind, get_h. rewrite Hq, Hop.
  change (negb (OpcodeQuery =? OpcodeQuery)) with false. cbn iota.
  assert (∃ ext, queryExtensions (W:=W) (L:=L) (qType q) = Some ext) as [ext He]
    by (destruct Ht as [-> | ->]; eexists; reflexivity).
  destruct (negb (authOK _ _ _)).
  - unfold refused_reply, bind, count, WriteMsg, ret. cbn. eexists. split; [done|].
    autorewrite with dns. cbn. autorewrite with dns. auto.
  - rewrite He. destruct (negb (tsigValid _ _ _)); [apply (refuse_small w req (queried s))|].
    exact (udp_transfer_small w req q (queried s) ext Hn He).
Qed.

(** C22. An ordinary query gets exactly one reply: the response to the query,
    with the OPT echoed and signed on demand, shrunk to the client's limit (at
    least 512 bytes over UDP) before the TSIG is added. *)
Theorem query_reply_fits w req s q rest :
  mQuestion req = q :: rest → mOpcode req = OpcodeQuery → authOK (hd_ s) w req = true →
  qType q ≠ TypeAXFR → qType q ≠ TypeIXFR →
  let h := hd_ (queried s) in
  let full := full_reply h w req q in
  MsgLen (bare full) ≤ MinMsgSize →
  ∃ m s', ServeDNS w req s = (tt, s')
  ∧ sent s' = sent s ++ [setupReplyTsig h w req m]
  ∧ MsgLen m ≤ max_size w req
  ∧ (MsgLen full ≤ max_size w req → m = full)
  ∧ Truncated (metrics (hd_ s')) =
      (if max_size w req <? MsgLen full then i64 (Truncated (metrics (hd_ s)) + 1)
       else Truncated (metrics (hd_ s))).
Proof.
  intros Hq Hop Hok Ha Hi h full Hb. rewrite ServeDNS_serve. unfold serve, bind, get_h.
  rewrite Hq, Hop. change (negb (OpcodeQuery =? OpcodeQuery)) with false. cbn iota.
  change (authOK (hd_ (queried s)) w req) with (authOK (hd_ s) w req). rewrite Hok. cbn [negb].
  unfold queryExtensions. rewrite (proj2 (Z.eqb_neq _ _) Ha), (proj2 (Z.eqb_neq _ _) Hi).
  rewrite serveQuery_reply. fold h. fold full. cbv zeta.
  eexists _, _. split; [reflexivity|]. cbn [sent hd_]. split; [reflexivity|].
  pose proof (max_size_min w req) as Hm. unfold MinMsgSize in *.
  destruct (Z.ltb_spec (max_size w req) (MsgLen full)) as [Hlt|Hle].
  - split_and!; [by apply Truncate_size|lia|]. cbn. destruct (_ =? RcodeNameError); by destruct (metrics (hd_ s)).
  - split_and!; [done|done|]. cbn. destruct (_ =? RcodeNameError); by destruct (metrics (hd_ s)).
Qed.
End ReadOnly.

(** *** Which messages are parsed *)

(** A message reaches the handler exactly when it is a request, carries one
    question and at most two additional records, and is an UPDATE, or a QUERY
    with at most one authority record, or a NOTIFY that also has at most one
    answer. *)
Theorem acceptFunc_exact dh :
  let opcode := Z.land (Z.shiftr (Bits dh) 11) 15 in
  acceptFunc dh = MsgAccept ↔
  Z.testbit (Bits dh) 15 = false ∧ Qdcount dh = 1 ∧ Arcount dh ≤ 2
  ∧ (opcode = OpcodeUpdate
     ∨ (opcode = OpcodeQuery ∧ Nscount dh ≤ 1)
     ∨ (opcode = OpcodeNotify ∧ Nscount dh ≤ 1 ∧ Ancount dh ≤ 1)).
Proof.
  intros opcode. unfold acceptFunc. fold opcode. cbv zeta.
  assert (Z.land (Bits dh) (Z.shiftl 1 15) =? 0 = negb (Z.testbit (Bits dh) 15)) as ->.
  { rewrite Z.shiftl_1_l, Z.land_comm. destruct (Z.testbit (Bits dh) 15) eqn:E.
    - apply Z.eqb_neq. intros H. apply (f_equal (λ z, Z.testbit z 15)) in H.
      rewrite Z.land_spec, E, Z.pow2_bits_true, Z.bits_0 in H by lia. done.
    - apply Z.eqb_eq, Z.bits_inj_0. intros n. rewrite Z.land_spec.
      destruct (decide (n = 15)) as [->|Hn]; [by rewrite E, andb_false_r|].
      by rewrite Z.pow2_bits_false. }
  rewrite negb_involutive. unfold OpcodeUpdate, OpcodeQuery, OpcodeNotify.
  destruct (Z.testbit (Bits dh) 15); [split; [done|by intros [? _]]|].
  destruct (opcode =? 5) eqn:E5; destruct (opcode =? 0) eqn:E0; destruct (opcode =? 4) eqn:E4;
    cbn [negb andb]; go_bool; rewrite ?andb_false_r, ?andb_true_r;
    destruct (Qdcount dh =? 1) eqn:Hq; cbn [negb orb]; go_bool;
    repeat match goal with |- context [?a <? ?b] => destruct (Z.ltb_spec a b) end;
    (split; [try discriminate|try reflexivity; intros; exfalso]); intros; lia.
Qed.

(** ** Witnesses *)

Definition alice_query : Msg := Demo.query (qName alice) TypeTXT.

Lemma only_signed_updates_write_witness :
  ∃ mt ms, (ServeDNS Demo.unsigned Demo.put_dave Demo.srv).2
           = mkSrv (set_metrics mt (hd_ Demo.srv)) (sent Demo.srv ++ ms) (notified Demo.srv).
Proof.
  apply (only_signed_updates_write Demo.unsigned Demo.put_dave Demo.srv).
  - right. vm_compute. reflexivity.
  - apply run_unit.
Defined.

Lemma unauthenticated_learns_nothing_witness :
  ∃ m mt, ServeDNS Demo.unsigned axfr Demo.srv
          = (tt, mkSrv (set_metrics mt (hd_ Demo.srv)) (sent Demo.srv ++ [m]) (notified Demo.srv))
  ∧ empty_refusal axfr m.
Proof.
  apply (unauthenticated_learns_nothing Demo.unsigned axfr Demo.srv (ask TypeAXFR) []);
    [reflexivity|vm_compute; reflexivity|right; right; left; reflexivity].
Defined.

Lemma no_transfer_over_udp_witness :
  ∃ m, sent (ServeDNS Demo.udp axfr Demo.srv).2 = sent Demo.srv ++ [m]
  ∧ (mAnswer m = [] ∨ mAnswer m = [soa (hd_ Demo.srv)]) ∧ mNs m = [].
Proof.
  apply (no_transfer_over_udp Demo.udp axfr Demo.srv (ask TypeAXFR) []);
    [reflexivity|reflexivity|left; reflexivity|vm_compute; discriminate].
Defined.

Definition contract_query : Msg := Demo.query (Demo.owner_of "contract.nda-001") TypeTXT.

Lemma query_reply_fits_witness :
  ∃ m s', ServeDNS Demo.udp contract_query Demo.srv = (tt, s') ∧ MsgLen m ≤ 512
  ∧ sent s' = sent Demo.srv ++ [setupReplyTsig (hd_ (queried Demo.srv)) Demo.udp contract_query m].
Proof.
  destruct (query_reply_fits Demo.udp contract_query Demo.srv
    (mkQuestion (Demo.owner_of "contract.nda-001") TypeTXT ClassINET) []) as (m & s' & H1 & H2 & H3 & _);
    [reflexivity|reflexivity|vm_compute; reflexivity|discriminate|discriminate|vm_compute; discriminate|].
  exists m, s'. split; [exact H1|]. split; [exact H3|exact H2].
Defined.
