(* ===== verification/DohSpec.v ===== *)
(** * Correctness of DNS over HTTPS

    The two request forms are one service, it never writes, it is closed when
    queries need authentication, and where it answers, it answers what the TCP
    listener answers. *)

From S2P Require Import Prelude GoStrings Codec GoText Json Names Dns Journal Store Handler HandlerSpec Update Transfer Server Demo ServerSpec Doh.

(** ** base64url in a query string *)

Lemma symbol_url_text e c : e = Base64.URLEncoding ∨ e = Base64.RawURLEncoding → Base64.symbol e c = true →
  visible c = true ∧ c ≠ "&"%char ∧ c ≠ ";"%char ∧ c ≠ "%"%char ∧ c ≠ "+"%char.
Proof.
  intros He Hc.
  assert (implb (Base64.symbol Base64.URLEncoding c) (visible c && negb (bool_decide (c ∈ ["&"; ";"; "%"; "+"]%char))) = true) as H
    by byte_cases c.
  assert (Base64.symbol Base64.URLEncoding c = true) as Hu.
  { destruct He as [-> | ->]; [done|]. unfold Base64.symbol in *. cbn in Hc |- *.
    rewrite orb_false_r in Hc. by rewrite Hc. }
  rewrite Hu in H. cbn in H. apply andb_true_iff in H as [Hv Hn]. apply negb_true_iff, bool_decide_eq_false in Hn.
  split; [done|]. split_and!; intros ->; apply Hn; set_solver.
Qed.

Section Url.
Variables (e : Base64.encoding) (wire : str).
Hypothesis He : e = Base64.URLEncoding ∨ e = Base64.RawURLEncoding.

Let good_e : Base64.good e.
Proof. destruct He as [-> | ->]; [apply Base64.good_url|apply Base64.good_raw]. Qed.

(** Either form of base64url is read back. *)
Lemma base64URLDecode_encode : base64URLDecode (Base64.EncodeToString e wire) = Some wire.
Proof.
  unfold base64URLDecode. destruct He as [-> | ->].
  - rewrite (Base64.base64_roundtrip Base64.URLEncoding wire Base64.good_url).
    unfold Base64.DecodeString. rewrite Base64.base64_no_newlines by (apply Base64.EncodeToString_no_newline, Base64.good_url).
    by destruct (Base64.decode_raw_padded wire) as [-> | ->].
  - by rewrite (Base64.base64_roundtrip Base64.RawURLEncoding wire Base64.good_raw).
Qed.

(** The parameter arrives as it was sent. *)
Lemma dns_parameter :
  TrimSpace (Query_Get (lit "dns=" ++ Base64.EncodeToString e wire) (lit "dns")) = Base64.EncodeToString e wire.
Proof.
  pose proof (Base64.EncodeToString_symbols e wire good_e) as Hs.
  change (lit "dns=") with (lit "dns" ++ lit "="). rewrite <- app_assoc, Query_Get_only.
  - apply TrimSpace_visible. unfold visible_str. eapply Forall_impl; [exact Hs|].
    intros c Hc. by apply (symbol_url_text e c He).
  - repeat constructor.
  - done.
  - eapply Forall_impl; [exact Hs|]. intros c Hc. apply (symbol_url_text e c He Hc).
Qed.
End Url.

Section DohSpec.
Context `{UT : UnicodeTables, D : DnsLib, DW : DnsWire} {W L : Type} `{ST : !Store W, CL : !ChangeLog L}.
Implicit Types (h : Handler W L) (s : Srv W L).

(** ** Operations that only count *)

Definition counts {A} (m : M W L A) : Prop :=
  ∀ s, ∃ mt, (m s).2 = mkSrv (set_metrics mt (hd_ s)) (sent s) (notified s).

Lemma counts_id {A} (m : M W L A) : (∀ s, (m s).2 = s) → counts m.
Proof. intros H s. exists (metrics (hd_ s)). rewrite H, set_metrics_same. by destruct s. Qed.
Lemma counts_ret {A} (a : A) : counts (ret a).
Proof. by apply counts_id. Qed.
Lemma counts_get_h : counts (@get_h W L).
Proof. by apply counts_id. Qed.
Lemma counts_count c : counts (@count W L c).
Proof. intros s. eexists. reflexivity. Qed.
Lemma counts_bind {A B} (m : M W L A) (f : A → M W L B) : counts m → (∀ a, counts (f a)) → counts (bind m f).
Proof.
  intros Hm Hf s. unfold bind. destruct (Hm s) as (mt & E). destruct (m s) as [a s1]. cbn in E. subst s1.
  destruct (Hf a (mkSrv (set_metrics mt (hd_ s)) (sent s) (notified s))) as (mt' & ->). by exists mt'.
Qed.


Ltac counts :=
  repeat first
    [ solve [auto using counts_ret, counts_get_h, counts_count]
    | apply counts_bind; [|intros ?]
    | match goal with |- counts (match ?x with _ => _ end) => destruct x end ].

Lemma counts_writeDoHResponse time req : counts (writeDoHResponse time req).
Proof. unfold writeDoHResponse, doh_reply. counts. Qed.

Lemma counts_NewDoHHandler time r : counts (NewDoHHandler time r).
Proof.
  unfold NewDoHHandler, serveDoHGet, serveDoHPost.
  repeat first [apply counts_ret|apply counts_writeDoHResponse
               |match goal with |- counts (match ?x with _ => _ end) => destruct x end].
Qed.

(** The reply to an open query, as [serveQuery] builds it. *)
Lemma doh_reply_open w req q s :
  mQuestion req = [q] → mOpcode req = OpcodeQuery → authRequired (hd_ s) = false →
  let h := hd_ (queried s) in
  doh_reply (now w) req s =
  (full_reply h w req q,
   mkSrv (set_metrics (count_if (mRcode (buildResponse h req q) =? RcodeNameError) CNXDomain (metrics h)) h)
     (sent s) (notified s)).
Proof.
  intros Hq Hop Ha h. unfold doh_reply, bind at 1, get_h at 1. rewrite Hq, Hop, Ha.
  change (negb (OpcodeQuery =? OpcodeQuery) || false) with false. cbn iota.
  unfold bind, count, get_h, ret. change (hd_ (mkSrv (set_metrics (bump CQueries (metrics (hd_ s))) (hd_ s)) (sent s) (notified s))) with h.
  destruct (mRcode (buildResponse h req q) =? RcodeNameError); cbn [count_if];
    unfold full_reply, sign_response; [reflexivity|]. by rewrite set_metrics_same.
Qed.

(** ** Properties *)

Context `{!DnsLaws D}.

(** What an HTTP response gives away: nothing, or a refusal, packed. *)
Definition nothing_disclosed (resp : HttpResponse) : Prop :=
  status resp ≠ StatusOK
  ∨ ∃ m, Pack m = Ok (payload resp) ∧ mRcode m = RcodeRefused ∧ mAnswer m = [] ∧ mNs m = [] ∧ mExtra m = [].

Lemma writeDoHResponse_refused time req s :
  mOpcode req ≠ OpcodeQuery ∨ authRequired (hd_ s) = true → nothing_disclosed (writeDoHResponse time req s).1.
Proof.
  intros Hr. unfold writeDoHResponse, doh_reply, bind, get_h.
  assert (negb (mOpcode req =? OpcodeQuery) || authRequired (hd_ s) = true) as ->.
  { destruct Hr as [Hr%Z.eqb_neq | ->]; [by rewrite Hr|apply orb_true_r]. }
  cbn [ret]. unfold ret. destruct (Pack _) as [packed|e] eqn:E; [right|by left].
  eexists. split; [exact E|]. autorewrite with dns. cbn. by autorewrite with dns.
Qed.

(** C29. No HTTPS request, whatever its method, headers and body, changes the
    store, the serial, the journal or the configuration, sends a NOTIFY or a DNS
    message: only counters move; and where queries need authentication, or the
    message is no QUERY, no record is disclosed. *)
Theorem doh_read_only time r s :
  (∃ mt, (NewDoHHandler time r s).2 = mkSrv (set_metrics mt (hd_ s)) (sent s) (notified s))
  ∧ ((authRequired (hd_ s) = true ∨ ∀ wire req, Unpack wire = Ok req → mOpcode req ≠ OpcodeQuery) →
     nothing_disclosed (NewDoHHandler time r s).1).
Proof.
  split; [apply counts_NewDoHHandler|]. intros Hr.
  assert (∀ wire req, Unpack wire = Ok req → nothing_disclosed (writeDoHResponse time req s).1) as Hw.
  { intros wire req Hu. apply writeDoHResponse_refused. destruct Hr as [Hr|Hr]; [by right|left; eauto]. }
  unfold NewDoHHandler, serveDoHGet, serveDoHPost.
  repeat match goal with
  | |- nothing_disclosed (ret _ _).1 => by left
  | H : Unpack _ = Ok ?q |- nothing_disclosed (writeDoHResponse _ ?q _).1 => by eapply Hw
  | |- nothing_disclosed ((match ?x with _ => _ end) _).1 => destruct x eqn:?
  end.
Qed.

(** A message of at most 64 KiB gets the same response and has the same
    effect whether it is POSTed or sent in a GET as base64url, with or without
    padding. *)
Theorem doh_get_post_agree time get post e wire s :
  Method get = lit "GET" → (e = Base64.URLEncoding ∨ e = Base64.RawURLEncoding) →
  RawQuery get = lit "dns=" ++ Base64.EncodeToString e wire →
  Method post = lit "POST" → HasPrefix (ContentType post) dohContentType = true →
  Body post = wire → bodyErr post = None → wire ≠ [] → Z.of_nat (length wire) ≤ 65536 →
  NewDoHHandler time get s = NewDoHHandler time post s.
Proof.
  intros Hg He Hq Hp Hc Hb Hbe Hne Hlen. unfold NewDoHHandler. rewrite Hg, Hp.
  rewrite (bool_decide_true (lit "GET" = _)), (bool_decide_false (lit "POST" = lit "GET")), bool_decide_true by done.
  unfold serveDoHGet, serveDoHPost, read_limited. rewrite Hq, dns_parameter, Hc, Hb, Hbe by done. cbn [negb].
  rewrite (bool_decide_false (Base64.EncodeToString e wire = [])) by (intros E%Base64.EncodeToString_nil; done).
  rewrite base64URLDecode_encode by done. unfold dohMaxBody.
  rewrite (proj2 (Z.leb_gt _ _)), (proj2 (Z.ltb_ge _ _)), !bool_decide_false by (done || lia). reflexivity.
Qed.

(** C28. What an ordinary query gets over HTTPS is what it gets over TCP: the same
    message but for the id, which is 0, with the same effect on the handler. *)
Theorem doh_matches_dns w req q s :
  mQuestion req = [q] → mOpcode req = OpcodeQuery → authRequired (hd_ s) = false →
  qType q ≠ TypeAXFR → qType q ≠ TypeIXFR → IsTsig req = None → network w ≠ lit "udp" →
  MsgLen (full_reply (hd_ (queried s)) w req q) ≤ MaxMsgSize →
  ∃ m s', ServeDNS w req s = (tt, s') ∧ sent s' = sent s ++ [m]
  ∧ let '(resp, s'') := writeDoHResponse (now w) req s in
    hd_ s'' = hd_ s'
    ∧ match Pack (set_Id 0 m) with
      | Ok packed => status resp = StatusOK ∧ payload resp = packed
      | Err _ => status resp = StatusInternalServerError
      end.
Proof.
  intros Hq Hop Ha Hax Hix Ht Hw Hlen. rewrite ServeDNS_serve. unfold serve, bind, get_h.
  rewrite Hq, Hop. change (negb (OpcodeQuery =? OpcodeQuery)) with false. cbn iota.
  assert (authOK (hd_ (queried s)) w req = true) as -> by (unfold authOK; cbn; by rewrite Ha). cbn [negb].
  unfold queryExtensions. rewrite (proj2 (Z.eqb_neq _ _) Hax), (proj2 (Z.eqb_neq _ _) Hix), serveQuery_reply.
  set (h := hd_ (queried s)) in *. set (full := full_reply h w req q) in *. cbv zeta.
  assert (max_size w req <? MsgLen full = false) as ->.
  { apply Z.ltb_ge. unfold max_size. by rewrite bool_decide_false. }
  assert (setupReplyTsig h w req full = full) as -> by (unfold setupReplyTsig; rewrite Ht; by destruct (is_none _)).
  eexists full, _. split; [reflexivity|]. split; [reflexivity|].
  unfold writeDoHResponse, bind at 1. rewrite (doh_reply_open w req q s) by done. fold h. fold full.
  cbn [bind get_h ret]. unfold bind, get_h, ret. split; [done|]. by destruct (Pack (set_Id 0 full)).
Qed.
End DohSpec.

(** ** Witnesses *)

(** A wire format of one message. *)
Definition ref_wire : DnsWire := {|
  Unpack wire := if bool_decide (wire = lit "query") then Ok contract_query else Err (EMsg (lit "dns: bad rdata") wire);
  Pack m := Ok (int_str (mId m) ++ lit "/" ++ int_str (mRcode m)) |}.

Definition doh_get : HttpRequest :=
  mkHttpRequest (lit "GET") [] (lit "dns=" ++ Base64.EncodeToString Base64.URLEncoding (lit "query")) [] None.
Definition doh_post : HttpRequest := mkHttpRequest (lit "POST") dohContentType [] (lit "query") None.

Definition closed_srv : Demo.S := Demo.start (WithAuthRequired Demo.handler).

Lemma doh_read_only_witness :
  @nothing_disclosed ref_wire (@NewDoHHandler _ _ ref_wire _ _ _ 5 doh_post closed_srv).1.
Proof. apply (@doh_read_only _ _ ref_wire _ _ _ _ 5 doh_post closed_srv). left. reflexivity. Defined.

Lemma doh_get_post_agree_witness :
  @NewDoHHandler _ _ ref_wire _ _ _ 5 doh_get Demo.srv = @NewDoHHandler _ _ ref_wire _ _ _ 5 doh_post Demo.srv.
Proof.
  apply (@doh_get_post_agree _ _ ref_wire _ _ _ 5 doh_get doh_post Base64.URLEncoding (lit "query") Demo.srv).
  - reflexivity.
  - left. reflexivity.
  - reflexivity.
  - reflexivity.
  - reflexivity.
  - reflexivity.
  - reflexivity.
  - discriminate.
  - vm_compute. discriminate.
Defined.

Lemma doh_matches_dns_witness :
  ∃ m s', ServeDNS Demo.tcp contract_query Demo.srv = (tt, s') ∧ sent s' = sent Demo.srv ++ [m].
Proof.
  destruct (@doh_matches_dns _ _ ref_wire _ _ _ _ Demo.tcp contract_query
    (mkQuestion (Demo.owner_of "contract.nda-001") TypeTXT ClassINET) Demo.srv) as (m & s' & H1 & H2 & _).
  - reflexivity.
  - reflexivity.
  - reflexivity.
  - discriminate.
  - discriminate.
  - reflexivity.
  - discriminate.
  - vm_compute. discriminate.
  - exists m, s'. split; [exact H1|exact H2].
Defined.
