(* ===== verification/AuthSpec.v ===== *)
(** * Correctness of TSIG keys and signatures

    A TSIG verifies exactly when it is the HMAC under a configured key; the two
    forms of the key configuration are read back to the same keys. *)

From S2P Require Import Prelude GoStrings Codec GoText Names Handler Auth.

(** ** Loops that an error ends *)

Lemma fold_res_app {A B} (f : A → B → res A) l k : ∀ a,
  fold_res f a (l ++ k) = (a' <-? fold_res f a l; fold_res f a' k).
Proof. induction l as [|x l IH]; intros a; cbn; [done|]. destruct (f a x); cbn; [apply IH|done]. Qed.

(** The map of a list of entries; later ones win. *)
Definition entries_map {A} (l : list (str * A)) : gmap str A := foldl (λ m '(k, v), <[k := v]> m) ∅ l.

Lemma fold_insert_NoDup {A} (l : list (str * A)) k v : NoDup l.*1 →
  entries_map l !! k = Some v ↔ (k, v) ∈ l.
Proof.
  unfold entries_map. induction l as [|[k0 v0] l IH] using rev_ind; intros Hnd.
  - cbn [foldl]. rewrite lookup_empty. set_solver.
  - rewrite fmap_app, NoDup_app in Hnd. destruct Hnd as (Hl & Hdis & _).
    rewrite foldl_app. cbn. rewrite elem_of_app, list_elem_of_singleton.
    destruct (decide (k0 = k)) as [->|Hne].
    + rewrite lookup_insert_eq. split; [intros [= ->]; by right|]. intros [Hin|[= ->]]; [|done].
      exfalso. apply (Hdis k); [|cbn; set_solver]. apply list_elem_of_fmap. by exists (k, v).
    + rewrite lookup_insert_ne, IH by done. split; [auto|]. intros [?|[= <- _]]; done.
Qed.

(** ** Providers *)

Section Provider.
Context `{UT : UnicodeTables, HS : Hashes, TN : TsigNames}.

(** The secret of an entry. *)
Definition secret_of (e : str * str) : option (str * str) :=
  match Base64.DecodeString Base64.StdEncoding e.2 with
  | Some raw => if bool_decide (raw = []) then None else Some (CanonicalName e.1, raw)
  | None => None
  end.

Lemma add_secret_spec m e :
  match secret_of e with
  | Some (n, raw) => add_secret m e = Ok (<[n := raw]> m)
  | None => is_ok (add_secret m e) = false
  end.
Proof.
  unfold secret_of, add_secret. destruct e as [name secret]. cbn [fst snd].
  destruct (Base64.DecodeString _ _) as [raw|]; [|done]. by destruct (bool_decide (raw = [])).
Qed.

Lemma newHMACProvider_ok entries p : newHMACProvider_in entries = Ok p →
  ∃ secrets, Forall2 (λ e s, secret_of e = Some s) entries secrets ∧ keys p = entries_map secrets.
Proof.
  unfold newHMACProvider_in, entries_map. generalize (∅ : gmap str str) as m.
  revert p. induction entries as [|e entries IH]; intros p m; cbn; [intros [= <-]; by exists []|].
  pose proof (add_secret_spec m e) as He. destruct (secret_of e) as [[n raw]|] eqn:Es.
  - rewrite He. cbn. intros (secrets & Hf & Hk)%IH. exists ((n, raw) :: secrets). split; [by constructor|done].
  - by destruct (add_secret m e).
Qed.

Lemma newHMACProvider_err entries : Forall (λ e, secret_of e ≠ None) entries ↔ is_ok (newHMACProvider_in entries) = true.
Proof.
  unfold newHMACProvider_in. generalize (∅ : gmap str str) as m.
  induction entries as [|e entries IH]; intros m; cbn; [split; [done|constructor]|].
  rewrite Forall_cons. pose proof (add_secret_spec m e) as He. destruct (secret_of e) as [[n raw]|] eqn:Es.
  - rewrite He. cbn. rewrite <- IH. naive_solver.
  - split; [tauto|]. by destruct (add_secret m e).
Qed.

(** ** Properties *)

(** C30. With keys configured under names of distinct canonical form, a TSIG
    verifies exactly when its key name, in any capitalisation, is one of them,
    its algorithm is one of the four supported and its MAC is the hex form of
    the message's HMAC under that key's secret; what the provider generates, it
    verifies. *)
Theorem tsig_verify_exact entries p msg name algo mac :
  NoDup (CanonicalName <$> entries.*1) → newHMACProvider_in entries = Ok p →
  (Verify p msg name algo mac = None ↔
   ∃ n secret raw h, (n, secret) ∈ entries ∧ CanonicalName n = ToLower name
   ∧ Base64.DecodeString Base64.StdEncoding secret = Some raw ∧ raw ≠ []
   ∧ hashFor algo = Ok h ∧ Hex.DecodeString mac = Some (hmac h raw msg))
  ∧ ∀ m, Generate p msg name algo = Ok m → Verify p msg name algo (Hex.EncodeToString m) = None.
Proof.
  intros Hnd (secrets & Hf & Hk)%newHMACProvider_ok. split.
  - assert (NoDup secrets.*1) as Hnd'.
    { assert (secrets.*1 = CanonicalName <$> entries.*1) as ->; [|done]. clear -Hf.
      induction Hf as [|e s es ss Hs _ IH]; [done|]. cbn. rewrite IH. f_equal. unfold secret_of in Hs.
      destruct (Base64.DecodeString _ _) as [raw|]; [|done]. destruct (bool_decide (raw = [])); [done|]. by injection Hs as <-. }
    assert (∀ raw, keys p !! ToLower name = Some raw ↔
      ∃ n secret, (n, secret) ∈ entries ∧ CanonicalName n = ToLower name
        ∧ Base64.DecodeString Base64.StdEncoding secret = Some raw ∧ raw ≠ []) as Hkeys.
    { intros raw. rewrite Hk, fold_insert_NoDup by done. clear -Hf. split.
      - intros [i Hi]%list_elem_of_lookup. destruct (Forall2_lookup_r _ _ _ _ _ Hf Hi) as ([n secret] & He & Hs).
        exists n, secret. split; [by eapply list_elem_of_lookup_2|]. unfold secret_of in Hs. cbn [fst snd] in Hs.
        destruct (Base64.DecodeString _ _) as [raw0|]; [|done]. case_bool_decide as E; [done|]. injection Hs as -> ->. done.
      - intros (n & secret & [i Hi]%list_elem_of_lookup & Hn & Hd & Hne).
        destruct (Forall2_lookup_l _ _ _ _ _ Hf Hi) as (s & Hs & Hss). unfold secret_of in Hss. cbn [fst snd] in Hss.
        rewrite Hd, bool_decide_false in Hss by done. injection Hss as <-. rewrite Hn in Hs.
        by eapply list_elem_of_lookup_2. }
    unfold Verify, Generate. split.
    + destruct (Hex.DecodeString mac) as [m|] eqn:Em; [|done].
      destruct (keys p !! ToLower name) as [raw|] eqn:Er; [|done]. destruct (proj1 (Hkeys raw) eq_refl) as (n & secret & H1 & H2 & H3 & H4).
      destruct (hashFor algo) as [h|] eqn:Eh; cbn; [|done]. case_bool_decide as E; [|done]. intros _.
      exists n, secret, raw, h. by subst m.
    + intros (n & secret & raw & h & H1 & H2 & H3 & H4 & H5 & ->).
      assert (keys p !! ToLower name = Some raw) as -> by (apply Hkeys; eauto 10).
      rewrite H5. cbn. by rewrite bool_decide_true.
  - intros m Hm. unfold Verify. rewrite Hex.hex_roundtrip, Hm. by rewrite bool_decide_true.
Qed.

(** Two names with the same canonical form but different secrets make the
    provider depend on the iteration order of a Go map. *)
Theorem tsig_key_order_matters n1 n2 s1 s2 r1 r2 :
  CanonicalName n1 = CanonicalName n2 → n1 ≠ n2 →
  Base64.DecodeString Base64.StdEncoding s1 = Some r1 → Base64.DecodeString Base64.StdEncoding s2 = Some r2 →
  r1 ≠ [] → r2 ≠ [] → r1 ≠ r2 →
  ∃ p p', newHMACProvider_in [(n1, s1); (n2, s2)] = Ok p ∧ newHMACProvider_in [(n2, s2); (n1, s1)] = Ok p'
  ∧ keys p !! CanonicalName n1 = Some r2 ∧ keys p' !! CanonicalName n1 = Some r1.
Proof.
  intros Hc Hn H1 H2 Hn1 Hn2 Hne. unfold newHMACProvider_in. cbn [fold_res add_secret].
  rewrite H1, H2, (bool_decide_false _ Hn1), (bool_decide_false _ Hn2). cbn [res_bind].
  eexists _, _. split; [reflexivity|]. split; [reflexivity|]. cbn [keys]. rewrite Hc. by rewrite !lookup_insert_eq.
Qed.
End Provider.

(** ** Key configurations *)

Definition plain_field (s : str) : Prop := visible_str s ∧ s ≠ [].

(** Words that both forms can carry. *)
Definition plain_entry (e : str * str) : Prop :=
  plain_field e.1 ∧ plain_field e.2 ∧ ":"%char ∉ e.1 ∧ ","%char ∉ e.1 ∧ ","%char ∉ e.2
  ∧ HasPrefix e.1 (lit "#") = false.

Definition inline_form (e : str * str) : str := e.1 ++ lit ":" ++ e.2.
Definition line_form (e : str * str) : str := e.1 ++ lit " " ++ e.2.

Lemma Cut_app a b sep : sep ∉ a → Cut (a ++ sep :: b) sep = (a, b, true).
Proof.
  induction a as [|c a IH]; intros Hs; cbn; [by rewrite bool_decide_true|].
  rewrite bool_decide_false by set_solver. by rewrite IH by set_solver.
Qed.

Lemma inline_entry_plain m e : plain_entry e → inline_entry m (inline_form e) = Ok (<[e.1 := e.2]> m).
Proof.
  intros ((Hv1 & Hn1) & (Hv2 & Hn2) & Hc & _). unfold inline_entry, inline_form. cbn [app lit].
  change (lit ":" ++ e.2) with (":"%char :: e.2). rewrite Cut_app by done. cbn [negb orb].
  rewrite !bool_decide_false by done. cbn [orb]. by rewrite !TrimSpace_visible.
Qed.

Lemma visible_not_blank c : visible c = true → c ≠ chr 10.
Proof. intros H ->. discriminate H. Qed.

Lemma TrimSpace_line e : plain_entry e → TrimSpace (line_form e) = line_form e.
Proof.
  intros ((Hv1 & Hn1) & (Hv2 & Hn2) & _). unfold line_form.
  destruct e as [[|c n] s]; [done|]. cbn [fst snd] in *. apply Forall_cons in Hv1 as [Hc Hv1].
  destruct (exists_last Hn2) as (s' & d & ->). apply Forall_app in Hv2 as [_ [Hd _]%Forall_cons].
  apply (TrimSpace_ends c (n ++ lit " " ++ s') d); [done..|]. cbn. by rewrite <- !app_assoc.
Qed.

Lemma file_line_plain m e : plain_entry e → file_line m (line_form e) = Ok (<[e.1 := e.2]> m).
Proof.
  intros He. unfold file_line. rewrite (TrimSpace_line e He).
  destruct He as ((Hv1 & Hn1) & (Hv2 & Hn2) & _ & _ & _ & Hh). unfold line_form.
  rewrite bool_decide_false by (by destruct e.1). rewrite Fields_pair by done.
  assert (HasPrefix (e.1 ++ lit " " ++ e.2) (lit "#") = false) as ->; [|done].
  destruct e as [[|c n] s]; [done|]. revert Hh. unfold HasPrefix. cbn. by rewrite !take_0.
Qed.

Lemma inline_fold es : ∀ m, Forall plain_entry es →
  fold_res inline_entry m (inline_form <$> es) = Ok (foldl (λ m '(k, v), <[k := v]> m) m es).
Proof.
  induction es as [|[n s] es IH]; intros m Hp; [done|]. apply Forall_cons in Hp as [He Hes].
  cbn [fmap list_fmap fold_res]. rewrite inline_entry_plain by done. by apply IH.
Qed.

Lemma file_fold es : ∀ m, Forall plain_entry es →
  fold_res file_line m (line_form <$> es) = Ok (foldl (λ m '(k, v), <[k := v]> m) m es).
Proof.
  induction es as [|[n s] es IH]; intros m Hp; [done|]. apply Forall_cons in Hp as [He Hes].
  cbn [fmap list_fmap fold_res]. rewrite file_line_plain by done. by apply IH.
Qed.

(** What a line of the file says: an entry, or nothing for blank lines and
    comments. *)
Inductive says_line : str → option (str * str) → Prop :=
  | line_entry e : plain_entry e → says_line (line_form e) (Some e)
  | line_blank : says_line [] None
  | line_comment mid d : visible d = true → chr 10 ∉ mid → says_line (lit "#" ++ mid ++ [d]) None.

Lemma says_line_no_newline l o : says_line l o → chr 10 ∉ l.
Proof.
  intros [e ((Hv1 & _) & (Hv2 & _) & _)| |mid d Hd Hm].
  - unfold line_form, visible_str in *. rewrite Forall_forall in Hv1, Hv2. rewrite !elem_of_app.
    intros [H|[H|H]]; [by apply Hv1 in H|apply list_elem_of_singleton in H; discriminate H|by apply Hv2 in H].
  - set_solver.
  - rewrite !elem_of_app. intros [H|[H|H]]; [apply list_elem_of_singleton in H; discriminate H|done|].
    apply list_elem_of_singleton in H. by subst d.
Qed.

Lemma file_line_says m l o : says_line l o →
  file_line m l = Ok (match o with Some e => <[e.1 := e.2]> m | None => m end).
Proof.
  intros [e He| |mid d Hd Hm]; [by apply file_line_plain|done|]. unfold file_line.
  rewrite (TrimSpace_ends "#" mid d (lit "#" ++ mid ++ [d])) by done.
  rewrite bool_decide_false by done. by rewrite HasPrefix_app.
Qed.

Lemma file_says lines os : ∀ m, Forall2 says_line lines os →
  fold_res file_line m lines = Ok (foldl (λ m '(k, v), <[k := v]> m) m (omap id os)).
Proof.
  intros m H. revert m. induction H as [|l o lines os Hl _ IH]; intros m; [done|]. cbn [fold_res].
  rewrite (file_line_says m l o Hl). cbn [res_bind]. rewrite IH. by destruct o as [[k v]|].
Qed.

(** The two forms of a key configuration mean the same: an inline list of
    name:secret entries, and a file of lines "name secret" with blank lines and
    comments anywhere, are read back to the same keys, later entries winning. *)
Theorem tsig_forms_agree ReadFile path es lines os :
  es ≠ [] → Forall plain_entry es → ":"%char ∉ path →
  ReadFile path = Ok (Join lines [chr 10]) → Forall2 says_line lines os → omap id os = es →
  LoadTSIGKeys ReadFile (Join (inline_form <$> es) (lit ",")) = Ok (entries_map es)
  ∧ LoadTSIGKeys ReadFile path = Ok (entries_map es).
Proof.
  intros Hne Hes Hpath Hr Hl Ho. unfold LoadTSIGKeys, entries_map. split.
  - assert (ContainsByte (Join (inline_form <$> es) (lit ",")) ":" = true) as ->.
    { apply bool_decide_eq_true. destruct es as [|e es]; [done|].
      assert (∃ rest, Join (inline_form <$> e :: es) (lit ",") = e.1 ++ lit ":" ++ rest) as [rest ->].
      { cbn [fmap list_fmap]. unfold inline_form at 1. destruct (inline_form <$> es) as [|w ws]; [by exists e.2|].
        eexists. cbn [Join]. by rewrite <- !app_assoc. }
      rewrite !elem_of_app. right. left. by left. }
    unfold loadTSIGKeysInline. change (lit ",") with [","%char]. rewrite Split_Join; [by apply inline_fold|by destruct es|].
    apply Forall_fmap. eapply Forall_impl; [exact Hes|]. intros e (_ & _ & _ & H1 & H2 & _). cbn.
    unfold inline_form. rewrite !elem_of_app. intros [?|[H|?]]; [done| |done]. apply list_elem_of_singleton in H. discriminate H.
  - assert (ContainsByte path ":" = false) as -> by by apply bool_decide_eq_false.
    unfold loadTSIGKeyFile. rewrite Hr. cbn [res_bind]. rewrite Split_Join.
    + rewrite (file_says _ _ _ Hl). by rewrite Ho.
    + intros ->. apply Forall2_nil_inv_l in Hl as ->. by subst es.
    + clear -Hl. induction Hl as [|l o lines os H _ IH]; constructor; [by eapply says_line_no_newline|done].
Qed.

(** A specification with a colon is never looked up as a file. *)
Lemma colon_is_inline ReadFile spec : ":"%char ∈ spec → LoadTSIGKeys ReadFile spec = loadTSIGKeysInline spec.
Proof. intros H. unfold LoadTSIGKeys, ContainsByte. by rewrite bool_decide_true. Qed.

(** ** Witnesses *)

(** A hash of one byte, and names that only get their final dot. *)
Definition ref_hash : Hash := mkHash (λ s, [chr (foldr (λ c n, code c + 31 * n) 7 s)]) 4.
Definition ref_hashes : Hashes := {| sha1 := ref_hash; sha256 := ref_hash; sha384 := ref_hash; sha512 := ref_hash |}.
Definition ref_names : TsigNames :=
  {| CanonicalName s := let l := lower_byte <$> s in if HasSuffix l (lit ".") then l else l ++ lit "." |}.

#[local] Existing Instance ascii_tables.
#[local] Existing Instance ref_hashes.
#[local] Existing Instance ref_names.

Definition demo_keys : list (str * str) := [(lit "xfr-key", lit "c2VjcmV0"); (lit "UPD.example", lit "b3RoZXI=")].
Definition demo_hmac : hmacProvider :=
  match newHMACProvider_in demo_keys with Ok p => p | Err _ => mkHmacProvider ∅ end.

Lemma tsig_verify_exact_witness :
  Verify demo_hmac (lit "message") (lit "XFR-Key.") (lit "HMAC-SHA256")
    (Hex.EncodeToString (hmac ref_hash (lit "secret") (lit "message"))) = None.
Proof.
  apply (proj1 (tsig_verify_exact demo_keys demo_hmac (lit "message") (lit "XFR-Key.") (lit "HMAC-SHA256")
    (Hex.EncodeToString (hmac ref_hash (lit "secret") (lit "message")))
    ltac:(apply (bool_decide_eq_true_1 _); vm_compute; reflexivity) ltac:(vm_compute; reflexivity))).
  exists (lit "xfr-key"), (lit "c2VjcmV0"), (lit "secret"), ref_hash.
  split; [left|]. split; [vm_compute; reflexivity|]. split; [vm_compute; reflexivity|]. split; [discriminate|].
  split; [reflexivity|]. apply Hex.hex_roundtrip.
Defined.

Lemma tsig_key_order_matters_witness :
  ∃ p p', newHMACProvider_in [(lit "Key", lit "c2VjcmV0"); (lit "key.", lit "b3RoZXI=")] = Ok p
  ∧ newHMACProvider_in [(lit "key.", lit "b3RoZXI="); (lit "Key", lit "c2VjcmV0")] = Ok p'
  ∧ keys p !! lit "key." = Some (lit "other") ∧ keys p' !! lit "key." = Some (lit "secret").
Proof.
  exact (@tsig_key_order_matters ref_names (lit "Key") (lit "key.") (lit "c2VjcmV0") (lit "b3RoZXI=") (lit "secret") (lit "other")
    ltac:(vm_compute; reflexivity) ltac:(discriminate) ltac:(vm_compute; reflexivity) ltac:(vm_compute; reflexivity)
    ltac:(discriminate) ltac:(discriminate) ltac:(discriminate)).
Defined.

Definition key_file : list str :=
  [lit "# transfers"; []; lit "xfr-key c2VjcmV0"; lit "UPD.example b3RoZXI="; []].

Lemma plain_entry_check e :
  forallb visible e.1 && forallb visible e.2 && negb (bool_decide (e.1 = [])) && negb (bool_decide (e.2 = []))
  && negb (ContainsByte e.1 ":") && negb (ContainsByte e.1 ",") && negb (ContainsByte e.2 ",")
  && negb (HasPrefix e.1 (lit "#")) = true → plain_entry e.
Proof.
  rewrite !andb_true_iff, !negb_true_iff, !bool_decide_eq_false, !forallb_forall.
  intros (((((((H1 & H2) & H3) & H4) & H5) & H6) & H7) & H8). unfold plain_entry, plain_field, visible_str.
  rewrite !Forall_forall. unfold ContainsByte in *. rewrite !bool_decide_eq_false in *.
  split_and!; try done; intros x Hx%list_elem_of_In; auto.
Qed.

Lemma demo_keys_plain : Forall plain_entry demo_keys.
Proof. repeat (constructor; [apply plain_entry_check; reflexivity|]). constructor. Qed.

Lemma key_file_says : Forall2 says_line key_file [None; None; Some (lit "xfr-key", lit "c2VjcmV0");
  Some (lit "UPD.example", lit "b3RoZXI="); None].
Proof.
  pose proof demo_keys_plain as H. apply Forall_cons in H as [H1 [H2 _]%Forall_cons].
  constructor; [apply (line_comment (lit " transfer") "s"); [done|apply (bool_decide_eq_true_1 _); reflexivity]|].
  constructor; [constructor|]. constructor; [by apply (line_entry (lit "xfr-key", lit "c2VjcmV0"))|].
  constructor; [by apply (line_entry (lit "UPD.example", lit "b3RoZXI="))|]. constructor; [constructor|constructor].
Qed.

Lemma tsig_forms_agree_witness :
  let ReadFile p := if bool_decide (p = lit "keys") then Ok (Join key_file [chr 10]) else Err (EMsg (lit "no such file") p) in
  LoadTSIGKeys ReadFile (lit "xfr-key:c2VjcmV0,UPD.example:b3RoZXI=") = LoadTSIGKeys ReadFile (lit "keys").
Proof.
  intros ReadFile.
  destruct (tsig_forms_agree ReadFile (lit "keys") demo_keys key_file _ ltac:(discriminate) demo_keys_plain
    ltac:(apply (bool_decide_eq_true_1 _); reflexivity) ltac:(reflexivity) key_file_says ltac:(reflexivity)) as [H1 H2].
  change (lit "xfr-key:c2VjcmV0,UPD.example:b3RoZXI=") with (Join (inline_form <$> demo_keys) (lit ",")).
  rewrite H1, H2. reflexivity.
Defined.
