(* ===== verification/SettingsSpec.v ===== *)
(** * What a server that starts guarantees

    The settings [cmdServe] accepts, and that the handler it serves meets the
    conditions under which the other theorems speak about it. *)

From S2P Require Import Prelude GoStrings Codec GoText GoNet Names Dns Journal Store Dynamo Handler Update UpdateEffect Auth AuthSpec Settings.

#[local] Existing Instance MemChangeLog.changelog.
#[local] Existing Instance MemChangeLog.changelog_spec.

Section Spec.
Context `{UT : UnicodeTables, DN : DomainNames, AC : AwsConfig, HS : Hashes, TN : TsigNames}.

(** ** Pieces *)

Lemma nonempty_spec s : nonempty s = true ↔ s ≠ [].
Proof. unfold nonempty. by rewrite negb_true_iff, bool_decide_eq_false. Qed.

(** Precedence: the first of flag, environment, file and default that is set. *)
Lemma pick_spec a b c d : pick a b c d = firstNonEmpty [a; b; c; d].
Proof.
  unfold pick, firstNonEmpty.
  destruct (nonempty a) eqn:Ea, (nonempty b) eqn:Eb, (nonempty c) eqn:Ec, (nonempty d) eqn:Ed; cbn;
    rewrite ?Ea, ?Eb, ?Ec, ?Ed; cbn; try done;
    unfold nonempty in Ed; apply negb_false_iff, bool_decide_eq_true in Ed; done.
Qed.

Lemma finalTTL_range flag env file : 0 ≤ file < 2 ^ 32 → 1 ≤ finalTTL flag env file < 2 ^ 32.
Proof.
  intros Hf. unfold finalTTL.
  set (t := match _ with Some n => _ | None => file end).
  assert (0 ≤ t < 2 ^ 32) as Ht.
  { unfold t. destruct (if nonempty env then Atoi env else None); [|done]. destruct (0 <? z); [apply u32_range|done]. }
  assert (0 ≤ (if 0 <? flag then u32 flag else t) < 2 ^ 32) as Hc by (destruct (0 <? flag); [apply u32_range|done]).
  destruct (Z.eqb_spec (if 0 <? flag then u32 flag else t) 0); lia.
Qed.

(** Index names a query can address. *)
Definition good_gsi (k v : str) : Prop := k ≠ [] ∧ "."%char ∉ k ∧ v ≠ [].

Lemma bad_gsi_false k v : bad_gsi k v = false → good_gsi k v.
Proof. unfold bad_gsi, good_gsi, ContainsByte. rewrite !orb_false_iff, !bool_decide_eq_false. tauto. Qed.

Lemma fold_res_invariant {A B} (P : A → Prop) (f : A → B → res A) l :
  (∀ a x a', P a → f a x = Ok a' → P a') → ∀ a a', P a → fold_res f a l = Ok a' → P a'.
Proof.
  intros Hf. induction l as [|x l IH]; intros a a' Ha; cbn; [by intros [= <-]|].
  destruct (f a x) eqn:E; cbn; [|done]. eauto.
Qed.

Lemma load_gsis_good file flag gsis : load_gsis file flag = Ok gsis → map_Forall good_gsi gsis.
Proof.
  assert (∀ a x a', map_Forall good_gsi a → file_gsi a x = Ok a' → map_Forall good_gsi a') as H1.
  { intros a x a' Ha. unfold file_gsi. destruct (bad_gsi _ _) eqn:E; [done|]. intros [= <-].
    apply map_Forall_insert_2; [by apply bad_gsi_false|done]. }
  assert (∀ a x a', map_Forall good_gsi a → flag_gsi a x = Ok a' → map_Forall good_gsi a') as H2.
  { intros a x a' Ha. unfold flag_gsi. destruct (Cut x "=") as [[k v] []]; cbn; [|done].
    destruct (bad_gsi _ _) eqn:E; [done|]. intros [= <-].
    apply map_Forall_insert_2; [by apply bad_gsi_false|done]. }
  unfold load_gsis. destruct (fold_res file_gsi ∅ file) as [g|] eqn:E; cbn; [|done].
  pose proof (fold_res_invariant _ _ _ H1 _ _ (map_Forall_empty _) E) as Hg.
  destruct (nonempty flag); [|by intros [= <-]]. by apply fold_res_invariant.
Qed.

(** A provider that is built holds a key. *)
Lemma buildTSIG_keys ReadFile range spec p : (∀ m, m ≠ ∅ → range m ≠ []) →
  buildTSIG ReadFile range spec = Ok (Some p) → spec ≠ [] ∧ keys p ≠ ∅.
Proof.
  intros Hr. unfold buildTSIG. case_bool_decide as Hs; [done|].
  destruct (LoadTSIGKeys _ _) as [m|] eqn:E; cbn; [|done]. case_bool_decide as Hm; [done|].
  destruct (newHMACProvider_in (range m)) as [p'|] eqn:Ep; cbn; [|done]. intros [= <-]. split; [done|].
  apply newHMACProvider_ok in Ep as (secrets & Hf & ->). specialize (Hr m Hm).
  destruct secrets as [|e secrets] using rev_ind; [by apply Forall2_nil_inv_r in Hf|].
  unfold entries_map. rewrite foldl_app. destruct e as [k v]. cbn. apply insert_non_empty.
Qed.

(** What [configured] sets. *)
Lemma configured_fields {W} (st : W) sg p :
  let h := configured st sg p in
  store h = st ∧ cfg h = s_config p ∧ serial h = cSerial (s_config p) ∧ changelog h = Some (s_journal p)
  ∧ tsigProvider h = (hmac_provider <$> s_tsig p) ∧ authRequired h = s_authRequired p
  ∧ notifiees h = s_notifiees p ∧ signer h = sg.
Proof. cbv zeta. unfold configured. by destruct (s_tsig p), sg. Qed.

(** ** Properties *)

Variables (f : Flags) (getenv : str → str) (fc : FileConfig) (time : Z) (ReadFile : str → res str)
  (range : gmap str str → list (str * str)).

(** The zone's name as it is configured. *)
Definition zone_name : str :=
  pick (f_zone f) (getenv (lit "CONTRACTDB_ZONE")) (Server_Zone fc) (lit "contractdb.internal.").

(** The TOML decoder reads the TTL into a uint32, and a loop over a non-empty
    map runs. *)
Hypothesis file_ttl : 0 ≤ Server_TTL fc < 2 ^ 32.
Hypothesis range_all : ∀ m, m ≠ ∅ → range m ≠ [].

(** C31. A configuration that is accepted has a valid lower-case zone that is not
    the root, a positive 32-bit TTL, a parseable advertised address, index names
    that queries can address, a table unless it is a demo; and where
    authentication is required, at least one TSIG key. *)
Theorem accepted_settings p :
  cmdServe f getenv fc time ReadFile range = Ok p →
  let c := s_config p in
  cZone c = ToLower (Fqdn zone_name) ∧ IsDomainName (cZone c) = true ∧ cZone c ≠ lit "."
  ∧ 1 ≤ cTTL c < 2 ^ 32 ∧ ParseIP (cAdvertiseIP c) ≠ None ∧ map_Forall good_gsi (cGSIs c)
  ∧ match s_store p with UseDynamo st _ => cTable c ≠ [] ∧ table st = cTable c ∧ gsiAttrs st = cGSIs c
                       | UseDemo st => st = Sample.NewFullSampleStore (cGSIs c) end
  ∧ (s_authRequired p = true → ∃ k, s_tsig p = Some k ∧ keys k ≠ ∅)
  ∧ s_journal p = MemChangeLog.NewMemChangeLog (cSerial c) ∧ 0 ≤ cSerial c < 2 ^ 32
  ∧ (∀ d, s_doh p = Some d → doh_cert d ≠ [] ∧ doh_key d ≠ []).
Proof.
  unfold cmdServe. cbv zeta.
  set (zone := ToLower (Fqdn _)).
  destruct (negb (IsDomainName zone) || bool_decide (zone = lit ".")) eqn:Ez; [done|].
  destruct (negb _ && negb _) eqn:Ea; [done|]. destruct (bool_decide _ && negb _); [done|].
  set (required := bool_decide (pick (f_auth f) _ _ _ = lit "tsig-required")).
  set (listen := pick (f_doh f) _ _ _).
  set (cert := pick (f_tls_cert f) _ _ _). set (key := pick (f_tls_key f) _ _ _).
  destruct (negb (eqb (nonempty cert) (nonempty key))) eqn:Et; [done|].
  set (ip := pick [] _ _ _). destruct (is_none (ParseIP ip)) eqn:Ei; [done|].
  destruct (load_gsis _ _) as [gsis|] eqn:Eg; cbn [res_bind]; [|done].
  set (demo := f_demo f || _ || _). set (tbl := pick (f_table f) _ _ _).
  destruct (negb demo && negb (nonempty tbl)) eqn:Es; [done|].
  destruct (if demo then _ else _); cbn [res_bind]; [|done].
  destruct (buildTSIG _ _ _) as [prov|] eqn:Ep; cbn [res_bind res_wrap]; [|done].
  destruct (required && is_none prov) eqn:Er; [done|]. intros [= <-].
  cbn [s_config s_store s_authRequired s_tsig s_journal s_doh cZone cTTL cAdvertiseIP cGSIs cTable cSerial].
  apply orb_false_iff in Ez as [Ez1%negb_false_iff Ez2%bool_decide_eq_false].
  split_and!; try done.
  - by apply finalTTL_range.
  - by apply finalTTL_range.
  - intros E. by rewrite E in Ei.
  - by apply load_gsis_good in Eg.
  - destruct demo; [done|]. cbn in Es. apply negb_false_iff, nonempty_spec in Es. done.
  - intros Hreq. rewrite Hreq in Er. destruct prov as [k|]; [|done]. exists k. split; [done|].
    by apply (buildTSIG_keys ReadFile range _ k range_all) in Ep as [_ ?].
  - apply u32_range.
  - apply u32_range.
  - intros d. destruct (nonempty listen); [|done].
    destruct (nonempty cert) eqn:E1, (nonempty key) eqn:E2; cbn in Et |- *; try done; intros [= <-]; cbn.
    + by rewrite <- !nonempty_spec.
    + unfold envOr. split; intros [_ ?]%app_nil; done.
Qed.

(** C32. The handler served under accepted settings enforces the configured
    policy, and starts in a state that represents its zone with an empty history
    at its first serial, so that what is proved of represented zones holds of
    the running server. *)
Theorem served_handler_ready {W : Type} `{ST : !Store W, !FullStoreSpec W} p (st : W) sg :
  cmdServe f getenv fc time ReadFile range = Ok p →
  ascii_str (Fqdn zone_name) →
  let h := configured st sg p in
  represents h (mkZone (view st) (cSerial (s_config p)) [])
  ∧ good_zone (cZone (cfg h))
  ∧ authRequired h = s_authRequired p ∧ (authRequired h = true → is_none (tsigProvider h) = false)
  ∧ notifiees h = s_notifiees p ∧ signer h = sg.
Proof.
  intros Hp Hz. destruct (accepted_settings p Hp) as (Hn & _ & _ & _ & _ & _ & _ & Ha & Hj & Hs & _).
  destruct (configured_fields st sg p) as (H1 & H2 & H3 & H4 & H5 & H6 & H7 & H8). cbv zeta.
  split; [split|].
  - by rewrite H1.
  - rewrite H3. unfold z_serial. cbn. lia.
  - exists (s_journal p). rewrite H4, Hj. split; [done|]. by apply MemChangeLog.New_repr.
  - cbn. lia.
  - rewrite H2, H5, H6. split_and!; try done.
    + rewrite Hn. split; [|by apply ToLower_idem]. rewrite ToLower_ascii by done. by apply lower_byte_ascii_str.
    + intros (k & -> & _)%Ha. done.
Qed.
End Spec.

(** A TTL from the environment or the command line is cut to 32 bits. *)
Lemma ttl_wraps : finalTTL 0 (lit "4294967297") 60 = 1 ∧ finalTTL 0 (lit "4294967296") 60 = 5 ∧ finalTTL 4294967296 [] 60 = 5.
Proof. vm_compute. done. Qed.

(** [serve] writes no pid file by default, and [stop] reads one. *)
Lemma stop_without_pidfile (getenv : str → str) fc : Server_Pidfile fc = [] → getenv (lit "CONTRACTDB_PIDFILE") = [] →
  pick [] (getenv (lit "CONTRACTDB_PIDFILE")) (Server_Pidfile fc) [] = [] ∧ stop_pidfile fc = lit "contractdb.pid".
Proof. intros H1 H2. unfold stop_pidfile. by rewrite H1, H2. Qed.

(** The address the health check asks has a port. *)
Lemma health_addr_port target fc : ":"%char ∈ health_addr target fc.
Proof.
  unfold health_addr, ContainsByte. case_bool_decide; [done|]. rewrite elem_of_app. right. by left.
Qed.

(** ** Witnesses *)

Definition ref_domains : DomainNames :=
  {| Fqdn s := if HasSuffix s (lit ".") then s else s ++ lit "."; IsDomainName s := true |}.

Definition ref_aws : AwsConfig := {| LoadDefaultConfig := Ok tt |}.

Definition demo_flags : Flags :=
  mkFlags [] (lit "Example.TEST") [] [] 60 [] false true (lit "gsi-plan=plan, Gsi-Mail = email") (lit "tsig-required")
    (lit "key:c2VjcmV0") (lit "10.0.0.7:53") [] (lit ":8443") [] [] [].

#[local] Existing Instance ascii_tables.
#[local] Existing Instance ref_domains.
#[local] Existing Instance ref_aws.
#[local] Existing Instance ref_hashes.
#[local] Existing Instance ref_names.

Definition demo_settings : res Settings :=
  cmdServe demo_flags (λ _, []) zero_config 1700000000 (λ p, Err (EMsg (lit "no such file") p)) map_to_list.

Lemma range_all_to_list (m : gmap str str) : m ≠ ∅ → map_to_list m ≠ [].
Proof. intros Hm E. by apply map_to_list_empty_iff in E. Qed.

Lemma demo_settings_ok :
  match demo_settings with Ok p => (cTTL (s_config p) =? 60) && s_authRequired p | Err _ => false end = true.
Proof. vm_compute. reflexivity. Qed.

Lemma accepted_settings_witness :
  match demo_settings with
  | Ok p => cZone (s_config p) = lit "example.test." ∧ cTTL (s_config p) = 60 ∧ map_Forall good_gsi (cGSIs (s_config p))
            ∧ (s_authRequired p = true → ∃ k, s_tsig p = Some k ∧ keys k ≠ ∅)
  | Err _ => False
  end.
Proof.
  pose proof demo_settings_ok as Hok. destruct demo_settings as [p|e] eqn:E; [|discriminate Hok].
  apply andb_true_iff in Hok as [Httl%Z.eqb_eq Hauth].
  destruct (accepted_settings demo_flags (λ _, []) zero_config 1700000000 _ map_to_list ltac:(cbn; lia) range_all_to_list p E)
    as (Hz & _ & _ & _ & _ & Hg & _ & Ha & _).
  split; [|split].
  - rewrite Hz. vm_compute. reflexivity.
  - exact Httl.
  - split; [exact Hg|exact Ha].
Defined.

Lemma served_handler_ready_witness :
  match demo_settings with
  | Ok p => let h := configured Sample.demo_store None p in
            good_zone (cZone (cfg h)) ∧ is_none (tsigProvider h) = false
  | Err _ => False
  end.
Proof.
  pose proof demo_settings_ok as Hok. destruct demo_settings as [p|e] eqn:E; [|discriminate Hok].
  apply andb_true_iff in Hok as [Httl%Z.eqb_eq Hauth].
  destruct (@served_handler_ready _ _ _ _ _ demo_flags (λ _, []) zero_config 1700000000 _ map_to_list ltac:(cbn; lia)
    range_all_to_list _ _ Sample.sample_store_spec p Sample.demo_store None E ltac:(vm_compute; reflexivity))
    as (_ & Hz & Ha & Hreq & _).
  split; [exact Hz|]. apply Hreq. rewrite Ha. exact Hauth.
Defined.
