(* ===== verification/ClientSpec.v ===== *)
(** * The clients and the server they talk to

    The health check against the server, NOTIFY against another instance of
    the program, and the pid file between serve and stop. *)

From Stdlib Require Import DecimalString DecimalN.
From S2P Require Import Prelude GoStrings GoText GoNet Names Float64 Dns Journal Store Dynamo Handler HandlerSpec Update Transfer Server Demo ServerSpec Auth AuthSpec Settings SettingsSpec Client.

(** ** Decimal numbers read back *)

Definition chars (u : Decimal.uint) : str := lit (NilEmpty.string_of_uint u).

Lemma digits_chars u : ∀ acc, digits (chars u) (Z.pos acc) = Some (Z.pos (Pos.of_uint_acc u acc)).
Proof.
  induction u; intros acc; [reflexivity|..]; cbn -[Z.mul Z.add]; rewrite <- IHu; f_equal;
    match goal with |- context [code ?c] => let z := eval vm_compute in (code c) in change (code c) with z end; lia.
Qed.

Lemma digits_chars_0 u : digits (chars u) 0 = Some (Z.of_N (Pos.of_uint u)).
Proof. induction u; [reflexivity|exact IHu|exact (digits_chars _ _)..]. Qed.

Lemma chars_visible u : Forall (λ c, is_digit c = true) (chars u).
Proof. induction u; constructor; done. Qed.

Lemma dec_str_chars n : ∃ u, dec_str n = chars u ∧ u ≠ Decimal.Nil ∧ Pos.of_uint u = Z.to_N n.
Proof.
  pose proof (DecimalN.Unsigned.of_to (Z.to_N n)) as H. unfold dec_str.
  destruct (N.to_uint (Z.to_N n)) as [|u|u|u|u|u|u|u|u|u|u] eqn:E; [exists (Decimal.D0 Decimal.Nil)|eexists; split; [reflexivity|]..];
    (split; [done|]); try exact H. by split.
Qed.

Lemma digit_visible c : is_digit c = true → visible c = true ∧ c ≠ "-"%char ∧ c ≠ "+"%char.
Proof.
  intros H. assert (implb (is_digit c) (visible c && negb (bool_decide (c = "-"%char)) && negb (bool_decide (c = "+"%char))) = true)
    as Hc by byte_cases c.
  rewrite H in Hc. cbn in Hc. apply andb_true_iff in Hc as [[Hv H1]%andb_true_iff H2].
  apply negb_true_iff, bool_decide_eq_false in H1, H2. done.
Qed.

Lemma Atoi_int_str z : 0 ≤ z < 2 ^ 63 → Atoi (TrimSpace (int_str z)) = Some z.
Proof.
  intros Hz. unfold int_str. rewrite (proj2 (Z.ltb_ge _ _)) by lia.
  destruct (dec_str_chars z) as (u & -> & Hne & Hu). rewrite TrimSpace_visible.
  2: { eapply Forall_impl; [apply chars_visible|]. intros c Hc. by apply digit_visible. }
  unfold Atoi. pose proof (chars_visible u) as Hv. pose proof (digits_chars_0 u) as Hd. rewrite Hu, Z2N.id in Hd by lia.
  destruct (chars u) as [|c s] eqn:E; [destruct u; done|]. apply Forall_inv in Hv.
  destruct (digit_visible c Hv) as (_ & H1 & H2). rewrite !bool_decide_false, Hd by done. cbn [option_bind].
  cbn. rewrite (proj2 (Z.leb_le _ _)), (proj2 (Z.ltb_lt _ _)) by lia. done.
Qed.

(** ** The pid file *)

(** [stop] signals the process that [serve] recorded: from the pid file a
    serve with the same configuration wrote, it reads that process's number,
    and nothing else is needed of the file system. *)
Theorem stop_signals_server writable pid fc fs Kill :
  0 ≤ pid < 2 ^ 63 → Server_Pidfile fc ≠ [] → writable (Server_Pidfile fc) = true → Kill pid = None →
  let p := writePidfile writable pid (Server_Pidfile fc) (mkProcess fs []) in
  cmdStop (ReadFile_of (files p)) Kill fc = Ok pid
  ∧ files (removePidfile p) = delete (Server_Pidfile fc) fs.
Proof.
  intros Hp Hne Hw Hk p. unfold p, writePidfile. rewrite bool_decide_false, Hw by done. cbn [files]. split.
  - unfold cmdStop, stop_pidfile, firstNonEmpty, ReadFile_of. cbn [list_find].
    rewrite (decide_True _ _ (proj2 (nonempty_spec _) Hne)), lookup_insert_eq, Atoi_int_str by done. by rewrite Hk.
  - unfold removePidfile. cbn [pidfilePath files]. rewrite bool_decide_false by done. cbn. apply delete_insert_eq.
Qed.

(** A second server that is started on the same pid file by mistake, and exits
    at once as the address is in use, takes the first one's pid file with it:
    [stop] finds none. *)
Lemma second_server_removes_pidfile writable pid pid2 path fs : path ≠ [] →
  let running := files (writePidfile writable pid path (mkProcess fs [])) in
  let '(fs', _) := serve_with_pidfile writable pid2 path (λ fs, (fs, EMsg (lit "address already in use") [])) running in
  fs' !! path = None.
Proof.
  intros Hne running. unfold serve_with_pidfile. set (p := writePidfile writable pid2 path (mkProcess running [])).
  assert (pidfilePath p = path) as -> by (unfold p, writePidfile; by rewrite bool_decide_false).
  unfold removePidfile. cbn. rewrite bool_decide_false by done. apply lookup_delete_eq.
Qed.

(** ** A server as the other end *)

Section Peers.
Context `{UT : UnicodeTables, D : DnsLib, !DnsLaws D, Q : DnsQuestions, !QuestionLaws Q} {W L : Type}
  `{ST : !Store W, CL : !ChangeLog L}.
Implicit Types h : Handler W L.

(** The header of a message that is sent. *)
Definition header_of (m : Msg) : Header_ :=
  mkHeader (Z.lor (Z.shiftl (mOpcode m) 11) (Z.lor (if mResponse m then 32768 else 0) (if mRecursionDesired m then 256 else 0)))
    (Z.of_nat (length (mQuestion m))) (Z.of_nat (length (mAnswer m))) (Z.of_nat (length (mNs m)))
    (Z.of_nat (length (mExtra m))).

(** What a client gets that sends [m] to a server with handler [h]: the message
    it is answered with, if it passes the filter. *)
Definition served_by (w : Conn) h (m : Msg) : res Msg :=
  match acceptFunc (header_of m) with
  | MsgAccept => match last (sent (ServeDNS w m (mkSrv h [] [])).2) with
                 | Some resp => Ok resp
                 | None => Err (EMsg (lit "i/o timeout") [])
                 end
  | _ => Err (EMsg (lit "i/o timeout") [])
  end.

(** A NOTIFY sent to another instance of this program, whatever its
    configuration and state, is answered SERVFAIL and reported as an error, and
    the instance does not act on it: it only counts a query. *)
Theorem notify_unheard w h addr zone :
  SendNotify (λ _ m, served_by w h m) addr zone
  = Some (EWrap (lit "notify " ++ addr) zone (EMsg (lit "slave answered") (RcodeToString RcodeServerFailure)))
  ∧ ∃ ms, ServeDNS w (notify_msg zone) (mkSrv h [] []) = (tt, mkSrv (set_metrics (bump CQueries (metrics h)) h) ms []).
Proof.
  assert (ServeDNS w (notify_msg zone) (mkSrv h [] [])
    = (tt, mkSrv (set_metrics (bump CQueries (metrics h)) h) [failure_reply (notify_msg zone)] [])) as E.
  { rewrite ServeDNS_serve. unfold serve, bind, get_h, notify_msg. cbn [mQuestion set_RecursionDesired set_Opcode mOpcode].
    by rewrite SetQuestion_Question. }
  split; [|eauto]. unfold SendNotify, served_by. rewrite E.
  assert (acceptFunc (header_of (notify_msg zone)) = MsgAccept) as ->.
  { unfold header_of, notify_msg. cbn [mQuestion set_RecursionDesired set_Opcode mOpcode mResponse mAnswer mNs mExtra mRecursionDesired].
    rewrite SetQuestion_Question, SetQuestion_Response, SetQuestion_Answer, SetQuestion_Ns, SetQuestion_Extra. reflexivity. }
  cbn [snd sent last]. by rewrite failure_Rcode.
Qed.

(** ** The health check *)

Lemma buildResponse_health h req q : ascii_str (cZone (cfg h)) → ToLower (cZone (cfg h)) = cZone (cfg h) →
  qName q = lit "_contractdb.health." ++ cZone (cfg h) → qType q = TypeTXT →
  buildResponse h req q = add_Answer [txtRR (qName q) (cTTL (cfg h)) (lit "UP")] (blank_reply req).
Proof.
  intros Ha Hl Hn Ht. unfold buildResponse, txt_or_any. cbv zeta. rewrite Ht, Hn.
  rewrite ToLower_app, Hl by done. change (ToLower (lit "_contractdb.health.")) with (statusName ++ lit ".health.").
  rewrite (bool_decide_false (_ = cZone (cfg h))), (bool_decide_false (_ = statusName ++ lit "." ++ _)).
  - by rewrite <- app_assoc, bool_decide_true.
  - intros H%(f_equal length). rewrite !length_app in H. cbn in H. lia.
  - intros H%(f_equal length). rewrite !length_app in H. cbn in H. lia.
Qed.

(** The answer of a query that is no transfer, when it is not cut. *)
Lemma served_query w h m q : acceptFunc (header_of m) = MsgAccept → mQuestion m = [q] → mOpcode m = OpcodeQuery →
  qType q ≠ TypeAXFR → qType q ≠ TypeIXFR → IsTsig m = None → IsEdns0 m = None →
  let h' := set_metrics (bump CQueries (metrics h)) h in
  MsgLen (buildResponse h' m q) ≤ 512 →
  served_by w h m = Ok (if authRequired h then SetRcode new_Msg m RcodeRefused else buildResponse h' m q).
Proof.
  intros Hacc Hq Hop Hax Hix Hts He h' Hlen. unfold served_by. rewrite Hacc, ServeDNS_serve. unfold serve, bind at 1, get_h at 1.
  rewrite Hq, Hop. change (negb (OpcodeQuery =? OpcodeQuery)) with false. cbn iota.
  assert (authOK (hd_ (queried (mkSrv h [] []))) w m = negb (authRequired h)) as ->.
  { unfold authOK, tsigValid. rewrite Hts. cbn [is_none negb]. rewrite andb_false_r. cbn. by destruct (authRequired h). }
  destruct (authRequired h); cbn [negb]; [reflexivity|].
  unfold queryExtensions. rewrite (proj2 (Z.eqb_neq _ _) Hax), (proj2 (Z.eqb_neq _ _) Hix), serveQuery_reply.
  change (hd_ (queried (mkSrv h [] []))) with h'. cbv zeta. unfold full_reply, sign_response, echo_edns0. rewrite He.
  assert ((match signer h' with Some _ | _ => buildResponse h' m q end) = buildResponse h' m q) as -> by by destruct (signer h').
  rewrite (proj2 (Z.ltb_ge _ _)).
  - cbn [snd sent queried app last]. unfold setupReplyTsig. rewrite Hts. by destruct (is_none _).
  - unfold max_size. rewrite He. unfold udpDefaultSize, MaxMsgSize. case_match; lia.
Qed.

Context `{DN : DomainNames, HS : Hashes, TN : TsigNames}.
Variables (getenv : str → str) (ReadFile : str → res str) (range : gmap str str → list (str * str)).

(** C36. The health check of an operator without keys finds the server of the
    same zone healthy whatever is in its store and whatever state it is in,
    unless it requires authentication; then it finds no record. *)
Theorem health_probe w h target zoneFlag tsigKeys fc time :
  let zone := health_zone zoneFlag fc in
  let m := health_query zone in
  ascii_str (Fqdn (firstNonEmpty [zoneFlag; Server_Zone fc; lit "contractdb.internal."])) →
  cZone (cfg h) = zone →
  firstNonEmpty [tsigKeys; getenv (lit "CONTRACTDB_TSIG_KEYS"); Auth_TSIGKeysFile fc] = [] →
  IsTsig m = None → IsEdns0 m = None →
  MsgLen (add_Answer [txtRR (lit "_contractdb.health." ++ zone) (cTTL (cfg h)) (lit "UP")] (blank_reply m)) ≤ 512 →
  cmdHealthcheck getenv ReadFile range (λ _ _ m, served_by w h m) target zoneFlag tsigKeys fc time
  = if authRequired h then NoUpRecord else IsHealthy.
Proof.
  intros zone m Ha Hz Hk Hts He Hlen.
  assert (ascii_str zone ∧ ToLower zone = zone) as [Haz Hlz].
  { unfold zone, health_zone. split; [rewrite ToLower_ascii by done; by apply lower_byte_ascii_str|by apply ToLower_idem]. }
  set (q := mkQuestion (lit "_contractdb.health." ++ zone) TypeTXT ClassINET).
  set (h' := set_metrics (bump CQueries (metrics h)) h).
  assert (buildResponse h' m q = add_Answer [txtRR (qName q) (cTTL (cfg h)) (lit "UP")] (blank_reply m)) as HB.
  { apply (buildResponse_health h' m q); cbn; by rewrite ?Hz. }
  unfold cmdHealthcheck. fold zone. fold m. rewrite Hk. change (nonempty []) with false. cbn iota.
  unfold ask. rewrite (served_query w h m q).
  - fold h'. rewrite HB. destruct (authRequired h).
    + rewrite SetRcode_SetReply. cbn. by rewrite SetReply_Answer.
    + unfold add_Answer, blank_reply. cbn. by rewrite SetReply_Answer.
  - unfold header_of, m, health_query. autorewrite with dns. cbn. rewrite ?SetQuestion_RecursionDesired. reflexivity.
  - unfold m, health_query. by autorewrite with dns.
  - unfold m, health_query. by autorewrite with dns.
  - done.
  - done.
  - done.
  - done.
  - fold h'. rewrite HB. exact Hlen.
Qed.

(** With keys, the check never runs into an empty list of them. *)
Lemma healthcheck_has_key Exchange target zoneFlag tsigKeys fc time : (∀ m, m ≠ ∅ → range m ≠ []) →
  cmdHealthcheck getenv ReadFile range Exchange target zoneFlag tsigKeys fc time ≠ IndexPanic.
Proof.
  intros Hr. unfold cmdHealthcheck, ask. cbv zeta. set (spec := firstNonEmpty _).
  destruct (nonempty spec); [|by repeat case_match].
  destruct (buildTSIG ReadFile range spec) as [[p|]|e] eqn:E; [|by repeat case_match|done].
  destruct (buildTSIG_keys ReadFile range spec p Hr E) as [_ Hk].
  destruct (Strings _) as [|n l] eqn:Es; [|by repeat case_match].
  destruct Hk. apply map_to_list_empty_iff.
  pose proof (Permutation_length (merge_sort_Permutation str_le (map_to_list (keys p)).*1)) as Hlen.
  unfold Strings in Es. rewrite Es, length_fmap in Hlen. by destruct (map_to_list (keys p)).
Qed.
End Peers.

(** ** The environment *)

(** [serve] takes its zone from CONTRACTDB_ZONE before the file's; the health
    check has no such source and asks for the file's, or the default. *)
Lemma health_ignores_environment `{UT : UnicodeTables, DN : DomainNames, AC : AwsConfig, HS : Hashes, TN : TsigNames}
    f getenv fc time ReadFile range p :
  f_zone f = [] → getenv (lit "CONTRACTDB_ZONE") ≠ [] → cmdServe f getenv fc time ReadFile range = Ok p →
  0 ≤ Server_TTL fc < 2 ^ 32 → (∀ m, m ≠ ∅ → range m ≠ []) →
  cZone (s_config p) = ToLower (Fqdn (getenv (lit "CONTRACTDB_ZONE")))
  ∧ health_zone [] fc = ToLower (Fqdn (firstNonEmpty [Server_Zone fc; lit "contractdb.internal."])).
Proof.
  intros Hf He Hp Ht Hr. destruct (accepted_settings f getenv fc time ReadFile range Ht Hr p Hp) as [-> _].
  unfold zone_name, health_zone. rewrite Hf, !pick_spec. split.
  2: { unfold firstNonEmpty. cbn. by repeat (case_decide; cbn). }
  unfold firstNonEmpty. cbn [list_find]. rewrite decide_False by done.
  by rewrite (decide_True _ _ (proj2 (nonempty_spec _) He)).
Qed.

(** ** Witnesses *)

#[export] Instance ref_questions : DnsQuestions := {|
  SetQuestion m n t := mkMsg 4711 (mResponse m) (mOpcode m) (mAuthoritative m) (mTruncated m) true
    (mRcode m) [mkQuestion n t ClassINET] (mAnswer m) (mNs m) (mExtra m);
  RcodeToString rc := if rc =? RcodeServerFailure then lit "SERVFAIL" else [] |}.
#[export] Instance ref_question_laws : QuestionLaws ref_questions.
Proof. by constructor. Qed.

Definition pid_file : FileConfig :=
  mkFileConfig [] [] 0 [] (lit "/run/contractdb.pid") [] [] [] false [] false [] [] [] false [] [] [] [].

Lemma stop_signals_server_witness :
  let p := writePidfile (λ _, true) 4321 (lit "/run/contractdb.pid") (mkProcess ∅ []) in
  cmdStop (ReadFile_of (files p)) (λ _, None) pid_file = Ok 4321 ∧ files (removePidfile p) = ∅.
Proof.
  destruct (stop_signals_server (λ _, true) 4321 pid_file ∅ (λ _, None)) as [H1 H2];
    [lia|discriminate|reflexivity|reflexivity|].
  split; [exact H1|]. etrans; [exact H2|]. reflexivity.
Defined.

#[local] Existing Instance ref_domains.
#[local] Existing Instance ref_hashes.
#[local] Existing Instance ref_names.

Lemma health_probe_witness :
  let fc := mkFileConfig [] demo_zone 0 [] [] [] [] [] false [] false [] [] [] false [] [] [] [] in
  let probe h := cmdHealthcheck (λ _, []) (λ _, Ok []) map_to_list (λ _ _ m, served_by Demo.udp h m) [] [] [] fc 5 in
  probe Demo.handler = IsHealthy ∧ probe (WithAuthRequired Demo.handler) = NoUpRecord.
Proof.
  intros fc probe. split.
  - apply (health_probe (λ _, []) (λ _, Ok []) map_to_list Demo.udp Demo.handler [] [] [] fc 5); try (vm_compute; reflexivity).
    vm_compute. discriminate.
  - apply (health_probe (λ _, []) (λ _, Ok []) map_to_list Demo.udp (WithAuthRequired Demo.handler) [] [] [] fc 5);
      try (vm_compute; reflexivity).
    vm_compute. discriminate.
Defined.

Lemma notify_unheard_witness :
  SendNotify (λ _ m, served_by Demo.udp Demo.handler m) (lit "10.0.0.7:53") demo_zone
  = Some (EWrap (lit "notify 10.0.0.7:53") demo_zone (EMsg (lit "slave answered") (lit "SERVFAIL"))).
Proof. exact (proj1 (notify_unheard Demo.udp Demo.handler (lit "10.0.0.7:53") demo_zone)). Defined.
