(* ===== verification/KeyFilesSpec.v ===== *)
(** * Keys and certificates across restarts

    The zone's key is generated once and read back by every later start; a
    certificate and key that are both there are left alone. *)

From S2P Require Import Prelude GoStrings Codec GoText Dns Dnssec DnssecSpec Auth AuthSpec Demo KeyFiles.

Section Signer.
Context `{UT : UnicodeTables} {K : Type} `{KL : !KeyLib K, !KeyLaws K}.
Variables (os : permissions) (Fqdn : str → str).

Lemma key_of_public_point zone xy : length xy = 64%nat →
  key_of_public zone (chr 4 :: xy) = Ok (zone_key zone (Base64.EncodeToString Base64.StdEncoding xy)).
Proof. intros H. unfold key_of_public. cbn [length head drop]. by rewrite H, bool_decide_true. Qed.

(** A generated signer is read back from its PEM. *)
Lemma generate_loadPEM rnd zone s der : generate (K := K) rnd zone = Ok s → MarshalECPrivateKey (sgPriv s) = Ok der →
  loadPEM zone (pem_Encode ec_private der) = Ok s.
Proof.
  unfold generate. destruct (GenerateKey rnd) as [[pub [k|]]|] eqn:E; [|done..]. intros [= <-]. cbn [sgPriv]. intros Hm.
  destruct (generated_p256 _ _ _ E) as (Hp & xy & Hb & Hl & ->).
  unfold loadPEM. rewrite pem_roundtrip, bool_decide_true by done. cbn [negb].
  rewrite (ec_roundtrip _ _ Hm). cbn [res_bind]. rewrite Hp, Hb. cbn [negb res_wrap res_bind].
  by rewrite key_of_public_point.
Qed.

Lemma savePEM_ok fs s path fs' : savePEM os fs s path = (fs', None) →
  ∃ der, MarshalECPrivateKey (sgPriv s) = Ok der
  ∧ fs' = <[path := (pem_Encode ec_private der, match fs !! path with Some (_, old) => old | None => 384 end)]> fs.
Proof.
  unfold savePEM, WriteFile. destruct (MarshalECPrivateKey _) as [der|] eqn:E; [|done].
  destruct (no_mkdir os _); [done|]. destruct (no_write os path); [done|]. intros [= <-]. eauto.
Qed.

(** C38. The zone's key is stable: once a start with a key directory succeeds,
    every later start, whatever randomness it has, gets the same signer and
    writes nothing.  No start changes an existing key file or any other file,
    and a new key file is readable by its owner only. *)
Theorem signer_persists rnd zone keyDir fs fs' s :
  keyDir ≠ [] → no_read os (key_path zone keyDir) = None →
  NewOnlineSigner os Fqdn rnd zone keyDir fs = (fs', Ok s) →
  (∀ rnd', NewOnlineSigner os Fqdn rnd' zone keyDir fs' = (fs', Ok s))
  ∧ (∀ path, path ≠ key_path zone keyDir → fs' !! path = fs !! path)
  ∧ match fs !! key_path zone keyDir with
    | Some _ => fs' = fs
    | None => ∃ pem, fs' !! key_path zone keyDir = Some (pem, 384)
    end.
Proof.
  intros Hne Hr. unfold NewOnlineSigner, ReadFile. rewrite (bool_decide_false (keyDir = [])), Hr by done.
  destruct (fs !! key_path zone keyDir) as [[data perm]|] eqn:E.
  - intros [= <- Hl]. rewrite E. split_and!; [by intros _; rewrite Hl|done..].
  - destruct (generate rnd (Fqdn (ToLower zone))) as [s0|] eqn:Eg; [|done].
    destruct (savePEM os fs s0 _) as [fs0 [e|]] eqn:Es; [done|]. intros [= <- ->].
    apply savePEM_ok in Es as (der & Hm & ->). rewrite E. split_and!.
    + intros rnd'. rewrite lookup_insert_eq. f_equal. by eapply generate_loadPEM.
    + intros path Hp. by apply lookup_insert_ne.
    + rewrite lookup_insert_eq. eauto.
Qed.

(** Every signer that starts publishes, under its zone's name, the other half of
    the key it signs with, given that a DNSKEY of a P-256 key holds the two
    coordinates of its point (RFC 6605). *)
Theorem signer_paired `{DL : !DnssecLib K} rnd zone keyDir fs fs' s :
  (∀ k z xy, on_P256 k = true → PublicBytes k = Ok (chr 4 :: xy) → length xy = 64%nat →
     key_pair k (zone_key z (Base64.EncodeToString Base64.StdEncoding xy))) →
  NewOnlineSigner os Fqdn rnd zone keyDir fs = (fs', Ok s) →
  paired s ∧ sgZone s = Fqdn (ToLower zone).
Proof.
  intros Hpair. set (name := Fqdn (ToLower zone)).
  assert (∀ s, generate rnd name = Ok s → paired s ∧ sgZone s = name) as Hgen.
  { intros s0. unfold generate. destruct (GenerateKey rnd) as [[pub [k|]]|] eqn:E; intros [= <-]. split; [|done].
    destruct (generated_p256 _ _ _ E) as (H1 & xy & H2 & H3 & ->). eexists. split; [done|]. by apply Hpair. }
  unfold NewOnlineSigner. fold name. case_bool_decide; [intros [= _ Hg]; by apply Hgen|].
  destruct (ReadFile os fs _) as [data| |e]; [intros [= _ Hload]| |done].
  - revert Hload. unfold loadPEM. destruct (pem_Decode data) as [[ty bytes]|]; [|done]. destruct (negb _); [done|].
    destruct (ParseECPrivateKey bytes) as [k|]; cbn [res_bind]; [|done]. destruct (on_P256 k) eqn:Hp; [|done]. cbn [negb].
    destruct (PublicBytes k) as [pub|] eqn:Hb; cbn [res_bind res_wrap]; [|done].
    pose proof (key_of_public_exact name pub) as Hk. destruct (key_of_public name pub) as [key|]; cbn [res_bind]; [|done].
    destruct Hk as (xy & -> & Hl & ->). intros [= <-]. split; [|done]. eexists. split; [done|]. by apply Hpair.
  - destruct (generate rnd name) as [s0|] eqn:Eg; [|done]. destruct (savePEM os fs s0 _) as [fs0 [e|]]; [done|].
    intros [= _ <-]. by apply Hgen.
Qed.

(** The file of a zone's key is named by a sanitized zone, so that two zones
    may share one. *)
Lemma shared_key_file keyDir : @key_path ascii_tables (lit "a_b.") keyDir = @key_path ascii_tables (lit "a-b.") keyDir.
Proof. reflexivity. Qed.
End Signer.

Section Certificate.
Context {K : Type} `{KL : !KeyLib K, CB : !CertLib K}.
Variable os : permissions.

Lemma WriteFile_ok fs path data perm fs' : WriteFile os fs path data perm = (fs', None) →
  ∃ mode, fs' = <[path := (data, mode)]> fs.
Proof. unfold WriteFile. destruct (no_write os path); [done|]. intros [= <-]. eauto. Qed.

(** When the certificate is ensured, both files are there, and from then on
    ensuring it again does nothing; files that are both there already are left
    alone, and no other file is touched. *)
Theorem certificate_ensured rnd now certPath keyPath fs fs' :
  EnsureTLSCert os rnd now certPath keyPath fs = (fs', None) →
  is_Some (fs' !! certPath) ∧ is_Some (fs' !! keyPath)
  ∧ (∀ rnd' now', EnsureTLSCert os rnd' now' certPath keyPath fs' = (fs', None))
  ∧ (is_Some (fs !! certPath) → is_Some (fs !! keyPath) → fs' = fs)
  ∧ (∀ path, path ≠ certPath → path ≠ keyPath → fs' !! path = fs !! path).
Proof.
  intros H.
  assert (is_Some (fs' !! certPath) ∧ is_Some (fs' !! keyPath)
    ∧ (is_Some (fs !! certPath) → is_Some (fs !! keyPath) → fs' = fs)
    ∧ (∀ path, path ≠ certPath → path ≠ keyPath → fs' !! path = fs !! path)) as (H1 & H2 & H3 & H4).
  { revert H. unfold EnsureTLSCert at 1, exists_. destruct (bool_decide _ && bool_decide _) eqn:E.
    - apply andb_true_iff in E as [E1%bool_decide_eq_true E2%bool_decide_eq_true]. by intros [= <-].
    - destruct (no_mkdir os (Dir certPath)); [done|]. destruct (no_mkdir os (Dir keyPath)); [done|].
      destruct (self_signed rnd now) as [[certPEM keyPEM]|]; [|done].
      destruct (WriteFile os fs certPath _ _) as [fs1 [e|]] eqn:E1; [done|].
      destruct (WriteFile os fs1 keyPath _ _) as [fs2 [e|]] eqn:E2; [done|]. intros [= <-].
      apply WriteFile_ok in E1 as [m1 ->], E2 as [m2 ->]. split_and!.
      + destruct (decide (certPath = keyPath)) as [->|Hne]; [by rewrite lookup_insert_eq|].
        rewrite lookup_insert_ne, lookup_insert_eq by done. by eexists.
      + by rewrite lookup_insert_eq.
      + intros H1 H2. rewrite !bool_decide_true in E by done. done.
      + intros path Hc Hk. by rewrite !lookup_insert_ne. }
  split_and!; [done|done| |done|done]. intros rnd' now'. unfold EnsureTLSCert, exists_. by rewrite !bool_decide_true.
Qed.

(** A key without its certificate is replaced. *)
Lemma lone_key_replaced rnd now certPath keyPath fs key mode :
  fs !! certPath = None → fs !! keyPath = Some (key, mode) → certPath ≠ keyPath →
  no_mkdir os (Dir certPath) = None → no_mkdir os (Dir keyPath) = None →
  no_write os certPath = None → no_write os keyPath = None →
  ∀ certPEM keyPEM, self_signed rnd now = Ok (certPEM, keyPEM) →
  (EnsureTLSCert os rnd now certPath keyPath fs).1 !! keyPath = Some (keyPEM, mode).
Proof.
  intros Hc Hk Hne Hm1 Hm2 Hw1 Hw2 certPEM keyPEM Hs. unfold EnsureTLSCert, exists_.
  rewrite (bool_decide_false (is_Some (fs !! certPath))) by (rewrite Hc; by intros []). cbn [andb].
  rewrite Hm1, Hm2, Hs. unfold WriteFile. rewrite Hw1, Hw2. cbn [fst].
  rewrite (lookup_insert_ne fs certPath keyPath) by done. by rewrite Hk, lookup_insert_eq.
Qed.
End Certificate.

(** ** Witnesses *)

(** A toy key, the 64 bytes of its point.  Its PEM begins with the length of the
    type in unary. *)
Definition toy_key (rnd : Z) : str := replicate 64 (chr rnd).

#[local] Instance toy_lib : KeyLib str := {|
  GenerateKey rnd := Ok (Base64.EncodeToString Base64.StdEncoding (toy_key rnd), Some (toy_key rnd));
  MarshalECPrivateKey k := Ok k;
  ParseECPrivateKey der := Ok der;
  on_P256 k := true;
  PublicBytes k := Ok (chr 4 :: k);
  pem_Encode ty data := replicate (length ty) "a"%char ++ ":"%char :: ty ++ data;
  pem_Decode pem := let '(n, rest, found) := Cut pem ":" in
                    if found then Some (take (length n) rest, drop (length n) rest) else None |}.

#[local] Instance toy_laws : KeyLaws str.
Proof.
  split.
  - intros ty data. cbn. rewrite Cut_app.
    + by rewrite length_replicate, take_app_length, drop_app_length.
    + intros H%elem_of_replicate_inv. discriminate H.
  - intros k der. cbn. by intros [= ->].
  - intros rnd pub k. cbn. intros [= <- <-]. split; [done|]. by exists (toy_key rnd).
Qed.

Definition all_permitted : permissions := mkPermissions (λ _, None) (λ _, None) (λ _, None).
Definition start_signer (rnd : Z) : filesystem → filesystem * res (OnlineSigner str) :=
  @NewOnlineSigner all_permitted ascii_tables str toy_lib id rnd (lit "Example.test.") (lit "/keys").
Definition toy_signer : OnlineSigner str :=
  mkOnlineSigner (lit "example.test.")
    (zone_key (lit "example.test.") (Base64.EncodeToString Base64.StdEncoding (toy_key 7))) (toy_key 7).

(** The second start has other randomness and gets the first one's key. *)
Lemma signer_persists_witness :
  let fs := (start_signer 7 ∅).1 in start_signer 8 fs = (fs, Ok toy_signer).
Proof.
  intros fs. unfold start_signer.
  apply (signer_persists all_permitted id 7 (lit "Example.test.") (lit "/keys") ∅ fs toy_signer);
    [discriminate|reflexivity|vm_compute; reflexivity].
Defined.

#[local] Instance toy_certs : CertLib str := {|
  GenerateECKey rnd := Ok (toy_key rnd);
  RandInt rnd limit := Ok (rnd mod limit);
  AddYears t n := t + n * 31557600;
  CreateCertificate tmpl k := Ok (CommonName tmpl ++ k) |}.

Lemma certificate_ensured_witness :
  let fs := (EnsureTLSCert all_permitted 7 0 (lit "tls/cert.pem") (lit "tls/key.pem") ∅).1 in
  is_Some (fs !! lit "tls/key.pem") ∧ EnsureTLSCert all_permitted 8 9 (lit "tls/cert.pem") (lit "tls/key.pem") fs = (fs, None).
Proof.
  intros fs. destruct (certificate_ensured all_permitted 7 0 (lit "tls/cert.pem") (lit "tls/key.pem") ∅ fs)
    as (_ & H1 & H2 & _); [vm_compute; reflexivity|].
  split; [exact H1|apply H2].
Defined.
