(* ===== verification/ListenersSpec.v ===== *)
(** * What the listeners guarantee

    Serve returns nil only when its context is done and otherwise the error of
    a listener, after both servers were shut down; no listener ever waits for
    its channel; a server that Serve leaves behind has no request in progress
    unless the timeout has passed; and Serve returns in every fair execution in
    which requests end or a timeout runs. *)

From S2P Require Import Prelude GoStrings GoText GoNet Dns Journal Store Handler Server Doh Auth Dnssec KeyFiles Listeners Settings KeyFilesSpec Demo.

Section Service.
Variable svc : service.
Variable n : nat.
Hypothesis Hcap : (n ≤ capacity svc)%nat.
#[local] Abbreviation reached := (rtc (lstep svc) (start n)).

Definition is_sent (l : listener) : bool := match l with Sent _ => true | _ => false end.
Definition sent_count (l : list listener) : nat := length (filter (λ x, is_sent x = true) l).

(** What the waiter has decided, once it has left its select. *)
Definition decided (w : waiter) : option (option error) :=
  match w with Selecting => None | Stopping _ _ r | Draining _ _ _ r | Returned r => Some r end.

Record linv (s : lstate) : Prop := {
  li_length : length (listeners s) = n;
  li_errc r : r ∈ errc s → Sent r ∈ listeners s;
  li_count : (length (errc s) ≤ sent_count (listeners s))%nat;
  li_decided r : decided (wait s) = Some r →
    (ctx_done s = true ∧ r = None) ∨ ∃ err, Sent err ∈ listeners s ∧ r = (on_exit svc err).2;
}.

Lemma sent_count_insert (l : list listener) (i : nat) (x : listener) : l !! i = Some x → is_sent x = false → ∀ y,
  sent_count (<[i := y]> l) = (sent_count l + if is_sent y then 1 else 0)%nat.
Proof.
  intros Hi Hx y. rewrite insert_take_drop by (by eapply lookup_lt_Some).
  assert (sent_count l = sent_count (take i l ++ x :: drop (S i) l)) as -> by by rewrite take_drop_middle.
  unfold sent_count. rewrite !filter_app, !filter_cons, !length_app. case_decide; case_decide; try congruence;
    destruct (is_sent y); try congruence; cbn; lia.
Qed.

Lemma keep_sent (l : list listener) (i : nat) (x y : listener) r : l !! i = Some x → is_sent x = false → Sent r ∈ l → Sent r ∈ <[i := y]> l.
Proof.
  intros Hi Hx [j Hj]%list_elem_of_lookup. apply (list_elem_of_lookup_2 _ j).
  rewrite list_lookup_insert_ne; [done|]. intros ->. rewrite Hi in Hj. injection Hj as ->. done.
Qed.

Lemma new_sent (l : list listener) (i : nat) r (x : listener) : l !! i = Some x → Sent r ∈ <[i := Sent r]> l.
Proof. intros Hi. apply (list_elem_of_lookup_2 _ i), list_lookup_insert_eq. by eapply lookup_lt_Some. Qed.

Lemma linv_step s s' : linv s → lstep svc s s' → linv s'.
Proof.
  intros [H1 H2 H3 H4] Hs.
  destruct Hs as [i r Hi|i r Hi Hr|i k Hi Hc Ha|i k Ha| |Hb|err rest Hw He|Hw Hc|i todo b r Hw|i todo b r Hw Ha|i todo r Hw He|b r Hw];
    split; cbn [listeners active closed errc ctx_done expired wait decided] in *; try done; try (rewrite Hw in H4; exact H4).
  - by rewrite length_insert.
  - intros r' Hr'%H2. by apply (keep_sent _ _ Listening).
  - rewrite (sent_count_insert _ _ _ Hi) by done. cbn. lia.
  - intros r' [?|(err & He & ->)]%H4; [by left|right]. exists err. split; [|done]. by apply (keep_sent _ _ Listening).
  - by rewrite length_insert.
  - intros r' [Hr'%H2| ->%list_elem_of_singleton]%elem_of_app; [by apply (keep_sent _ _ (Sending r))|by eapply new_sent].
  - rewrite (sent_count_insert _ _ _ Hi), length_app by done. cbn. lia.
  - intros r' [?|(err & He & ->)]%H4; [by left|right]. exists err. split; [|done]. by apply (keep_sent _ _ (Sending r)).
  - intros r [[_ ?]|?]%H4; [by left|by right].
  - intros r Hr. apply H2. rewrite He. by right.
  - rewrite He in H3. cbn in H3. lia.
  - intros r [= <-]. right. exists err. split; [|done]. apply H2. rewrite He. by left.
  - intros r [= <-]. by left.
Qed.

Lemma start_linv : linv (start n).
Proof.
  split; cbn; [by rewrite length_replicate|by intros r ?%elem_of_nil|lia|done].
Qed.

Lemma reached_linv s : reached s → linv s.
Proof. intros H. pose proof start_linv as H0. induction H as [|s1 s2 s3 Hs _ IH]; [done|]. by apply IH, (linv_step s1). Qed.

(** A listener that has something to send always finds room in the channel. *)
Lemma sender_not_blocked s i r : reached s → listeners s !! i = Some (Sending r) → (length (errc s) < capacity svc)%nat.
Proof.
  intros [H1 _ H3 _]%reached_linv Hi. assert (sent_count (listeners s) < n)%nat; [|lia]. rewrite <- H1.
  unfold sent_count. apply (length_filter_lt _ _ (Sending r)); [by eapply list_elem_of_lookup_2|done].
Qed.

End Service.

(** *** Servers that are left behind *)

Section Settled.
Variables (svc : service) (n : nat).
#[local] Abbreviation reached := (rtc (lstep svc) (start n)).
Variable all : list nat.
Hypothesis Hall_exit : ∀ err, all ⊆ (on_exit svc err).1.
Hypothesis Hall_done : all ⊆ on_done svc.
Hypothesis Hunbounded : exit_bounded svc = false.

(** Shut down, and without requests unless a timeout [b] has passed. *)
Definition settled (s : lstate) (b : bool) (i : nat) : Prop :=
  i ∈ closed s ∧ (active s !! i = Some 0%nat ∨ b = true ∧ expired s = true).

(** A server that is shut down takes no more requests. *)
Lemma closed_active s s' i k : lstep svc s s' → i ∈ closed s → active s !! i = Some k →
  ∃ k', (k' ≤ k)%nat ∧ active s' !! i = Some k'.
Proof.
  intros Hs Hc Ha. destruct Hs as [| |j m Hj Hn Hm|j m Hm| | | | | | | |]; try (by exists k; split; [lia|]); cbn [active].
  - exists k. split; [lia|]. rewrite list_lookup_insert_ne; [done|]. by intros ->.
  - destruct (decide (i = j)) as [->|Hne]; [|exists k; split; [lia|by rewrite list_lookup_insert_ne]].
    rewrite Ha in Hm. injection Hm as ->. exists m. split; [lia|]. apply list_lookup_insert_eq. by eapply lookup_lt_Some.
Qed.

Lemma closed_step s s' i : lstep svc s s' → i ∈ closed s → i ∈ closed s'.
Proof. destruct 1; cbn [closed]; [done..|by right|done|done|done]. Qed.

Lemma expired_step s s' : lstep svc s s' → expired s = true → expired s' = true.
Proof. by destruct 1. Qed.

Lemma settled_step s s' b i : lstep svc s s' → settled s b i → settled s' b i.
Proof.
  intros Hs [Hc Ha]. split; [by eapply closed_step|]. destruct Ha as [Ha|[Hb He]].
  - destruct (closed_active s s' i 0 Hs Hc Ha) as (k & Hk & ->). left. f_equal. lia.
  - right. split; [done|by eapply expired_step].
Qed.

Definition leaves (s : lstate) : Prop :=
  match wait s with
  | Selecting => True
  | Stopping todo b r => (b = true → r = None) ∧ ∀ i, i ∈ all → i ∈ todo ∨ settled s b i
  | Draining j todo b r => (b = true → r = None) ∧ j ∈ closed s ∧ ∀ i, i ∈ all → i = j ∨ i ∈ todo ∨ settled s b i
  | Returned r => ∃ b, (b = true → r = None) ∧ ∀ i, i ∈ all → settled s b i
  end.

(** Steps that leave the waiter where it is. *)
Lemma leaves_still s s' : leaves s → lstep svc s s' → wait s' = wait s → leaves s'.
Proof.
  intros Hl Hs Hw. unfold leaves in *. rewrite Hw. pose proof (settled_step s s') as Hst.
  pose proof (λ i, closed_step s s' i Hs) as Hc. destruct (wait s) as [|todo b r|j todo b r|r]; naive_solver.
Qed.

Lemma leaves_step s s' : leaves s → lstep svc s s' → leaves s'.
Proof.
  intros Hl Hs. assert (Hs' := Hs). revert Hs'.
  destruct Hs as [i r Hi|i r Hi Hr|i k Hi Hc Ha|i k Ha| |Hb|err rest Hw He|Hw Hc|i todo b r Hw|i todo b r Hw Ha|i todo r Hw He|b r Hw];
    intros Hs; try (by eapply leaves_still); clear Hs; unfold leaves in *; cbn [wait]; rewrite ?Hw in Hl.
  - rewrite Hunbounded. split; [done|]. intros i Hi. left. by apply (Hall_exit err).
  - split; [done|]. intros i Hi. left. by apply Hall_done.
  - destruct Hl as [Hb Hl]. split; [done|]. split; [by left|]. intros j Hj.
    destruct (Hl j Hj) as [[->|?]%elem_of_cons|[? ?]]; [by left|right; by left|right; right]. split; [by right|done].
  - destruct Hl as (Hb & Hc & Hl). split; [done|]. intros j Hj. destruct (Hl j Hj) as [->|[?|?]]; [right|by left|by right].
    split; [done|by left].
  - destruct Hl as (Hb & Hc & Hl). split; [done|]. intros j Hj. destruct (Hl j Hj) as [->|[?|?]]; [right|by left|by right].
    split; [done|by right].
  - destruct Hl as [Hb Hl]. exists b. split; [done|]. intros i Hi. by destruct (Hl i Hi) as [?%elem_of_nil|?].
Qed.

Lemma reached_leaves s : reached s → leaves s.
Proof.
  intros H. assert (leaves (start n)) as H0 by done. induction H as [|s1 s2 s3 Hs _ IH]; [done|]. by apply IH, (leaves_step s1).
Qed.
End Settled.

(** *** Executions *)

Section Executions.
Variable svc : service.
Implicit Types e : nat → lstate.

(** An execution, with steps of its surroundings in between. *)
Definition execution e : Prop := ∀ n, lstep svc (e n) (e (S n)) ∨ e (S n) = e n.

(** A step of the waiting function itself, or of the clock that it waits for. *)
Definition own (s s' : lstate) : Prop := wait s' ≠ wait s ∨ expired s = false ∧ expired s' = true.
Definition can_own (s : lstate) : Prop := ∃ s', lstep svc s s' ∧ own s s'.

(** Neither is put off for ever. *)
Definition fair e : Prop := ∀ n, ∃ m, (n ≤ m)%nat ∧ (own (e m) (e (S m)) ∨ ¬ can_own (e m)).

(** Requests of a server that is shut down end. *)
Definition requests_end e : Prop := ∀ n i k, i ∈ closed (e n) → active (e n) !! i = Some (S k) →
  ∃ m, (n ≤ m)%nat ∧ active (e m) !! i ≠ Some (S k).

Variable bound : nat.
Hypothesis Hexit : ∀ err, (length (on_exit svc err).1 ≤ bound)%nat.
Hypothesis Hdone : (length (on_done svc) ≤ bound)%nat.

(** What the waiter has left to do, and the clock. *)
Definition rank (s : lstate) : nat :=
  (match wait s with
   | Selecting => 2 * bound + 2
   | Stopping todo _ _ => 2 * length todo + 1
   | Draining _ todo _ _ => 2 * length todo + 2
   | Returned _ => 0
   end + if expired s then 0 else 1)%nat.

Lemma rank_step s s' : lstep svc s s' → (wait s' = wait s ∧ rank s' ≤ rank s ∨ rank s' < rank s)%nat.
Proof.
  intros Hs. destruct Hs as [i r Hi|i r Hi Hr|i k Hi Hc Ha|i k Ha| |Hb|err rest Hw He|Hw Hc|i todo b r Hw|i todo b r Hw Ha|i todo r Hw He|b r Hw];
    cbn [wait]; try (by left; split; [done|]); unfold rank; cbn [wait expired].
  - left. split; [done|]. destruct (expired s); lia.
  - right. rewrite Hw. pose proof (Hexit err). destruct (expired s); lia.
  - right. rewrite Hw. destruct (expired s); lia.
  - right. rewrite Hw. cbn [length]. destruct (expired s); lia.
  - right. rewrite Hw. destruct (expired s); lia.
  - right. rewrite Hw. destruct (expired s); lia.
  - right. rewrite Hw. cbn [length]. destruct (expired s); lia.
Qed.

Lemma own_rank s s' : lstep svc s s' → own s s' → (rank s' < rank s)%nat.
Proof.
  intros Hs [Hw|[E1 E2]]; destruct (rank_step s s' Hs) as [[Ew _]|?]; try done.
  unfold rank. rewrite Ew, E1, E2. lia.
Qed.

(** The waiter has a reason to go on. *)
Definition called (s : lstate) : Prop :=
  match wait s with Selecting => ctx_done s = true ∨ errc s ≠ [] | Stopping _ _ _ | Draining _ _ _ _ => True | Returned _ => False end.

Definition has_returned (s : lstate) : Prop := ∃ r, wait s = Returned r.

Lemma called_step s s' : called s → lstep svc s s' → called s' ∨ has_returned s'.
Proof.
  unfold called, has_returned. intros Hg Hs. destruct Hs; cbn [wait ctx_done errc]; eauto; left; destruct (wait s); try done.
  - destruct Hg as [?|Hg]; [by left|right]. by destruct (errc s).
  - by left.
Qed.

(** Its own step is possible, unless it waits for requests without a timeout. *)
Lemma called_can s : called s → (∀ i todo b r, wait s = Draining i todo b r → (i < length (active s))%nat) →
  can_own s ∨ ∃ i todo r k, wait s = Draining i todo false r ∧ active s !! i = Some (S k).
Proof.
  unfold called, can_own, own. intros Hg Hl. destruct (wait s) as [|[|i todo] b r|i todo b r|r] eqn:Hw; [destruct Hg as [Hc|He]|..|done].
  - left. eexists. split; [by apply waiter_done|]. by left.
  - left. destruct (errc s) as [|err rest] eqn:E; [done|]. eexists. split; [by eapply waiter_receives|]. by left.
  - left. eexists. split; [by eapply waiter_returns|]. by left.
  - left. eexists. split; [by eapply waiter_shuts|]. by left.
  - destruct (lookup_lt_is_Some_2 (active s) i) as [k Hk]; [by eapply Hl|].
    destruct k as [|k]; [left; eexists; split; [by eapply waiter_drained|by left]|].
    destruct b; [left|right; eauto 10]. destruct (expired s) eqn:E.
    + eexists. split; [by eapply waiter_gives_up|by left].
    + eexists. split; [by eapply timeout_passes; rewrite Hw|by right].
Qed.

(** *** What stays so along an execution *)

Lemma along e (P : lstate → Prop) n : execution e → (∀ s s', P s → lstep svc s s' → P s') → P (e n) →
  ∀ m, (n ≤ m)%nat → P (e m).
Proof.
  intros He Hstep Hn m Hm. induction Hm as [|m Hm IH]; [done|]. destruct (He m) as [Hs| ->]; [by eapply Hstep|done].
Qed.

Lemma rank_along e n m : execution e → (n ≤ m)%nat →
  (wait (e m) = wait (e n) ∧ rank (e m) ≤ rank (e n) ∨ rank (e m) < rank (e n))%nat.
Proof.
  intros He Hm. induction Hm as [|m Hm IH]; [by left|]. destruct (He m) as [Hs| ->]; [|done].
  destruct (rank_step _ _ Hs) as [[Hw Hr]|Hr]; destruct IH as [[IHw IHr]|IHr]; [left|right..]; try lia.
  split; [congruence|lia].
Qed.

Lemma called_along e n m : execution e → called (e n) → (n ≤ m)%nat → called (e m) ∨ has_returned (e m).
Proof.
  intros He Hc Hm. apply (along e (λ s, called s ∨ has_returned s) n); [done| |by left|done].
  intros s s' [H|[r H]] Hs; [by eapply called_step|right]. destruct (rank_step _ _ Hs) as [[Hw _]|Hr].
  - exists r. congruence.
  - exists r. destruct Hs; cbn [wait] in *; congruence.
Qed.
End Executions.

(** *** Every fair execution returns *)

Section Returns.
Variables (svc : service) (n bound : nat).
Hypothesis Hexit : ∀ err, Forall (λ i, i < n)%nat (on_exit svc err).1.
Hypothesis Hdone : Forall (λ i, i < n)%nat (on_done svc).
Hypothesis Hexit_len : ∀ err, (length (on_exit svc err).1 ≤ bound)%nat.
Hypothesis Hdone_len : (length (on_done svc) ≤ bound)%nat.
#[local] Abbreviation rank := (rank bound).

Definition targets (w : waiter) : list nat :=
  match w with Stopping todo _ _ => todo | Draining i todo _ _ => i :: todo | _ => [] end.

(** The servers that are shut down exist, and one that is waited for is closed. *)
Definition valid (s : lstate) : Prop :=
  length (active s) = n ∧ Forall (λ i, i < n)%nat (targets (wait s))
  ∧ ∀ i todo b r, wait s = Draining i todo b r → i ∈ closed s.

Lemma valid_step s s' : valid s → lstep svc s s' → valid s'.
Proof.
  intros (H1 & H2 & H3) Hs.
  destruct Hs as [i r Hi|i r Hi Hr|i k Hi Hc Ha|i k Ha| |Hb|err rest Hw He|Hw Hc|i todo b r Hw|i todo b r Hw Ha|i todo r Hw He|b r Hw];
    unfold valid; cbn [active wait closed]; rewrite ?length_insert; (split; [done|]); try (split; [done|exact H3]); rewrite ?Hw in H2; cbn [targets] in *.
  - split; [apply Hexit|done].
  - split; [apply Hdone|done].
  - split; [done|]. intros ? ? ? ? [= <- _ _ _]. by left.
  - split; [by apply Forall_cons in H2 as [_ ?]|done].
  - split; [by apply Forall_cons in H2 as [_ ?]|done].
  - split; [constructor|done].
Qed.

Variable e : nat → lstate.
Hypothesis Hstart : e 0%nat = start n.
Hypothesis Hrun : execution svc e.
Hypothesis Hfair : fair svc e.

Lemma all_valid m : valid (e m).
Proof.
  apply (along svc e valid 0); [done|apply valid_step| |lia].
  rewrite Hstart. split; [apply length_replicate|]. split; [constructor|done].
Qed.

(** A closed server is left without requests, if they end. *)
Lemma drains_empty i k m : requests_end e → i ∈ closed (e m) → active (e m) !! i = Some k →
  ∃ m', (m ≤ m')%nat ∧ active (e m') !! i = Some 0%nat.
Proof.
  intros Hends. revert m. induction k as [k IH] using lt_wf_ind. intros m Hc Ha.
  destruct k as [|k]; [eauto|]. destruct (Hends m i k Hc Ha) as (m1 & Hm1 & Hne).
  assert (i ∈ closed (e m1) ∧ ∃ k', (k' ≤ S k)%nat ∧ active (e m1) !! i = Some k') as (Hc1 & k' & Hk' & Ha1).
  { apply (along svc e (λ s, i ∈ closed s ∧ ∃ k', (k' ≤ S k)%nat ∧ active s !! i = Some k') m); [done| |eauto|done].
    intros s s' (Hcs & k' & Hk' & Has) Hs. split; [by eapply closed_step|].
    destruct (closed_active svc s s' i k' Hs Hcs Has) as (k2 & ? & ?). exists k2. split; [lia|done]. }
  assert (k' ≠ S k) by congruence.
  destruct (IH k') with (m := m1) as (m2 & Hm2 & ?); [lia|done|done|]. exists m2. split; [lia|done].
Qed.

(** From some moment on its own step is possible until it is made. *)
Lemma becomes_possible m : called (e m) → requests_end e ∨ bounded (wait (e m)) = true →
  ∃ m1, (m ≤ m1)%nat ∧ ∀ m2, (m1 ≤ m2)%nat → wait (e m2) = wait (e m) → can_own svc (e m2).
Proof.
  intros Hc Hb.
  assert (∀ m2, (m ≤ m2)%nat → wait (e m2) = wait (e m) → can_own svc (e m2)
    ∨ ∃ i todo r k, wait (e m) = Draining i todo false r ∧ active (e m2) !! i = Some (S k)) as Hcan.
  { intros m2 Hm2 Hw. destruct (called_along svc bound Hexit_len Hdone_len e m m2 Hrun Hc Hm2) as [Hc2|[r Hr]].
    - destruct (called_can svc (e m2) Hc2) as [?|(i & todo & r & k & Hd & ?)]; [|by left|right].
      + intros i todo b r Hd. destruct (all_valid m2) as (-> & Ht & _). rewrite Hd in Ht. by apply Forall_cons in Ht as [? _].
      + exists i, todo, r, k. split; [congruence|done].
    - unfold called in Hc. by rewrite <- Hw, Hr in Hc. }
  destruct (wait (e m)) as [|todo b r|i todo [] r|r] eqn:Hw; [..|by unfold called in Hc; rewrite Hw in Hc].
  1-3: exists m; split; [done|]; intros m2 Hm2 Hw2; destruct (Hcan m2 Hm2 Hw2) as [?|(? & ? & ? & ? & ? & _)]; done.
  destruct Hb as [Hends|]; [|done]. destruct (all_valid m) as (Hlen & Ht & Hcl). rewrite Hw in Ht.
  destruct (lookup_lt_is_Some_2 (active (e m)) i) as [k Hk]; [rewrite Hlen; by apply Forall_cons in Ht as [? _]|].
  pose proof (Hcl _ _ _ _ Hw) as Hi. destruct (drains_empty i k m Hends Hi Hk) as (m1 & Hm1 & Ha).
  assert (∀ m2, (m1 ≤ m2)%nat → active (e m2) !! i = Some 0%nat) as Hz.
  { intros m2 Hm2. apply (along svc e (λ s, i ∈ closed s ∧ active s !! i = Some 0%nat) m1); [done| | |done].
    - intros s s' [Hcs Has] Hs. split; [by eapply closed_step|].
      destruct (closed_active svc s s' i 0 Hs Hcs Has) as (k2 & ? & ->). f_equal. lia.
    - split; [|done]. apply (along svc e (λ s, i ∈ closed s) m); [done| |done|done]. intros s s' ? ?. by eapply closed_step. }
  exists m1. split; [done|]. intros m2 Hm2 Hw2. destruct (Hcan m2) as [?|(i' & ? & ? & k' & [= <- _ _] & Ha')]; [lia|done|done|].
  by rewrite Hz in Ha'.
Qed.

(** What it has left to do gets less. *)
Lemma gets_less m : called (e m) → requests_end e ∨ bounded (wait (e m)) = true →
  ∃ m', (m ≤ m')%nat ∧ (rank (e m') < rank (e m))%nat.
Proof.
  intros Hc Hb. destruct (becomes_possible m Hc Hb) as (m1 & Hm1 & Hp). destruct (Hfair m1) as (m2 & Hm2 & Ho).
  destruct (rank_along svc bound Hexit_len Hdone_len e m m2 Hrun) as [[Hw Hr]|Hr]; [lia| |exists m2; split; [lia|done]].
  destruct Ho as [Ho|Ho]; [|by destruct Ho; apply Hp]. exists (S m2). split; [lia|].
  destruct (Hrun m2) as [Hs|E]; [pose proof (own_rank svc bound Hexit_len Hdone_len _ _ Hs Ho); lia|].
  rewrite E in Ho. destruct Ho as [?|[E1 E2]]; [done|congruence].
Qed.

(** A timeout runs until the return. *)
Lemma bounded_step s s' : lstep svc s s' → bounded (wait s) = true → bounded (wait s') = true ∨ has_returned s'.
Proof. intros Hs. unfold has_returned. destruct Hs as [| | | | | |? ? Hw|Hw|? ? ? ? Hw|? ? ? ? Hw|? ? ? Hw|? ? Hw]; cbn [wait];
    try (by left); rewrite Hw; cbn [bounded]; intros Hb; first [by left|by right; eauto|done]. Qed.

Lemma returned_step s s' : lstep svc s s' → has_returned s → has_returned s'.
Proof. intros Hs [r Hr]. destruct Hs; cbn [wait] in *; try congruence; by exists r. Qed.

Lemma fair_returns m : called (e m) → requests_end e ∨ bounded (wait (e m)) = true → ∃ m' r, wait (e m') = Returned r.
Proof.
  remember (rank (e m)) as k eqn:Ek. revert m Ek. induction k as [k IH] using lt_wf_ind. intros m -> Hc Hb.
  destruct (gets_less m Hc Hb) as (m1 & Hm1 & Hr).
  destruct (called_along svc bound Hexit_len Hdone_len e m m1 Hrun Hc Hm1) as [Hc1|[r Hr1]]; [|eauto].
  assert (requests_end e ∨ bounded (wait (e m1)) = true ∨ has_returned (e m1)) as [H|[H|[r H]]]; [|by eauto..].
  destruct Hb as [?|Hb]; [by left|right].
  apply (along svc e (λ s, bounded (wait s) = true ∨ has_returned s) m); [done| |by left|done].
  intros s s' [H|H] Hs; [by eapply bounded_step|right; by eapply returned_step].
Qed.
End Returns.

(** ** Serve *)

(** C33. Serve, in every state it can be in: when it has returned, both servers
    were told to shut down, and it returned nil with its context done, or else
    the error of a listener that exited.  A listener that exits never waits to
    report it. *)
Theorem Serve_contract s : rtc (lstep Serve) (start 2) s →
  (∀ r, wait s = Returned r → 0%nat ∈ closed s ∧ 1%nat ∈ closed s
     ∧ ((ctx_done s = true ∧ r = None) ∨ ∃ err, Sent err ∈ listeners s ∧ r = Some (Errorf_w "server exited" err)))
  ∧ ∀ i r, listeners s !! i = Some (Sending r) → ∃ s', lstep Serve s s' ∧ listeners s' !! i = Some (Sent r).
Proof.
  intros H. split.
  - intros r Hr. pose proof (reached_leaves Serve 2 [0; 1]%nat (λ err, reflexivity [0; 1]%nat) (reflexivity _) eq_refl s H) as Ht.
    unfold leaves in Ht. rewrite Hr in Ht. destruct Ht as (b & _ & Ht).
    split; [apply (Ht 0%nat); by left|]. split; [apply (Ht 1%nat); by right; left|].
    destruct (reached_linv Serve 2 ltac:(done) s H) as [_ _ _ Hd]. rewrite Hr in Hd. exact (Hd r eq_refl).
  - intros i r Hi. eexists. split; [apply (listener_sends _ _ i r Hi); by apply (sender_not_blocked Serve 2 ltac:(done) s i r)|].
    apply list_lookup_insert_eq. by eapply lookup_lt_Some.
Qed.


(** The shutdown for a context has a timeout. *)
Definition timed (s : lstate) : Prop :=
  match wait s with Stopping _ b r | Draining _ _ b r => r = None → b = true | _ => True end.

Lemma timed_step s s' : timed s → lstep Serve s s' → timed s'.
Proof.
  unfold timed. intros H Hs. destruct Hs as [| | | | | |err rest Hw He|Hw Hc|i todo b r Hw|i todo b r Hw Ha|i todo r Hw He|b r Hw];
    cbn [wait]; try exact H; rewrite Hw in H; try exact H; done.
Qed.

(** C34. Serve comes to its end: in every execution in which neither its own
    next step nor the clock is put off for ever, once its context is done or a
    listener has reported, it returns - whatever the requests in progress do if
    it shuts down because of its context, and otherwise if they end. *)
Theorem Serve_returns e : e 0%nat = start 2 → execution Serve e → fair Serve e →
  (∃ n, ctx_done (e n) = true ∨ errc (e n) ≠ []) →
  requests_end e ∨ (∃ n, decided (wait (e n)) = Some None) →
  ∃ m r, wait (e m) = Returned r.
Proof.
  intros H0 Hrun Hfair Hcall Hends.
  assert (∀ n, called (e n) ∨ has_returned (e n) → requests_end e ∨ bounded (wait (e n)) = true → ∃ m r, wait (e m) = Returned r) as Hgo.
  { intros n [Hc|[r Hr]] Hb; [|eauto].
    apply (fair_returns Serve 2 2 (λ err, ltac:(repeat constructor)) ltac:(repeat constructor) (λ err, le_n 2) (le_n 2) e H0 Hrun Hfair n Hc Hb). }
  destruct Hends as [Hends|[n Hn]].
  - destruct Hcall as [n Hn]. apply (Hgo n); [|by left]. unfold called, has_returned.
    destruct (wait (e n)); eauto.
  - assert (timed (e n)) as Ht by (apply (along Serve e timed 0); [done|apply timed_step|by rewrite H0|lia]).
    unfold timed in Ht. destruct (wait (e n)) as [|todo b r|i todo b r|r] eqn:Hw; [done|injection Hn as ->..].
    + apply (Hgo n); [left; unfold called; by rewrite Hw|right; rewrite Hw; by apply Ht].
    + apply (Hgo n); [left; unfold called; by rewrite Hw|right; rewrite Hw; by apply Ht].
    + eauto.
Qed.

(** After a listener's error the shutdown has no timeout, so the condition on
    requests is needed there: one request that never ends holds Serve up. *)
Definition held_up : lstate :=
  mkLstate [Listening; Sent None] [1; 0]%nat [0%nat] [] false false (Draining 0 [1%nat] false (Some (Errorf_w "server exited" None))).

Theorem error_shutdown_unbounded :
  rtc (lstep Serve) (start 2) held_up ∧ execution Serve (λ _, held_up) ∧ fair Serve (λ _, held_up).
Proof.
  split_and!.
  - eapply rtc_l; [by apply (request_comes _ _ 0 0); [|apply not_elem_of_nil|]|]. cbn.
    eapply rtc_l; [by apply (listen_returns _ _ 1 None)|]. cbn.
    eapply rtc_l; [apply (listener_sends _ _ 1 None); [reflexivity|cbn; lia]|]. cbn.
    eapply rtc_l; [by apply (waiter_receives _ _ None [])|]. cbn.
    eapply rtc_l; [by apply (waiter_shuts _ _ 0 [1]%nat)|]. done.
  - intros n. by right.
  - intros n. exists n. split; [done|]. right. intros (s' & Hs & Ho). unfold own in Ho.
    destruct Hs; simplify_eq/=; destruct Ho as [?|[? ?]]; done.
Qed.

(** ** ServeDoH *)

(** ServeDoH returns nil when its context is done or the listener says that it
    was closed, and otherwise the listener's error. *)
Theorem ServeDoH_contract {K : Type} `{KL : !KeyLib K, CB : !CertLib K} os rnd now certFile keyFile fs fs' svc s0 s :
  ServeDoH os rnd now certFile keyFile fs = (fs', Ok (svc, s0)) → rtc (lstep svc) s0 s →
  ∀ r, wait s = Returned r →
    (ctx_done s = true ∧ r = None)
    ∨ ∃ err, Sent err ∈ listeners s
        ∧ r = if errors_Is err ErrServerClosed then None else Some (Errorf_w "doh server exited" err).
Proof.
  unfold ServeDoH. destruct (EnsureTLSCert _ _ _ _ _ _) as [fs1 [e|]]; [done|]. intros [= _ <- <-] H r Hr.
  destruct (reached_linv doh_service 1 ltac:(done) s H) as [_ _ _ Hd]. rewrite Hr in Hd. exact (Hd r eq_refl).
Qed.

(** ** Run and cmdServe *)

(** The options a caller of Run would pass for the settings of cmdServe. *)
Definition run_options {W} `{HS : Hashes, TN : TsigNames} (p : Settings) : list (Handler W MemChangeLog.t → Handler W MemChangeLog.t) :=
  match s_tsig p with Some k => [WithTsigProvider (hmac_provider k)] | None => [] end
  ++ (if s_authRequired p then [WithAuthRequired] else []) ++ [WithNotifiees (s_notifiees p)].

(** The handler of cmdServe is that of Run with these options, and the journal. *)
Lemma configured_Run {W} `{HS : Hashes, TN : TsigNames} (st : W) (p : Settings) :
  configured st None p = set_changelog (Some (s_journal p)) (Run st (s_config p) (run_options p)).
Proof. unfold configured, Run, run_options. destruct (s_tsig p), (s_authRequired p) eqn:E; cbn; by rewrite ?E. Qed.

(** What is prepared is there: a zone has a signer exactly when it is to be
    signed, and with the default certificate ServeDoH finds the files and comes
    up without touching one. *)
Theorem prepared_services `{UT : UnicodeTables, DN : DomainNames} {K : Type} `{KL : !KeyLib K, CB : !CertLib K}
    os rnd rnd' now p fs fs' (sg : option (OnlineSigner K)) :
  prepare os rnd rnd' now p fs = (fs', Ok sg) →
  (is_Some sg ↔ is_Some (s_dnssec p))
  ∧ ∀ d, s_doh p = Some d → doh_default d = true →
      ∀ r t, ServeDoH os r t (doh_cert d) (doh_key d) fs' = (fs', Ok (doh_service, start 1)).
Proof.
  unfold prepare. intros H.
  destruct (s_dnssec p) as [dir|]; [destruct (NewOnlineSigner os Fqdn rnd _ dir fs) as [fs1 [s|e]]|]; cbn in H.
  - assert (sg = Some s) as ->.
    { repeat case_match; by simplify_eq. }
    split; [split; eauto|]. intros d Hd Hdef r t. rewrite Hd, Hdef in H.
    destruct (EnsureTLSCert os rnd' now _ _ fs1) as [fs2 [e|]] eqn:E; simplify_eq.
    unfold ServeDoH. by rewrite (proj1 (proj2 (proj2 (certificate_ensured os rnd' now _ _ _ _ E)))).
  - done.
  - assert (sg = None) as ->.
    { repeat case_match; by simplify_eq. }
    split; [split; by intros []|]. intros d Hd Hdef r t. rewrite Hd, Hdef in H.
    destruct (EnsureTLSCert os rnd' now _ _ fs) as [fs2 [e|]] eqn:E; simplify_eq.
    unfold ServeDoH. by rewrite (proj1 (proj2 (proj2 (certificate_ensured os rnd' now _ _ _ _ E)))).
Qed.

(** The states of a process that is told to end while both services run. *)
Definition both_up : pstate := mkPstate (start 2) (Some (start 1)).

(** The process does not wait for its HTTPS listener: after the signal it
    can end before ServeDoH has even told its server to shut down. *)
Theorem doh_not_awaited : ∃ p s,
  rtc pstep both_up p ∧ wait (dns_side p) = Returned None ∧ doh_side p = Some s
  ∧ ctx_done s = true ∧ closed s = [] ∧ wait s = Selecting ∧ listeners s = [Listening].
Proof.
  set (h := cancel (start 1)).
  exists (mkPstate (mkLstate [Listening; Listening] [0; 0]%nat [1; 0]%nat [] true false (Returned None)) (Some h)), h. split; [|done].
  eapply rtc_l; [apply signal|]. cbn.
  eapply rtc_l; [apply dns_steps; [by apply waiter_done|done]|]. cbn.
  eapply rtc_l; [apply dns_steps; [by apply (waiter_shuts _ _ 0 [1]%nat)|done]|]. cbn.
  eapply rtc_l; [apply dns_steps; [by apply (waiter_drained _ _ 0 [1]%nat)|done]|]. cbn.
  eapply rtc_l; [apply dns_steps; [by apply (waiter_shuts _ _ 1 [])|done]|]. cbn.
  eapply rtc_l; [apply dns_steps; [by apply (waiter_drained _ _ 1 [])|done]|]. cbn.
  eapply rtc_l; [apply dns_steps; [by apply (waiter_returns _ _ true None)|done]|]. done.
Qed.

(** ** Witnesses *)

(** The UDP listener fails to bind: Serve shuts both servers down and returns. *)
Definition in_use : error := EMsg (lit "address already in use") [].

Definition serve_error : option error := Some (Errorf_w "server exited" (Some in_use)).

Definition failed_udp : lstate :=
  mkLstate [Sent (Some in_use); Listening] [0; 0]%nat [1; 0]%nat [] false false (Returned serve_error).

(** Its execution, which rests at the end. *)
Definition failing (n : nat) : lstate :=
  match n with
  | 0 => start 2
  | 1 => mkLstate [Sending (Some in_use); Listening] [0; 0] [] [] false false Selecting
  | 2 => mkLstate [Sent (Some in_use); Listening] [0; 0] [] [Some in_use] false false Selecting
  | 3 => mkLstate [Sent (Some in_use); Listening] [0; 0] [] [] false false (Stopping [0; 1] false serve_error)
  | 4 => mkLstate [Sent (Some in_use); Listening] [0; 0] [0] [] false false (Draining 0 [1] false serve_error)
  | 5 => mkLstate [Sent (Some in_use); Listening] [0; 0] [0] [] false false (Stopping [1] false serve_error)
  | 6 => mkLstate [Sent (Some in_use); Listening] [0; 0] [1; 0] [] false false (Draining 1 [] false serve_error)
  | 7 => mkLstate [Sent (Some in_use); Listening] [0; 0] [1; 0] [] false false (Stopping [] false serve_error)
  | _ => failed_udp
  end%nat.

Lemma failing_step n : lstep Serve (failing n) (failing (S n)) ∨ failing (S n) = failing n.
Proof.
  destruct n as [|n]; [left; by apply (listen_returns _ (failing 0) 0 (Some in_use))|].
  destruct n as [|n]; [left; apply (listener_sends _ (failing 1) 0 (Some in_use)); [reflexivity|cbn; lia]|].
  destruct n as [|n]; [left; by apply (waiter_receives Serve (failing 2) (Some in_use) [])|].
  destruct n as [|n]; [left; by apply (waiter_shuts _ (failing 3) 0 [1]%nat false serve_error)|].
  destruct n as [|n]; [left; by apply (waiter_drained _ (failing 4) 0 [1]%nat false serve_error)|].
  destruct n as [|n]; [left; by apply (waiter_shuts _ (failing 5) 1 [] false serve_error)|].
  destruct n as [|n]; [left; by apply (waiter_drained _ (failing 6) 1 [] false serve_error)|].
  destruct n as [|n]; [left; by apply (waiter_returns _ (failing 7) false serve_error)|]. by right.
Qed.

Lemma failed_udp_reached : rtc (lstep Serve) (start 2) failed_udp.
Proof.
  change failed_udp with (failing 8). assert (∀ n, rtc (lstep Serve) (start 2) (failing n)) as H; [|apply H].
  induction n as [|n IH]; [done|]. destruct (failing_step n) as [Hs|E]; [by eapply rtc_r|by rewrite E].
Qed.

Lemma Serve_contract_witness : 0%nat ∈ closed failed_udp ∧ 1%nat ∈ closed failed_udp.
Proof.
  destruct (Serve_contract failed_udp failed_udp_reached) as [H _].
  destruct (H serve_error eq_refl) as (H1 & H2 & _). split; [exact H1|exact H2].
Defined.


Lemma failing_fair : fair Serve failing.
Proof.
  intros n. exists (8 + n)%nat. split; [lia|]. right. intros (s' & Hs & Ho). unfold own in Ho.
  change (failing (8 + n)) with failed_udp in *.
  destruct Hs; simplify_eq/=; destruct Ho as [?|[? ?]]; done.
Qed.

Lemma Serve_returns_witness : ∃ m r, wait (failing m) = Returned r.
Proof.
  apply (Serve_returns failing eq_refl failing_step failing_fair).
  - exists 2%nat. right. discriminate.
  - left. intros n i k _ Ha. exfalso. do 8 (destruct n as [|n]; [cbn in Ha; destruct i as [|[|i]]; discriminate Ha|]).
    cbn in Ha. destruct i as [|[|i]]; discriminate Ha.
Defined.
