(* ===== verification/ConfigurationSpec.v ===== *)
(** * What configuration files are for

    [init] never touches an existing file, and the file it writes says the
    defaults: a server started with it has the settings of one without. *)

From S2P Require Import Prelude GoStrings GoText GoNet Json Dns Journal Store Dynamo Handler Auth AuthSpec Settings SettingsSpec KeyFiles Client Configuration Demo.

(** What the sample says. *)
Definition sample_values : FileConfig :=
  mkFileConfig (lit ":53") (lit "contractdb.internal.") 5 (lit "127.0.0.1") [] [] (lit "pk") [] false [] false
    (lit "open") [] [] false [] [] [] [].

(** ** A dialect of TOML

    Documents of printable ASCII with blank lines, comments, [[table]] headers
    and [key = value] lines, where a value is a basic string without escapes, a
    decimal integer, a boolean, or an empty array or inline table. *)

Fixpoint skip_blanks (l : str) : str := match l with " "%char :: l' => skip_blanks l' | _ => l end.

(** The rest of a line is blank or a comment. *)
Definition nothing_more (l : str) : bool :=
  match skip_blanks l with [] => true | c :: _ => bool_decide (c = "#"%char) end.

Definition is_bare (c : ascii) : bool :=
  is_digit c || between "a" c "z" || between "A" c "Z" || bool_decide (c = "_"%char ∨ c = "-"%char).

Fixpoint span (p : ascii → bool) (l : str) : str * str :=
  match l with
  | c :: l' => if p c then let '(a, b) := span p l' in (c :: a, b) else ([], l)
  | [] => ([], [])
  end.

Definition quote : ascii := chr 34.

Definition parse_value (l : str) : option (toml_value * str) :=
  if HasPrefix l (lit "true") then Some (TomlBool true, drop 4 l) else
  if HasPrefix l (lit "false") then Some (TomlBool false, drop 5 l) else
  if HasPrefix l (lit "[]") then Some (TomlStrings [], drop 2 l) else
  if HasPrefix l (lit "{}") then Some (TomlTable [], drop 2 l) else
  if HasPrefix l [quote] then
    match span (λ c, negb (bool_decide (c = quote ∨ c = "\"%char))) (drop 1 l) with
    | (s, c :: rest) => if bool_decide (c = quote) then Some (TomlString s, rest) else None
    | (_, []) => None
    end
  else
    let '(ds, rest) := span is_digit l in
    if bool_decide (ds = []) || (bool_decide (head ds = Some "0"%char) && (1 <? length ds)%nat) then None else
    n ← digits ds 0; Some (TomlInteger n, rest).

(** Headers so far, the current table, and the assignments so far. *)
Definition doc : Type := list str * str * list (str * str * toml_value).

Definition parse_line (d : doc) (line : str) : option doc :=
  let '(heads, table, l) := d in
  if nothing_more line then Some d else
  match skip_blanks line with
  | "["%char :: r =>
      match span is_bare r with
      | (name, "]"%char :: rest) =>
          if bool_decide (name = []) || negb (nothing_more rest) then None else Some (heads ++ [name], name, l)
      | _ => None
      end
  | line =>
      let '(key, rest) := span is_bare line in
      match skip_blanks rest with
      | "="%char :: rest =>
          '(v, rest) ← parse_value (skip_blanks rest);
          if bool_decide (key = []) || negb (nothing_more rest) then None else Some (heads, table, l ++ [(table, key, v)])
      | _ => None
      end
  end.

Definition printable (c : ascii) : bool := (32 <=? code c) && (code c <=? 126).

Definition parse_doc (text : str) : option doc :=
  foldl (λ o line, d ← o; if forallb printable line then parse_line d line else None) (Some ([], [], [])) (Split text (chr 10)).

(** A valid document of this dialect: no table and no key is defined twice. *)
Definition simple_doc (text : str) : option (list (str * str * toml_value)) :=
  '(heads, _, l) ← parse_doc text;
  if bool_decide (NoDup heads) && bool_decide (NoDup l.*1) then Some l else None.

(** What TOML and the library's struct tags say of such documents: its keys set
    the fields they name. *)
Class TomlLaws `{Toml} : Prop := {
  decode_simple text l c : simple_doc text = Some l → set_fields l zero_config = Some c → toml_Decode text = Ok c;
}.

(** The sample is such a document, and says the [sample_values]. *)
Lemma sample_says : (l ← simple_doc sampleConfig; set_fields l zero_config) = Some sample_values.
Proof. vm_compute. reflexivity. Qed.

Lemma decode_sample `{TM : Toml, !TomlLaws} : toml_Decode sampleConfig = Ok sample_values.
Proof. destruct (proj1 (bind_Some _ _ _) sample_says) as (l & Hl & Hc). by eapply decode_simple. Qed.

Section Init.
Variable os : permissions.
Context `{TM : Toml}.

(** [init] changes at most the default file, and only if there was none; what
    it leaves there when it succeeds is the sample, and a second [init] fails. *)
Theorem init_safe fs fs' err : cmdInit os fs = (fs', err) →
  (∀ path, path ≠ defaultConfigPath ∨ fileExists fs path = true → fs' !! path = fs !! path)
  ∧ (err = None → fs' !! defaultConfigPath = Some (sampleConfig, 420) ∧ is_Some (cmdInit os fs').2).
Proof.
  unfold cmdInit. destruct (fileExists fs defaultConfigPath) eqn:E; [intros [= <- <-]; done|].
  unfold fileExists, exists_ in E. apply bool_decide_eq_false, eq_None_not_Some in E.
  unfold WriteFile. destruct (no_write os defaultConfigPath) as [e|]; intros [= <- <-]; [done|]. split.
  - intros path [Hne|Hex]; [by rewrite lookup_insert_ne|].
    rewrite lookup_insert_ne; [done|]. intros <-. unfold fileExists, exists_ in Hex. apply bool_decide_eq_true in Hex.
    rewrite E in Hex. by destruct Hex.
  - intros _. rewrite lookup_insert_eq, E. split; [done|]. unfold fileExists, exists_. rewrite lookup_insert_eq, bool_decide_true by eauto. eauto.
Qed.
End Init.

Section Defaults.
Context `{UT : UnicodeTables, DN : DomainNames, AC : AwsConfig, HS : Hashes, TN : TsigNames}.

Lemma pick_default a b d : pick a b d d = pick a b [] d.
Proof. unfold pick. destruct (nonempty a); [done|]. destruct (nonempty b); [done|]. by destruct (nonempty d). Qed.


Lemma finalTTL_default flag env : finalTTL flag env 5 = finalTTL flag env 0.
Proof.
  unfold finalTTL. destruct (if nonempty env then Atoi env else None) as [n|]; [destruct (0 <? n)|];
    destruct (0 <? flag); try done.
Qed.

(** The sample is the default. *)
Lemma sample_default f getenv time rf range :
  cmdServe f getenv sample_values time rf range = cmdServe f getenv zero_config time rf range.
Proof.
  unfold cmdServe, sample_values, zero_config.
  cbn [Server_Listen Server_Zone Server_TTL Server_AdvertiseIP Server_Pidfile DynamoDB_Table DynamoDB_PKAttr
    DynamoDB_Endpoint DynamoDB_Consistent DynamoDB_GSIs Demo_Enabled Auth_Mode Auth_TSIGKeysFile Notify_Notifiees
    DNSSEC_Enabled DNSSEC_KeyDir DoH_Listen DoH_Cert DoH_Key].
  by rewrite !pick_default, finalTTL_default.
Qed.

(** C35. The file that [init] writes states the defaults: in a directory without
    a configuration, [init] followed by [serve] gives, for all flags and any
    environment, exactly the settings or the error that [serve] alone gives. *)
Theorem init_states_defaults `{TM : Toml, !TomlLaws} os fs fs' f getenv time rf range :
  no_read os defaultConfigPath = None → fileExists fs defaultConfigPath = false →
  cmdInit os fs = (fs', None) →
  let serve fs := fc <-? loadFileConfig os defaultConfigPath fs; cmdServe f getenv fc time rf range in
  serve fs' = serve fs.
Proof.
  intros Hr Hne Hi serve. destruct (init_safe os fs fs' None Hi) as [_ Hin]. destruct (Hin eq_refl) as [Hl _].
  unfold serve, loadFileConfig. rewrite Hne. change (bool_decide (defaultConfigPath = [])) with false. cbn [orb negb res_bind].
  assert (fileExists fs' defaultConfigPath = true) as -> by (unfold fileExists, exists_; rewrite Hl, bool_decide_true; eauto).
  unfold ReadFile. rewrite Hr, Hl. cbn [negb]. rewrite decode_sample. cbn [res_wrap res_bind]. apply sample_default.
Qed.
End Defaults.

(** ** Witness *)

#[local] Existing Instance ref_domains.
#[local] Existing Instance ref_aws.
#[local] Existing Instance ref_hashes.
#[local] Existing Instance ref_names.

(** A decoder of the dialect. *)
#[local] Instance ref_toml : Toml :=
  {| toml_Decode text := match (l ← simple_doc text; set_fields l zero_config) with Some c => Ok c | None => Err (EMsg (lit "toml") []) end |}.

#[local] Instance ref_toml_laws : TomlLaws.
Proof. split. intros text l c Hl Hc. unfold toml_Decode, ref_toml.
  assert ((l ← simple_doc text; set_fields l zero_config) = Some c) as ->; [|done]. rewrite Hl. exact Hc. Qed.

Definition any_permitted : permissions := mkPermissions (λ _, None) (λ _, None) (λ _, None).
Definition initialised : filesystem := (cmdInit any_permitted ∅).1.

Lemma init_states_defaults_witness :
  is_Some (initialised !! defaultConfigPath)
  ∧ (fc <-? loadFileConfig any_permitted defaultConfigPath initialised;
     cmdServe demo_flags (λ _, []) fc 1700000000 (λ _, Err (EMsg [] [])) map_to_list)
    = (fc <-? loadFileConfig any_permitted defaultConfigPath ∅;
       cmdServe demo_flags (λ _, []) fc 1700000000 (λ _, Err (EMsg [] [])) map_to_list).
Proof.
  split; [exists (sampleConfig, 420); reflexivity|].
  apply (init_states_defaults any_permitted ∅ initialised demo_flags (λ _, []) 1700000000); reflexivity.
Defined.
