(* ===== verification/EndToEnd.v ===== *)
(** * Updates observed through queries

    What a client reads after its update was acknowledged. *)

From S2P Require Import Prelude GoStrings Float64 Json JsonSpec Names Dns Journal Store Handler HandlerSpec Update UpdateSpec UpdateEffect Demo.

(** The strings an item is served as. *)

Lemma chunkBytes_concat b : concat (chunkBytes b maxTxtChunk) = b.
Proof. apply chunk_loop_spec; [unfold maxTxtChunk; lia|done]. Qed.

Lemma decode_served blob : decodeTXTStrings (chunkBytes blob maxTxtChunk) = Some blob ↔ "\"%char ∉ blob.
Proof.
  split.
  - intros (bs & Hf & Hb)%decodeTXTStrings_presents. rewrite <- (chunkBytes_concat blob).
    apply (presents_concat _ bs); [done|]. by rewrite chunkBytes_concat.
  - intros H. rewrite decodeTXTStrings_plain by by rewrite chunkBytes_concat. by rewrite chunkBytes_concat.
Qed.

Section EndToEnd.
Context `{UT : UnicodeTables, D : DnsLib, !DnsLaws D} {W L : Type}
  `{ST : !Store W, !FullStoreSpec W, CL : !ChangeLog L}.
Implicit Types (h : Handler W L) (s : Srv W L).

(** An update section that is one TXT record at the owner name of [key]. *)
Inductive single_put h (req : Msg) (key : str) (item : Item) : Prop :=
  | single_put_intro hdr txt payload :
      mNs req = [RR_TXT hdr txt] → hClass hdr = ClassINET → hRrtype hdr = TypeTXT →
      ToLower (hName hdr) = itemName (cZone (cfg h)) key →
      decodeTXTStrings txt = Some payload → Unmarshal payload = Ok item →
      single_put h req key item.

Lemma remove_dups_one (x : str) : remove_dups [x] = [x].
Proof. cbn. by case_decide; [set_solver|]. Qed.

Lemma single_put_plan h req key item k inserts :
  good_zone (cZone (cfg h)) → reachable key → single_put h req key item →
  plan h req k inserts → k = key ∧ inserts = [(key, item)].
Proof.
  intros Hz Hk [hdr txt payload Hns Hc Ht Hn Hd Hi] [_ _ Hr _ Hop]. rewrite Hns in *.
  assert (is_add (RR_TXT hdr txt) = true) as Ha by (unfold is_add; cbn; by rewrite Hc, Ht).
  destruct (Hr (RR_TXT hdr txt) ltac:(set_solver)) as [_ HK].
  assert (owner (RR_TXT hdr txt) = itemName (cZone (cfg h)) key) as Hown by exact Hn.
  rewrite Hown, parseKey_itemName in HK by done. injection HK as <-. split; [done|].
  assert (add_owners [RR_TXT hdr txt] = [owner (RR_TXT hdr txt)]) as Hao
    by (unfold add_owners; cbn [omap list_omap]; by rewrite Ha).
  inversion Hop as [name payload' item' rest Hh Hd' _ Hi' _ Hl|H]; subst; rewrite ?Hns, ?Hao, ?remove_dups_one in *; [|done].
  cbn in Hh. injection Hh as <-. rewrite strings_at_one, bool_decide_true in Hd' by done.
  assert (rest = []) as -> by (destruct rest; [done|cbn in Hl; lia]).
  assert (payload' = payload) as -> by congruence. by assert (item' = item) as -> by congruence.
Qed.

(** The acknowledged outcome of an update with records. *)
Lemma acknowledged w req s s' m :
  tsigValid (hd_ s) w req = true → mNs req ≠ [] → handleUpdate w req s = (tt, s') →
  sent s' = sent s ++ [m] → mRcode m = RcodeSuccess →
  ∃ key inserts st old, plan (hd_ s) req key inserts ∧ Get (store (hd_ s)) key = Ok old
  ∧ apply_write full_writer (store (hd_ s)) inserts [key] = (st, None)
  ∧ hd_ s' = committed (hd_ s) st key old inserts ∧ mAnswer m = [soa (hd_ s')].
Proof.
  intros HV Hne. destruct (handleUpdate_outcome w req s HV) as (rc & s1 & Ho & ->).
  intros [= <-] Hm. cbn in Hm. apply app_inj_2 in Hm as [_ [= <-]]; [|done].
  rewrite update_reply_Rcode, update_reply_Answer. intros ->. cbn [hd_].
  inversion Ho as [? Hs| |wr key inserts st old Hw Hp HG Ha]; subst; [by destruct Hne, Hs|].
  rewrite writer_full in Hw. injection Hw as <-. eauto 10.
Qed.

Lemma committed_fields h st key old inserts : let h' := committed h st key old inserts in
  cfg h' = cfg h ∧ store h' = st ∧ serial h' = u32 (serial h + 1).
Proof. unfold committed, commitWrite. cbn. by destruct (changelog h). Qed.

Lemma itemName_cfg h h' key item : cfg h = cfg h' → itemRRs h key item = itemRRs h' key item.
Proof. intros H. unfold itemRRs. by rewrite H. Qed.

(** C6. Read your writes: when an update that puts one item is answered NOERROR,
    the serial has grown by one, the next lookup of the key answers exactly the
    JSON of the item as stored, and every other key reads as before. *)
Theorem update_then_query w req s s' m key item req2 q blob :
  let h := hd_ s in
  good_zone (cZone (cfg h)) → reachable key → single_put h req key item →
  tsigValid h w req = true → handleUpdate w req s = (tt, s') →
  sent s' = sent s ++ [m] → mRcode m = RcodeSuccess →
  index_name h key = false → ToLower (qName q) = itemName (cZone (cfg h)) key → qType q = TypeTXT →
  stored key item ≠ None → Marshal (stored key item) = Ok blob → is_ok (Get (store (hd_ s')) key) = true →
  serial (hd_ s') = u32 (serial h + 1)
  ∧ mAnswer m = [soa (hd_ s')]
  ∧ says (buildResponse (hd_ s') req2 q) RcodeSuccess [item_record h key blob] []
  ∧ ∀ k i i', k ≠ key → Get (store h) k = Ok i → Get (store (hd_ s')) k = Ok i' → i' = i.
Proof.
  intros h Hz Hk Hsp HV Hu Hm Hrc Hix Hq Ht Hst Hb HG.
  assert (mNs req ≠ []) as Hne by (destruct Hsp as [? ? ? -> _ _ _ _ _]; done).
  destruct (acknowledged w req s s' m HV Hne Hu Hm Hrc) as (k & ins & st & old & Hp & _ & Ha & Hh & Hsoa).
  destruct (single_put_plan h req key item k ins Hz Hk Hsp Hp) as [-> ->].
  destruct (committed_fields h st key old [(key, item)]) as (Hcfg & Hstore & Hser).
  apply (apply_write_view h req key [(key, item)] st Hp) in Ha as Hview. cbn [write_table] in Hview.
  rewrite Hh in HG |- *. fold h in Hh, HG |- *. rewrite Hstore in *. split_and!; [done|by rewrite Hsoa, Hh| |].
  - rewrite (buildResponse_point _ req2 q key) by (unfold index_name; rewrite ?Hcfg; first [done|intros _; by rewrite Ht]).
    destruct (Get st key) as [i|e] eqn:HGi; [|done]. apply get_view in HGi as Hi.
    rewrite Hview, lookup_partial_alter_eq in Hi. subst i.
    pose proof (pointLookup_spec (committed h st key old [(key, item)]) req2 q key) as Hpl. cbv zeta in Hpl.
    rewrite Hstore, HGi in Hpl. destruct (stored key item) as [im|]; [|done].
    unfold txt_or_any in Hpl. rewrite Ht, Hb in Hpl. unfold item_record in *. rewrite Hcfg in Hpl. exact Hpl.
  - intros k i i' Hne' H1%get_view H2%get_view. rewrite Hview, lookup_partial_alter_ne in H2 by done. congruence.
Qed.

(** Deleting: when an update that only deletes is answered NOERROR, the next
    lookup of the key answers NXDOMAIN with the new SOA. *)
Theorem delete_then_query w req s s' m key req2 q :
  let h := hd_ s in
  good_zone (cZone (cfg h)) → reachable key → mNs req ≠ [] →
  (∀ rr, rr ∈ mNs req → is_add rr = false ∧ ToLower (hName (Header rr)) = itemName (cZone (cfg h)) key) →
  tsigValid h w req = true → handleUpdate w req s = (tt, s') →
  sent s' = sent s ++ [m] → mRcode m = RcodeSuccess →
  index_name h key = false → ToLower (qName q) = itemName (cZone (cfg h)) key → qType q = TypeTXT →
  is_ok (Get (store (hd_ s')) key) = true →
  says (buildResponse (hd_ s') req2 q) RcodeNameError [] [soa (hd_ s')]
  ∧ serial (hd_ s') = u32 (serial h + 1).
Proof.
  intros h Hz Hk Hne Hd HV Hu Hm Hrc Hix Hq Ht HG.
  destruct (acknowledged w req s s' m HV Hne Hu Hm Hrc) as (k & ins & st & old & Hp & _ & Ha & Hh & Hsoa).
  assert (k = key) as ->.
  { destruct (mNs req) as [|rr l] eqn:E; [done|]. destruct (Hd rr ltac:(set_solver)) as [_ Hn].
    destruct Hp as [_ _ Hr _ _]. rewrite E in Hr. destruct (Hr rr ltac:(set_solver)) as [_ HK].
    unfold owner in HK. fold h in HK. rewrite Hn, parseKey_itemName in HK by done. by injection HK. }
  assert (ins = []) as ->.
  { destruct (plan_operation _ _ _ _ Hp) as [name ? ? ? Hh' _ _ _ _ _|]; [|done].
    apply head_elem, list_elem_of_omap in Hh' as (rr & Hin & Hrr). destruct (Hd rr Hin) as [Hf _].
    by rewrite Hf in Hrr. }
  destruct (committed_fields h st key old []) as (Hcfg & Hstore & Hser).
  apply (apply_write_view h req key [] st Hp) in Ha as Hview. cbn [write_table] in Hview.
  rewrite Hh in HG |- *. fold h in Hh, HG |- *. rewrite Hstore in *. split; [|done].
  rewrite (buildResponse_point _ req2 q key) by (unfold index_name; rewrite ?Hcfg; first [done|intros _; by rewrite Ht]).
  destruct (Get st key) as [i|e] eqn:HGi; [|done]. apply get_view in HGi as Hi.
  rewrite Hview, lookup_delete_eq in Hi. subst i.
  pose proof (pointLookup_spec (committed h st key old []) req2 q key) as Hpl. cbv zeta in Hpl.
  by rewrite Hstore, HGi in Hpl.
Qed.

(** C7. What an update puts is what its record says: for every item that a
    packet adds, whatever the spelling of its JSON, if the item's floats are
    printed as numerals that parse back, the strings that the server hands to
    the library for its record join to JSON that is read back as the same item.
    An update that carries these strings in presentation form, the form in which
    an update's strings reach the program, adds the same item again. *)
Theorem served_item_rereads h zone blobs name key m :
  build_insert zone blobs name = inr (key, Some m) → Forall float_ok (floats (VMap m)) →
  ∃ hdr txt, itemRRs h key (Some m) = Ok [RR_TXT hdr txt]
  ∧ Valid (concat txt) = true ∧ Unmarshal (concat txt) = Ok (Some m)
  ∧ ∀ shown, Forall2 presents shown txt → build_insert zone {[name := shown]} name = inr (key, Some m).
Proof.
  unfold build_insert at 1. destruct (parseKey zone name) as [k|] eqn:Hk; [|done].
  destruct (decodeTXTStrings _) as [payload|]; [|done]. destruct (Valid payload); cbn [negb]; [|done].
  destruct (Unmarshal payload) as [item|] eqn:Hu; [|done]. intros [= -> ->] Hf.
  destruct (plain_Unmarshal m (Unmarshal_plain payload m Hu Hf)) as (blob & HM & HV & HU).
  rewrite itemRRs_spec, HM. cbn [res_map]. eexists _, _. split; [reflexivity|]. rewrite chunkBytes_concat.
  split; [done|]. split; [done|]. intros shown Hs.
  assert (decodeTXTStrings shown = Some blob) as Hb.
  { apply decodeTXTStrings_presents. eexists. split; [exact Hs|]. by rewrite chunkBytes_concat. }
  unfold build_insert. rewrite Hk, lookup_singleton_eq. cbn [default from_option]. unfold id. by rewrite Hb, HV, HU.
Qed.
End EndToEnd.

(** ** Witnesses *)

Definition dave_key : str := lit "user.dave".
Definition dave_q : Question := mkQuestion (Demo.owner_of "user.dave") TypeTXT ClassINET.
Definition dave_item : Item := match Unmarshal Demo.dave with Ok i => i | Err _ => None end.
Definition after_put : Demo.S := (handleUpdate Demo.udp Demo.put_dave Demo.srv).2.
Definition bob_q : Question := mkQuestion (Demo.owner_of "user.bob") TypeTXT ClassINET.
Definition after_drop : Demo.S := (handleUpdate Demo.tcp Demo.drop_bob Demo.srv).2.

Lemma update_then_query_witness :
  says (buildResponse (hd_ after_put) (Demo.query (qName dave_q) TypeTXT) dave_q) RcodeSuccess
    [item_record (hd_ Demo.srv) dave_key Demo.dave] []
  ∧ serial (hd_ after_put) = 101.
Proof.
  destruct (update_then_query Demo.udp Demo.put_dave Demo.srv after_put (Demo.reply after_put)
    dave_key dave_item (Demo.query (qName dave_q) TypeTXT) dave_q Demo.dave) as (H1 & _ & H2 & _).
  - exact good_demo_zone.
  - split; [discriminate|]. intros _. vm_compute. reflexivity.
  - apply (single_put_intro _ _ _ _ (mkHdr (Demo.owner_of "user.dave") TypeTXT ClassINET 0) [Demo.dave] Demo.dave);
      vm_compute; reflexivity.
  - vm_compute. reflexivity.
  - exact (run_unit (handleUpdate Demo.udp Demo.put_dave Demo.srv)).
  - vm_compute. reflexivity.
  - vm_compute. reflexivity.
  - vm_compute. reflexivity.
  - vm_compute. reflexivity.
  - reflexivity.
  - vm_compute. discriminate.
  - vm_compute. reflexivity.
  - vm_compute. reflexivity.
  - split; [exact H2|]. rewrite H1. vm_compute. reflexivity.
Defined.

Lemma delete_then_query_witness :
  says (buildResponse (hd_ after_drop) (Demo.query (qName bob_q) TypeTXT) bob_q) RcodeNameError
    [] [soa (hd_ after_drop)].
Proof.
  destruct (delete_then_query Demo.tcp Demo.drop_bob Demo.srv after_drop (Demo.reply after_drop)
    (lit "user.bob") (Demo.query (qName bob_q) TypeTXT) bob_q) as (H1 & _).
  - exact good_demo_zone.
  - split; [discriminate|]. intros _. vm_compute. reflexivity.
  - discriminate.
  - intros rr ->%list_elem_of_singleton. split; vm_compute; reflexivity.
  - vm_compute. reflexivity.
  - exact (run_unit (handleUpdate Demo.tcp Demo.drop_bob Demo.srv)).
  - vm_compute. reflexivity.
  - vm_compute. reflexivity.
  - vm_compute. reflexivity.
  - vm_compute. reflexivity.
  - reflexivity.
  - vm_compute. reflexivity.
  - exact H1.
Defined.

(** Numbers, escapes, a quote and a repeated key, in a payload and as they are
    served. *)
Definition dave_spelled : str := dq "{'plan':'basic', 'seats':2.50 , 'plan':'a\\u0022b'}".
Definition dave_spelled_map : gomap := [(lit "plan", VString (lit "a" ++ [chr 34] ++ lit "b")); (lit "seats", VFloat (dec_to_f64 false 25 (-1)))].

(** The JSON of the item has a backslash, which is doubled when it is shown. *)
Definition dave_served : str := dq "{'plan':'a\'b','seats':2.5}".
Definition dave_shown : str := dq "{'plan':'a\\'b','seats':2.5}".

Lemma served_item_rereads_witness :
  ∃ hdr, itemRRs Demo.handler dave_key (Some dave_spelled_map) = Ok [RR_TXT hdr [dave_served]]
  ∧ Unmarshal dave_served = Ok (Some dave_spelled_map)
  ∧ build_insert demo_zone {[Demo.owner_of "user.dave" := [dave_shown]]} (Demo.owner_of "user.dave") = inr (dave_key, Some dave_spelled_map).
Proof.
  assert (itemRRs Demo.handler dave_key (Some dave_spelled_map) = Ok [RR_TXT (mkHdr (Demo.owner_of "user.dave") TypeTXT ClassINET 5) [dave_served]]) as Hs
    by (vm_compute; reflexivity).
  destruct (served_item_rereads Demo.handler demo_zone {[Demo.owner_of "user.dave" := [dave_spelled]]} (Demo.owner_of "user.dave")
    dave_key dave_spelled_map) as (hdr & txt & H1 & _ & H2 & H3).
  - vm_compute. reflexivity.
  - repeat constructor. apply float_okb_spec. vm_compute. reflexivity.
  - rewrite Hs in H1. injection H1 as <- <-. eexists. split; [exact Hs|]. split; [vm_compute; vm_compute in H2; exact H2|].
    apply H3. constructor; [|constructor]. apply decode_chunk_presents. vm_compute. reflexivity.
Defined.
