(* ===== verification/UpdateRfc.v ===== *)
(** * Prerequisites against RFC 2136

    Section 3.2 of RFC 2136 as an executable reference, over a zone that holds
    one TXT record per item, and [evalPrerequisites] compared with it: they
    agree on the prerequisites that the program supports, and where they do
    not is shown. *)

From S2P Require Import Prelude GoStrings Json Names Dns Journal Store Handler Update UpdateSpec EndToEnd Demo.

(** ** The reference (RFC 2136, section 3.2.5) *)

Section Reference.
Context `{UT : UnicodeTables}.

(** The zone: its name, and the TXT record at an owner name, which is the only
    record there, as its character strings. *)
Variable zname : str.
Variable txt_at : str → option (list str).

Definition zone_rrset (name : str) (type : Z) : list (list str) :=
  if type =? TypeTXT then option_list (txt_at name) else [].
Definition zone_name (name : str) : bool := bool_decide (is_Some (txt_at name)).
Definition in_zone (name : str) : bool := bool_decide (name = zname) || HasSuffix (ToLower name) (lit "." ++ zname).

(** Section 2.4: "RDLENGTH is zero". *)
Definition no_rdata (rr : RR) : bool :=
  match rr with RR_TXT _ txt => bool_decide (txt = []) | RR_Other _ d => bool_decide (d = []) | _ => false end.

(** The loop over the section, on one record.  A record of the zone's class is
    only collected. *)
Definition rfc_scan (rr : RR) : Z :=
  let h := Header rr in
  if negb (hTtl h =? 0) then RcodeFormatError
  else if negb (in_zone (owner rr)) then RcodeNotZone
  else if hClass h =? ClassANY then
    if negb (no_rdata rr) then RcodeFormatError
    else if hRrtype h =? TypeANY then (if zone_name (owner rr) then RcodeSuccess else RcodeNameError)
    else (if bool_decide (zone_rrset (owner rr) (hRrtype h) = []) then RcodeNXRrset else RcodeSuccess)
  else if hClass h =? ClassNONE then
    if negb (no_rdata rr) then RcodeFormatError
    else if hRrtype h =? TypeANY then (if zone_name (owner rr) then RcodeYXDomain else RcodeSuccess)
    else (if bool_decide (zone_rrset (owner rr) (hRrtype h) = []) then RcodeSuccess else RcodeYXRrset)
  else if hClass h =? ClassINET then RcodeSuccess
  else RcodeFormatError.

(** The octets of a TXT record's strings. *)
Definition rdata (rr : RR) : option (list str) :=
  match rr with RR_TXT _ txt => mapM decode_chunk txt | _ => None end.

(** The records collected for one RRset. *)
Definition collected_at (prs : list RR) (name : str) (type : Z) : list (option (list str)) :=
  rdata <$> filter (λ rr, hClass (Header rr) = ClassINET ∧ owner rr = name ∧ hRrtype (Header rr) = type) prs.

Definition same_set {A} `{EqDecision A} (l k : list A) : bool :=
  forallb (λ x, bool_decide (x ∈ k)) l && forallb (λ x, bool_decide (x ∈ l)) k.

(** "if (zone_rrset<rrset.name, rrset.type> != rrset) return (NXRRSET)" *)
Definition rfc_values (prs : list RR) : bool :=
  forallb (λ rr, negb (hClass (Header rr) =? ClassINET)
    || same_set (Some <$> zone_rrset (owner rr) (hRrtype (Header rr))) (collected_at prs (owner rr) (hRrtype (Header rr)))) prs.

(** The first code that is not NOERROR. *)
Definition first_error (codes : list Z) : Z := foldr (λ c k, if c =? RcodeSuccess then k else c) RcodeSuccess codes.

Definition rfc_prerequisites (prs : list RR) : Z :=
  let c := first_error (rfc_scan <$> prs) in
  if negb (c =? RcodeSuccess) then c
  else if rfc_values prs then RcodeSuccess else RcodeNXRrset.
End Reference.

(** ** Facts about the reference *)

Lemma first_error_app a b : first_error (a ++ b) = if first_error a =? RcodeSuccess then first_error b else first_error a.
Proof.
  induction a as [|c a IH]; [done|]. cbn [app first_error foldr] in *. fold (first_error (a ++ b)). fold (first_error a).
  destruct (c =? RcodeSuccess) eqn:E; [done|]. by rewrite E.
Qed.

Lemma first_error_success l : first_error l = RcodeSuccess ↔ Forall (λ c, c = RcodeSuccess) l.
Proof.
  induction l as [|c l IH]; [done|]. cbn [first_error foldr]. fold (first_error l). rewrite Forall_cons, <- IH.
  destruct (Z.eqb_spec c RcodeSuccess); [tauto|]. split; [done|tauto].
Qed.

Lemma same_set_singleton {A} `{EqDecision A} (x : A) (k : list A) :
  same_set [x] k = true ↔ x ∈ k ∧ ∀ y, y ∈ k → y = x.
Proof.
  unfold same_set. cbn [forallb]. rewrite andb_true_r, andb_true_iff, bool_decide_eq_true, forallb_forall.
  setoid_rewrite <- list_elem_of_In. setoid_rewrite bool_decide_eq_true. setoid_rewrite list_elem_of_singleton. done.
Qed.

Lemma same_set_empty {A} `{EqDecision A} (k : list A) x : x ∈ k → same_set [] k = false.
Proof.
  intros Hx. unfold same_set. cbn [forallb andb]. apply not_true_iff_false. rewrite forallb_forall.
  intros H. specialize (H x (proj1 (list_elem_of_In _ _) Hx)). by apply bool_decide_eq_true_1, elem_of_nil in H.
Qed.

(** ** The program against the reference *)

Section Compare.
Context `{UT : UnicodeTables, D : DnsLib} {W L : Type} `{ST : !Store W, CL : !ChangeLog L}.
Variable h : Handler W L.
Let zone := cZone (cfg h).

(** The zone of items: the TXT record at an owner name is the item's JSON, cut
    into character strings. *)
Definition item_txt (name : str) : option (list str) :=
  match parseKey zone name with
  | Some key =>
      match Get (store h) key with
      | Ok (Some m) => match Marshal (Some m) with Ok blob => Some (chunkBytes blob maxTxtChunk) | Err _ => None end
      | _ => None
      end
  | None => None
  end.

Abbreviation scan := (rfc_scan zone item_txt).
Abbreviation rfc := (rfc_prerequisites zone item_txt).

(** A prerequisite that the program evaluates as the RFC does: only one of owner
    and TTL is wrong; an owner in the zone is an item's; and
    - a record of class ANY or NONE has no data and type ANY or TXT;
    - a record of class IN is a TXT record whose text is cut as the program
      cuts it. *)
Definition supported (rr : RR) : Prop :=
  (hTtl (Header rr) = 0 ∨ in_zone zone (owner rr) = true)
  ∧ (in_zone zone (owner rr) = true → is_Some (parseKey zone (owner rr)))
  ∧ (hClass (Header rr) = ClassANY ∨ hClass (Header rr) = ClassNONE →
       no_rdata rr = true ∧ (hRrtype (Header rr) = TypeANY ∨ hRrtype (Header rr) = TypeTXT))
  ∧ (hClass (Header rr) = ClassINET →
       ∃ hdr txt b, rr = RR_TXT hdr txt ∧ hRrtype hdr = TypeTXT ∧ mapM decode_chunk txt = Some (chunkBytes b maxTxtChunk)).

(** The store answers for the key, with an item that can be encoded. *)
Definition answers (rr : RR) : Prop := ∀ key, parseKey zone (owner rr) = Some key →
  ∃ item, Get (store h) key = Ok item ∧ is_ok (Marshal item) = true.

(** The program's loop, on one record. *)
Definition eval_one (rr : RR) : Z :=
  match parseKey zone (owner rr) with
  | None => RcodeNotZone
  | Some key =>
      if negb (hTtl (Header rr) =? 0) then RcodeFormatError
      else match Get (store h) key with
           | Err _ => RcodeServerFailure
           | Ok item => default RcodeSuccess (checkPrerequisite rr item)
           end
  end.

Lemma checkPrerequisite_not_success rr item rc : checkPrerequisite rr item = Some rc → rc ≠ RcodeSuccess.
Proof. intros E. pose proof (checkPrerequisite_spec rr item) as H. rewrite E in H. apply H. Qed.

Lemma evalPrerequisites_codes prs : evalPrerequisites h prs = first_error (eval_one <$> prs).
Proof.
  induction prs as [|rr prs IH]; [done|]. cbn [evalPrerequisites fmap list_fmap first_error foldr].
  change (foldr _ _ (eval_one <$> prs)) with (first_error (eval_one <$> prs)). rewrite <- IH.
  unfold eval_one. fold zone. change (ToLower (hName (Header rr))) with (owner rr).
  destruct (parseKey zone (owner rr)) as [key|]; [|done]. destruct (negb _); [done|].
  destruct (Get (store h) key) as [item|e]; [|done].
  destruct (checkPrerequisite rr item) as [rc|] eqn:E; [|done]. apply checkPrerequisite_not_success in E. cbn.
  by rewrite (proj2 (Z.eqb_neq _ _) E).
Qed.

Lemma parseKey_in_zone name : is_Some (parseKey zone name) → in_zone zone name = true.
Proof.
  unfold parseKey, in_zone. intros [k Hk]. destruct (HasSuffix (ToLower name) (lit "." ++ zone)); [by rewrite orb_true_r|done].
Qed.

(** What a name has, when the store answers. *)
Lemma item_txt_some name key item : parseKey zone name = Some key → Get (store h) key = Ok item → is_ok (Marshal item) = true →
  match item with None => item_txt name = None | Some m => ∃ blob, Marshal (Some m) = Ok blob ∧ item_txt name = Some (chunkBytes blob maxTxtChunk) end.
Proof.
  unfold item_txt. intros -> -> Hm. destruct item as [m|]; [|done]. destruct (Marshal (Some m)); [eauto|done].
Qed.

(** A record whose value does not matter gets the reference's code. *)
Lemma eval_scan rr : supported rr → answers rr → hClass (Header rr) ≠ ClassINET ∨ scan rr ≠ RcodeSuccess → eval_one rr = scan rr.
Proof.
  intros (H1 & H2 & H3 & H4) Ha Hn. unfold eval_one, rfc_scan in *.
  destruct (parseKey zone (owner rr)) as [key|] eqn:Hk.
  2: { destruct (in_zone zone (owner rr)) eqn:Hz; [by destruct (H2 eq_refl)|]. destruct H1 as [->|]; done. }
  rewrite (parseKey_in_zone (owner rr)) in * by eauto. cbn [negb] in *. destruct (hTtl (Header rr) =? 0); [|done]. cbn [negb] in *.
  destruct (Ha key Hk) as (item & HG & Hm). rewrite HG.
  pose proof (item_txt_some _ _ _ Hk HG Hm) as Ht. unfold checkPrerequisite, zone_rrset, zone_name.
  destruct (Z.eqb_spec (hClass (Header rr)) ClassANY) as [CA|CA].
  { destruct (H3 (or_introl CA)) as [-> [T|T]]; rewrite CA, T; cbn; (destruct item as [m|]; [destruct Ht as (? & _ & ->)|rewrite Ht]); reflexivity. }
  destruct (Z.eqb_spec (hClass (Header rr)) ClassNONE) as [CN|CN].
  { destruct (H3 (or_intror CN)) as [-> [T|T]]; rewrite CN, T; cbn; (destruct item as [m|]; [destruct Ht as (? & _ & ->)|rewrite Ht]); reflexivity. }
  destruct (Z.eqb_spec (hClass (Header rr)) ClassINET) as [CI|CI]; [by destruct Hn|].
  rewrite ?(proj2 (Z.eqb_neq _ _)) by done. done.
Qed.

Lemma decode_strings txt bs : mapM decode_chunk txt = Some bs → decodeTXTStrings txt = Some (concat bs).
Proof.
  revert bs. induction txt as [|c txt IH]; intros bs; cbn [mapM]; [by intros [= <-]|].
  cbn [decodeTXTStrings]. destruct (decode_chunk c) as [b|]; cbn; [|done].
  destruct (mapM decode_chunk txt) as [bs'|]; cbn; [|done]. intros [= <-]. by rewrite (IH bs').
Qed.

(** A record of the zone's class is compared with the item's record. *)
Lemma eval_value rr : supported rr → answers rr → hClass (Header rr) = ClassINET → scan rr = RcodeSuccess →
  eval_one rr = if bool_decide (item_txt (owner rr) = rdata rr) then RcodeSuccess else RcodeNXRrset.
Proof.
  intros (_ & H2 & _ & H4) Ha Hc Hs. destruct (H4 Hc) as (hdr & txt & b & -> & Hty & Hd).
  assert (rdata (RR_TXT hdr txt) = Some (chunkBytes b maxTxtChunk)) as -> by exact Hd.
  unfold rfc_scan in Hs. destruct (hTtl (Header (RR_TXT hdr txt)) =? 0) eqn:HT; [|done]. cbn [negb] in Hs.
  destruct (in_zone zone (owner (RR_TXT hdr txt))) eqn:Hz; [|done]. destruct (H2 eq_refl) as [key Hk].
  unfold eval_one. rewrite Hk, HT. cbn [negb]. destruct (Ha key Hk) as (item & HG & Hm). rewrite HG.
  pose proof (item_txt_some _ _ _ Hk HG Hm) as Ht. unfold checkPrerequisite. cbn [Header] in *. rewrite Hc, Hty.
  apply decode_strings in Hd. rewrite chunkBytes_concat in Hd. rewrite Hd. cbn.
  destruct item as [m|]; [|by rewrite Ht]. destruct Ht as (blob & -> & ->). cbn.
  destruct (decide (blob = b)) as [->|Hne]; [by rewrite !bool_decide_true|]. rewrite !bool_decide_false; [done| |done].
  intros [= E]. apply Hne. by rewrite <- (chunkBytes_concat blob), E, chunkBytes_concat.
Qed.

Lemma values_iff prs : Forall supported prs →
  rfc_values item_txt prs = true ↔ ∀ rr, rr ∈ prs → hClass (Header rr) = ClassINET → item_txt (owner rr) = rdata rr.
Proof.
  intros Hsup. unfold rfc_values. rewrite forallb_forall. setoid_rewrite <- list_elem_of_In.
  assert (∀ rr, rr ∈ prs → hClass (Header rr) = ClassINET → hRrtype (Header rr) = TypeTXT) as Htxt.
  { intros rr Hin Hc. rewrite Forall_forall in Hsup. destruct (Hsup rr Hin) as (_ & _ & _ & H4).
    by destruct (H4 Hc) as (hdr & txt & b & -> & Hty & _). }
  split; intros H rr Hin.
  - intros Hc. specialize (H rr Hin). rewrite Hc in H. cbn [negb orb Z.eqb] in H.
    rewrite (Htxt rr Hin Hc) in H. unfold zone_rrset in H. cbn [Z.eqb] in H.
    assert (rdata rr ∈ collected_at prs (owner rr) TypeTXT) as Hmem.
    { apply list_elem_of_fmap. exists rr. split; [done|]. apply list_elem_of_filter. auto. }
    change (TypeTXT =? TypeTXT) with true in H. destruct (item_txt (owner rr)) as [bs|]; cbn in H.
    + apply same_set_singleton in H as [_ H]. symmetry. by apply H.
    + by rewrite (same_set_empty _ _ Hmem) in H.
  - destruct (Z.eqb_spec (hClass (Header rr)) ClassINET) as [Hc|]; [|done]. cbn [negb orb].
    rewrite (Htxt rr Hin Hc). unfold zone_rrset. change (TypeTXT =? TypeTXT) with true. cbv iota.
    assert (∃ bs, item_txt (owner rr) = Some bs) as [bs Hbs].
    { rewrite (H rr Hin Hc). rewrite Forall_forall in Hsup. destruct (Hsup rr Hin) as (_ & _ & _ & H4).
      destruct (H4 Hc) as (hdr & txt & b & -> & _ & Hd). eexists. exact Hd. }
    rewrite Hbs. cbn [option_list fmap list_fmap]. apply same_set_singleton. split.
    + rewrite <- Hbs, (H rr Hin Hc). apply list_elem_of_fmap. exists rr. split; [done|]. apply list_elem_of_filter. auto.
    + intros y (rr' & -> & ((Hc' & Ho & _) & Hin')%list_elem_of_filter)%list_elem_of_fmap.
      rewrite <- (H rr' Hin' Hc'), Ho. done.
Qed.

(** Prerequisites on values come last. *)
Definition values_last (prs : list RR) : Prop := ∃ a b, prs = a ++ b
  ∧ Forall (λ rr, hClass (Header rr) ≠ ClassINET ∨ scan rr ≠ RcodeSuccess) a
  ∧ Forall (λ rr, hClass (Header rr) = ClassINET ∧ scan rr = RcodeSuccess) b.

Lemma scan_codes a : Forall supported a → Forall answers a →
  Forall (λ rr, hClass (Header rr) ≠ ClassINET ∨ scan rr ≠ RcodeSuccess) a → eval_one <$> a = scan <$> a.
Proof.
  induction a as [|rr a IH]; [done|]. intros [? ?]%Forall_cons [? ?]%Forall_cons [? ?]%Forall_cons. cbn. by rewrite eval_scan, IH.
Qed.

(** C18. RFC 2136's prerequisites: on sections of supported prerequisites, and
    with a store that answers, the evaluation succeeds exactly when the RFC's
    does; and where the prerequisites on values come last, as the RFC evaluates
    them last, it answers the RFC's code. *)
Theorem evalPrerequisites_rfc prs : Forall supported prs → Forall answers prs →
  (evalPrerequisites h prs = RcodeSuccess ↔ rfc prs = RcodeSuccess)
  ∧ (values_last prs → evalPrerequisites h prs = rfc prs).
Proof.
  intros Hsup Hans. rewrite evalPrerequisites_codes. unfold rfc_prerequisites. split.
  - rewrite first_error_success, Forall_fmap.
    assert (∀ rr, rr ∈ prs → eval_one rr = RcodeSuccess
      ↔ scan rr = RcodeSuccess ∧ (hClass (Header rr) = ClassINET → item_txt (owner rr) = rdata rr)) as Hone.
    { intros rr Hin. rewrite Forall_forall in Hsup, Hans.
      destruct (decide (hClass (Header rr) = ClassINET ∧ scan rr = RcodeSuccess)) as [[Hc Hs]|Hn].
      - rewrite eval_value by auto. case_bool_decide; [tauto|]. split; [done|]. intros [_ ?]. tauto.
      - assert (Hn' := Hn). apply not_and_l in Hn'. rewrite eval_scan by auto. tauto. }
    pose proof (values_iff prs Hsup) as Hval. destruct (first_error (scan <$> prs) =? RcodeSuccess) eqn:E; cbn [negb].
    + apply Z.eqb_eq in E. rewrite first_error_success, Forall_fmap, Forall_forall in E.
      destruct (rfc_values item_txt prs).
      * split; [done|]. intros _. apply Forall_forall. intros rr Hin. apply Hone; [done|]. split; [by apply E|by apply Hval].
      * split; [|done]. rewrite Forall_forall. intros Hall. assert (false = true) as Hf; [|done].
        apply Hval. intros rr Hin. apply Hone; [done|]. by apply Hall.
    + apply Z.eqb_neq in E. split; [|done]. rewrite Forall_forall. intros Hall. destruct E.
      apply first_error_success, Forall_fmap, Forall_forall. intros rr Hin. apply (proj1 (Hone rr Hin)). by apply Hall.
  - intros (a & b & -> & Ha & Hb). pose proof (values_iff (a ++ b) Hsup) as Hval.
    apply Forall_app in Hsup as [Hsa Hsb], Hans as [Haa Hab].
    rewrite !fmap_app, !first_error_app, (scan_codes a Hsa Haa Ha).
    destruct (first_error (scan <$> a) =? RcodeSuccess) eqn:E; [|by rewrite E]. apply Z.eqb_eq in E.
    assert (first_error (scan <$> b) = RcodeSuccess) as ->.
    { apply first_error_success, Forall_fmap. eapply Forall_impl; [exact Hb|]. by intros rr [_ ?]. }
    cbn [negb Z.eqb]. change (RcodeSuccess =? RcodeSuccess) with true. cbn [negb].
    rewrite first_error_success, Forall_fmap, Forall_forall in E.
    assert (∀ rr, rr ∈ a → hClass (Header rr) ≠ ClassINET) as Hnot.
    { intros rr Hin. rewrite Forall_forall in Ha. destruct (Ha rr Hin) as [?|Hn]; [done|]. destruct Hn. by apply E. }
    assert (Forall (λ rr, eval_one rr = if bool_decide (item_txt (owner rr) = rdata rr) then RcodeSuccess else RcodeNXRrset) b) as Hev.
    { apply Forall_forall. intros rr Hin. rewrite Forall_forall in Hsb, Hab, Hb. destruct (Hb rr Hin). by apply eval_value; auto. }
    destruct (rfc_values item_txt (a ++ b)).
    + apply first_error_success, Forall_fmap. rewrite Forall_forall in *. intros rr Hin.
      etrans; [exact (Hev rr Hin)|]. rewrite bool_decide_true; [done|]. apply (proj1 Hval eq_refl); [set_solver|by apply Hb].
    + assert (¬ ∀ rr, rr ∈ b → item_txt (owner rr) = rdata rr) as Hno.
      { intros Hall. assert (false = true) as Hf; [|done]. apply Hval.
        intros rr [Hin|Hin]%elem_of_app Hc; [by destruct (Hnot rr Hin)|by apply Hall]. }
      clear -Hev Hno. induction Hev as [|rr b Hr _ IH]; [destruct Hno; by intros rr ?%elem_of_nil|].
      cbn [fmap list_fmap first_error foldr]. change (foldr _ _ (eval_one <$> b)) with (first_error (eval_one <$> b)). rewrite Hr.
      case_bool_decide as Hd; [|done]. cbn. apply IH. intros Hall. apply Hno.
      intros rr' [->|?]%elem_of_cons; auto.
Qed.

(** Types other than ANY and TXT are where the program is not the RFC: that a
    name has no record of such a type always holds of a zone of items, and is
    answered FORMERR. *)
Theorem other_types_refused rr key item :
  hClass (Header rr) = ClassNONE → hRrtype (Header rr) ≠ TypeANY → hRrtype (Header rr) ≠ TypeTXT →
  hTtl (Header rr) = 0 → no_rdata rr = true → parseKey zone (owner rr) = Some key → Get (store h) key = Ok item →
  evalPrerequisites h [rr] = RcodeFormatError ∧ rfc [rr] = RcodeSuccess.
Proof.
  intros Hc Ha Ht Httl Hr Hk HG. split.
  - rewrite evalPrerequisites_codes. cbn. unfold eval_one, checkPrerequisite. rewrite Hk, Httl, HG, Hc. cbn.
    rewrite !(proj2 (Z.eqb_neq (hRrtype (Header rr)) _)) by done. reflexivity.
  - unfold rfc_prerequisites, rfc_scan, zone_rrset, rfc_values. cbn [fmap list_fmap first_error foldr forallb].
    rewrite Httl, (parseKey_in_zone (owner rr)), Hc, Hr by eauto. cbn.
    rewrite !(proj2 (Z.eqb_neq (hRrtype (Header rr)) _)) by done. reflexivity.
Qed.
End Compare.

(** ** Witnesses *)

Definition bob_owner : str := Demo.owner_of "user.bob".

(** The name is in use, and its record is another one. *)
Definition stale_prereqs : list RR :=
  [RR_Other (mkHdr bob_owner TypeANY ClassANY 0) []; RR_TXT (mkHdr bob_owner TypeTXT ClassINET 0) [lit "{}"]].

Lemma evalPrerequisites_rfc_witness :
  evalPrerequisites Demo.handler stale_prereqs = rfc_prerequisites demo_zone (item_txt Demo.handler) stale_prereqs
  ∧ evalPrerequisites Demo.handler stale_prereqs = RcodeNXRrset.
Proof.
  split; [|vm_compute; reflexivity].
  apply (evalPrerequisites_rfc Demo.handler stale_prereqs).
  - repeat apply Forall_cons_2; [| |constructor].
    + split; [left; reflexivity|]. split; [intros _; vm_compute; eauto|]. split; [|intros E; discriminate E].
      intros _. split; [reflexivity|left; reflexivity].
    + split; [left; reflexivity|]. split; [intros _; vm_compute; eauto|]. split; [intros [E|E]; discriminate E|].
      intros _. exists (mkHdr bob_owner TypeTXT ClassINET 0), [lit "{}"], (lit "{}").
      split; [reflexivity|]. split; [reflexivity|vm_compute; reflexivity].
  - assert (∃ m, Get (store Demo.handler) (lit "user.bob") = Ok (Some m) ∧ is_ok (Marshal (Some m)) = true) as (m & HG & Hm).
    { eexists. split; [reflexivity|vm_compute; reflexivity]. }
    repeat apply Forall_cons_2; [| |constructor]; intros key Hk;
      (assert (key = lit "user.bob") as -> by (vm_compute in Hk; injection Hk as <-; reflexivity)); exists (Some m); split; assumption.
  - exists (take 1 stale_prereqs), (drop 1 stale_prereqs). split; [reflexivity|].
    split; (apply Forall_cons_2; [|constructor]); [left; discriminate|split; vm_compute; reflexivity].
Defined.

Lemma other_types_refused_witness :
  evalPrerequisites Demo.handler [RR_Other (mkHdr bob_owner TypeA ClassNONE 0) []] = RcodeFormatError.
Proof.
  assert (∃ item, Get (store Demo.handler) (lit "user.bob") = Ok item) as (item & HG) by (eexists; reflexivity).
  apply (other_types_refused Demo.handler (RR_Other (mkHdr bob_owner TypeA ClassNONE 0) []) (lit "user.bob") item);
    [reflexivity|discriminate|discriminate|reflexivity|reflexivity|vm_compute; reflexivity|exact HG].
Defined.
