(* ===== verification/Replication.v ===== *)
(** * Replicas that follow the journal

    A secondary holds a set of records and applies the deltas of an incremental
    transfer to it.  The theorem of this file is that replaying the journal
    from a serial takes the zone of that serial to the current zone, through
    any sequence of updates whose effect the journal can express. *)

From S2P Require Import Prelude GoStrings Json Names Dns Journal Store Handler HandlerSpec Update UpdateSpec UpdateEffect EndToEnd Transfer TransferSpec Server ServerSpec Demo.

(** ** Replicas *)

Definition replica : Type := RR → Prop.

(** One difference sequence: the deletions, then the additions. *)
Definition apply_delta (Z : replica) (d : Delta) : replica :=
  λ rr, (Z rr ∧ rr ∉ dRemoved d) ∨ rr ∈ dAdded d.

Definition replay (Z : replica) (ds : list Delta) : replica := foldl apply_delta Z ds.

(** Replicas with the same records. *)
#[export] Instance replica_equiv : Equiv replica := λ Z1 Z2, ∀ rr, Z1 rr ↔ Z2 rr.

#[export] Instance replica_equivalence : Equivalence (≡@{replica}).
Proof. split; [by intros Z rr|by intros Z1 Z2 H rr|intros Z1 Z2 Z3 H1 H2 rr; by rewrite (H1 rr)]. Qed.

#[export] Instance apply_delta_proper : Proper ((≡) ==> (=) ==> (≡)) apply_delta.
Proof. intros Z1 Z2 H d ? <- rr. unfold apply_delta. by rewrite (H rr). Qed.

#[export] Instance replay_proper : Proper ((≡) ==> (=) ==> (≡)) replay.
Proof.
  intros Z1 Z2 H ds ? <-. revert Z1 Z2 H. induction ds as [|d ds IH]; intros Z1 Z2 H; [done|].
  apply IH. by rewrite H.
Qed.

Lemma replay_app Z ds ds' : replay Z (ds ++ ds') = replay (replay Z ds) ds'.
Proof. apply foldl_app. Qed.

Section Replication.
Context `{UT : UnicodeTables, D : DnsLib, !DnsLaws D} {W L : Type}
  `{ST : !Store W, !FullStoreSpec W, CL : !ChangeLog L, !ChangeLogSpec L}.
Implicit Types (h : Handler W L) (s : Srv W L).

(** The records of a table, as a full transfer sends them. *)
Definition zone_of h (t : gmap str gomap) : replica := λ rr, rr ∈ table_rrs h t.

Lemma entry_rrs_some h k m rr :
  rr ∈ entry_rrs h (mkEntry k (Some m)) ↔ ∃ blob, Marshal (Some m) = Ok blob ∧ rr = item_record h k blob.
Proof.
  unfold entry_rrs. cbn [eKey eItem]. rewrite itemRRs_spec.
  destruct (Marshal (Some m)) as [blob|e]; cbn [res_map].
  - rewrite list_elem_of_singleton. split; [by intros ->; eauto|by intros (? & [= <-] & ->)].
  - split; [by intros ?%elem_of_nil|by intros (? & ? & _)].
Qed.

Lemma zone_of_spec h t rr :
  zone_of h t rr ↔ ∃ k m blob, t !! k = Some m ∧ Marshal (Some m) = Ok blob ∧ rr = item_record h k blob.
Proof.
  unfold zone_of, table_rrs. rewrite list_elem_of_In, in_flat_map. split.
  - intros ([k m] & Hin%list_elem_of_In%elem_of_map_to_list & Hrr%list_elem_of_In).
    apply entry_rrs_some in Hrr as (blob & Hm & ->). eauto 10.
  - intros (k & m & blob & Hk & Hm & ->). exists (k, m). split.
    + by apply list_elem_of_In, elem_of_map_to_list.
    + apply list_elem_of_In, entry_rrs_some. eauto.
Qed.

Lemma zone_of_cfg h h' t : cfg h = cfg h' → zone_of h t ≡ zone_of h' t.
Proof. intros Hc rr. rewrite !zone_of_spec. unfold item_record. by rewrite Hc. Qed.

Lemma item_record_key h k k' b b' : good_zone (cZone (cfg h)) → reachable k → reachable k' →
  item_record h k b = item_record h k' b' → k = k'.
Proof. intros Hz Hk Hk' [= Hn _]. by eapply itemName_inj. Qed.

(** ** One update *)

(** The updates whose effect on the table the journal can express: the key
    parses back from its owner name, and nothing or one object is written,
    whose JSON the store keeps. *)
Definition clean_op (key : str) (inserts : list (str * Item)) : Prop :=
  reachable key
  ∧ (inserts = [] ∨ ∃ m m', inserts = [(key, Some m)] ∧ stored key (Some m) = Some m'
       ∧ Marshal (Some m') = Marshal (Some m)).

Definition all_reachable (t : gmap str gomap) : Prop := ∀ k m, t !! k = Some m → reachable k.

Lemma removed_rrs_spec h key (i : Item) rr :
  rr ∈ removed_rrs h [(key, i)] ↔ ∃ m blob, i = Some m ∧ Marshal i = Ok blob ∧ rr = item_record h key blob.
Proof.
  unfold removed_rrs. cbn. rewrite app_nil_r. destruct i as [m|]; cbn [is_none].
  - unfold render. change (rr ∈ entry_rrs h (mkEntry key (Some m)) ↔
      ∃ m' blob, Some m = Some m' ∧ Marshal (Some m) = Ok blob ∧ rr = item_record h key blob).
    rewrite entry_rrs_some. naive_solver.
  - split; [by intros ?%elem_of_nil|by intros (? & ? & ? & _)].
Qed.

Lemma added_rrs_spec h key m rr :
  rr ∈ added_rrs h [(key, Some m)] ↔ ∃ blob, Marshal (Some m) = Ok blob ∧ rr = item_record h key blob.
Proof.
  unfold added_rrs. cbn. rewrite app_nil_r. apply entry_rrs_some.
Qed.

Lemma zone_step_delta h key inserts z : good_zone (cZone (cfg h)) → all_reachable (z_table z) →
  clean_op key inserts →
  replay (zone_of h (z_table z)) (drop (length (z_log z)) (z_log (zone_step h key inserts z)))
  ≡ zone_of h (z_table (zone_step h key inserts z)).
Proof.
  intros Hz Hr [Hk Hop]. unfold zone_step. cbn [z_log z_table]. rewrite drop_app_length. cbn [replay foldl].
  intros rr. unfold apply_delta. cbn [dRemoved dAdded]. rewrite removed_rrs_spec, !zone_of_spec.
  assert (∀ k m blob, z_table z !! k = Some m → Marshal (Some m) = Ok blob → rr = item_record h k blob →
    ((¬ ∃ m blob, z_table z !! key = Some m ∧ Marshal (z_table z !! key) = Ok blob ∧ rr = item_record h key blob)
     ↔ k ≠ key)) as Hkey.
  { intros k m blob Hkm Hm ->. split.
    - intros Hn ->. destruct Hn. exists m, blob. by rewrite Hkm.
    - intros Hne (m' & blob' & Hkm' & _ & He). apply Hne. eapply item_record_key; [done| | |exact He]; eauto. }
  destruct Hop as [-> |(mi & mi' & -> & Hst & HMar)]; cbn [write_table].
  - setoid_rewrite lookup_delete_Some. cbn. split.
    + intros [[(k & m & blob & Hkm & Hm & Hrr) Hn]|[]%elem_of_nil].
      exists k, m, blob. rewrite (Hkey k m blob) in Hn by done. auto.
    + intros (k & m & blob & [Hne Hkm] & Hm & Hrr). left. split; [eauto 10|]. rewrite (Hkey k m blob); auto.
  - rewrite added_rrs_spec, Hst. split.
    + intros [[(k & m & blob & Hkm & Hm & Hrr) Hn]|(blob & Hm & Hrr)].
      * exists k, m, blob. rewrite (Hkey k m blob) in Hn by done.
        by rewrite lookup_partial_alter_ne by done.
      * exists key, mi', blob. by rewrite lookup_partial_alter_eq, HMar.
    + intros (k & m & blob & Hkm & Hm & Hrr). destruct (decide (k = key)) as [->|Hne].
      * rewrite lookup_partial_alter_eq in Hkm. injection Hkm as ->. rewrite HMar in Hm. right. eauto.
      * rewrite lookup_partial_alter_ne in Hkm by done. left. split; [eauto 10|].
        by rewrite (Hkey k m blob).
Qed.

Lemma zone_step_reachable h key inserts z : all_reachable (z_table z) → clean_op key inserts →
  all_reachable (z_table (zone_step h key inserts z)).
Proof.
  intros Hr [Hk Hop] k m. unfold zone_step. cbn [z_table].
  destruct (decide (k = key)) as [->|Hne]; [done|].
  destruct Hop as [-> |(mi & mi' & -> & _)]; cbn [write_table].
  - rewrite lookup_delete_ne by done. apply Hr.
  - rewrite lookup_partial_alter_ne by done. apply Hr.
Qed.

(** ** Any sequence of messages *)

(** One message served, whatever it is; an update that gets as far as the store
    must be a clean one, and a failed write must leave the table alone. *)
Definition step (s s' : Srv W L) : Prop :=
  ∃ w req, ServeDNS w req s = (tt, s') ∧ serial (hd_ s) + 1 < 2 ^ 32
  ∧ ∀ key inserts, plan (hd_ s) req key inserts →
      clean_op key inserts
      ∧ ∀ st e, apply_write full_writer (store (hd_ s)) inserts [key] = (st, Some e) →
          view st = view (store (hd_ s)).

Lemma plan_metrics h mt req key inserts : plan (set_metrics mt h) req key inserts → plan h req key inserts.
Proof. intros [H1 H2 H3 H4 H5]. split; try done. inversion H5; subst; by econstructor. Qed.

Lemma represents_same h h' z : store h' = store h → serial h' = serial h → changelog h' = changelog h →
  represents h z → represents h' z.
Proof. intros H1 H2 H3 [? ? ? ?]. split; congruence || by rewrite ?H1, ?H2, ?H3. Qed.

(** [z'] extends the history of [z] by deltas that replay to it. *)
Definition extends h (z z' : zone_state) : Prop :=
  z_base z' = z_base z ∧ ∃ ds, z_log z' = z_log z ++ ds
  ∧ replay (zone_of h (z_table z)) ds ≡ zone_of h (z_table z').

Lemma extends_refl h z : extends h z z.
Proof. split; [done|]. exists []. by rewrite app_nil_r. Qed.

Lemma extends_same_table h z z' : z_base z' = z_base z → z_log z' = z_log z → z_table z' = z_table z →
  extends h z z'.
Proof. intros H1 H2 H3. split; [done|]. exists []. rewrite app_nil_r. cbn. by rewrite H3. Qed.

Lemma extends_trans h z1 z2 z3 : extends h z1 z2 → extends h z2 z3 → extends h z1 z3.
Proof.
  intros (Hb1 & ds1 & Hl1 & Hr1) (Hb2 & ds2 & Hl2 & Hr2). split; [congruence|].
  exists (ds1 ++ ds2). split; [by rewrite Hl2, Hl1, app_assoc|]. by rewrite replay_app, Hr1.
Qed.

Lemma extends_cfg h h' z z' : cfg h = cfg h' → extends h z z' → extends h' z z'.
Proof.
  intros Hc (Hb & ds & Hl & Hr). split; [done|]. exists ds. split; [done|].
  by rewrite <- !(zone_of_cfg h h').
Qed.

Lemma zone_step_extends h key inserts z : good_zone (cZone (cfg h)) → all_reachable (z_table z) →
  clean_op key inserts → extends h z (zone_step h key inserts z).
Proof.
  intros Hz Hr Hop. split; [done|]. eexists. split; [reflexivity|].
  pose proof (zone_step_delta h key inserts z Hz Hr Hop) as H. unfold zone_step in H at 1.
  cbn [z_log] in H. by rewrite drop_app_length in H.
Qed.

Record follows (c : Config) (s : Srv W L) (z : zone_state) : Prop := {
  fo_rep : represents (hd_ s) z;
  fo_reach : all_reachable (z_table z);
  fo_cfg : cfg (hd_ s) = c;
}.

Lemma update_follows c w req s s' z :
  good_zone (cZone c) → follows c s z → tsigValid (hd_ s) w req = true →
  handleUpdate w req s = (tt, s') → serial (hd_ s) + 1 < 2 ^ 32 →
  (∀ key inserts, plan (hd_ s) req key inserts → clean_op key inserts
     ∧ ∀ st e, apply_write full_writer (store (hd_ s)) inserts [key] = (st, Some e) →
         view st = view (store (hd_ s))) →
  ∃ z', follows c s' z' ∧ extends (hd_ s) z z'.
Proof.
  intros Hz [Hrep Hreach Hc] HV Hu Hlt Hclean.
  destruct (handleUpdate_outcome w req s HV) as (rc & s1 & Ho & E). rewrite E in Hu. injection Hu as <-.
  destruct Ho as [rc _|wr key inserts st e Hw Hp Ha|wr key inserts st old Hw Hp HG Ha].
  - exists z. split; [by split|apply extends_refl].
  - rewrite writer_full in Hw. injection Hw as <-. destruct (Hclean _ _ Hp) as [_ Hv].
    exists z. split; [|apply extends_refl]. split; [|done|done]. destruct Hrep as [H1 H2 H3 H4].
    split; [|done..]. cbn. by rewrite (Hv st e Ha).
  - destruct (Hclean _ _ Hp) as [Hop _]. exists (zone_step (hd_ s) key inserts z). split.
    + split; [|by apply zone_step_reachable|etrans; [apply committed_fields|done]].
      eapply committed_represents; try done. by rewrite <- (rep_serial _ _ Hrep).
    + apply zone_step_extends; [by rewrite Hc|done|done].
Qed.

Lemma step_follows c s s' z : good_zone (cZone c) → follows c s z → step s s' →
  ∃ z', follows c s' z' ∧ extends (hd_ s) z z'.
Proof.
  intros Hz Hf (w & req & Hs & Hlt & Hclean). rewrite ServeDNS_serve in Hs.
  destruct Hf as [Hrep Hreach Hc].
  assert (follows c (queried s) z) as Hf by (split; [|done..]; by apply (represents_same (hd_ s))).
  destruct (decide (mOpcode req = OpcodeUpdate)) as [Hop|Hop];
    [destruct (tsigValid (hd_ s) w req) eqn:HV; [destruct (mQuestion req) as [|q rest] eqn:Hq|]|].
  - unfold serve, bind, get_h in Hs. rewrite Hq in Hs. injection Hs as <-.
    exists z. split; [|apply extends_refl]. split; [|done..]. by apply (represents_same (hd_ s)).
  - unfold serve, bind, get_h in Hs. rewrite Hq, Hop in Hs.
    change (handleUpdate w req (queried s) = (tt, s')) in Hs.
    destruct (update_follows c w req (queried s) s' z Hz Hf HV Hs Hlt) as (z' & Hf' & He).
    { intros key inserts Hp%plan_metrics. by apply Hclean. }
    exists z'. split; [done|]. by apply (extends_cfg (hd_ (queried s))).
  - destruct (serve_reads w req (queried s)) as (mt & ms & E); [by right|]. rewrite Hs in E. cbn in E. subst s'.
    exists z. split; [|apply extends_refl]. split; [|done..]. by apply (represents_same (hd_ s)).
  - destruct (serve_reads w req (queried s)) as (mt & ms & E); [by left|]. rewrite Hs in E. cbn in E. subst s'.
    exists z. split; [|apply extends_refl]. split; [|done..]. by apply (represents_same (hd_ s)).
Qed.

Lemma steps_follow c s s' z : good_zone (cZone c) → follows c s z → rtc step s s' →
  ∃ z', follows c s' z' ∧ extends (hd_ s) z z'.
Proof.
  intros Hz Hf Hsteps. revert z Hf. induction Hsteps as [s|s1 s2 s3 H1 _ IH]; intros z Hf.
  - exists z. split; [done|apply extends_refl].
  - destruct (step_follows c s1 s2 z Hz Hf H1) as (z2 & Hf2 & He2).
    destruct (IH z2 Hf2) as (z3 & Hf3 & He3). exists z3. split; [done|].
    eapply extends_trans; [exact He2|]. apply (extends_cfg (hd_ s2)); [|done].
    by rewrite (fo_cfg _ _ _ Hf2), (fo_cfg _ _ _ Hf).
Qed.

(** ** Properties *)

(** C1. Replication is exact: start from any state whose journal and serial agree
    and whose keys are reachable, serve any sequence of messages whose updates
    are clean; a replica that holds the zone of the start and replays the
    deltas the journal reports since the start's serial then holds exactly the
    current zone. *)
Theorem replicas_converge s s' z ds log' :
  good_zone (cZone (cfg (hd_ s))) → represents (hd_ s) z → all_reachable (z_table z) →
  rtc step s s' → serial (hd_ s') < 2 ^ 32 →
  changelog (hd_ s') = Some log' → Deltas (serial (hd_ s)) log' = (Some ds, true) →
  replay (zone_of (hd_ s) (view (store (hd_ s)))) ds ≡ zone_of (hd_ s') (view (store (hd_ s'))).
Proof.
  intros Hz Hrep Hreach Hsteps Hlt Hlog Hds.
  destruct (steps_follow (cfg (hd_ s)) s s' z Hz ltac:(by split) Hsteps) as (z' & [Hrep' _ Hc] & Hb & es & Hl & Hr).
  destruct Hrep' as [Ht' Hs' (c' & Hc' & Hlr) Hb']. rewrite Hc' in Hlog. injection Hlog as ->.
  rewrite (rep_table _ _ Hrep), Ht', <- (zone_of_cfg (hd_ s) (hd_ s')) by done. rewrite <- Hr.
  assert (ds = es) as ->; [|done].
  pose proof (rep_serial _ _ Hrep) as Hs. pose proof (rep_base _ _ Hrep) as Hb0. unfold z_serial in *.
  assert (length (z_log z') = length (z_log z) + length es)%nat by (rewrite Hl; apply length_app).
  destruct (log_deltas log' _ _ (serial (hd_ s)) Hlr) as [E|[_ E]]; [lia..| |].
  { rewrite Hds in E. done. }
  rewrite Hds in E. injection E as ->. rewrite Hb, Hl, Hs.
  apply drop_app_length'. lia.
Qed.
End Replication.

(** ** Witnesses *)

Definition reachableb (k : str) : bool :=
  negb (bool_decide (k = [])) && (negb (safe_key k) || negb (HasPrefix k (lit "k-"))).

Lemma reachableb_spec k : reachableb k = true → reachable k.
Proof.
  unfold reachableb. intros H. go_bool. split; [done|]. intros Hs. rewrite Hs in *. cbn in *. by go_bool.
Qed.

Lemma demo_all_reachable : all_reachable (view Sample.demo_store).
Proof.
  intros k m Hk. apply elem_of_map_to_list in Hk. apply reachableb_spec.
  assert (forallb (λ p, reachableb p.1) (map_to_list (view Sample.demo_store)) = true) as H
    by (vm_compute; reflexivity).
  rewrite forallb_forall in H. by apply list_elem_of_In, H in Hk.
Qed.

Definition served_put : Demo.S := (ServeDNS Demo.tcp Demo.put_dave Demo.srv).2.
Definition served_log : MemChangeLog.t :=
  match changelog (hd_ served_put) with Some c => c | None => MemChangeLog.NewMemChangeLog 0 end.

Lemma put_dave_single : single_put (hd_ Demo.srv) Demo.put_dave dave_key dave_item.
Proof.
  apply (single_put_intro _ _ _ _ (mkHdr (Demo.owner_of "user.dave") TypeTXT ClassINET 0) [Demo.dave] Demo.dave);
    vm_compute; reflexivity.
Qed.

Lemma dave_clean : reachable dave_key ∧ ∃ m, dave_item = Some m.
Proof.
  split; [apply reachableb_spec; vm_compute; reflexivity|].
  destruct dave_item as [m|] eqn:E; [eauto|]. vm_compute in E. discriminate E.
Qed.

Lemma put_dave_step : step Demo.srv served_put.
Proof.
  exists Demo.tcp, Demo.put_dave. split; [exact (run_unit (ServeDNS Demo.tcp Demo.put_dave Demo.srv))|].
  split; [vm_compute; reflexivity|]. intros key inserts Hp. destruct dave_clean as [Hr [m Hm]].
  destruct (single_put_plan (hd_ Demo.srv) Demo.put_dave dave_key dave_item key inserts good_demo_zone Hr put_dave_single Hp) as [-> ->].
  rewrite Hm. split; [split; [exact Hr|right; exists m, m; repeat split; reflexivity]|].
  intros st e. discriminate.
Qed.

Lemma replicas_converge_witness :
  match MemChangeLog.Deltas 100 served_log with
  | (Some ds, true) =>
      replay (zone_of (hd_ Demo.srv) (view (store (hd_ Demo.srv)))) ds
      ≡ zone_of (hd_ served_put) (view (store (hd_ served_put)))
  | _ => False
  end.
Proof.
  destruct (MemChangeLog.Deltas 100 served_log) as [[ds|] []] eqn:E; try (vm_compute in E; discriminate E).
  apply (replicas_converge Demo.srv served_put (mkZone (view Sample.demo_store) 100 []) ds served_log).
  - exact good_demo_zone.
  - exact demo_represents.
  - exact demo_all_reachable.
  - apply rtc_once, put_dave_step.
  - vm_compute. reflexivity.
  - vm_compute. reflexivity.
  - exact E.
Defined.
