(* ===== verification/TypeSpec.v ===== *)
(** * The table stays well-typed

    Every item that reaches the table was decoded from JSON, so it can be
    encoded again: whatever messages are served, no lookup of an item and no
    transfer meets a value that encoding/json refuses. *)

From S2P Require Import Prelude GoStrings Float64 Json JsonSpec JsonTyping Names Dns Journal Store Handler HandlerSpec Update UpdateSpec UpdateEffect Transfer TransferSpec Server ServerSpec EndToEnd Replication Demo.

Definition typed_table (t : gmap str gomap) : Prop := map_Forall (λ _ m, typed (VMap m)) t.

(** What the store promises on values: what it stores of an item is typed if the
    item is, and a write that fails leaves nothing else behind. *)
Class TypedStore (W : Type) `{ST : Store W, !FullStoreSpec W} := {
  stored_typed k i : typed_item i → typed_item (stored k i);
  failed_put w k i w' e : Put full_writer w k i = (w', Some e) → typed_item i →
    typed_table (view w) → typed_table (view w');
  failed_delete w k w' e : Delete full_writer w k = (w', Some e) → typed_table (view w) → typed_table (view w');
}.

#[export] Instance sample_typed : TypedStore Sample.sampleStore.
Proof. split; [done|discriminate..]. Qed.

Section Types.
Context `{UT : UnicodeTables, D : DnsLib, !DnsLaws D} {W L : Type}
  `{ST : !Store W, SP : !FullStoreSpec W, !TypedStore W, CL : !ChangeLog L}.
Implicit Types (h : Handler W L) (s : Srv W L).

Lemma typed_put t k i : typed_table t → typed_item i → typed_table (partial_alter (λ _, i) k t).
Proof.
  intros Ht Hi k' m. destruct (decide (k = k')) as [<-|Hne].
  - rewrite lookup_partial_alter_eq. apply Hi.
  - rewrite lookup_partial_alter_ne by done. apply Ht.
Qed.

Lemma typed_delete t k : typed_table t → typed_table (delete k t).
Proof. intros Ht. by apply map_Forall_delete. Qed.

(** What an update inserts was decoded from JSON. *)
Lemma planned_typed h req key inserts : plan h req key inserts →
  inserts = [] ∨ ∃ item rest, inserts = (key, item) :: rest ∧ typed_item item.
Proof.
  intros Hp. destruct (plan_operation _ _ _ _ Hp) as [name payload item rest _ _ _ Hu _ _|]; [right|by left].
  exists item, rest. split; [done|]. by eapply Unmarshal_typed.
Qed.

Lemma write_typed h req key inserts st err : plan h req key inserts → typed_table (view (store h)) →
  apply_write full_writer (store h) inserts [key] = (st, err) → typed_table (view st).
Proof.
  intros Hp Ht. destruct (planned_typed h req key inserts Hp) as [->|(item & rest & -> & Hi)]; cbn [apply_write hd].
  - destruct err as [e|]; [by intros H%failed_delete|]. intros H%delete_view. rewrite H. by apply typed_delete.
  - destruct err as [e|]; [by intros H%failed_put|]. intros H%put_view. rewrite H. apply typed_put; [done|].
    by apply stored_typed.
Qed.

(** One message of any kind, however it is answered. *)
Definition served s s' : Prop := ∃ w req, ServeDNS w req s = (tt, s').

Lemma read_served w req s : mOpcode req ≠ OpcodeUpdate ∨ tsigValid (hd_ s) w req = false →
  store (hd_ (serve w req s).2) = store (hd_ s).
Proof. intros H. by destruct (serve_reads w req s H) as (mt & ms & ->). Qed.

Lemma update_typed w req s s' : tsigValid (hd_ s) w req = true → handleUpdate w req s = (tt, s') →
  typed_table (view (store (hd_ s))) → typed_table (view (store (hd_ s'))).
Proof.
  intros HV Hu Ht. destruct (handleUpdate_outcome w req s HV) as (rc & s1 & Ho & E). rewrite E in Hu. injection Hu as <-.
  cbn [hd_]. destruct Ho as [rc _|wr key inserts st e Hw Hp Ha|wr key inserts st old Hw Hp _ Ha]; [done|..];
    rewrite writer_full in Hw; injection Hw as <-; apply (write_typed _ _ _ _ _ _ Hp Ht) in Ha; [done|].
  cbn [hd_]. by rewrite (proj1 (proj2 (committed_fields (hd_ s) st key old inserts))).
Qed.

Lemma served_typed s s' : served s s' → typed_table (view (store (hd_ s))) → typed_table (view (store (hd_ s'))).
Proof.
  intros (w & req & Hs) Ht. rewrite ServeDNS_serve in Hs. change (store (hd_ s)) with (store (hd_ (queried s))) in Ht.
  assert (s' = (serve w req (queried s)).2) as E by by rewrite Hs.
  destruct (decide (mOpcode req = OpcodeUpdate)) as [Hop|Hop]; [|rewrite E, read_served; auto].
  destruct (tsigValid (hd_ (queried s)) w req) eqn:HV; [|rewrite E, read_served; auto].
  destruct (mQuestion req) as [|q rest] eqn:Hq.
  - unfold serve, bind, get_h in Hs. rewrite Hq in Hs. by injection Hs as <-.
  - unfold serve, bind, get_h in Hs. rewrite Hq, Hop in Hs. by apply (update_typed w req (queried s)).
Qed.

(** C16. Type preservation: start from a table whose items are well-typed JSON
    objects and serve any messages; then every item of the table is still
    well-typed and can be encoded, so that its record is in the zone a full
    transfer sends, and a lookup that reads it is not answered SERVFAIL. *)
Theorem table_stays_typed s s' : typed_table (view (store (hd_ s))) → rtc served s s' →
  let h := hd_ s' in
  typed_table (view (store h))
  ∧ ∀ k m, view (store h) !! k = Some m →
      ∃ blob, Marshal (Some m) = Ok blob
      ∧ item_record h k blob ∈ table_rrs h (view (store h))
      ∧ ∀ req q, good_zone (cZone (cfg h)) → reachable k → ToLower (qName q) = itemName (cZone (cfg h)) k →
          index_name h k = false → (k = lit "ns1" → qType q ≠ TypeA ∧ qType q ≠ TypeANY) →
          is_ok (Get (store h) k) = true → mRcode (buildResponse h req q) = RcodeSuccess.
Proof.
  intros Ht Hs. assert (typed_table (view (store (hd_ s')))) as Ht'.
  { clear -Ht Hs DnsLaws0 TypedStore0. induction Hs as [|s1 s2 s3 H1 _ IH]; [done|]. by apply IH, (served_typed s1). }
  split; [done|]. intros k m Hk. destruct (Marshal_typed (Some m)) as [blob Hb]; [intros m' [= <-]; by eapply Ht'|].
  exists blob. split; [done|]. split; [apply zone_of_spec; eauto 10|].
  intros req q Hz Hr Hq Hi Hns HG. rewrite (buildResponse_point (hd_ s') req q k) by done.
  pose proof (pointLookup_spec (hd_ s') req q k) as H. cbv zeta in H.
  destruct (Get (store (hd_ s')) k) as [i|e] eqn:E; [|done]. apply get_view in E as ->. rewrite Hk, Hb in H.
  destruct (txt_or_any q); by destruct H as (Hrc & _).
Qed.
End Types.

(** ** Witness *)

Lemma demo_typed : typed_table (view Sample.demo_store).
Proof.
  intros k m Hk%elem_of_map_to_list. apply typedb_spec.
  assert (forallb (λ p, typedb (VMap p.2)) (map_to_list (view Sample.demo_store)) = true) as H by (vm_compute; reflexivity).
  rewrite forallb_forall in H. by apply list_elem_of_In, H in Hk.
Qed.

Lemma table_stays_typed_witness :
  typed_table (view (store (hd_ served_put)))
  ∧ ∃ m blob, view (store (hd_ served_put)) !! dave_key = Some m ∧ Marshal (Some m) = Ok blob.
Proof.
  destruct (table_stays_typed Demo.srv served_put demo_typed) as [H1 H2].
  - apply rtc_once. exists Demo.tcp, Demo.put_dave. exact (run_unit (ServeDNS Demo.tcp Demo.put_dave Demo.srv)).
  - split; [exact H1|]. destruct (view (store (hd_ served_put)) !! dave_key) as [m|] eqn:E; [|vm_compute in E; discriminate E].
    destruct (H2 dave_key m E) as (blob & Hb & _). exists m, blob. split; [reflexivity|exact Hb].
Defined.
