(* ===== verification/RaceSpec.v ===== *)
(** * Threads of updates

    A thread alone does what [processUpdate] does, and every thread ends after
    so many turns of its own, whatever the others do. *)

From S2P Require Import Prelude GoStrings Json Names Dns Journal Store Handler HandlerSpec Update UpdateSpec UpdateEffect Replication Race Demo.

Section Solo.
Context `{UT : UnicodeTables, D : DnsLib} {W L : Type} `{ST : !Store W, CL : !ChangeLog L}.
Implicit Types h : Handler W L.

(** ** A thread alone *)

Lemma solo_S h req p n : solo h req p (S n) = solo (advance h req p).1 req (advance h req p).2 n.
Proof. unfold solo. rewrite Nat.iter_succ_r. by destruct (advance h req p). Qed.

Lemma evalPrerequisites_cons h rr rest :
  evalPrerequisites h (rr :: rest) =
  if evalPrerequisites h [rr] =? RcodeSuccess then evalPrerequisites h rest else evalPrerequisites h [rr].
Proof.
  cbn. destruct (parseKey _ _) as [key|]; [|done]. destruct (negb _); [done|].
  destruct (Get (store h) key) as [item|]; [|done].
  pose proof (checkPrerequisite_spec rr item) as Hs. destruct (checkPrerequisite rr item) as [rc|]; [|done].
  destruct Hs as [_ Hs%Z.eqb_neq]. by rewrite Hs.
Qed.

Lemma solo_checks h req rest :
  ∃ n, solo h req (Checking rest) n =
    if evalPrerequisites h rest =? RcodeSuccess then (h, after_checks (cZone (cfg h)) req)
    else (h, Finished (evalPrerequisites h rest)).
Proof.
  induction rest as [|rr rest [n IH]]; [by exists 1%nat|]. rewrite evalPrerequisites_cons.
  destruct (evalPrerequisites h [rr] =? RcodeSuccess) eqn:E.
  - exists (S n). rewrite solo_S. cbn [advance]. by rewrite E.
  - exists 1%nat. rewrite solo_S. cbn [advance]. by rewrite E.
Qed.

(** The update section leads to an answer or to one key, which every insertion
    is for. *)
Lemma after_checks_cases zone req :
  (∃ rc, after_checks zone req = Finished rc)
  ∨ ∃ key inserts, after_checks zone req = Reading inserts [key] ∧ Forall (λ ki, ki.1 = key) inserts.
Proof.
  unfold after_checks. destruct (collect _ _ _) as [rc|co]; [by left; eauto|].
  destruct (build_inserts _ _ _) as [rc|inserts]; [by left; eauto|].
  destruct (1 <? size _)%nat eqn:H1; [by left; eauto|]. destruct (size _ =? 0)%nat eqn:H0; [by left; eauto|].
  apply Nat.ltb_ge in H1. apply Nat.eqb_neq in H0.
  destruct (Strings_singleton (affectedSet (co_deletes co) inserts)) as (key & -> & Hk); [lia|].
  right. exists key, inserts. split; [done|]. apply Forall_forall. intros [k i] Hin. cbn.
  assert (k ∈ affectedSet (co_deletes co) inserts) as H.
  { apply affected_elem. right. apply list_elem_of_fmap. by exists (k, i). }
  by apply Hk in H.
Qed.

Lemma solo_commit h wr req inserts key : writer = Some wr →
  ∃ n, solo h req (Reading inserts [key]) n =
    match Get (store h) key with
    | Err _ => (h, Finished RcodeServerFailure)
    | Ok old =>
        match apply_write wr (store h) inserts [key] with
        | (st, Some _) => (set_store st h, Finished RcodeServerFailure)
        | (st, None) => (committed h st key old inserts, Finished RcodeSuccess)
        end
    end.
Proof.
  intros Hw. destruct (Get (store h) key) as [old|e] eqn:HG.
  - destruct (apply_write wr (store h) inserts [key]) as [st [e|]] eqn:HA.
    + exists 2%nat. rewrite !solo_S. cbn [advance mapM_res res_bind]. rewrite HG. cbn [res_bind fst snd advance].
      rewrite Hw, HA. done.
    + exists 5%nat. rewrite !solo_S. cbn [advance mapM_res res_bind]. rewrite HG. cbn [res_bind fst snd advance].
      rewrite Hw, HA. cbn [is_none negb fst snd advance]. unfold committed, commitWrite, record_delta, bump_serial.
      by destruct (changelog h) eqn:E; cbn; rewrite E.
  - exists 1%nat. rewrite solo_S. cbn [advance mapM_res res_bind]. by rewrite HG.
Qed.

(** A run that begins with [n] calls. *)
Lemma solo_after h req p n h' p' (P : Handler W L * phase → Prop) :
  solo h req p n = (h', p') → (∃ k, P (solo h' req p' k)) → ∃ k, P (solo h req p k).
Proof.
  intros Hn [k Hk]. exists (n + k)%nat.
  assert (∀ n h p, solo h req p (n + k) = solo (solo h req p n).1 req (solo h req p n).2 k) as ->.
  { clear. induction n as [|n IH]; intros h p; [done|]. cbn [Nat.add]. by rewrite !solo_S, IH. }
  by rewrite Hn.
Qed.

(** C14. A thread that nobody interrupts does what [processUpdate] does: after
    finitely many calls it has the same answer and has left the handler the
    same. *)
Theorem solo_processUpdate req s :
  let '(rc, s') := processUpdate req s in
  ∃ n, solo (hd_ s) req Started n = (hd_ s', Finished rc).
Proof.
  set (h := hd_ s). unfold processUpdate, bind, get_h, ret. fold h.
  destruct writer as [wr|] eqn:Hw; [|exists 1%nat; rewrite solo_S; cbn; by rewrite Hw].
  assert (advance h req Started = match mQuestion req with
    | [q] => if negb (EqualFold (qName q) (cZone (cfg h))) || negb (qType q =? TypeSOA) || negb (qClass q =? ClassINET)
             then (h, Finished RcodeFormatError) else (h, Checking (mAnswer req))
    | _ => (h, Finished RcodeFormatError) end) as Hs by (cbn; by rewrite Hw).
  destruct (mQuestion req) as [|q [|]]; [exists 1%nat; by rewrite solo_S, Hs| |exists 1%nat; by rewrite solo_S, Hs].
  destruct (_ || _); [exists 1%nat; by rewrite solo_S, Hs|].
  destruct (solo_checks h req (mAnswer req)) as [n Hn].
  assert (solo h req Started (S n) = solo h req (Checking (mAnswer req)) n) as Hn' by (by rewrite solo_S, Hs).
  rewrite Hn in Hn'. clear Hn Hs.
  destruct (evalPrerequisites h (mAnswer req) =? RcodeSuccess); cbn [negb]; [|by exists (S n)].
  destruct (after_checks_cases (cZone (cfg h)) req) as [[rc Hrc]|(key & inserts & Hr & _)].
  - revert Hn' Hrc. unfold after_checks. intros Hn' Hrc.
    destruct (collect _ _ _) as [rc0|co]; [by exists (S n)|].
    destruct (build_inserts _ _ _) as [rc0|inserts]; [by exists (S n)|].
    destruct (1 <? size _)%nat; [by exists (S n)|]. destruct (size _ =? 0)%nat; [by exists (S n)|done].
  - revert Hn' Hr. unfold after_checks. intros Hn' Hr.
    destruct (collect _ _ _) as [rc0|co]; [done|]. destruct (build_inserts _ _ _) as [rc0|ins]; [done|].
    destruct (1 <? size _)%nat; [done|]. destruct (size _ =? 0)%nat; [done|]. injection Hr as -> Hr. rewrite Hr in Hn' |- *.
    destruct (solo_commit h wr req inserts key Hw) as [k Hk]. rewrite commitUpdate_one. fold h.
    revert Hk. destruct (Get (store h) key) as [old|e]; [destruct (apply_write _ _ _ _) as [st [e|]]|]; intros Hk;
      refine (solo_after _ _ _ _ _ _ (λ r, r = _) Hn' _); by exists k.
Qed.

(** ** Every thread ends *)

(** The calls a thread still has to make, whatever the others do. *)
Definition calls_left (req : Msg) (p : phase) : nat :=
  match p with
  | Started => length (mAnswer req) + 7
  | Checking rest => length rest + 6
  | Reading _ _ => 5
  | Writing _ _ _ => 4
  | Counting _ _ => 3
  | Bumping _ _ => 2
  | Recording _ _ _ => 1
  | Finished _ => 0
  end.

Lemma advance_left h req p : (calls_left req (advance h req p).2 ≤ calls_left req p - 1)%nat.
Proof.
  destruct p as [|[|rr rest]|ins aff|ins aff old|ins old|ins old|ins old s|rc]; cbn [advance].
  - repeat case_match; cbn; lia.
  - destruct (after_checks_cases (cZone (cfg h)) req) as [[rc ->]|(key & ins & -> & _)]; cbn; lia.
  - case_match; cbn; lia.
  - case_match; cbn; lia.
  - destruct writer; [destruct (apply_write _ _ _ _) as [st err]; destruct (negb _)|]; cbn; lia.
  - cbn; lia.
  - cbn; lia.
  - cbn; lia.
  - cbn; lia.
Qed.

Lemma run_left sched : ∀ sys i req p, threads sys !! i = Some (req, p) →
  ∃ p', threads (run sys sched) !! i = Some (req, p')
    ∧ (calls_left req p' ≤ calls_left req p - count_occ Nat.eq_dec sched i)%nat.
Proof.
  induction sched as [|j sched IH]; intros sys i req p Hi; [exists p; split; [done|cbn; lia]|].
  change (run sys (j :: sched)) with (run (step_thread sys j) sched).
  assert (∃ p1, threads (step_thread sys j) !! i = Some (req, p1)
    ∧ (calls_left req p1 ≤ calls_left req p - if Nat.eq_dec j i then 1 else 0)%nat) as (p1 & H1 & Hl1).
  { unfold step_thread. destruct (threads sys !! j) as [[rj pj]|] eqn:Hj.
    - destruct (advance (shared sys) rj pj) as [h' pj'] eqn:E. cbn [threads]. destruct (Nat.eq_dec j i) as [->|Hne].
      + rewrite Hi in Hj. injection Hj as <- <-. exists pj'. split.
        * apply list_lookup_insert_eq. by eapply lookup_lt_Some.
        * pose proof (advance_left (shared sys) req p) as H. by rewrite E in H.
      + exists p. rewrite list_lookup_insert_ne by done. split; [done|lia].
    - destruct (Nat.eq_dec j i) as [->|Hne]; [congruence|]. exists p. split; [done|lia]. }
  destruct (IH _ _ _ _ H1) as (p' & Hp' & Hl). exists p'. split; [done|].
  cbn [count_occ]. destruct (Nat.eq_dec j i); lia.
Qed.

Lemma run_length sched : ∀ sys, length (threads (run sys sched)) = length (threads sys).
Proof.
  induction sched as [|j l IH]; intros sys; [done|].
  change (run sys (j :: l)) with (run (step_thread sys j) l). rewrite IH.
  unfold step_thread. destruct (threads sys !! j) as [[? ?]|]; [|done].
  destruct (advance _ _ _). apply length_insert.
Qed.

(** Each turn of a thread is one call, and none is repeated: under any schedule
    that gives every thread one turn per prerequisite and seven more, all are
    answered. *)
Theorem enough_turns h reqs sched :
  (∀ i req, reqs !! i = Some req → (length (mAnswer req) + 7 ≤ count_occ Nat.eq_dec sched i)%nat) →
  all_finished (run (launch h reqs) sched) = true.
Proof.
  intros Hturns. unfold all_finished. rewrite forallb_forall. intros [req p'] Hin.
  apply list_elem_of_In, list_elem_of_lookup in Hin as [i Hi].
  assert (length (threads (run (launch h reqs) sched)) = length reqs) as Hlen.
  { rewrite run_length. apply length_fmap. }
  destruct (lookup_lt_is_Some_2 reqs i) as [req0 Hr]; [rewrite <- Hlen; by eapply lookup_lt_Some|].
  destruct (run_left sched (launch h reqs) i req0 Started) as (p & Hp & Hl); [cbn; by rewrite list_lookup_fmap, Hr|].
  rewrite Hi in Hp. injection Hp as -> ->. specialize (Hturns _ _ Hr). cbn [calls_left] in Hl. cbn.
  destruct p; cbn in *; lia || done.
Qed.
End Solo.

Lemma enough_turns_witness : all_finished (run (launch Demo.handler Demo.both) Demo.zigzag) = true.
Proof.
  apply (enough_turns Demo.handler Demo.both Demo.zigzag). intros i req Hi.
  destruct i as [|[|i]]; [| |discriminate Hi]; apply (inj Some) in Hi as <-; apply Nat.leb_le; reflexivity.
Defined.
