(* ===== verification/RaceConverge.v ===== *)
(** * Parallel updates of different keys

    The ghost state of a run: [σ], the operations whose serial is taken, in
    serial order, and [π], those written but not yet numbered.  The invariant
    [inv] holds after any schedule; when all threads are finished, [π] is empty
    and the journal is the history of [σ]. *)

From S2P Require Import Prelude GoStrings Json Names Dns Journal Store Handler HandlerSpec Update UpdateSpec UpdateEffect EndToEnd Replication Race RaceSpec Demo.

(** One operation: the key and the insertions. *)
Abbreviation op := (str * list (str * Item))%type.

Section Converge.
Context `{UT : UnicodeTables, D : DnsLib, !DnsLaws D} {W : Type} `{ST : !Store W, !FullStoreSpec W}.
#[local] Existing Instance MemChangeLog.changelog.
#[local] Existing Instance MemChangeLog.changelog_spec.
Implicit Types h : Handler W MemChangeLog.t.

(** ** Operations *)

(** What a message's update section does, whenever it is applied. *)
Definition op_of (zone : str) (req : Msg) : option op :=
  match after_checks zone req with Reading inserts [key] => Some (key, inserts) | _ => None end.

(** Every insertion of an operation is for its key. *)
Definition op_keys (ins : list (str * Item)) (k : str) : Prop := Forall (λ ki, ki.1 = k) ins.

Lemma op_of_keys zone req k ins : op_of zone req = Some (k, ins) → op_keys ins k.
Proof.
  unfold op_of. destruct (after_checks_cases zone req) as [[rc ->]|(key & inserts & -> & Hk)]; [done|].
  by intros [= <- <-].
Qed.

Lemma after_checks_op zone req ins aff : after_checks zone req = Reading ins aff →
  ∃ k, aff = [k] ∧ op_of zone req = Some (k, ins).
Proof.
  intros E. unfold op_of. destruct (after_checks_cases zone req) as [[rc Hrc]|(key & inserts & Hr & _)]; [congruence|].
  rewrite Hr in E. injection E as <- <-. exists key. by rewrite Hr.
Qed.

Definition write_op (t : gmap str gomap) (o : op) : gmap str gomap := write_table o.1 o.2 t.
Definition table_after (t : gmap str gomap) (ops : list op) : gmap str gomap := foldl write_op t ops.

Lemma table_after_snoc t l o : table_after t (l ++ [o]) = write_op (table_after t l) o.
Proof. exact (foldl_app write_op l [o] t). Qed.

Lemma write_op_lookup t o k :
  write_op t o !! k = if decide (k = o.1) then match o.2 with (_, i) :: _ => stored o.1 i | [] => None end else t !! k.
Proof.
  unfold write_op, write_table. destruct (decide (k = o.1)) as [->|Hne]; destruct o.2 as [|[k' i] l].
  - apply lookup_delete_eq.
  - apply lookup_partial_alter_eq.
  - by rewrite lookup_delete_ne.
  - by rewrite lookup_partial_alter_ne.
Qed.

(** Operations on different keys commute. *)
Lemma write_op_comm t o1 o2 : o1.1 ≠ o2.1 → write_op (write_op t o1) o2 = write_op (write_op t o2) o1.
Proof.
  intros Hne. apply map_eq. intros k. rewrite !write_op_lookup. repeat case_decide; congruence.
Qed.

Lemma table_after_perm t l l' : NoDup l.*1 → l ≡ₚ l' → table_after t l = table_after t l'.
Proof.
  intros Hnd Hp. revert t. unfold table_after.
  induction Hp as [|o l l' Hp IH|o1 o2 l|l1 l2 l3 H1 IH1 H2 IH2]; intros t; cbn in *.
  - done.
  - apply NoDup_cons in Hnd as [_ Hnd]. by apply IH.
  - rewrite write_op_comm; [done|]. intros E. apply NoDup_cons in Hnd as [Hn _]. rewrite E in Hn. apply Hn. by left.
  - rewrite IH1 by done. apply IH2. by rewrite <- H1.
Qed.

Lemma table_after_other t l k : k ∉ l.*1 → table_after t l !! k = t !! k.
Proof.
  revert t. unfold table_after. induction l as [|o l IH]; intros t Hk; cbn in *; [done|].
  rewrite IH by set_solver. rewrite write_op_lookup, decide_False; [done|set_solver].
Qed.

(** The operations that were answered NOERROR, in the order of the messages. *)
Definition acked (zone : str) (ths : list (Msg * phase)) : list op :=
  omap (λ t, match t.2 with Finished rc => if rc =? RcodeSuccess then op_of zone t.1 else None | _ => None end) ths.

Lemma elem_of_acked zone ths o : o ∈ acked zone ths ↔
  ∃ i req, ths !! i = Some (req, Finished RcodeSuccess) ∧ op_of zone req = Some o.
Proof.
  unfold acked. rewrite list_elem_of_omap. split.
  - intros ([req p] & [i Hi]%list_elem_of_lookup & Ho). cbn in Ho. destruct p; try done.
    destruct (rcode =? RcodeSuccess) eqn:E; [|done]. apply Z.eqb_eq in E as ->. eauto.
  - intros (i & req & Hi & Ho). exists (req, Finished RcodeSuccess). by split; [eapply list_elem_of_lookup_2|].
Qed.

Lemma NoDup_omap_keys {A B C} (f : A → option (B * C)) (l : list A) :
  (∀ i j x y a b, l !! i = Some x → l !! j = Some y → i ≠ j → f x = Some a → f y = Some b → a.1 ≠ b.1) →
  NoDup (omap f l).*1.
Proof.
  induction l as [|x l IH]; intros H; [constructor|].
  assert (NoDup (omap f l).*1) as Hl by (apply IH; intros i j ????; exact (H (S i) (S j) _ _ _ _ ltac:(idtac)) || intros; eapply (H (S i) (S j)); eauto).
  cbn. destruct (f x) as [a|] eqn:E; [|done]. cbn. apply NoDup_cons. split; [|done].
  intros (b & Hab & (y & [j Hj]%list_elem_of_lookup & Hy)%list_elem_of_omap)%list_elem_of_fmap.
  by apply (H 0%nat (S j) x y a b).
Qed.

(** ** The zone after a list of operations *)

Variable h0 : Handler W MemChangeLog.t.
Variable z0 : zone_state.

Definition steps_of (ops : list op) : zone_state := foldl (λ z o, zone_step h0 o.1 o.2 z) z0 ops.

(** The delta that the [j]-th operation is journaled as. *)
Definition delta_of (j : nat) (o : op) : Delta :=
  mkDelta (z_serial z0 + Z.of_nat j + 1) (removed_rrs h0 [(o.1, z_table z0 !! o.1)]) (added_rrs h0 o.2).

Lemma steps_of_fields ops : NoDup ops.*1 →
  z_table (steps_of ops) = table_after (z_table z0) ops ∧ z_base (steps_of ops) = z_base z0
  ∧ z_log (steps_of ops) = z_log z0 ++ imap delta_of ops.
Proof.
  unfold steps_of. induction ops as [|o ops IH] using rev_ind; intros Hnd; [by rewrite app_nil_r|].
  rewrite fmap_app, NoDup_app in Hnd. destruct Hnd as (Hnd & Hdis & _).
  destruct (IH Hnd) as (Ht & Hb & Hl). rewrite foldl_app. cbn [foldl]. set (z := foldl _ z0 ops) in *.
  unfold zone_step. cbn [z_table z_base z_log]. split_and!.
  - unfold table_after. rewrite foldl_app. cbn. unfold write_op at 1. fold (table_after (z_table z0) ops). by rewrite <- Ht.
  - done.
  - rewrite Hl, imap_app, app_assoc. cbn. f_equal. f_equal. unfold delta_of. f_equal.
    + unfold z_serial. rewrite Hb, Hl, length_app, length_imap. lia.
    + rewrite Ht, table_after_other; [done|]. intros Hin. apply (Hdis _ Hin). by left.
Qed.

Lemma removed_rrs_cfg h h' old : cfg h = cfg h' → removed_rrs h old = removed_rrs h' old.
Proof. intros Hc. unfold removed_rrs, render, itemRRs. by rewrite Hc. Qed.
Lemma added_rrs_cfg h h' ins : cfg h = cfg h' → added_rrs h ins = added_rrs h' ins.
Proof. intros Hc. unfold added_rrs, render, itemRRs. by rewrite Hc. Qed.

(** ** The invariant *)

Variable reqs : list Msg.
Variable c0 : MemChangeLog.t.
Let zone := cZone (cfg h0).
Let s0 := z_serial z0.

(** Every two messages that write, write different keys; a failed write leaves
    the table alone; the history fits the journal and the serials 32 bits. *)
Definition different_keys : Prop := ∀ i j ri rj oi oj, reqs !! i = Some ri → reqs !! j = Some rj → i ≠ j →
  op_of zone ri = Some oi → op_of zone rj = Some oj → oi.1 ≠ oj.1.
Definition failures_harmless : Prop := ∀ r o st st' e, r ∈ reqs → op_of zone r = Some o →
  apply_write full_writer st o.2 [o.1] = (st', Some e) → view st' = view st.

Hypothesis Hrep : represents h0 z0.
Hypothesis Hlog : changelog h0 = Some c0.
Hypothesis Hrepr : MemChangeLog.repr c0 (z_base z0) (z_log z0).
Hypothesis Hkeys : different_keys.
Hypothesis Hfail : failures_harmless.
Hypothesis Hcap : (length (z_log z0) + length reqs ≤ MemChangeLog.cap)%nat.
Hypothesis Hroom : s0 + Z.of_nat (length reqs) < 2 ^ 32 - 1.

Definition thread_inv (σ π : list op) (req : Msg) (p : phase) : Prop :=
  match p with
  | Started | Checking _ => ∀ o, op_of zone req = Some o → o.1 ∉ (σ ++ π).*1
  | Reading ins aff => ∃ k, aff = [k] ∧ op_of zone req = Some (k, ins) ∧ k ∉ (σ ++ π).*1
  | Writing ins aff old =>
      ∃ k, aff = [k] ∧ op_of zone req = Some (k, ins) ∧ k ∉ (σ ++ π).*1 ∧ old = [(k, z_table z0 !! k)]
  | Counting ins old | Bumping ins old =>
      ∃ k, op_of zone req = Some (k, ins) ∧ (k, ins) ∈ π ∧ old = [(k, z_table z0 !! k)]
  | Recording ins old s =>
      ∃ k j, op_of zone req = Some (k, ins) ∧ σ !! j = Some (k, ins) ∧ s = s0 + Z.of_nat j + 1
        ∧ old = [(k, z_table z0 !! k)]
  | Finished rc => ∀ o, op_of zone req = Some o →
      if rc =? RcodeSuccess then ∃ j, σ !! j = Some o else o.1 ∉ (σ ++ π).*1
  end.

(** A thread that still has to number, or to record, an operation. *)
Definition numbers_ (p : phase) (o : op) : Prop :=
  match p with Counting ins _ | Bumping ins _ => ins = o.2 | _ => False end.
Definition records (p : phase) (s : Z) : Prop :=
  match p with Recording _ _ s' => s' = s | _ => False end.

Definition has (ths : list (Msg * phase)) (P : Msg → phase → Prop) : Prop :=
  ∃ i req p, ths !! i = Some (req, p) ∧ P req p.

Record journal_inv (σ : list op) (ths : list (Msg * phase)) (c : MemChangeLog.t) : Prop := {
  ji_old s : s ≤ s0 → MemChangeLog.deltas c !! s = MemChangeLog.deltas c0 !! s;
  ji_new j o : σ !! j = Some o →
    MemChangeLog.deltas c !! (s0 + Z.of_nat j + 1) = Some (delta_of j o)
    ∨ MemChangeLog.deltas c !! (s0 + Z.of_nat j + 1) = None ∧ has ths (λ _ p, records p (s0 + Z.of_nat j + 1));
  ji_above s : s0 + Z.of_nat (length σ) < s → MemChangeLog.deltas c !! s = None;
  ji_latest : s0 ≤ MemChangeLog.latest c ≤ s0 + Z.of_nat (length σ);
  ji_latest_all s d : MemChangeLog.deltas c !! s = Some d → s ≤ MemChangeLog.latest c;
  ji_oldest : MemChangeLog.oldest c = MemChangeLog.oldest c0;
  ji_started s d : MemChangeLog.deltas c !! s = Some d → MemChangeLog.started c = true;
}.

Record inv (σ π : list op) (sys : system) : Prop := {
  in_cfg : cfg (shared sys) = cfg h0;
  in_reqs : (threads sys).*1 = reqs;
  in_keys : NoDup (σ ++ π).*1;
  in_from o : o ∈ σ ++ π → o ∈ omap (op_of zone) reqs;
  in_table : view (store (shared sys)) = table_after (z_table z0) (σ ++ π);
  in_serial : serial (shared sys) = s0 + Z.of_nat (length σ);
  in_journal : ∃ c, changelog (shared sys) = Some c ∧ journal_inv σ (threads sys) c;
  in_threads i req p : threads sys !! i = Some (req, p) → thread_inv σ π req p;
  in_pending o : o ∈ π → has (threads sys) (λ req p, op_of zone req = Some o ∧ numbers_ p o);
}.

Lemma base_pos : 0 ≤ z_base z0.
Proof. apply (rep_base _ _ Hrep). Qed.

Lemma s0_latest : MemChangeLog.latest c0 = s0.
Proof. by rewrite (MemChangeLog.repr_latest _ _ _ Hrepr). Qed.

(** What the journal holds at the start: exactly the history. *)
Lemma c0_deltas s : MemChangeLog.deltas c0 !! s =
  if decide (z_base z0 < s ≤ s0) then z_log z0 !! Z.to_nat (s - z_base z0 - 1) else None.
Proof.
  rewrite (MemChangeLog.repr_deltas _ _ _ Hrepr), s0_latest.
  replace (length (z_log z0) `min` MemChangeLog.cap)%nat with (length (z_log z0)) by lia.
  replace (s0 - Z.of_nat (length (z_log z0))) with (z_base z0) by (unfold s0, z_serial; lia). done.
Qed.

Lemma launch_inv : inv [] [] (launch h0 reqs).
Proof.
  split; cbn.
  - done.
  - rewrite <- list_fmap_compose. apply list_fmap_id.
  - constructor.
  - by intros o ?%elem_of_nil.
  - apply (rep_table _ _ Hrep).
  - rewrite (rep_serial _ _ Hrep). unfold s0. lia.
  - exists c0. split; [done|]. split.
    + done.
    + done.
    + cbn. intros s Hs. rewrite c0_deltas, decide_False; [done|lia].
    + rewrite s0_latest. cbn. lia.
    + intros s d. rewrite c0_deltas, s0_latest. case_decide; [lia|done].
    + done.
    + intros s d Hd. apply (MemChangeLog.repr_started _ _ _ Hrepr). intros E. rewrite c0_deltas, E in Hd.
      by case_decide.
  - intros i req p Hi. rewrite list_lookup_fmap in Hi. destruct (reqs !! i); [|done]. injection Hi as <- <-.
    cbn. intros o _. apply not_elem_of_nil.
  - by intros o ?%elem_of_nil.
Qed.

(** *** Threads keep their messages *)

Lemma has_update ths i req p p' (P : Msg → phase → Prop) :
  ths !! i = Some (req, p) → (P req p → P req p') → has ths P → has (<[i := (req, p')]> ths) P.
Proof.
  intros Hi Hp (j & r & q & Hj & HP). destruct (decide (i = j)) as [<-|Hne].
  - rewrite Hi in Hj. injection Hj as <- <-. exists i, req, p'. split; [|auto].
    by apply list_lookup_insert_eq, lookup_lt_Some with (1 := Hi).
  - exists j, r, q. by rewrite list_lookup_insert_ne.
Qed.

Lemma has_other ths i req p p' (P : Msg → phase → Prop) :
  ths !! i = Some (req, p) → (P req p → False) → has ths P → has (<[i := (req, p')]> ths) P.
Proof. intros Hi Hp. apply (has_update _ _ _ _ _ _ Hi). intros H. by apply Hp in H. Qed.

Lemma reqs_update (ths : list (Msg * phase)) i req p p' : ths !! i = Some (req, p) →
  (<[i := (req, p')]> ths).*1 = ths.*1.
Proof.
  intros Hi. rewrite list_fmap_insert. cbn. apply list_insert_id. by rewrite list_lookup_fmap, Hi.
Qed.

Lemma other_key σ π sys i j ri rj p q oi oj : inv σ π sys →
  threads sys !! i = Some (ri, p) → threads sys !! j = Some (rj, q) → i ≠ j →
  op_of zone ri = Some oi → op_of zone rj = Some oj → oi.1 ≠ oj.1.
Proof.
  intros Hinv Hi Hj Hne. apply (Hkeys i j); [| |done]; rewrite <- (in_reqs _ _ _ Hinv), list_lookup_fmap;
    [by rewrite Hi|by rewrite Hj].
Qed.

Lemma req_in σ π sys i req p o : inv σ π sys → threads sys !! i = Some (req, p) → op_of zone req = Some o →
  req ∈ reqs ∧ o ∈ omap (op_of zone) reqs.
Proof.
  intros Hinv Hi Ho. assert (req ∈ reqs) as Hr.
  { rewrite <- (in_reqs _ _ _ Hinv). apply list_elem_of_fmap. exists (req, p). split; [done|].
    by eapply list_elem_of_lookup_2. }
  split; [done|]. apply list_elem_of_omap. eauto.
Qed.

(** Moves that change neither the zone nor the ghost state. *)
Lemma inv_move σ π sys i req p h' p' : inv σ π sys → threads sys !! i = Some (req, p) →
  cfg h' = cfg (shared sys) → view (store h') = view (store (shared sys)) →
  serial h' = serial (shared sys) → changelog h' = changelog (shared sys) →
  thread_inv σ π req p' → (∀ o, numbers_ p o → numbers_ p' o) → (∀ s, records p s → records p' s) →
  inv σ π (mkSystem h' (<[i := (req, p')]> (threads sys))).
Proof.
  intros [H1 H2 H3 H4 H5 H6 (c & Hc & Hj) H8 H9] Hi Ecfg Eview Eser Elog Hth Hnum Hrec. split; cbn.
  - congruence.
  - by rewrite (reqs_update _ _ _ _ _ Hi).
  - done.
  - done.
  - congruence.
  - congruence.
  - exists c. split; [congruence|]. destruct Hj as [J1 J2 J3 J4 J5 J6 J7]. split; try done.
    intros j o Ho. destruct (J2 j o Ho) as [?|[? Hh]]; [by left|right]. split; [done|].
    by apply (has_update _ _ _ _ _ _ Hi); [apply Hrec|].
  - intros j r q. destruct (decide (i = j)) as [<-|Hne].
    + rewrite list_lookup_insert_eq by by eapply lookup_lt_Some. by intros [= <- <-].
    + rewrite list_lookup_insert_ne by done. apply H8.
  - intros o Ho. apply (has_update _ _ _ _ _ _ Hi); [|by apply H9]. intros [? ?]. auto.
Qed.

(** Threads other than the one that moves, when the ghost state changes. *)
Lemma thread_inv_frame (σ π σ' π' : list op) (o : op) (req : Msg) (p : phase) :
  (∀ o', op_of zone req = Some o' → o'.1 ≠ o.1) →
  (∀ k, k ≠ o.1 → k ∉ (σ ++ π).*1 → k ∉ (σ' ++ π').*1) →
  (∀ o', o'.1 ≠ o.1 → o' ∈ π → o' ∈ π') → (∀ j o', σ !! j = Some o' → σ' !! j = Some o') →
  thread_inv σ π req p → thread_inv σ' π' req p.
Proof.
  intros Hne Hk Hp Hs. destruct p as [| | | | | | |rc]; cbn; [naive_solver..|].
  intros H o' Ho'. specialize (H o' Ho'). destruct (rc =? RcodeSuccess); naive_solver.
Qed.

(** *** The three moves that matter *)

Lemma apply_write_ok st ins k st' : op_keys ins k → apply_write full_writer st ins [k] = (st', None) →
  view st' = write_table k ins (view st).
Proof.
  unfold apply_write. destruct ins as [|[k' i] ins]; intros Hk Hw; cbn in *; [by apply delete_view|].
  apply Forall_cons in Hk as [Hk _]. cbn in Hk. subst k'. by apply put_view.
Qed.

(** The write: the operation joins [π]. *)
Lemma inv_write σ π sys i req k ins old st : inv σ π sys →
  threads sys !! i = Some (req, Writing ins [k] old) → apply_write full_writer (store (shared sys)) ins [k] = (st, None) →
  inv σ (π ++ [(k, ins)])
    (mkSystem (set_store st (shared sys)) (<[i := (req, Counting ins old)]> (threads sys))).
Proof.
  intros Hinv Hi Hw. pose proof (in_threads _ _ _ Hinv _ _ _ Hi) as (k0 & [= <-] & Ho & Hk & Hold).
  destruct (req_in _ _ _ _ _ _ _ Hinv Hi Ho) as [_ Hin]. set (o := (k, ins)) in *.
  pose proof (λ j r q oj Hj Hne Hoj, other_key σ π sys j i r req q _ oj o Hinv Hj Hi Hne Hoj Ho) as Hother.
  destruct Hinv as [H1 H2 H3 H4 H5 H6 (c & Hc & Hj) H8 H9]. split; cbn.
  - done.
  - by rewrite (reqs_update _ _ _ _ _ Hi).
  - rewrite app_assoc, fmap_app. apply NoDup_app. split_and!; [done| |apply NoDup_singleton].
    intros x Hx Hx'. cbn in Hx'. apply list_elem_of_singleton in Hx' as ->. done.
  - intros o'. rewrite app_assoc, elem_of_app. intros [?| ->%list_elem_of_singleton]; auto.
  - rewrite (apply_write_ok _ _ _ _ (op_of_keys _ _ _ _ Ho) Hw), H5, app_assoc.
    by rewrite table_after_snoc.
  - done.
  - exists c. split; [done|]. destruct Hj as [J1 J2 J3 J4 J5 J6 J7]. split; try done.
    intros j o' Hjo. destruct (J2 j o' Hjo) as [?|[? Hh]]; [by left|right]. split; [done|].
    by apply (has_other _ _ _ _ _ _ Hi).
  - intros j r q. destruct (decide (i = j)) as [<-|Hne].
    + rewrite list_lookup_insert_eq by by eapply lookup_lt_Some. intros [= <- <-]. exists k.
      split_and!; [done| |done]. apply elem_of_app. right. by left.
    + rewrite list_lookup_insert_ne by done. intros Hq. apply (thread_inv_frame σ π _ _ o); [| | |done|by eapply H8].
      * intros o' Ho'. by apply (Hother j r q o' Hq).
      * intros k' Hne' Hn. rewrite app_assoc, fmap_app, elem_of_app. intros [?|Hk']; [done|].
        cbn in Hk'. apply list_elem_of_singleton in Hk'. done.
      * intros o' _ Hp. apply elem_of_app. by left.
  - intros o'. rewrite elem_of_app. intros [Hp| ->%list_elem_of_singleton].
    + apply (has_other _ _ _ _ _ _ Hi); [by intros [_ []]|by apply H9].
    + exists i, req, (Counting ins old). split; [|done]. apply list_lookup_insert_eq. by eapply lookup_lt_Some.
Qed.

(** The number: the operation moves from [π] to the end of [σ]. *)
Lemma ops_bound σ π sys : inv σ π sys → (length σ ≤ length reqs)%nat.
Proof.
  intros [_ _ H3 H4 _ _ _ _ _].
  assert ((σ ++ π).*1 ⊆+ (omap (op_of zone) reqs).*1) as Hs%submseteq_length.
  { apply NoDup_submseteq; [done|]. intros k (o & -> & Ho)%list_elem_of_fmap. apply list_elem_of_fmap. eauto. }
  rewrite !length_fmap, length_app in Hs.
  assert (length (omap (op_of zone) reqs) ≤ length reqs)%nat as Hle; [|lia].
  clear. induction reqs as [|r l IH]; cbn; [done|]. destruct (op_of zone r); cbn; lia.
Qed.

Lemma inv_bump σ π sys i req ins old : inv σ π sys →
  threads sys !! i = Some (req, Bumping ins old) →
  ∃ k π', (σ ++ [(k, ins)]) ++ π' ≡ₚ σ ++ π
  ∧ inv (σ ++ [(k, ins)]) π' (mkSystem (bump_serial (shared sys))
           (<[i := (req, Recording ins old (serial (bump_serial (shared sys))))]> (threads sys))).
Proof.
  intros Hinv Hi. pose proof (in_threads _ _ _ Hinv _ _ _ Hi) as (k & Ho & Hp & Hold).
  destruct (list_elem_of_split _ _ Hp) as (π1 & π2 & ->). exists k, (π1 ++ π2). set (o := (k, ins)) in *.
  pose proof (λ j r q oj Hj Hne Hoj, other_key _ _ sys j i r req q _ oj o Hinv Hj Hi Hne Hoj Ho) as Hother.
  pose proof (ops_bound _ _ _ Hinv) as Hlen.
  destruct Hinv as [H1 H2 H3 H4 H5 H6 (c & Hc & Hj) H8 H9].
  assert ((σ ++ [o]) ++ π1 ++ π2 ≡ₚ σ ++ π1 ++ o :: π2) as Hperm
    by (rewrite <- app_assoc; apply Permutation_app_head; exact (Permutation_middle π1 π2 o)).
  assert (NoDup ((σ ++ [o]) ++ π1 ++ π2).*1) as Hnd by by rewrite Hperm.
  split; [exact Hperm|].
  assert (serial (bump_serial (shared sys)) = s0 + Z.of_nat (length σ) + 1) as Hs.
  { unfold bump_serial. cbn. rewrite H6. pose proof base_pos. apply u32_small. unfold s0, z_serial in *. lia. }
  split; cbn [shared threads].
  - done.
  - by rewrite (reqs_update _ _ _ _ _ Hi).
  - done.
  - intros o'. rewrite Hperm. apply H4.
  - cbn [store bump_serial set_serial]. etrans; [exact H5|]. symmetry. by apply table_after_perm.
  - rewrite Hs, length_app. cbn. lia.
  - exists c. split; [done|]. destruct Hj as [J1 J2 J3 J4 J5 J6 J7]. split; try done.
    + intros j o'. rewrite lookup_app_Some. intros [Hjo|[Hjl Hjo]].
      * destruct (J2 j o' Hjo) as [?|[? Hh]]; [by left|right]. split; [done|]. by apply (has_other _ _ _ _ _ _ Hi).
      * apply list_lookup_singleton_Some in Hjo as [Hj0 <-]. right.
        replace (s0 + Z.of_nat j + 1) with (s0 + Z.of_nat (length σ) + 1) by lia. split; [apply J3; lia|].
        eexists i, req, _. split; [apply list_lookup_insert_eq; by eapply lookup_lt_Some|exact Hs].
    + intros s. rewrite length_app. cbn. intros Hsl. apply J3. lia.
    + rewrite length_app. cbn. lia.
  - intros j r q. destruct (decide (i = j)) as [<-|Hne].
    + rewrite list_lookup_insert_eq by by eapply lookup_lt_Some. intros [= <- <-].
      exists k, (length σ). split_and!; [done| |exact Hs|done]. by rewrite lookup_app_r, Nat.sub_diag.
    + rewrite list_lookup_insert_ne by done. intros Hq. apply (thread_inv_frame σ (π1 ++ o :: π2) _ _ o); [| | | |by eapply H8].
      * intros o' Ho'. by apply (Hother j r q o' Hq).
      * intros k' _ Hn. by rewrite Hperm.
      * intros o' Hk' Hin. rewrite elem_of_app, elem_of_cons in Hin. rewrite elem_of_app. naive_solver.
      * intros j' o' Hjo. by apply lookup_app_l_Some.
  - intros o' Hin. apply (has_other _ _ _ _ _ _ Hi).
    + intros [Ho' _]. rewrite Ho in Ho'. injection Ho' as <-.
      rewrite fmap_app, NoDup_app in Hnd. destruct Hnd as (_ & Hdis & _).
      apply (Hdis k); [rewrite fmap_app, elem_of_app; right; by left|]. apply list_elem_of_fmap. by exists (k, ins).
    + apply H9. rewrite elem_of_app in Hin. rewrite elem_of_app, elem_of_cons. tauto.
Qed.

(** The journal never holds more than the history so far. *)
Lemma journal_size σ ths c (m : gmap Z Delta) : (length σ ≤ length reqs)%nat → journal_inv σ ths c →
  (∀ s d, m !! s = Some d → MemChangeLog.deltas c !! s = Some d ∨ s0 < s ≤ s0 + Z.of_nat (length σ)) →
  Z.of_nat (size m) ≤ MemChangeLog.memChangeLogCap.
Proof.
  intros Hlen Hj Hm.
  set (range := seqZ (z_base z0 + 1) (Z.of_nat (length (z_log z0) + length σ))).
  assert (dom m ⊆ list_to_set (C := gset Z) range) as Hsub.
  { intros s [d Hs]%elem_of_dom. apply elem_of_list_to_set, elem_of_seqZ.
    pose proof base_pos. assert (s0 = z_base z0 + Z.of_nat (length (z_log z0))) as Hs0 by done.
    destruct (Hm s d Hs) as [Hd|?]; [|lia].
    destruct (decide (s ≤ s0)) as [Hle|Hgt].
    - rewrite (ji_old _ _ _ Hj s Hle), c0_deltas in Hd. case_decide; [lia|done].
    - destruct (decide (s ≤ s0 + Z.of_nat (length σ))); [lia|].
      rewrite (ji_above _ _ _ Hj) in Hd by lia. done. }
  apply subseteq_size in Hsub. rewrite size_dom, size_list_to_set in Hsub by apply NoDup_seqZ.
  unfold range in Hsub. rewrite length_seqZ in Hsub.
  assert (Z.of_nat MemChangeLog.cap = MemChangeLog.memChangeLogCap) by reflexivity. lia.
Qed.

(** The record: the delta of the thread's serial is in the journal. *)
Lemma inv_record σ π sys i req ins old s : inv σ π sys →
  threads sys !! i = Some (req, Recording ins old s) →
  inv σ π (mkSystem (record_delta (shared sys) s (removed_rrs (shared sys) old) (added_rrs (shared sys) ins))
             (<[i := (req, Finished RcodeSuccess)]> (threads sys))).
Proof.
  intros Hinv Hi. pose proof (in_threads _ _ _ Hinv _ _ _ Hi) as (k & j & Ho & Hj & -> & ->).
  pose proof (ops_bound _ _ _ Hinv) as Hlen.
  destruct Hinv as [H1 H2 H3 H4 H5 H6 (c & Hc & HJ) H8 H9].
  assert (j < length σ)%nat as Hjl by by eapply lookup_lt_Some.
  set (s := s0 + Z.of_nat j + 1). set (d := delta_of j (k, ins)).
  assert (mkDelta s (removed_rrs (shared sys) [(k, z_table z0 !! k)]) (added_rrs (shared sys) ins) = d) as Hd.
  { unfold d, delta_of. by rewrite (removed_rrs_cfg h0 (shared sys) _ (eq_sym H1)), (added_rrs_cfg h0 (shared sys) _ (eq_sym H1)). }
  assert (MemChangeLog.oldest c ≠ 0) as Hold.
  { rewrite (ji_oldest _ _ _ HJ), (MemChangeLog.repr_oldest _ _ _ Hrepr), s0_latest. pose proof base_pos.
    rewrite u32_small; unfold s0, z_serial in *; lia. }
  set (m := <[s := d]> (MemChangeLog.deltas c)).
  assert (MemChangeLog.Record_ s (removed_rrs (shared sys) [(k, z_table z0 !! k)]) (added_rrs (shared sys) ins) c
    = MemChangeLog.mk (MemChangeLog.oldest c)
        (if MemChangeLog.latest c <? s then s else MemChangeLog.latest c) m true) as HR.
  { unfold MemChangeLog.Record_. rewrite Hd. rewrite (proj2 (Z.eqb_neq _ _) Hold), andb_false_r.
    rewrite MemChangeLog.prune_done; [done|]. apply (journal_size _ _ _ _ Hlen HJ).
    intros s' d'. unfold m. destruct (decide (s' = s)) as [->|Hne]; [right; unfold s; lia|].
    rewrite lookup_insert_ne by done. by left. }
  unfold record_delta. rewrite Hc. split; cbn [shared threads].
  - done.
  - by rewrite (reqs_update _ _ _ _ _ Hi).
  - done.
  - done.
  - done.
  - done.
  - eexists. split; [reflexivity|]. cbn [Record_]. change (Journal.Record_ (L := MemChangeLog.t)) with MemChangeLog.Record_.
    rewrite HR. destruct HJ as [J1 J2 J3 J4 J5 J6 J7]. split; cbn.
    + intros s' Hs'. unfold m. rewrite lookup_insert_ne by (unfold s; lia). auto.
    + intros j' o' Hjo. destruct (decide (j' = j)) as [->|Hne].
      * left. fold s. unfold m. rewrite lookup_insert_eq. rewrite Hj in Hjo. by injection Hjo as <-.
      * unfold m. rewrite lookup_insert_ne by (unfold s; lia).
        destruct (J2 j' o' Hjo) as [?|[? Hh]]; [by left|right]. split; [done|].
        apply (has_other _ _ _ _ _ _ Hi); [|done]. cbn. lia.
    + intros s' Hs'. unfold m. rewrite lookup_insert_ne by (unfold s; lia). auto.
    + destruct (Z.ltb_spec (MemChangeLog.latest c) s); unfold s in *; lia.
    + intros s' d'. unfold m. destruct (decide (s' = s)) as [->|Hne].
      * intros _. destruct (Z.ltb_spec (MemChangeLog.latest c) s); lia.
      * rewrite lookup_insert_ne by done. intros Hl%J5. destruct (Z.ltb_spec (MemChangeLog.latest c) s); lia.
    + done.
    + done.
  - intros j' r q. destruct (decide (i = j')) as [<-|Hne].
    + rewrite list_lookup_insert_eq by by eapply lookup_lt_Some. intros [= <- <-] o' Ho'. cbn.
      rewrite Ho in Ho'. injection Ho' as <-. by exists j.
    + rewrite list_lookup_insert_ne by done. apply H8.
  - intros o' Hin. apply (has_other _ _ _ _ _ _ Hi); [by intros [_ []]|by apply H9].
Qed.

(** *** Every move *)

(** A thread that ends without having written. *)
#[local] Ltac ends H := cbn; apply H; [reflexivity|by eauto|by intros ? []|by intros ? []].

(** The numbered operations only grow at the end, and none is forgotten. *)
Definition grown (σ π : list op) (sys : system) : Prop :=
  ∃ σ' π', inv σ' π' sys ∧ σ `prefix_of` σ' ∧ σ ++ π ⊆ σ' ++ π'.

Lemma grown_refl σ π sys : inv σ π sys → grown σ π sys.
Proof. intros H. by exists σ, π. Qed.

Lemma grown_trans σ π σ' π' sys : σ `prefix_of` σ' → σ ++ π ⊆ σ' ++ π' → grown σ' π' sys → grown σ π sys.
Proof. intros Hp Hs (σ2 & π2 & H & Hp2 & Hs2). exists σ2, π2. split_and!; [done|by etrans|by etrans]. Qed.

Lemma inv_step σ π sys i : inv σ π sys → grown σ π (step_thread sys i).
Proof.
  intros Hinv. unfold step_thread. destruct (threads sys !! i) as [[req p]|] eqn:Hi; [|by apply grown_refl].
  pose proof (in_threads _ _ _ Hinv _ _ _ Hi) as Hth. pose proof (in_cfg _ _ _ Hinv) as Hcfg.
  assert (∀ p', thread_inv σ π req p' → (∀ o, numbers_ p o → numbers_ p' o) → (∀ s, records p s → records p' s) →
    grown σ π (mkSystem (shared sys) (<[i := (req, p')]> (threads sys)))) as Hmove.
  { intros p' H1 H2 H3. apply grown_refl. by eapply inv_move. }
  assert (∀ rc, (rc =? RcodeSuccess) = false → (∀ o, op_of zone req = Some o → o.1 ∉ (σ ++ π).*1) →
    (∀ o, ¬ numbers_ p o) → (∀ s, ¬ records p s) →
    grown σ π (mkSystem (shared sys) (<[i := (req, Finished rc)]> (threads sys)))) as Hfin.
  { intros rc Hrc Hk H1 H2. apply Hmove; [|by intros o ?%H1|by intros s ?%H2]. cbn. by rewrite Hrc. }
  destruct p as [|[|rr rest]|ins aff|ins aff old|ins old|ins old|ins old s|rc]; cbn [advance].
  - destruct writer; [|ends Hfin]. destruct (mQuestion req) as [|q [|]]; [ends Hfin| |ends Hfin].
    destruct (_ || _); [ends Hfin|]. by apply Hmove.
  - rewrite Hcfg. fold zone. destruct (after_checks zone req) as [| |ins aff| | | | |rc] eqn:E;
      try by destruct (after_checks_cases zone req) as [[rc' E']|(key & ins' & E' & _)]; congruence.
    + destruct (after_checks_op _ _ _ _ E) as (k & -> & Ho).
      apply Hmove; [|done..]. exists k. split_and!; [done..|]. by apply Hth in Ho.
    + apply Hmove; [|done..]. intros o Ho. unfold op_of in Ho. by rewrite E in Ho.
  - destruct (_ =? _) eqn:Hrc; [by apply Hmove|]. apply Hfin; [done|by eauto|by intros ? []|by intros ? []].
  - destruct Hth as (k & -> & Ho & Hk). cbn [mapM_res].
    destruct (Get (store (shared sys)) k) as [i0|e] eqn:HG; cbn [res_bind].
    + apply Hmove; [|done..]. exists k. split_and!; [done..|].
      apply get_view in HG. rewrite HG, (in_table _ _ _ Hinv), table_after_other; done.
    + cbn. apply Hfin; [done| |by intros ? []|by intros ? []]. intros o Ho'. rewrite Ho in Ho'. by injection Ho' as <-.
  - destruct Hth as (k & -> & Ho & Hk & Hold). rewrite writer_full.
    destruct (apply_write full_writer (store (shared sys)) ins [k]) as [st [e|]] eqn:HA; cbn [is_none negb].
    + apply grown_refl. eapply inv_move; try done.
      * destruct (req_in _ _ _ _ _ _ _ Hinv Hi Ho) as [Hr _]. by apply (Hfail req (k, ins) _ _ e).
      * intros o Ho'. rewrite Ho in Ho'. by injection Ho' as <-.
    + exists σ, (π ++ [(k, ins)]). split_and!; [by eapply inv_write|done|set_solver].
  - apply grown_refl. by eapply inv_move.
  - destruct (inv_bump _ _ _ _ _ _ _ Hinv Hi) as (k & π' & Hp & H). exists (σ ++ [(k, ins)]), π'.
    split_and!; [done|by apply prefix_app_r|]. by rewrite <- Hp.
  - apply grown_refl. by apply inv_record.
  - apply grown_refl. by eapply inv_move.
Qed.

Lemma inv_run_from σ π sys sched : inv σ π sys → grown σ π (run sys sched).
Proof.
  revert σ π sys. induction sched as [|i sched IH]; intros σ π sys H; [by apply grown_refl|].
  destruct (inv_step σ π sys i H) as (σ' & π' & H' & Hp & Hs). eapply grown_trans; [done..|]. by apply (IH σ' π').
Qed.

Lemma inv_run sched : ∃ σ π, inv σ π (run (launch h0 reqs) sched).
Proof. destruct (inv_run_from [] [] _ sched launch_inv) as (σ & π & H & _). eauto. Qed.

(** *** The end of a run *)

Lemma acked_keys σ π sys : inv σ π sys → NoDup (acked zone (threads sys)).*1.
Proof.
  intros Hinv. apply NoDup_omap_keys. intros i j [ri pi] [rj pj] a b Hi Hj Hne Ha Hb. cbn in *.
  destruct pi; try done. destruct pj; try done. repeat case_match; try done. by eapply (other_key σ π sys i j).
Qed.

(** Once all threads are finished, nothing is pending, and the history is the
    acknowledged updates in the order of their serials. *)
Lemma inv_finished σ π sys : inv σ π sys → all_finished sys = true →
  π = [] ∧ σ ≡ₚ acked zone (threads sys).
Proof.
  intros Hinv Hfin.
  assert (∀ i req p, threads sys !! i = Some (req, p) → ∃ rc, p = Finished rc) as Hp.
  { intros i req p Hi. unfold all_finished in Hfin. rewrite forallb_forall in Hfin.
    specialize (Hfin (req, p)). rewrite <- list_elem_of_In in Hfin. apply list_elem_of_lookup_2, Hfin in Hi.
    destruct p; eauto; done. }
  assert (π = []) as ->.
  { destruct π as [|o π]; [done|]. destruct (in_pending _ _ _ Hinv o) as (i & req & p & Hi & _ & Hn); [by left|].
    by destruct (Hp _ _ _ Hi) as [rc ->]. }
  split; [done|]. pose proof (in_keys _ _ _ Hinv) as Hnd. rewrite app_nil_r in Hnd.
  apply NoDup_Permutation; [by eapply NoDup_fmap_1|by eapply NoDup_fmap_1, acked_keys|].
  intros o. rewrite elem_of_acked. split.
  - intros Ho. destruct (proj1 (list_elem_of_omap _ _ _) (in_from _ _ _ Hinv o ltac:(by rewrite app_nil_r)))
      as (req & Hr & Hop). rewrite <- (in_reqs _ _ _ Hinv) in Hr.
    apply list_elem_of_fmap in Hr as ([req' p] & -> & [i Hi]%list_elem_of_lookup). cbn in Hop.
    destruct (Hp _ _ _ Hi) as [rc ->]. pose proof (in_threads _ _ _ Hinv _ _ _ Hi o Hop) as Hth.
    destruct (rc =? RcodeSuccess) eqn:E; [apply Z.eqb_eq in E as ->; eauto|].
    rewrite app_nil_r in Hth. destruct Hth. apply list_elem_of_fmap. eauto.
  - intros (i & req & Hi & Hop). destruct (in_threads _ _ _ Hinv _ _ _ Hi o Hop) as [j Hj].
    by eapply list_elem_of_lookup_2.
Qed.

Lemma steps_consecutive σ : consecutive (z_base z0) (z_log z0 ++ imap delta_of σ).
Proof.
  induction σ as [|o σ IH] using rev_ind; [rewrite app_nil_r; apply (MemChangeLog.repr_consecutive _ _ _ Hrepr)|].
  rewrite imap_app, app_assoc. cbn.
  replace (delta_of (length σ + 0) o)
    with (mkDelta (z_base z0 + Z.of_nat (length (z_log z0 ++ imap delta_of σ)) + 1)
            (removed_rrs h0 [(o.1, z_table z0 !! o.1)]) (added_rrs h0 o.2)).
  - by apply MemChangeLog.consecutive_snoc.
  - unfold delta_of, z_serial. f_equal. rewrite length_app, length_imap. lia.
Qed.

(** A journal to which nothing is left to record holds the whole history. *)
Lemma journal_complete σ ths c : journal_inv σ ths c → (length σ ≤ length reqs)%nat →
  (∀ s, ¬ has ths (λ _ p, records p s)) →
  MemChangeLog.repr c (z_base z0) (z_log z0 ++ imap delta_of σ).
Proof.
  intros [J1 J2 J3 J4 J5 J6 J7] Hlen Hno. set (h := z_log z0 ++ imap delta_of σ).
  assert (length h = (length (z_log z0) + length σ)%nat) as Hh by (unfold h; by rewrite length_app, length_imap).
  assert (s0 = z_base z0 + Z.of_nat (length (z_log z0))) as Hs0 by done. pose proof base_pos as Hb.
  assert (length h `min` MemChangeLog.cap = length h)%nat as Hmin by lia.
  assert (∀ s, MemChangeLog.deltas c !! s =
    if decide (z_base z0 < s ≤ z_base z0 + Z.of_nat (length h)) then h !! Z.to_nat (s - z_base z0 - 1) else None) as Hd.
  { intros s. destruct (decide (s ≤ s0)) as [Hle|Hgt].
    - rewrite (J1 s Hle), c0_deltas. repeat case_decide; try lia; [|done].
      unfold h. rewrite lookup_app_l; [done|lia].
    - destruct (decide (s ≤ s0 + Z.of_nat (length σ))) as [Hle|Hgt2].
      + rewrite decide_True by lia. set (j := Z.to_nat (s - s0 - 1)).
        replace s with (s0 + Z.of_nat j + 1) by lia.
        destruct (lookup_lt_is_Some_2 σ j) as [o Ho]; [lia|].
        destruct (J2 j o Ho) as [->|[_ []%Hno]]. unfold h. rewrite lookup_app_r by lia.
        replace (_ - _)%nat with j by lia. rewrite list_lookup_imap, Ho. done.
      + rewrite decide_False by lia. apply J3. lia. }
  assert (MemChangeLog.latest c = z_base z0 + Z.of_nat (length h)) as Hl.
  { destruct (decide (length σ = 0%nat)); [lia|]. destruct (lookup_lt_is_Some_2 h (length h - 1)) as [d Hh']; [lia|].
    assert (z_base z0 + Z.of_nat (length h) ≤ MemChangeLog.latest c); [|lia]. apply (J5 _ d).
    rewrite Hd, decide_True by lia. by replace (Z.to_nat _) with (length h - 1)%nat by lia. }
  split.
  - apply steps_consecutive.
  - done.
  - rewrite Hmin, Hl, J6, (MemChangeLog.repr_oldest _ _ _ Hrepr), s0_latest. f_equal. lia.
  - intros s. rewrite Hmin, Hl, Hd. replace (z_base z0 + _ - _) with (z_base z0) by lia. done.
  - rewrite Hmin, <- size_dom.
    assert (dom (MemChangeLog.deltas c) = list_to_set (C := gset Z) (seqZ (z_base z0 + 1) (Z.of_nat (length h)))) as ->.
    { apply set_eq. intros s. rewrite elem_of_dom, elem_of_list_to_set, elem_of_seqZ, Hd. case_decide.
      - rewrite lookup_lt_is_Some. lia.
      - split; [by intros []|lia]. }
    rewrite size_list_to_set by apply NoDup_seqZ. rewrite length_seqZ. lia.
  - intros Hne. destruct h as [|d h'] eqn:E; [done|]. apply (J7 (z_base z0 + 1) d).
    rewrite Hd, decide_True by (cbn; lia). by replace (Z.to_nat _) with 0%nat by lia.
Qed.

Lemma inv_represents σ sys : inv σ [] sys → all_finished sys = true → represents (shared sys) (steps_of σ).
Proof.
  intros Hinv Hfin. pose proof (in_keys _ _ _ Hinv) as Hnd. pose proof (ops_bound _ _ _ Hinv) as Hlen.
  destruct Hinv as [H1 H2 _ _ H5 H6 (c & Hc & HJ) _ _]. rewrite app_nil_r in *.
  destruct (steps_of_fields σ Hnd) as (Ht & Hb & Hl).
  split.
  - by rewrite H5, Ht.
  - rewrite H6. unfold z_serial. rewrite Hb, Hl, length_app, length_imap. unfold s0, z_serial. lia.
  - exists c. split; [done|]. rewrite Hb, Hl. apply (journal_complete σ (threads sys)); [done..|].
    intros s (i & req & p & Hi & Hr). unfold all_finished in Hfin. rewrite forallb_forall in Hfin.
    apply list_elem_of_lookup_2, list_elem_of_In, Hfin in Hi. by destruct p.
  - by rewrite Hb; apply base_pos.
Qed.

Lemma steps_extend σ : good_zone zone → all_reachable (z_table z0) →
  Forall (λ o, clean_op o.1 o.2) σ → extends h0 z0 (steps_of σ) ∧ all_reachable (z_table (steps_of σ)).
Proof.
  intros Hz Hr. unfold steps_of. induction σ as [|o σ IH] using rev_ind; intros Hc; [split; [apply extends_refl|done]|].
  apply Forall_app in Hc as [Hc Ho]. destruct (IH Hc) as [He Hr']. apply Forall_inv in Ho.
  rewrite foldl_app. cbn [foldl]. split.
  - eapply extends_trans; [exact He|]. by apply zone_step_extends.
  - by apply zone_step_reachable.
Qed.

(** The history of the zone after the operations [σ]. *)
Definition hist_of (σ : list op) : list Delta := z_log z0 ++ imap delta_of σ.

Lemma hist_of_app σ1 σ2 : hist_of (σ1 ++ σ2) = hist_of σ1 ++ imap (λ i, delta_of (length σ1 + i)%nat) σ2.
Proof. unfold hist_of. by rewrite imap_app, app_assoc. Qed.

Lemma hist_of_length σ : length (hist_of σ) = (length (z_log z0) + length σ)%nat.
Proof. unfold hist_of. by rewrite length_app, length_imap. Qed.

(** What the journal reports at the end, since any serial it reaches back to. *)
Lemma deltas_final σ sys since : inv σ [] sys → all_finished sys = true →
  z_base z0 ≤ since ≤ s0 + Z.of_nat (length σ) →
  ∃ log, changelog (shared sys) = Some log
  ∧ Deltas since log = (Some (drop (Z.to_nat (since - z_base z0)) (hist_of σ)), true).
Proof.
  intros Hinv Hfin Hs. destruct (inv_represents _ sys Hinv Hfin) as [_ _ (c & Hc & Hlog') _].
  pose proof (in_keys _ _ _ Hinv) as Hnd. rewrite app_nil_r in Hnd. pose proof (ops_bound _ _ _ Hinv) as Hlen.
  destruct (steps_of_fields _ Hnd) as (_ & Hb & Hl). exists c. split; [done|]. rewrite Hb, Hl in Hlog'.
  fold (hist_of σ) in Hlog'. pose proof base_pos as Hb0.
  assert (s0 = z_base z0 + Z.of_nat (length (z_log z0))) as Hs0 by done.
  pose proof (MemChangeLog.repr_latest _ _ _ Hlog') as Hlat. rewrite hist_of_length in Hlat.
  cbn [Deltas]. change (Journal.Deltas (L := MemChangeLog.t)) with MemChangeLog.Deltas.
  by rewrite (MemChangeLog.Deltas_repr c _ _ _ Hlog'), decide_True; rewrite ?hist_of_length; [|lia..].
Qed.

(** Since the serial that the operations [σ1] had reached. *)
Lemma deltas_since σ1 σ2 sys : inv (σ1 ++ σ2) [] sys → all_finished sys = true →
  ∃ log, changelog (shared sys) = Some log
  ∧ Deltas (s0 + Z.of_nat (length σ1)) log = (Some (imap (λ i, delta_of (length σ1 + i)%nat) σ2), true).
Proof.
  intros Hinv Hfin. assert (s0 = z_base z0 + Z.of_nat (length (z_log z0))) as Hs0 by done.
  destruct (deltas_final _ sys (s0 + Z.of_nat (length σ1)) Hinv Hfin) as (log & Hlo & Hds).
  { rewrite length_app. pose proof base_pos. lia. }
  exists log. split; [done|]. rewrite Hds. do 2 f_equal. rewrite hist_of_app. apply drop_app_length'.
  rewrite hist_of_length. lia.
Qed.

(** C2. Updates of different keys may run in parallel: under any schedule of
    their threads, once all are finished the table is the start's with exactly
    the acknowledged updates applied, the serial has counted them, and a
    replica that replays what the journal reports since the start's serial
    holds the current zone. *)
Theorem different_keys_converge sched sys :
  good_zone zone → all_reachable (z_table z0) →
  (∀ r o, r ∈ reqs → op_of zone r = Some o → clean_op o.1 o.2) →
  run (launch h0 reqs) sched = sys → all_finished sys = true →
  view (store (shared sys)) = table_after (view (store h0)) (acked zone (threads sys))
  ∧ serial (shared sys) = serial h0 + Z.of_nat (length (acked zone (threads sys)))
  ∧ ∃ log' ds, changelog (shared sys) = Some log' ∧ Deltas (serial h0) log' = (Some ds, true)
    ∧ replay (zone_of h0 (view (store h0))) ds ≡ zone_of (shared sys) (view (store (shared sys))).
Proof.
  intros Hz Hr Hclean Hrun Hfin. destruct (inv_run sched) as (σ & π & Hinv). rewrite Hrun in Hinv.
  destruct (inv_finished σ π sys Hinv Hfin) as [-> Hperm]. pose proof (inv_represents σ sys Hinv Hfin) as [Htab _ _ _].
  pose proof (in_keys _ _ _ Hinv) as Hnd. pose proof (in_cfg _ _ _ Hinv) as Hcfg.
  pose proof (in_from _ _ _ Hinv) as Hfrom.
  rewrite app_nil_r in Hnd, Hfrom. destruct (steps_of_fields σ Hnd) as (Ht & Hb & Hl).
  destruct (steps_extend σ Hz Hr) as [(_ & ds & Hds & Hreplay) _].
  { apply Forall_forall. intros o (r & Hin & Ho)%Hfrom%list_elem_of_omap. by eapply Hclean. }
  destruct (deltas_since [] σ sys Hinv Hfin) as (c & Hc & Hdeltas). split_and!.
  - rewrite Htab, Ht, (rep_table _ _ Hrep). apply table_after_perm; [done|]. exact Hperm.
  - rewrite (in_serial _ _ _ Hinv), (rep_serial _ _ Hrep), <- (Permutation_length Hperm). done.
  - exists c, ds. split; [done|]. rewrite Htab, (rep_table _ _ Hrep), <- (zone_of_cfg h0 (shared sys)) by done.
    split; [|done]. rewrite Hds in Hl. apply app_inv_head in Hl. subst ds.
    rewrite (rep_serial _ _ Hrep). cbn in Hdeltas. by rewrite Z.add_0_r in Hdeltas.
Qed.

(** *** Updates that must succeed *)

(** A well-formed update of one key without prerequisites. *)
Definition unconditional (req : Msg) : Prop :=
  (∃ q, mQuestion req = [q] ∧ EqualFold (qName q) zone = true ∧ qType q = TypeSOA ∧ qClass q = ClassINET)
  ∧ mAnswer req = [] ∧ is_Some (op_of zone req).

(** A store whose calls succeed. *)
Definition store_works : Prop :=
  (∀ st k, is_ok (Get st k) = true) ∧ ∀ st ins keys, (apply_write full_writer st ins keys).2 = None.

Definition on_track (p : phase) : Prop :=
  match p with Checking rest => rest = [] | Finished rc => rc = RcodeSuccess | _ => True end.

Lemma advance_on_track h req p : cfg h = cfg h0 → store_works → unconditional req → on_track p → on_track (advance h req p).2.
Proof.
  intros Hc [HG HW] ((q & Hq & Hn & Ht & Hcl) & Ha & [o Ho]) Hp.
  destruct p as [|rest|ins aff|ins aff old|ins old|ins old|ins old s|rc]; cbn [advance on_track] in *; try done.
  - rewrite writer_full, Hq, Hc. fold zone. rewrite Hn, Ht, Hcl. cbn. exact Ha.
  - subst rest. cbn. rewrite Hc. fold zone. unfold op_of in Ho.
    by destruct (after_checks zone req) as [| |ins [|k [|]]| | | | |].
  - assert (∃ old, mapM_res (λ key, item <-? Get (store h) key; Ok (key, item)) aff = Ok old) as [old ->]; [|done].
    induction aff as [|k aff [old IH]]; [by exists []|]. specialize (HG (store h) k). cbn.
    destruct (Get (store h) k) as [i|]; [|done]. cbn. rewrite IH. by eexists.
  - rewrite writer_full. specialize (HW (store h) ins aff). destruct (apply_write _ _ _ _) as [st e]. cbn in HW. by subst e.
Qed.

Lemma run_on_track sched : ∀ σ π sys, store_works → Forall unconditional reqs → inv σ π sys →
  (∀ i req p, threads sys !! i = Some (req, p) → on_track p) →
  ∀ i req p, threads (run sys sched) !! i = Some (req, p) → on_track p.
Proof.
  induction sched as [|j sched IH]; intros σ π sys Hst Hreqs Hinv Hon; [done|].
  destruct (inv_step σ π sys j Hinv) as (σ' & π' & Hinv' & _). refine (IH σ' π' (step_thread sys j) Hst Hreqs Hinv' _).
  intros i req p. unfold step_thread. destruct (threads sys !! j) as [[rj pj]|] eqn:Hj; [|apply Hon].
  pose proof (advance_on_track (shared sys) rj pj (in_cfg _ _ _ Hinv) Hst) as Hadv.
  destruct (advance (shared sys) rj pj) as [h' pj']. cbn [threads snd] in *. destruct (decide (j = i)) as [->|Hne].
  - rewrite list_lookup_insert_eq by by eapply lookup_lt_Some. intros [= <- <-]. apply Hadv; [|by eapply Hon].
    rewrite Forall_forall in Hreqs. apply Hreqs. rewrite <- (in_reqs _ _ _ Hinv). apply list_elem_of_fmap.
    exists (rj, pj). split; [done|by eapply list_elem_of_lookup_2].
  - rewrite list_lookup_insert_ne by done. apply Hon.
Qed.

(** C17. Nothing is lost and nothing is refused: updates of different keys without
    prerequisites, under any schedule that gives each seven turns, are all
    answered NOERROR when the store's calls succeed; the table then holds every
    one of them, the serial has counted and the journal reports them all. *)
Theorem updates_all_applied sched sys :
  store_works → Forall unconditional reqs →
  (∀ i, (i < length reqs)%nat → (7 ≤ count_occ Nat.eq_dec sched i)%nat) →
  run (launch h0 reqs) sched = sys →
  Forall (λ t, t.2 = Finished RcodeSuccess) (threads sys)
  ∧ view (store (shared sys)) = table_after (view (store h0)) (omap (op_of zone) reqs)
  ∧ serial (shared sys) = serial h0 + Z.of_nat (length reqs)
  ∧ ∃ log ds, changelog (shared sys) = Some log ∧ Deltas (serial h0) log = (Some ds, true) ∧ length ds = length reqs.
Proof.
  intros Hst Hreqs Hturns Hrun. destruct (inv_run sched) as (σ & π & Hinv). rewrite Hrun in Hinv.
  assert (all_finished sys = true) as Hfin.
  { rewrite <- Hrun. apply enough_turns. intros i req Hi. rewrite Forall_forall in Hreqs.
    destruct (Hreqs req (list_elem_of_lookup_2 _ _ _ Hi)) as (_ & -> & _). apply Hturns. by eapply lookup_lt_Some. }
  assert (Forall (λ t, t.2 = Finished RcodeSuccess) (threads sys)) as Hall.
  { apply Forall_forall. intros [req p] Hin. unfold all_finished in Hfin. rewrite forallb_forall in Hfin.
    specialize (Hfin _ (proj1 (list_elem_of_In _ _) Hin)). apply list_elem_of_lookup in Hin as [i Hi].
    assert (on_track p) as Hp.
    { rewrite <- Hrun in Hi. refine (run_on_track sched [] [] _ Hst Hreqs launch_inv _ i req p Hi).
      intros j r q Hj. cbn in Hj. rewrite list_lookup_fmap in Hj. destruct (reqs !! j); [|done]. by injection Hj as <- <-. }
    destruct p; try done. cbn in *. by subst. }
  assert (acked zone (threads sys) = omap (op_of zone) reqs) as Hacked.
  { rewrite <- (in_reqs _ _ _ Hinv). clear -Hall. induction Hall as [|[r p] l Hp _ IH]; [done|]. cbn in *. subst p.
    unfold acked in *. cbn. rewrite IH. done. }
  destruct (inv_finished σ π sys Hinv Hfin) as [-> Hperm]. rewrite Hacked in Hperm.
  pose proof (in_keys _ _ _ Hinv) as Hnd. rewrite app_nil_r in Hnd.
  assert (length σ = length reqs) as Hlen.
  { rewrite (Permutation_length Hperm). clear -Hreqs. induction Hreqs as [|r l (_ & _ & [o Ho]) _ IH]; [done|].
    cbn. rewrite Ho. cbn. by rewrite IH. }
  split; [done|]. split; [|split].
  - rewrite (in_table _ _ _ Hinv), app_nil_r, (rep_table _ _ Hrep). by apply table_after_perm.
  - rewrite (in_serial _ _ _ Hinv), (rep_serial _ _ Hrep), Hlen. done.
  - destruct (deltas_since [] σ sys Hinv Hfin) as (log & Hlo & Hds). eexists log, _. split; [done|].
    rewrite (rep_serial _ _ Hrep). cbn in Hds. rewrite Z.add_0_r in Hds. split; [exact Hds|]. by rewrite length_imap.
Qed.
End Converge.

(** ** Witness: a put and a deletion, interleaved call by call *)

Definition bob_key : str := lit "user.bob".

Lemma put_dave_op : op_of demo_zone Demo.put_dave = Some (dave_key, [(dave_key, dave_item)]).
Proof. vm_compute. reflexivity. Qed.
Lemma drop_bob_op : op_of demo_zone Demo.drop_bob = Some (bob_key, []).
Proof. vm_compute. reflexivity. Qed.

Lemma both_cases i r : Demo.both !! i = Some r → (i = 0%nat ∧ r = Demo.put_dave) ∨ (i = 1%nat ∧ r = Demo.drop_bob).
Proof.
  destruct i as [|[|i]]; intros H; [left|right|discriminate H]; (split; [reflexivity|]); by apply (inj Some) in H.
Qed.

Lemma both_different : different_keys Demo.handler Demo.both.
Proof.
  intros i j ri rj oi oj Hi Hj Hne Ho Ho'. change (cZone (cfg Demo.handler)) with demo_zone in *.
  apply both_cases in Hi as [[-> ->]|[-> ->]], Hj as [[-> ->]|[-> ->]]; try (destruct Hne; reflexivity);
    rewrite put_dave_op, drop_bob_op in *; apply (inj Some) in Ho as <-, Ho' as <-; discriminate.
Qed.

Lemma both_clean r o : r ∈ Demo.both → op_of demo_zone r = Some o → clean_op o.1 o.2.
Proof.
  destruct dave_clean as [Hr [m Hm]].
  intros [->|[->|[]%elem_of_nil]%elem_of_cons]%elem_of_cons; rewrite ?put_dave_op, ?drop_bob_op; intros [= <-].
  - split; [done|]. right. exists m, m. cbn. by rewrite Hm.
  - split; [apply reachableb_spec; vm_compute; reflexivity|by left].
Qed.

Lemma different_keys_converge_witness :
  let sys := run (launch Demo.handler Demo.both) Demo.zigzag in
  length (acked demo_zone (threads sys)) = 2%nat ∧ serial (shared sys) = 102
  ∧ ∃ log' ds, changelog (shared sys) = Some log' ∧ MemChangeLog.Deltas 100 log' = (Some ds, true)
    ∧ replay (zone_of Demo.handler (view (store Demo.handler))) ds ≡ zone_of (shared sys) (view (store (shared sys))).
Proof.
  split; [vm_compute; reflexivity|]. split; [vm_compute; reflexivity|].
  refine (proj2 (proj2 (different_keys_converge Demo.handler (mkZone (view Sample.demo_store) 100 []) Demo.both
    (MemChangeLog.NewMemChangeLog 100) demo_represents _ _ both_different _ _ _ Demo.zigzag _ good_demo_zone
    demo_all_reachable both_clean _ _))).
  - reflexivity.
  - apply (MemChangeLog.New_repr 100). lia.
  - intros r o st st' e Hr Ho. destruct o as [k [|[k' i] l]]; discriminate.
  - apply Nat.leb_le. vm_compute. reflexivity.
  - reflexivity.
  - reflexivity.
  - vm_compute. reflexivity.
Defined.

(** The sample store never fails. *)
Lemma sample_works : @store_works Sample.sampleStore _ _.
Proof. split; [intros st k; unfold Get; cbn; unfold Sample.Get; by case_match|]. intros st [|[k i] ins] keys; reflexivity. Qed.

Lemma both_unconditional : Forall (unconditional Demo.handler) Demo.both.
Proof.
  repeat constructor; (eexists; split; [reflexivity|]; vm_compute; by repeat split) || (eexists; vm_compute; reflexivity).
Qed.

Lemma updates_all_applied_witness :
  let sys := run (launch Demo.handler Demo.both) Demo.zigzag in
  Forall (λ t, t.2 = Finished RcodeSuccess) (threads sys)
  ∧ view (store (shared sys)) = table_after (view (store Demo.handler)) (omap (op_of demo_zone) Demo.both)
  ∧ serial (shared sys) = 102
  ∧ ∃ log ds, changelog (shared sys) = Some log ∧ MemChangeLog.Deltas 100 log = (Some ds, true) ∧ length ds = 2%nat.
Proof.
  refine (updates_all_applied Demo.handler (mkZone (view Sample.demo_store) 100 []) Demo.both
    (MemChangeLog.NewMemChangeLog 100) demo_represents _ _ both_different _ _ _ Demo.zigzag _ sample_works
    both_unconditional _ _).
  - reflexivity.
  - apply (MemChangeLog.New_repr 100). lia.
  - intros r o st st' e Hr Ho. destruct o as [k [|[k' i] l]]; discriminate.
  - apply Nat.leb_le. vm_compute. reflexivity.
  - reflexivity.
  - intros [|[|i]] Hi; [apply Nat.leb_le; reflexivity..|cbn in Hi; lia].
  - reflexivity.
Defined.
