(* ===== verification/RaceTransferSpec.v ===== *)
(** * Transfers beside updates

    A transfer that nobody interrupts is [streamZone].  Beside updates, what it
    sends is no state the zone ever had; but a client that takes the serial of
    the opening SOA and then replays the journal from there holds the zone. *)

From S2P Require Import Prelude GoStrings Json Names Dns Journal Store Handler HandlerSpec Update UpdateSpec UpdateEffect EndToEnd Transfer TransferSpec Replication Race RaceSpec RaceConverge RaceTransfer Demo.

Section Alone.
Context `{UT : UnicodeTables, D : DnsLib} {W L : Type} `{ST : !Store W, !FullStoreSpec W, CL : !ChangeLog L}.
Implicit Types h : Handler W L.

(** The op_result of the enumeration. *)
Definition scanned (r : option (list RR * Z)) : xphase :=
  match r with Some (buf, bufLen) => XScanning buf bufLen | None => XEnded false end.

Lemma xrun_ended w req evs : ∀ ok sys ms, Forall (λ e, ∀ i, e ≠ Turn i) evs →
  xrun w req (mkXSystem sys (XEnded ok) ms : xsystem (L := L)) evs = mkXSystem sys (XEnded ok) ms.
Proof.
  induction evs as [|e evs IH]; intros ok sys ms Hf; [done|]. apply Forall_cons in Hf as [He Hf].
  cbn [xrun foldl]. destruct e as [i| | | |]; [by destruct (He i)|by apply IH..].
Qed.

(** The pages of an enumeration that nobody interrupts. *)
Lemma xrun_pages w req h ths kss : ∀ buf len ms,
  xrun w req (mkXSystem (mkSystem h ths) (XScanning buf len) ms) (Page <$> kss) =
  let '(r, s) := stream_pages w req axfrMaxBytes buf len (page_of (view (store h)) <$> kss) (mkSrv h ms []) in
  mkXSystem (mkSystem (hd_ s) ths) (scanned r) (sent s).
Proof.
  induction kss as [|ks kss IH]; intros buf len ms; [done|].
  cbn [fmap list_fmap xrun foldl stream_pages xstep transfer stream updates]. unfold as_srv, resume, bind. cbn [shared updates stream threads].
  rewrite stream_entries_written. destruct (flushed _ buf len _) as [[bs b] n].
  destruct (written _ _ _ bs) as [[] l].
  - apply IH.
  - apply (xrun_ended w req (Page <$> kss)). apply Forall_fmap, Forall_true. by intros ks' i.
Qed.

Lemma xrun_app w req (x : xsystem (W := W) (L := L)) a b : xrun w req x (a ++ b) = xrun w req (xrun w req x a) b.
Proof. apply foldl_app. Qed.

(** [streamZone] in the three parts that an [xsystem] tells apart. *)
Lemma streamZone_parts w req q (s : Srv W L) r kss :
  network w = tcp → reader = Some r → List_ r (store (hd_ s)) = (page_of (view (store (hd_ s))) <$> kss, None) →
  streamZone w req q None s =
  let '(ok, s1) := open_soa w req s in
  if ok then
    let '(res, s2) := stream_pages w req axfrMaxBytes [] overheadPerMsg (page_of (view (store (hd_ s))) <$> kss) s1 in
    match res with None => (false, s2) | Some (buf, _) => close_stream w req buf s2 end
  else (false, s1).
Proof.
  intros Ht Hr Hl. unfold streamZone, stream_full, close_stream, open_soa, bind, get_h, ret, count.
  rewrite (bool_decide_true _ Ht), Hr. cbn [is_none andb negb]. rewrite andb_false_r.
  rewrite send_written. destruct (written w req s _) as [[] m0]; cbn [negb]; [|done].
  cbn [hd_ push]. rewrite Hl. destruct (stream_pages _ _ _ _ _ _ _) as [[[buf len]|] s2]; cbn [is_none negb andb]; [|done].
  rewrite send_written. by destruct (written w req s2 _) as [[] m1]; cbn [negb].
Qed.

(** C15. A transfer that nobody interrupts is [streamZone]: given the pages of
    the store's enumeration, it sends the same messages, leaves the same
    handler and succeeds in the same cases. *)
Theorem transfer_alone w req q h ths r kss :
  network w = tcp → reader = Some r → List_ r (store h) = (page_of (view (store h)) <$> kss, None) →
  let '(ok, s) := streamZone w req q None (mkSrv h [] []) in
  xrun w req (mkXSystem (mkSystem h ths) XWaiting []) (Open :: (Page <$> kss) ++ [Close]) =
  mkXSystem (mkSystem (hd_ s) ths) (XEnded ok) (sent s).
Proof.
  intros Ht Hr Hl. rewrite (streamZone_parts w req q (mkSrv h [] []) r kss) by done. cbn [hd_].
  change (Open :: ?l) with ([Open] ++ l). rewrite xrun_app. cbn [xrun foldl xstep transfer].
  change (as_srv (mkXSystem (mkSystem h ths) XWaiting [])) with (mkSrv (W := W) (L := L) h [] []).
  assert (open_soa w req (mkSrv h [] []) = let '(ok, ms) := written w req (mkSrv h [] []) [[soa h]] in
    (ok, mkSrv h ms [])) as -> by exact (send_written w req [soa h] (mkSrv h [] [])).
  destruct (written w req (mkSrv h [] []) _) as [[] m0]; unfold resume; cbn [hd_ sent threads updates].
  - rewrite xrun_app, xrun_pages. destruct (stream_pages _ _ _ _ _ _ _) as [r' s] eqn:E.
    assert (notified s = []) as Hs.
    { rewrite stream_pages_written in E. destruct (flushed _ _ _ _) as [[bs b] n].
      destruct (written _ _ _ bs) as [ok ms]. by injection E as _ <-. }
    destruct r' as [[buf len]|]; cbn [scanned]; [|done].
    cbn [xrun foldl xstep transfer]. unfold as_srv, resume. cbn [shared updates stream threads].
    replace (mkSrv (hd_ s) (sent s) []) with s by (destruct s; cbn in *; congruence).
    by destruct (close_stream w req buf s).
  - apply (xrun_ended w req ((Page <$> kss) ++ [Close])), Forall_app. split; [|by constructor].
    apply Forall_fmap, Forall_true. by intros ks' i.
Qed.
End Alone.

(** ** Replaying over a mixture of two states *)

Section Mixed.
Context `{UT : UnicodeTables, D : DnsLib, !DnsLaws D} {W : Type} `{ST : !Store W, !FullStoreSpec W}.
#[local] Existing Instance MemChangeLog.changelog.
#[local] Existing Instance MemChangeLog.changelog_spec.
Implicit Types h : Handler W MemChangeLog.t.

(** What an operation leaves its key with. *)
Definition op_result (o : op) : option gomap := match o.2 with (_, i) :: _ => stored o.1 i | [] => None end.

Lemma write_op_result t (o : op) k : write_op t o !! k = if decide (k = o.1) then op_result o else t !! k.
Proof. apply write_op_lookup. Qed.

Lemma table_after_app t (a b : list op) : table_after t (a ++ b) = table_after (table_after t a) b.
Proof. apply foldl_app. Qed.

Lemma table_after_in t (l : list op) (o : op) : NoDup l.*1 → o ∈ l → table_after t l !! o.1 = op_result o.
Proof.
  intros Hnd [a [b ->]]%list_elem_of_split. rewrite fmap_app, fmap_cons in Hnd.
  apply NoDup_app in Hnd as (_ & _ & Hnd%NoDup_cons). destruct Hnd as [Hn _].
  rewrite table_after_app. change (o :: b) with ([o] ++ b). rewrite table_after_app, table_after_other by done.
  cbn. by rewrite write_op_result, decide_True.
Qed.

(** Every key as in one of two tables. *)
Definition mixture (t1 t2 t : gmap str gomap) : Prop := ∀ k, t !! k = t1 !! k ∨ t !! k = t2 !! k.

Lemma mixture_write t1 t2 t (o : op) : mixture t1 t2 t → t2 !! o.1 = op_result o →
  mixture (write_op t1 o) t2 (write_op t o).
Proof.
  intros Hm Ho k. rewrite !write_op_result. case_decide as Hk; [subst; by left|apply Hm].
Qed.

(** The delta of an operation, applied where its key is as before or already as
    after it. *)
Lemma delta_mixed h (t : gmap str gomap) (o : op) s (old : option gomap) :
  good_zone (cZone (cfg h)) → all_reachable t → clean_op o.1 o.2 →
  t !! o.1 = old ∨ t !! o.1 = op_result o →
  apply_delta (zone_of h t) (mkDelta s (removed_rrs h [(o.1, old)]) (added_rrs h o.2)) ≡ zone_of h (write_op t o).
Proof.
  intros Hz Hr Hop. assert (Hop' := Hop). destruct Hop' as [Hk Hins]. intros [<-|Hout].
  - pose proof (zone_step_delta h o.1 o.2 (mkZone t 0 []) Hz Hr Hop) as H. exact H.
  - assert (write_op t o = t) as ->.
    { apply map_eq. intros k. rewrite write_op_result. case_decide; [by subst|done]. }
    intros rr. unfold apply_delta. cbn [dRemoved dAdded]. split.
    + intros [[? _]|Ha]; [done|]. destruct Hins as [E|(m & m' & E & Hst & HM)]; rewrite E in Ha; [by apply elem_of_nil in Ha|].
      apply added_rrs_spec in Ha as (blob & Hb & ->). apply zone_of_spec. exists o.1, m', blob.
      split_and!; [|by rewrite HM|done]. unfold op_result in Hout. by rewrite Hout, E.
    + intros HZ. destruct (decide (rr ∈ removed_rrs h [(o.1, old)])) as [Hin|]; [|by left].
      apply removed_rrs_spec in Hin as (mo & blob & _ & _ & ->).
      apply zone_of_spec in HZ as (k & m & blob' & Hkm & Hm & He). right.
      assert (k = o.1) as ->; [|].
      { symmetry. eapply item_record_key; [done|done| |exact He]. by eapply Hr. }
      rewrite Hout in Hkm. unfold op_result in Hkm.
      destruct Hins as [E|(m1 & m' & E & Hst & HM)]; rewrite E in Hkm |- *; [done|].
      rewrite Hst in Hkm. injection Hkm as ->. rewrite He. apply added_rrs_spec. exists blob'. by rewrite <- HM.
Qed.

Lemma write_op_reachable (t : gmap str gomap) (o : op) : all_reachable t → clean_op o.1 o.2 → all_reachable (write_op t o).
Proof. intros Hr [Hk _] k m. rewrite write_op_result. case_decide; [by subst|apply Hr]. Qed.

Lemma table_after_key t (l : list op) k : is_Some (table_after t l !! k) → is_Some (t !! k) ∨ k ∈ l.*1.
Proof. intros H. destruct (decide (k ∈ l.*1)); [by right|]. rewrite table_after_other in H by done. by left. Qed.

Lemma table_after_reachable (l : list op) : ∀ t, all_reachable t → Forall (λ o, clean_op o.1 o.2) l → all_reachable (table_after t l).
Proof.
  induction l as [|o l IH]; intros t Hr Hc; [done|]. apply Forall_cons in Hc as [Ho Hc].
  apply IH; [by apply write_op_reachable|done].
Qed.

Lemma mixture_reachable t1 t2 t : mixture t1 t2 t → all_reachable t1 → all_reachable t2 → all_reachable t.
Proof. intros Hm H1 H2 k m Hk. destruct (Hm k) as [E|E]; rewrite E in Hk; eauto. Qed.

(** Replaying the operations between the two tables takes every mixture of them
    to the second. *)
Lemma replay_mixture h z (j : nat) (l : list op) : ∀ (t1 t : gmap str gomap),
  good_zone (cZone (cfg h)) → all_reachable t → Forall (λ o, clean_op o.1 o.2) l → NoDup l.*1 →
  (∀ o : op, o ∈ l → t1 !! o.1 = z_table z !! o.1) → mixture t1 (table_after t1 l) t →
  replay (zone_of h t) (imap (λ i, delta_of h z (j + i)%nat) l) ≡ zone_of h (table_after t1 l).
Proof.
  revert j. induction l as [|o l IH]; intros j t1 t Hz Hr Hc Hnd Hold Hm.
  - cbn in *. assert (t = t1) as ->; [|done]. apply map_eq. intros k. by destruct (Hm k).
  - apply Forall_cons in Hc as [Ho Hc]. assert (Hnd' := Hnd). rewrite fmap_cons in Hnd'. apply NoDup_cons in Hnd' as [Hn Hnd'].
    cbn [imap replay foldl]. change (table_after t1 (o :: l)) with (table_after (write_op t1 o) l) in *.
    assert (table_after (write_op t1 o) l !! o.1 = op_result o) as Hout.
    { rewrite table_after_other by done. by rewrite write_op_result, decide_True. }
    unfold delta_of at 1. rewrite delta_mixed; [|done..|].
    + rewrite (imap_ext _ (λ i, delta_of h z (S j + i)%nat)).
      2: { intros i x _. cbn. f_equal. lia. }
      apply IH; [done|by apply write_op_reachable|done|done| |by apply mixture_write].
      intros o' Ho'. rewrite write_op_result, decide_False; [apply Hold; by right|].
      intros E. apply Hn. rewrite <- E. apply list_elem_of_fmap. eauto.
    + rewrite <- (Hold o) by (by left). rewrite <- Hout. apply Hm.
Qed.
End Mixed.

(** ** A transfer beside updates of different keys *)

Section Beside.
Context `{UT : UnicodeTables, D : DnsLib, !DnsLaws D} {W : Type} `{ST : !Store W, !FullStoreSpec W}.
#[local] Existing Instance MemChangeLog.changelog.
#[local] Existing Instance MemChangeLog.changelog_spec.
Implicit Types h : Handler W MemChangeLog.t.
Implicit Types σ π : list op.

(** What an enumeration read: keys, each with its item or without. *)
Definition reads_rrs h (reads : list (str * option gomap)) : list RR :=
  flat_map (λ '(k, v), match v with Some m => entry_rrs h (mkEntry k (Some m)) | None => [] end) reads.

Lemma reads_rrs_app h a b : reads_rrs h (a ++ b) = reads_rrs h a ++ reads_rrs h b.
Proof. apply flat_map_app. Qed.

Lemma page_reads h t ks : flat_map (entry_rrs h) (page_of t ks) = reads_rrs h ((λ k, (k, t !! k)) <$> ks).
Proof.
  induction ks as [|k ks IH]; [done|]. unfold page_of, reads_rrs in *. cbn. rewrite <- IH.
  by destruct (t !! k).
Qed.

Lemma entry_rrs_cfg h h' e : cfg h = cfg h' → entry_rrs h e = entry_rrs h' e.
Proof. intros Hc. unfold entry_rrs, itemRRs. by rewrite Hc. Qed.

Lemma page_rrs_cfg h h' page : cfg h = cfg h' → flat_map (entry_rrs h) page = flat_map (entry_rrs h') page.
Proof. intros Hc. apply flat_map_ext_elem. intros e _. by apply entry_rrs_cfg. Qed.

(** Reading every key of a zone once is holding the zone. *)
Lemma reads_zone h (t : gmap str gomap) (reads : list (str * option gomap)) :
  (∀ k v, (k, v) ∈ reads → v = t !! k) → (∀ k, is_Some (t !! k) → k ∈ reads.*1) →
  (λ rr, rr ∈ reads_rrs h reads) ≡ zone_of h t.
Proof.
  intros Hr Hc rr. unfold zone_of, table_rrs, reads_rrs. rewrite !list_elem_of_In, !in_flat_map.
  setoid_rewrite <- list_elem_of_In. split.
  - intros ([k v] & Hin & Hrr). rewrite (Hr k v Hin) in Hrr. destruct (t !! k) as [m|] eqn:E; [|by apply elem_of_nil in Hrr].
    exists (k, m). split; [by apply elem_of_map_to_list|done].
  - intros ([k m] & Hin%elem_of_map_to_list & Hrr). destruct (proj1 (list_elem_of_fmap _ _ _) (Hc k ltac:(eauto))) as ([k' v] & E & Hkv).
    cbn in E. subst k'. exists (k, v). split; [done|]. by rewrite (Hr k v Hkv), Hin.
Qed.

Lemma soa_at_cfg h h' s : cfg h = cfg h' → soa_at h s = soa_at h' s.
Proof. intros Hc. unfold soa_at. by rewrite Hc. Qed.

Variable h0 : Handler W MemChangeLog.t.
Variable z0 : zone_state.
Variable reqs : list Msg.
Variable c0 : MemChangeLog.t.
Variables (w : Conn) (req : Msg).
Hypothesis Hrep : represents h0 z0.
Hypothesis Hlog : changelog h0 = Some c0.
Hypothesis Hrepr : MemChangeLog.repr c0 (z_base z0) (z_log z0).
Hypothesis Hkeys : different_keys h0 reqs.
Hypothesis Hfail : failures_harmless h0 reqs.
Hypothesis Hcap : (length (z_log z0) + length reqs ≤ MemChangeLog.cap)%nat.
Hypothesis Hroom : z_serial z0 + Z.of_nat (length reqs) < 2 ^ 32 - 1.
Hypothesis Hw : healthy w.
Let s0 := z_serial z0.
Let t0 := z_table z0.
#[local] Abbreviation inv := (inv h0 z0 reqs c0).
#[local] Abbreviation xsys := (xsystem (W := W) (L := MemChangeLog.t)).

(** The invariant of the updates does not see the metrics. *)
Lemma inv_metrics σ π sys m : inv σ π sys → inv σ π (mkSystem (set_metrics m (shared sys)) (threads sys)).
Proof. intros [H1 H2 H3 H4 H5 H6 H7 H8 H9]. by split. Qed.

(** [σ1]: the operations numbered when the opening SOA was sent. *)
Definition stream_inv (nσ : nat) (σ1 : list op) (reads : list (str * option gomap)) (x : xsys) : Prop :=
  match transfer x with
  | XWaiting => stream x = [] ∧ reads = []
  | XScanning buf len => ∃ bs, mAnswer <$> stream x = [soa_at h0 (s0 + Z.of_nat (length σ1))] :: bs
      ∧ concat bs ++ buf = reads_rrs h0 reads ∧ open_ok axfrMaxBytes buf len
  | XEnded ok => ok = true ∧ ∃ body c, mAnswer <$> stream x = [soa_at h0 (s0 + Z.of_nat (length σ1))] :: body ++ [[soa_at h0 c]]
      ∧ concat body = reads_rrs h0 reads ∧ s0 + Z.of_nat (length σ1) ≤ c ≤ s0 + Z.of_nat nσ
  end.

(** What was read of a key is what it held at the opening SOA, or what an
    operation since then left it with. *)
Definition read_ok σ π σ1 (kv : str * option gomap) : Prop :=
  kv.2 = table_after t0 σ1 !! kv.1 ∨ ∃ o : op, o ∈ σ ++ π ∧ o.1 = kv.1 ∧ kv.2 = op_result o.

Record xinv σ π σ1 (reads : list (str * option gomap)) (x : xsys) : Prop := {
  xi_inv : inv σ π (updates x);
  xi_prefix : σ1 `prefix_of` σ;
  xi_reads : Forall (read_ok σ π σ1) reads;
  xi_stream : stream_inv (length σ) σ1 reads x;
}.

Lemma xinv_turn σ π σ1 reads x i : xinv σ π σ1 reads x →
  ∃ σ' π', xinv σ' π' σ1 reads (xstep w req x (Turn i)).
Proof.
  intros [Hi Hp Hr Hs]. destruct (inv_step h0 z0 reqs c0 Hrep Hlog Hrepr Hkeys Hfail Hcap Hroom σ π _ i Hi) as (σ' & π' & Hi' & Hp' & Hs').
  exists σ', π'. split; cbn [xstep updates].
  - done.
  - by etrans.
  - eapply Forall_impl; [exact Hr|]. intros kv [?|(o & Ho & ?)]; [by left|right]. exists o. split; [by apply Hs'|done].
  - unfold stream_inv in *. cbn [transfer stream]. destruct (transfer x) as [|buf len|ok]; [done..|].
    destruct Hs as (Hok & body & c & H1 & H2 & H3). split; [done|]. exists body, c. split_and!; [done|done|lia|].
    apply prefix_length in Hp'. lia.
Qed.

Lemma open_soa_healthy (s : Srv W MemChangeLog.t) :
  open_soa w req s = (true, push [tmsg (hd_ s) w req [soa (hd_ s)]] s).
Proof.
  unfold open_soa, bind, get_h. rewrite send_written. unfold written. by rewrite write_all_healthy.
Qed.

Lemma soa_numbered σ π (sys : system) : inv σ π sys → soa (shared sys) = soa_at h0 (s0 + Z.of_nat (length σ)).
Proof.
  intros Hi. unfold soa. rewrite (in_serial _ _ _ _ _ _ _ Hi). apply soa_at_cfg. apply (in_cfg _ _ _ _ _ _ _ Hi).
Qed.

Lemma answers_snoc (l : list Msg) h rrs bs : mAnswer <$> l = bs → mAnswer <$> (l ++ [tmsg h w req rrs]) = bs ++ [rrs].
Proof. intros <-. rewrite fmap_app. f_equal. exact (tmsg_answers h w req [rrs]). Qed.

Lemma xinv_open σ π (sys : system) : inv σ π sys →
  let x := xstep w req (mkXSystem sys XWaiting []) Open in
  xinv σ π σ [] x ∧ ∃ buf len, transfer x = XScanning buf len.
Proof.
  intros Hi x. assert (x = mkXSystem sys (XScanning [] overheadPerMsg) [tmsg (shared sys) w req [soa (shared sys)]]) as ->.
  { unfold x. cbn [xstep transfer]. rewrite open_soa_healthy. unfold resume. cbn. by destruct sys. }
  split; [|by eauto]. split; cbn [updates]; [done|done|constructor|].
  unfold stream_inv. cbn [transfer stream]. exists []. rewrite <- (soa_numbered σ π sys Hi).
  split_and!; [exact (tmsg_answers _ w req [[soa (shared sys)]])|done|].
  split; [done|done].
Qed.

(** A page reads every key as it is now. *)
Lemma read_now σ π σ1 (sys : system) k : inv σ π sys → σ1 `prefix_of` σ →
  read_ok σ π σ1 (k, view (store (shared sys)) !! k).
Proof.
  intros Hi [σ2 Hp]. rewrite (in_table _ _ _ _ _ _ _ Hi). fold t0. unfold read_ok. cbn.
  destruct (decide (k ∈ (σ ++ π).*1)) as [Hk|Hk].
  - right. apply list_elem_of_fmap in Hk as (o & -> & Ho). exists o. split_and!; [done|done|].
    apply table_after_in; [apply (in_keys _ _ _ _ _ _ _ Hi)|done].
  - left. rewrite !table_after_other; [done| |done]. intros Hk'. apply Hk. subst σ. rewrite !fmap_app, !elem_of_app. by left; left.
Qed.

Lemma xinv_page σ π σ1 reads x ks buf len : xinv σ π σ1 reads x → transfer x = XScanning buf len →
  let x' := xstep w req x (Page ks) in
  xinv σ π σ1 (reads ++ ((λ k, (k, view (store (shared (updates x))) !! k)) <$> ks)) x'
  ∧ ∃ buf len, transfer x' = XScanning buf len.
Proof.
  intros [Hi Hp Hr Hs] Ht. unfold stream_inv in Hs. cbn [xstep]. rewrite Ht in Hs |- *.
  destruct Hs as (bs & Ha & Hc & Ho). rewrite stream_entries_written. cbn [as_srv hd_].
  rewrite page_reads. destruct (flushed _ buf len _) as [[bs' b] n] eqn:E.
  apply flushed_spec in E as (Hcat & _ & Ho' & _); [|done].
  unfold written. rewrite write_all_healthy by done. split; [|by eauto]. split; cbn.
  - destruct (updates x); done.
  - done.
  - apply Forall_app. split; [done|]. apply Forall_fmap, Forall_true. intros k. by apply read_now.
  - exists (bs ++ bs'). rewrite fmap_app, tmsg_answers, Ha. split_and!; [done| |done].
    rewrite reads_rrs_app, concat_app, <- app_assoc, Hcat, app_assoc, Hc. f_equal.
    unfold reads_rrs. apply flat_map_ext_elem. intros [k [m|]] _; [|done]. apply entry_rrs_cfg, (in_cfg _ _ _ _ _ _ _ Hi).
Qed.

Lemma xinv_close σ π σ1 reads x buf len : xinv σ π σ1 reads x → transfer x = XScanning buf len →
  let x' := xstep w req x Close in xinv σ π σ1 reads x' ∧ transfer x' = XEnded true.
Proof.
  intros [Hi Hp Hr Hs] Ht. unfold stream_inv in Hs. cbn [xstep]. rewrite Ht in Hs |- *.
  destruct Hs as (bs & Ha & Hc & Ho). unfold close_stream, bind, ret, count. rewrite send_written.
  unfold written. rewrite write_all_healthy by done. cbn [negb]. rewrite open_soa_healthy. cbn [negb].
  split; [|done]. split; cbn.
  - apply (inv_metrics σ π (updates x)). done.
  - done.
  - done.
  - split; [done|]. exists (bs ++ last_batch buf), (s0 + Z.of_nat (length σ)). split_and!.
    + rewrite (answers_snoc _ _ _ _ eq_refl), fmap_app, tmsg_answers, Ha, (soa_numbered σ π _ Hi). cbn. by rewrite <- !app_assoc.
    + rewrite concat_app, <- Hc. f_equal. unfold last_batch. destruct buf; cbn; [done|by rewrite app_nil_r].
    + apply prefix_length in Hp. lia.
    + done.
Qed.

(** Between the opening and the closing SOA: turns of the updates and pages. *)
Definition scanning (e : event) : Prop := match e with Turn _ | Page _ => True | _ => False end.
Definition scanned_keys (evs : list event) : list str := concat (omap (λ e, match e with Page ks => Some ks | _ => None end) evs).

Lemma xinv_turns σ π σ1 reads (x : xsys) l : xinv σ π σ1 reads x →
  ∃ σ' π', xinv σ' π' σ1 reads (xrun w req x (Turn <$> l)) ∧ transfer (xrun w req x (Turn <$> l)) = transfer x.
Proof.
  revert σ π x. induction l as [|i l IH]; intros σ π x H; [by exists σ, π|].
  destruct (xinv_turn σ π σ1 reads x i H) as (σ' & π' & H'). exact (IH σ' π' _ H').
Qed.

Lemma xinv_scan evs : ∀ σ π σ1 reads (x : xsys) buf len, Forall scanning evs → xinv σ π σ1 reads x →
  transfer x = XScanning buf len →
  ∃ σ' π' reads', xinv σ' π' σ1 reads' (xrun w req x evs) ∧ reads'.*1 = reads.*1 ++ scanned_keys evs
  ∧ ∃ buf len, transfer (xrun w req x evs) = XScanning buf len.
Proof.
  induction evs as [|e evs IH]; intros σ π σ1 reads x buf len Hf H Ht; [exists σ, π, reads; rewrite app_nil_r; eauto|].
  apply Forall_cons in Hf as [He Hf]. destruct e as [i| |ks| |]; try done; cbn [xrun foldl].
  - destruct (xinv_turn σ π σ1 reads x i H) as (σ' & π' & H'). exact (IH σ' π' σ1 reads _ buf len Hf H' Ht).
  - destruct (xinv_page σ π σ1 reads x ks buf len H Ht) as (H' & buf' & len' & Ht').
    destruct (IH _ _ _ _ _ _ _ Hf H' Ht') as (σ' & π' & reads' & H2 & Hk & H3). exists σ', π', reads'. split_and!; [done| |done].
    rewrite Hk, fmap_app, <- list_fmap_compose, list_fmap_id. unfold scanned_keys. cbn. by rewrite <- app_assoc.
Qed.

(** Each key of the mixture is as at the opening SOA or as at the end. *)
Lemma reads_mixture σ σ1 (reads : list (str * option gomap)) : NoDup σ.*1 → NoDup reads.*1 →
  Forall (read_ok σ [] σ1) reads →
  (∀ k, is_Some (table_after t0 σ1 !! k) ∨ is_Some (table_after t0 σ !! k) → k ∈ reads.*1) →
  ∃ t : gmap str gomap, ((λ rr, rr ∈ reads_rrs h0 reads) : replica) ≡ zone_of h0 t ∧ mixture (table_after t0 σ1) (table_after t0 σ) t.
Proof.
  intros Hnd Hnr Hr Hc.
  set (val := λ k, default None ((list_to_map reads : gmap str (option gomap)) !! k)).
  assert (∀ k v, (k, v) ∈ reads → val k = v) as Hval.
  { intros k v Hkv. unfold val. by rewrite (elem_of_list_to_map_1 reads k v). }
  assert (∀ k, k ∉ reads.*1 → val k = None) as Hnone.
  { intros k Hk. unfold val. by rewrite (not_elem_of_list_to_map_1 reads k). }
  set (t := omap id (list_to_map reads : gmap str (option gomap)) : gmap str gomap).
  assert (∀ k, t !! k = val k) as Ht.
  { intros k. unfold t, val. rewrite lookup_omap. by destruct (list_to_map reads !! k). }
  exists t. split.
  - apply reads_zone.
    + intros k v Hkv. by rewrite Ht, (Hval k v).
    + intros k [m Hm]. destruct (decide (k ∈ reads.*1)); [done|]. by rewrite Ht, Hnone in Hm.
  - intros k. rewrite Ht. destruct (decide (k ∈ reads.*1)) as [Hk|Hk].
    + apply list_elem_of_fmap in Hk as ([k' v] & E & Hkv). cbn in E. subst k'. rewrite (Hval k v Hkv).
      rewrite Forall_forall in Hr. destruct (Hr _ Hkv) as [Hv|(o & Ho & Hok & Hov)]; cbn in *; [by left|right; subst k v].
      cbn. rewrite app_nil_r in Ho. symmetry. by apply table_after_in.
    + rewrite Hnone by done. left. destruct (table_after t0 σ1 !! k) eqn:E; [|done]. destruct Hk. apply Hc. left. eauto.
Qed.

(** The state of a run in which one transfer is opened, reads its pages and is
    closed, and all updates end. *)
Lemma xinv_whole pre mid post (x : xsys) : Forall scanning mid →
  xrun w req (xlaunch h0 reqs) ((Turn <$> pre) ++ [Open] ++ mid ++ [Close] ++ (Turn <$> post)) = x →
  all_finished (updates x) = true →
  ∃ σ1 σ2 reads, xinv (σ1 ++ σ2) [] σ1 reads x ∧ reads.*1 = scanned_keys mid ∧ transfer x = XEnded true.
Proof.
  intros Hmid Hrun Hfin. rewrite !xrun_app in Hrun.
  assert (xrun w req (xlaunch h0 reqs) (Turn <$> pre) = mkXSystem (run (launch h0 reqs) pre) XWaiting []) as E.
  { clear Hrun. unfold xlaunch. generalize (launch h0 reqs). induction pre as [|i l IH]; intros sys; [done|]. apply IH. }
  destruct (inv_run h0 z0 reqs c0 Hrep Hlog Hrepr Hkeys Hfail Hcap Hroom pre) as (σ1 & π1 & H1).
  rewrite E in Hrun. destruct (xinv_open σ1 π1 _ H1) as (H2 & buf & len & Ht2).
  change (xrun w req ?y [Open]) with (xstep w req y Open) in Hrun. change (xrun w req ?y [Close]) with (xstep w req y Close) in Hrun.
  destruct (xinv_scan mid _ _ _ _ _ _ _ Hmid H2 Ht2) as (σ3 & π3 & reads & H3 & Hk & buf3 & len3 & Ht3).
  destruct (xinv_close _ _ _ _ _ _ _ H3 Ht3) as (H4 & Ht4).
  destruct (xinv_turns _ _ _ _ _ post H4) as (σ5 & π5 & H5 & Ht5).
  rewrite Hrun in H5, Ht5. destruct (inv_finished h0 z0 reqs c0 Hkeys _ _ _ (xi_inv _ _ _ _ _ H5) Hfin) as [-> _].
  destruct (xi_prefix _ _ _ _ _ H5) as [σ2 ->]. exists σ1, σ2, reads. split; [done|]. split; [exact Hk|congruence].
Qed.

(** C3. A full transfer beside updates: whatever the schedule, a client that
    takes the records of the stream and the serial of the opening SOA, and then
    replays what the journal reports since that serial, holds the current zone
    once the updates have ended.  The enumeration has only to read every key
    once that is in the table at the start or is written. *)
Theorem opening_serial_converges pre mid post (x : xsys) :
  good_zone (cZone (cfg h0)) → all_reachable t0 →
  (∀ r o, r ∈ reqs → op_of (cZone (cfg h0)) r = Some o → clean_op o.1 o.2) →
  Forall scanning mid → NoDup (scanned_keys mid) →
  (∀ k, is_Some (t0 !! k) ∨ k ∈ (omap (op_of (cZone (cfg h0))) reqs).*1 → k ∈ scanned_keys mid) →
  xrun w req (xlaunch h0 reqs) ((Turn <$> pre) ++ [Open] ++ mid ++ [Close] ++ (Turn <$> post)) = x →
  all_finished (updates x) = true →
  ∃ opening body closing log ds,
    mAnswer <$> stream x = [soa_at h0 opening] :: body ++ [[soa_at h0 closing]]
    ∧ serial h0 ≤ opening ≤ closing ∧ closing ≤ serial (shared (updates x))
    ∧ changelog (shared (updates x)) = Some log ∧ Deltas opening log = (Some ds, true)
    ∧ replay (λ rr, rr ∈ concat body) ds ≡ zone_of (shared (updates x)) (view (store (shared (updates x)))).
Proof.
  intros Hz Hreach Hclean Hmid Hnr Hcover Hrun Hfin.
  destruct (xinv_whole pre mid post x Hmid Hrun Hfin) as (σ1 & σ2 & reads & [Hinv _ Hreads Hs] & Hk & Ht).
  pose proof (in_keys _ _ _ _ _ _ _ Hinv) as Hnd. pose proof (in_from _ _ _ _ _ _ _ Hinv) as Hfrom. rewrite app_nil_r in Hnd, Hfrom.
  assert (Forall (λ o : op, clean_op o.1 o.2) (σ1 ++ σ2)) as Hc.
  { apply Forall_forall. intros o (r & Hin & Ho)%Hfrom%list_elem_of_omap. by eapply Hclean. }
  unfold stream_inv in Hs. rewrite Ht in Hs. destruct Hs as (_ & body & closing & Hstream & Hbody & Hclo).
  destruct (deltas_since h0 z0 reqs c0 Hrep Hrepr Hcap Hroom σ1 σ2 _ Hinv Hfin) as (log & Hlo & Hds).
  exists (s0 + Z.of_nat (length σ1)), body, closing, log, (imap (λ i, delta_of h0 z0 (length σ1 + i)%nat) σ2).
  rewrite (rep_serial _ _ Hrep), (in_serial _ _ _ _ _ _ _ Hinv). fold s0. split_and!; [done|lia|lia|lia|done|done|].
  rewrite (in_table _ _ _ _ _ _ _ Hinv), app_nil_r, <- (zone_of_cfg h0) by (by rewrite (in_cfg _ _ _ _ _ _ _ Hinv)).
  fold t0. rewrite Hbody. rewrite <- Hk in Hnr, Hcover.
  destruct (reads_mixture (σ1 ++ σ2) σ1 reads Hnd Hnr Hreads) as (t & -> & Hmix).
  - intros k Hin'. apply Hcover.
    assert (is_Some (t0 !! k) ∨ k ∈ (σ1 ++ σ2).*1) as [?|Hin]; [|by left|right].
    { destruct Hin' as [H%table_after_key|H%table_after_key]; [|done]. rewrite fmap_app, elem_of_app. tauto. }
    apply list_elem_of_fmap in Hin as (o & -> & Ho). apply list_elem_of_fmap. eauto.
  - assert (Hc' := Hc). apply Forall_app in Hc' as [Hc1 Hc2]. rewrite fmap_app, NoDup_app in Hnd.
    destruct Hnd as (_ & Hdis & Hnd2). rewrite table_after_app in Hmix |- *.
    assert (all_reachable (table_after t0 σ1)) as Hr1 by by apply table_after_reachable.
    apply replay_mixture; [done| |done|done| |done].
    + eapply mixture_reachable; [done|done|]. by apply table_after_reachable.
    + intros o Ho. apply table_after_other. intros Ho'. apply (Hdis _ Ho'). apply list_elem_of_fmap. eauto.
Qed.
End Beside.

(** ** Witnesses *)

(** The keys of the demo table, and the one that is put, in two pages. *)
Definition early_keys : list str := take 2 (map fst (map_to_list (view Sample.demo_store))).
Definition late_keys : list str := drop 2 (map fst (map_to_list (view Sample.demo_store))) ++ [dave_key].

(** The put has written but not numbered at the opening SOA, and the deletion
    writes between the two pages. *)
Definition before_open : list nat := [0; 0; 0; 0]%nat.
Definition amid : list event := [Page early_keys] ++ (Turn <$> [0; 0; 0; 1; 1; 1; 1]%nat) ++ [Page late_keys].
Definition after_close : list nat := [1; 1; 1]%nat.

Definition shared_transfer : xsystem (W := Sample.sampleStore) (L := MemChangeLog.t) :=
  xrun Demo.tcp axfr (xlaunch Demo.handler Demo.both)
    ((Turn <$> before_open) ++ [Open] ++ amid ++ [Close] ++ (Turn <$> after_close)).

Definition memberb (k : str) (l : list str) : bool := bool_decide (k ∈ l).

Lemma amid_covers k :
  is_Some (view Sample.demo_store !! k) ∨ k ∈ (omap (op_of demo_zone) Demo.both).*1 → k ∈ scanned_keys amid.
Proof.
  intros [[m Hm%elem_of_map_to_list]|Hk].
  - assert (forallb (λ p, memberb p.1 (scanned_keys amid)) (map_to_list (view Sample.demo_store)) = true) as H
      by (vm_compute; reflexivity).
    rewrite forallb_forall in H. apply list_elem_of_In, H in Hm. by apply bool_decide_eq_true_1 in Hm.
  - assert (forallb (λ k, memberb k (scanned_keys amid)) (omap (op_of demo_zone) Demo.both).*1 = true) as H
      by (vm_compute; reflexivity).
    rewrite forallb_forall in H. apply list_elem_of_In, H in Hk. by apply bool_decide_eq_true_1 in Hk.
Qed.

Lemma put_drop_harmless : failures_harmless Demo.handler Demo.both.
Proof. intros r o st st' e Hr Ho. destruct o as [k [|[k' i] l]]; discriminate. Qed.

Lemma opening_serial_converges_witness :
  serial (shared (updates shared_transfer)) = 102
  ∧ ∃ opening body closing log ds,
    mAnswer <$> stream shared_transfer = [soa_at Demo.handler opening] :: body ++ [[soa_at Demo.handler closing]]
    ∧ changelog (shared (updates shared_transfer)) = Some log ∧ MemChangeLog.Deltas opening log = (Some ds, true)
    ∧ replay (λ rr, rr ∈ concat body) ds
        ≡ zone_of (shared (updates shared_transfer)) (view (store (shared (updates shared_transfer)))).
Proof.
  split; [vm_compute; reflexivity|].
  destruct (opening_serial_converges Demo.handler (mkZone (view Sample.demo_store) 100 []) Demo.both
    (MemChangeLog.NewMemChangeLog 100) Demo.tcp axfr demo_represents eq_refl (MemChangeLog.New_repr 100 ltac:(lia))
    both_different put_drop_harmless ltac:(apply Nat.leb_le; vm_compute; reflexivity) ltac:(reflexivity) tcp_healthy
    before_open amid after_close shared_transfer good_demo_zone demo_all_reachable both_clean)
    as (opening & body & closing & log & ds & H1 & _ & _ & H2 & H3 & H4).
  - repeat constructor.
  - apply (bool_decide_unpack _). vm_compute. reflexivity.
  - exact amid_covers.
  - unfold shared_transfer. reflexivity.
  - vm_compute. reflexivity.
  - exists opening, body, closing, log, ds. split; [exact H1|]. split; [exact H2|]. split; [exact H3|exact H4].
Defined.

Lemma transfer_alone_witness :
  let '(ok, s) := streamZone Demo.tcp axfr (ask TypeAXFR) None Demo.srv in
  xrun Demo.tcp axfr (mkXSystem (mkSystem Demo.handler []) XWaiting []) [Open; Page (Sample.sorted_keys Sample.demo_store); Close]
  = mkXSystem (mkSystem (hd_ s) []) (XEnded ok) (sent s).
Proof.
  apply (transfer_alone Demo.tcp axfr (ask TypeAXFR) Demo.handler [] Sample.sample_reader
    [Sample.sorted_keys Sample.demo_store]); [reflexivity|reflexivity|vm_compute; reflexivity].
Defined.
