(* ===== verification/RaceIxfr.v ===== *)
(** * Incremental transfers beside updates

    An incremental transfer that nobody interrupts is [handleIXFR].  Beside
    updates of different keys, the differences it sends are a prefix of the
    history since the client's serial: a client that takes the serial of the
    last difference sequence can go on from there and misses nothing. *)

From S2P Require Import Prelude GoStrings Json Names Dns Journal Store Handler HandlerSpec Update UpdateSpec UpdateEffect EndToEnd Transfer TransferSpec Replication Race RaceSpec RaceConverge RaceTransfer RaceTransferSpec Demo.

(** ** Alone *)

Section Alone.
Context `{UT : UnicodeTables, D : DnsLib} {W L : Type} `{ST : !Store W, !FullStoreSpec W, CL : !ChangeLog L}.
Implicit Types h : Handler W L.

Lemma irun_call w req h ths p ms evs :
  irun w req (mkISystem (mkSystem h ths) p ms) (None :: evs) =
  let '(p', s) := icall w req p (mkSrv h ms []) in irun w req (mkISystem (mkSystem (hd_ s) ths) p' (sent s)) evs.
Proof. cbn [irun foldl istep iphase_ iupdates istream shared threads]. by destruct (icall w req p _). Qed.

Lemma irun_still w req h ths p ms n : (∀ s : Srv W L, icall w req p s = (p, s)) →
  irun w req (mkISystem (mkSystem h ths) p ms) (replicate n None) = mkISystem (mkSystem h ths) p ms.
Proof. intros Hp. induction n as [|n IH]; [done|]. cbn [replicate]. by rewrite irun_call, Hp. Qed.

(** [streamZone] with a history, in the two parts that other threads can come
    between. *)
Lemma streamZone_deltas w req q (s : Srv W L) ds : network w = tcp →
  streamZone w req q (Some ds) s =
  match icall w req (IFetched ds) s with
  | (IReplayed, s1) => match icall w req IReplayed s1 with (IEnded ok, s2) => (ok, s2) | (_, s2) => (false, s2) end
  | (_, s1) => (false, s1)
  end.
Proof.
  intros Ht. unfold streamZone, icall, open_soa, bind, get_h, ret, count. rewrite (bool_decide_true _ Ht).
  cbn [is_none andb negb]. rewrite andb_false_r, send_written.
  destruct (written w req s _) as [[] m0]; cbn [negb]; [|done].
  destruct (send_deltas w req axfrMaxBytes ds _) as [[] s1]; cbn [negb]; [|done].
  rewrite send_written. by destruct (written w req s1 _) as [[] m1]; cbn [negb].
Qed.

Lemma handleIXFR_cases w req q (s : Srv W L) hdr n m since a b c d :
  network w = tcp → EqualFold (qName q) (cZone (cfg (hd_ s))) = true → mNs req = [RR_SOA hdr n m since a b c d] →
  handleIXFR w req q s =
  if serial (hd_ s) <=? since then reply_soa w req s
  else (tt, (streamZone w req q (history (hd_ s) since) s).2).
Proof.
  intros Ht Hq Hns. unfold handleIXFR, bind, get_h, ret. rewrite Hns, Hq, (bool_decide_true _ Ht). cbn [negb].
  destruct (serial (hd_ s) <=? since); [done|]. unfold history. by destruct (streamZone _ _ _ _ _).
Qed.

(** An incremental transfer over TCP that nobody interrupts is
    [handleIXFR]: it sends the same messages and leaves the same handler, or
    goes on as a full transfer where [handleIXFR] does. *)
Theorem ixfr_alone w req q h ths hdr n m since a b c d :
  network w = tcp → EqualFold (qName q) (cZone (cfg h)) = true → mNs req = [RR_SOA hdr n m since a b c d] →
  let x := irun w req (mkISystem (mkSystem h ths) (IAsked since) []) (replicate 4 None) in
  match iphase_ x with
  | IEnded _ => handleIXFR w req q (mkSrv h [] []) = (tt, mkSrv (shared (iupdates x)) (istream x) [])
  | IFallback => iupdates x = mkSystem h ths ∧ istream x = []
      ∧ handleIXFR w req q (mkSrv h [] []) = (tt, (streamZone w req q None (mkSrv h [] [])).2)
  | _ => False
  end.
Proof.
  intros Ht Hq Hns x. rewrite (handleIXFR_cases w req q (mkSrv h [] []) hdr n m since a b c d) by done. cbn [hd_].
  remember x as y eqn:Ey. subst x. cbn [replicate] in Ey. rewrite irun_call in Ey. cbn [icall] in Ey.
  unfold bind at 1, get_h at 1, ret at 1 in Ey. cbn [hd_ sent] in Ey. destruct (serial h <=? since).
  - rewrite irun_call in Ey. cbn [icall] in Ey. unfold bind, ret in Ey.
    destruct (reply_soa w req (mkSrv h [] [])) as [[] s] eqn:E.
    assert (notified s = []) as Hn by (unfold reply_soa, bind, get_h, ret, WriteMsg in E; by injection E as <-).
    rewrite (irun_still _ _ _ _ (IEnded true) _ 2) in Ey by done. subst y. cbn. destruct s; cbn in *. by subst.
  - rewrite irun_call in Ey. cbn [icall] in Ey. unfold bind at 1, get_h at 1, ret at 1 in Ey. cbn [hd_ sent] in Ey.
    fold (history h since) in Ey.
    destruct (history h since) as [ds|]; [|rewrite (irun_still _ _ _ _ IFallback _ 2) in Ey by done; by subst y].
    rewrite streamZone_deltas by done. rewrite irun_call in Ey.
    destruct (icall w req (IFetched ds) (mkSrv h [] [])) as [p s] eqn:E.
    assert (notified s = [] ∧ (p = IReplayed ∨ ∃ ok, p = IEnded ok)) as [Hn Hp].
    { revert E. cbn [icall]. unfold open_soa, bind, get_h, ret. rewrite send_written.
      destruct (written _ _ _ _) as [[] m0]; cbn [negb]; [|intros [= <- <-]; eauto].
      rewrite send_deltas_written. destruct (written _ _ _ _) as [[] m1]; intros [= <- <-]; eauto. }
    assert (mkSrv (hd_ s) (sent s) [] = s) as Hs by (destruct s; cbn in *; by subst).
    destruct Hp as [->|[ok ->]].
    + rewrite irun_call, Hs in Ey. destruct (icall w req IReplayed s) as [p s2] eqn:E2.
      assert (notified s2 = [] ∧ ∃ ok, p = IEnded ok) as [Hn2 [ok ->]].
      { revert E2. cbn [icall]. unfold open_soa, bind, get_h, ret, count. rewrite send_written.
        destruct (written _ _ _ _) as [[] m1]; cbn [negb]; intros [= <- <-]; eauto. }
      subst y. cbn. destruct s2; cbn in *. by subst.
    + rewrite (irun_still _ _ _ _ (IEnded ok) _ 1) in Ey by done. subst y. cbn. by rewrite Hs.
Qed.
End Alone.

(** ** What the journal reports in the middle of a run *)

Lemma prefix_of_lookup {A} (l k : list A) : (∀ j x, l !! j = Some x → k !! j = Some x) → l `prefix_of` k.
Proof.
  revert k. induction l as [|x l IH]; intros k H; [apply prefix_nil|].
  specialize (H 0%nat x eq_refl) as H0. destruct k as [|y k]; [done|]. injection H0 as ->.
  apply prefix_cons, IH. intros j z Hz. exact (H (S j) z Hz).
Qed.

(** The collecting loop, on any map: it reports the deltas of all serials up to
    the latest, or nothing. *)
Lemma deltas_loop_some c n : ∀ s out ds b, MemChangeLog.latest c < 2 ^ 32 - 1 → 0 ≤ s ≤ MemChangeLog.latest c + 1 →
  nloop n (MemChangeLog.deltas_step c) (s, out) = inr (Some ds, b) →
  ∃ ds', ds = out ++ ds' ∧ s + Z.of_nat (length ds') = MemChangeLog.latest c + 1
  ∧ ∀ j d, ds' !! j = Some d → MemChangeLog.deltas c !! (s + Z.of_nat j) = Some d.
Proof.
  induction n as [|n IH]; intros s out ds b Hl Hs; [done|].
  change (nloop (S n) (MemChangeLog.deltas_step c) (s, out))
    with (match MemChangeLog.deltas_step c (s, out) with inl a' => nloop n (MemChangeLog.deltas_step c) a' | r => r end).
  unfold MemChangeLog.deltas_step at 1. destruct (Z.leb_spec s (MemChangeLog.latest c)).
  - destruct (MemChangeLog.deltas c !! s) as [d|] eqn:Hd; [|done]. rewrite u32_small by lia.
    intros (ds' & -> & Hlen & Hds)%IH; [|lia..]. exists (d :: ds'). rewrite <- app_assoc. cbn [length app].
    split_and!; [done|lia|]. intros [|j] d' Hj; [injection Hj as <-; by rewrite Z.add_0_r|].
    replace (s + Z.of_nat (S j)) with (s + 1 + Z.of_nat j) by lia. by apply Hds.
  - intros [= <- <-]. exists []. rewrite app_nil_r. cbn. split_and!; [done|lia|done].
Qed.

Lemma Deltas_some c since ds : 0 ≤ since → MemChangeLog.latest c < 2 ^ 32 - 1 →
  (MemChangeLog.Deltas since c).1 = Some ds →
  u32 (MemChangeLog.oldest c - 1) ≤ since ∧ since + Z.of_nat (length ds) = MemChangeLog.latest c
  ∧ ∀ j d, ds !! j = Some d → MemChangeLog.deltas c !! (since + 1 + Z.of_nat j) = Some d.
Proof.
  intros Hs Hl. unfold MemChangeLog.Deltas.
  destruct (Z.ltb_spec (MemChangeLog.latest c) since); [done|].
  destruct (Z.ltb_spec since (u32 (MemChangeLog.oldest c - 1))); [done|]. cbn [orb].
  rewrite u32_small by lia. rewrite loop_nloop. generalize (Pos.to_nat MemChangeLog.prune_fuel). intros n.
  destruct (nloop n _ _) as [a|[ds' b]] eqn:E; [done|]. cbn. intros ->.
  apply deltas_loop_some in E as (ds' & -> & Hlen & Hds); [|lia..]. split_and!; [done|cbn; lia|exact Hds].
Qed.

(** ** Beside updates of different keys *)

Section Beside.
Context `{UT : UnicodeTables, D : DnsLib, !DnsLaws D} {W : Type} `{ST : !Store W, !FullStoreSpec W}.
#[local] Existing Instance MemChangeLog.changelog.
#[local] Existing Instance MemChangeLog.changelog_spec.
Implicit Types h : Handler W MemChangeLog.t.
Implicit Types σ π : list op.

Variable h0 : Handler W MemChangeLog.t.
Variable z0 : zone_state.
Variable reqs : list Msg.
Variable c0 : MemChangeLog.t.
Variables (w : Conn) (req : Msg) (since : Z).
Hypothesis Hrep : represents h0 z0.
Hypothesis Hlog : changelog h0 = Some c0.
Hypothesis Hrepr : MemChangeLog.repr c0 (z_base z0) (z_log z0).
Hypothesis Hkeys : different_keys h0 reqs.
Hypothesis Hfail : failures_harmless h0 reqs.
Hypothesis Hcap : (length (z_log z0) + length reqs ≤ MemChangeLog.cap)%nat.
Hypothesis Hroom : z_serial z0 + Z.of_nat (length reqs) < 2 ^ 32 - 1.
Hypothesis Hw : healthy w.
Hypothesis Hsince : 0 ≤ since.
Let s0 := z_serial z0.
Let base := z_base z0.
#[local] Abbreviation inv := (inv h0 z0 reqs c0).
#[local] Abbreviation hist_of := (hist_of h0 z0).
#[local] Abbreviation isys := (isystem (W := W) (L := MemChangeLog.t)).

(** The differences after the client's serial, as far as the journal went. *)
Definition fetched σ (ds : list Delta) : Prop :=
  base ≤ since ∧ since + Z.of_nat (length ds) ≤ s0 + Z.of_nat (length σ)
  ∧ ds `prefix_of` drop (Z.to_nat (since - base)) (hist_of σ).

Lemma fetched_grows σ σ' ds : σ `prefix_of` σ' → fetched σ ds → fetched σ' ds.
Proof.
  intros [σ2 ->] (H1 & H2 & H3). split; [done|]. split; [rewrite length_app; lia|].
  etrans; [exact H3|]. rewrite hist_of_app, drop_app. by apply prefix_app_r.
Qed.

(** An answer of the journal in the middle of a run, when serials may be taken
    that are not journaled yet, has no gap. *)
Lemma journal_answer σ ths c ds : (length σ ≤ length reqs)%nat → journal_inv h0 z0 c0 σ ths c →
  (MemChangeLog.Deltas since c).1 = Some ds → fetched σ ds.
Proof.
  intros Hlen HJ Hds. pose proof (ji_latest _ _ _ _ _ _ HJ) as HL. fold s0 in HL, Hroom.
  pose proof (base_pos h0 z0 Hrep) as Hb. fold base in Hb.
  assert (s0 = base + Z.of_nat (length (z_log z0))) as Hs0 by done.
  apply Deltas_some in Hds as (Hold & Hl & Hd); [|done|lia].
  rewrite (ji_oldest _ _ _ _ _ _ HJ), (MemChangeLog.repr_oldest _ _ _ Hrepr), (MemChangeLog.repr_latest _ _ _ Hrepr) in Hold.
  rewrite Nat.min_l in Hold by lia. fold base in Hold.
  replace (base + Z.of_nat (length (z_log z0)) - Z.of_nat (length (z_log z0)) + 1) with (base + 1) in Hold by lia.
  rewrite (u32_small (base + 1)) in Hold by lia. rewrite u32_small in Hold by lia.
  split; [lia|]. split; [lia|]. apply prefix_of_lookup. intros j d Hj. assert (Hjl := Hj). apply lookup_lt_Some in Hjl.
  apply Hd in Hj. rewrite lookup_drop. unfold RaceConverge.hist_of.
  destruct (decide (since + 1 + Z.of_nat j ≤ s0)) as [Hle|Hgt].
  - rewrite (ji_old _ _ _ _ _ _ HJ) in Hj by done. rewrite (c0_deltas z0 reqs c0 Hrepr Hcap) in Hj. case_decide; [|done].
    apply lookup_app_l_Some. rewrite <- Hj. f_equal. unfold base in *. lia.
  - assert (∃ i, since + 1 + Z.of_nat j = s0 + Z.of_nat i + 1 ∧ (i < length σ)%nat) as (i & Hi & Hil).
    { exists (Z.to_nat (since + Z.of_nat j - s0)). lia. }
    rewrite Hi in Hj. destruct (lookup_lt_is_Some_2 σ i Hil) as [o Ho].
    destruct (ji_new _ _ _ _ _ _ HJ i o Ho) as [E|[E _]]; fold s0 in E; rewrite E in Hj; [|done]. injection Hj as <-.
    rewrite lookup_app_r by lia. rewrite list_lookup_imap.
    replace (_ - _)%nat with i by lia. by rewrite Ho.
Qed.

(** What the connection was given so far. *)
Definition istream_inv (n : nat) σ (x : isys) : Prop :=
  match iphase_ x with
  | IAsked s => s = since ∧ istream x = []
  | ILoaded s => s = since ∧ istream x = []
  | IUpToDate | IFallback => istream x = []
  | IFetched ds => fetched σ ds ∧ istream x = []
  | IReplayed => ∃ ds opening body, fetched σ ds
      ∧ mAnswer <$> istream x = [soa_at h0 opening] :: body ∧ concat body = flat_map (difference h0) ds
      ∧ since + Z.of_nat (length ds) ≤ opening ≤ s0 + Z.of_nat n
  | IEnded ok => ok = true ∧
      ((∃ s, mAnswer <$> istream x = [[soa_at h0 s]] ∧ s0 ≤ s ≤ s0 + Z.of_nat n)
       ∨ ∃ ds opening body closing, fetched σ ds
         ∧ mAnswer <$> istream x = [soa_at h0 opening] :: body ++ [[soa_at h0 closing]]
         ∧ concat body = flat_map (difference h0) ds
         ∧ since + Z.of_nat (length ds) ≤ opening ≤ closing ∧ closing ≤ s0 + Z.of_nat n)
  end.

Definition iinv σ π (x : isys) : Prop := inv σ π (iupdates x) ∧ istream_inv (length σ) σ x.

Lemma iinv_turn σ π x i : iinv σ π x → ∃ σ' π', iinv σ' π' (istep w req x (Some i)).
Proof.
  intros [Hi Hs].
  destruct (inv_step h0 z0 reqs c0 Hrep Hlog Hrepr Hkeys Hfail Hcap Hroom σ π _ i Hi) as (σ' & π' & Hi' & Hp & _).
  exists σ', π'. split; [done|]. pose proof (prefix_length _ _ Hp) as Hl. pose proof (λ ds, fetched_grows σ σ' ds Hp) as Hf.
  unfold istream_inv in *. cbn [istep iphase_ istream]. destruct (iphase_ x) as [| | |ds| | |ok]; try done.
  - destruct Hs as [? ?]. auto.
  - destruct Hs as (ds & o & b & H1 & H2 & H3 & H4). exists ds, o, b. split_and!; auto; lia.
  - destruct Hs as [Hok [(s & H1 & H2)|(ds & o & b & c & H1 & H2 & H3 & H4 & H5)]]; (split; [done|]).
    + left. exists s. split; [done|lia].
    + right. exists ds, o, b, c. split_and!; auto; lia.
Qed.

Lemma difference_cfg h h' d : cfg h = cfg h' → difference h d = difference h' d.
Proof. intros Hc. unfold difference, soaWithSerial, soa, soa_at. by rewrite Hc. Qed.

Lemma send_deltas_healthy ds (s : Srv W MemChangeLog.t) : cfg (hd_ s) = cfg h0 →
  ∃ bs, send_deltas w req axfrMaxBytes ds s = (true, push (tmsg (hd_ s) w req <$> bs) s)
  ∧ concat bs = flat_map (difference h0) ds.
Proof.
  intros Hc. rewrite send_deltas_written. unfold written. rewrite write_all_healthy by done.
  eexists. split; [reflexivity|]. etrans; [exact (body_batches_concat (hd_ s) [] (Some ds))|].
  apply flat_map_ext_elem. intros d _. by apply difference_cfg.
Qed.

(** The calls of a transfer on a connection that works. *)
Lemma icall_fetched ds (s : Srv W MemChangeLog.t) : cfg (hd_ s) = cfg h0 →
  ∃ bs, icall w req (IFetched ds) s = (IReplayed, push (tmsg (hd_ s) w req <$> [soa (hd_ s)] :: bs) s)
  ∧ concat bs = flat_map (difference h0) ds.
Proof.
  intros Hc. cbn [icall]. unfold bind at 1. rewrite open_soa_healthy by done. cbn [negb]. unfold bind, ret.
  destruct (send_deltas_healthy ds (push [tmsg (hd_ s) w req [soa (hd_ s)]] s) Hc) as (bs & E & Hbs). rewrite E.
  exists bs. split; [|done]. by rewrite push_push.
Qed.

Lemma icall_replayed (s : Srv W MemChangeLog.t) :
  icall w req IReplayed s = (IEnded true, counted (push (tmsg (hd_ s) w req <$> [[soa (hd_ s)]]) s)).
Proof. cbn [icall]. unfold bind at 1. by rewrite open_soa_healthy by done. Qed.

Lemma iinv_call σ π x : iinv σ π x → iinv σ π (istep w req x None).
Proof.
  intros [Hi Hs]. pose proof (in_cfg _ _ _ _ _ _ _ Hi) as Hc. pose proof (soa_numbered h0 z0 reqs c0 σ π _ Hi) as Hsoa.
  destruct x as [[h ths] p ms]. cbn [iupdates shared] in *. unfold iinv, istream_inv in *. cbn [istep iphase_ iupdates istream shared threads] in *.
  destruct p as [s| |s|ds| | |ok]; cbn [icall].
  - unfold bind, get_h, ret. destruct Hs as [-> ->]. cbn. by destruct (_ <=? _).
  - unfold bind, ret, reply_soa, get_h, WriteMsg. cbn [hd_ sent iphase_ istream iupdates]. rewrite Hs. split; [done|].
    split; [done|]. left. exists (s0 + Z.of_nat (length σ)). split; [|lia].
    cbn. autorewrite with dns. cbn. fold s0 in Hsoa. by rewrite Hsoa.
  - unfold bind, get_h, ret. destruct Hs as [-> ->]. cbn [hd_ sent iphase_ istream iupdates].
    destruct (in_journal _ _ _ _ _ _ _ Hi) as (c & Hcl & HJ). cbn [shared threads] in Hcl, HJ. rewrite Hcl. split; [done|].
    destruct ((Deltas since c).1) as [ds|] eqn:E; [|done]. split; [|done].
    by apply (journal_answer σ ths c ds (ops_bound _ _ _ _ Hcap _ _ _ Hi)).
  - destruct Hs as [Hf ->]. destruct (icall_fetched ds (mkSrv h [] []) Hc) as (bs & E & Hbs).
    cbn [icall] in E. rewrite E. cbn [hd_ sent push iphase_ istream iupdates app]. split; [done|].
    exists ds, (s0 + Z.of_nat (length σ)), bs. split_and!; [done| |done|apply Hf|lia].
    by rewrite tmsg_answers, Hsoa.
  - destruct Hs as (ds & o & b & H1 & H2 & H3 & H4). pose proof (icall_replayed (mkSrv h ms [])) as E.
    cbn [icall] in E. rewrite E. cbn [hd_ sent push counted iphase_ istream iupdates].
    split; [by apply (inv_metrics h0 z0 reqs c0 σ π (mkSystem h ths))|]. split; [done|]. right.
    exists ds, o, b, (s0 + Z.of_nat (length σ)). split_and!; [done| |done|lia..].
    by rewrite fmap_app, tmsg_answers, H2, Hsoa.
  - done.
  - done.
Qed.

Lemma iinv_run evs : ∀ σ π x, iinv σ π x → ∃ σ' π', iinv σ' π' (irun w req x evs).
Proof.
  induction evs as [|[i|] evs IH]; intros σ π x H; [by eauto| |]; cbn [irun foldl].
  - destruct (iinv_turn σ π x i H) as (σ' & π' & H'). exact (IH _ _ _ H').
  - exact (IH _ _ _ (iinv_call σ π x H)).
Qed.

(** What the differences of a transfer are at the end of the run: the start of
    the history since the client's serial. *)
Lemma fetched_final σ sys ds : inv σ [] sys → all_finished sys = true → fetched σ ds →
  ∃ log ds', changelog (shared sys) = Some log ∧ Deltas since log = (Some (ds ++ ds'), true)
  ∧ Deltas (since + Z.of_nat (length ds)) log = (Some ds', true)
  ∧ ds ++ ds' = drop (Z.to_nat (since - base)) (hist_of σ).
Proof.
  intros Hi Hfin (H1 & H2 & [ds' Hds]).
  destruct (deltas_final h0 z0 reqs c0 Hrep Hrepr Hcap Hroom σ sys since Hi Hfin) as (log & Hlo & Ha); [fold base s0; lia|].
  destruct (deltas_final h0 z0 reqs c0 Hrep Hrepr Hcap Hroom σ sys (since + Z.of_nat (length ds)) Hi Hfin)
    as (log' & Hlo' & Hb); [fold base s0; lia|].
  rewrite Hlo in Hlo'. injection Hlo' as <-. fold base in Ha, Hb. exists log, ds'. split_and!; [done| | |done].
  - by rewrite Ha, Hds.
  - rewrite Hb. do 2 f_equal. replace (Z.to_nat (since + Z.of_nat (length ds) - base)) with (Z.to_nat (since - base) + length ds)%nat by lia.
    by rewrite <- drop_drop, Hds, drop_app_length.
Qed.

(** A client that was up to date at its serial and has applied the history since
    then holds the current zone. *)
Lemma history_replays σ sys (R : replica) ds0 : good_zone (cZone (cfg h0)) → all_reachable (z_table z0) →
  (∀ r o, r ∈ reqs → op_of (cZone (cfg h0)) r = Some o → clean_op o.1 o.2) →
  inv σ [] sys → base ≤ since →
  Deltas since c0 = (Some ds0, true) → replay R ds0 ≡ zone_of h0 (view (store h0)) →
  replay R (drop (Z.to_nat (since - base)) (hist_of σ)) ≡ zone_of (shared sys) (view (store (shared sys))).
Proof.
  intros Hz Hr Hclean Hi Hs Hds0 HR. pose proof (in_keys _ _ _ _ _ _ _ Hi) as Hnd. pose proof (in_from _ _ _ _ _ _ _ Hi) as Hfrom.
  rewrite app_nil_r in Hnd, Hfrom. destruct (steps_of_fields h0 z0 σ Hnd) as (Ht & Hb & Hl).
  destruct (steps_extend h0 z0 σ Hz Hr) as [(_ & ds & Hds & Hreplay) _].
  { apply Forall_forall. intros o (r & Hin & Ho)%Hfrom%list_elem_of_omap. by eapply Hclean. }
  rewrite Hds in Hl. apply app_inv_head in Hl. subst ds.
  assert (Hc0 := Hrepr). apply MemChangeLog.Deltas_repr with (since := since) in Hc0; [|apply (base_pos h0 z0 Hrep)| |done].
  2: { rewrite (MemChangeLog.repr_latest _ _ _ Hrepr). unfold z_serial in Hroom. lia. }
  cbn [Deltas] in Hds0. change (Journal.Deltas (L := MemChangeLog.t)) with MemChangeLog.Deltas in Hds0.
  rewrite Hds0 in Hc0. case_decide as Hd; [|done]. injection Hc0 as ->. fold base in HR.
  rewrite (MemChangeLog.repr_latest _ _ _ Hrepr) in Hd. fold base in Hd.
  unfold RaceConverge.hist_of. rewrite drop_app_le by lia. rewrite replay_app, HR.
  rewrite (rep_table _ _ Hrep), Hreplay. rewrite (in_table _ _ _ _ _ _ _ Hi), app_nil_r, Ht.
  by rewrite (zone_of_cfg h0 (shared sys)) by (by rewrite (in_cfg _ _ _ _ _ _ _ Hi)).
Qed.

(** C4. An incremental transfer beside updates: whatever the schedule, a
    transfer that ends has sent one SOA to a client that it took to be up to
    date, or two SOAs and between them the first difference sequences, without
    a gap, of the history that the journal reports at the end.  A client that
    was right at its serial, applies them and takes the serial of the last
    one, which can be older than the opening SOA, gets the rest by asking the
    journal again, and then holds the current zone. *)
Theorem ixfr_beside_updates evs (x : isys) ok (R : replica) ds0 :
  good_zone (cZone (cfg h0)) → all_reachable (z_table z0) →
  (∀ r o, r ∈ reqs → op_of (cZone (cfg h0)) r = Some o → clean_op o.1 o.2) →
  Deltas since c0 = (Some ds0, true) → replay R ds0 ≡ zone_of h0 (view (store h0)) →
  irun w req (mkISystem (launch h0 reqs) (IAsked since) []) evs = x →
  iphase_ x = IEnded ok → all_finished (iupdates x) = true →
  ok = true ∧
  ((∃ s, mAnswer <$> istream x = [[soa_at h0 s]] ∧ serial h0 ≤ s ≤ serial (shared (iupdates x)))
   ∨ ∃ ds ds' opening body closing log,
       mAnswer <$> istream x = [soa_at h0 opening] :: body ++ [[soa_at h0 closing]]
       ∧ concat body = flat_map (difference h0) ds
       ∧ since + Z.of_nat (length ds) ≤ opening ≤ closing ∧ closing ≤ serial (shared (iupdates x))
       ∧ changelog (shared (iupdates x)) = Some log ∧ Deltas since log = (Some (ds ++ ds'), true)
       ∧ Deltas (since + Z.of_nat (length ds)) log = (Some ds', true)
       ∧ replay (replay R ds) ds' ≡ zone_of (shared (iupdates x)) (view (store (shared (iupdates x))))).
Proof.
  intros Hz Hr Hclean Hds0 HR Hrun Hp Hfin.
  destruct (iinv_run evs [] [] (mkISystem (launch h0 reqs) (IAsked since) [])) as (σ & π & Hi & Hs).
  { split; [by apply launch_inv|done]. }
  rewrite Hrun in Hi, Hs. destruct (inv_finished h0 z0 reqs c0 Hkeys _ _ _ Hi Hfin) as [-> _].
  unfold istream_inv in Hs. rewrite Hp in Hs. destruct Hs as [-> Hs]. split; [done|].
  rewrite (rep_serial _ _ Hrep), (in_serial _ _ _ _ _ _ _ Hi). fold s0.
  destruct Hs as [Hs|(ds & o & b & c & Hf & H1 & H2 & H3 & H4)]; [by left|right].
  destruct (fetched_final σ _ ds Hi Hfin Hf) as (log & ds' & Hlo & Ha & Hb & Hd).
  exists ds, ds', o, b, c, log. split_and!; try done; [lia..|]. rewrite <- replay_app, Hd.
  apply (history_replays σ _ R ds0); try done. apply Hf.
Qed.
End Beside.

(** ** Witnesses *)

(** The put is journaled, and the deletion has its serial but is not journaled
    yet, when the transfer asks the journal and sends the opening SOA. *)
Definition half_journaled : list (option nat) :=
  (Some <$> (replicate 7 0 ++ replicate 6 1)%nat) ++ [None; None; None; Some 1%nat; None].

Definition shared_ixfr : isystem (W := Sample.sampleStore) (L := MemChangeLog.t) :=
  irun Demo.tcp axfr (mkISystem (launch Demo.handler Demo.both) (IAsked 100) []) half_journaled.

Lemma ixfr_beside_updates_witness :
  nth_error (mAnswer <$> istream shared_ixfr) 0 = Some [soa_at Demo.handler 102]
  ∧ ∃ ds ds' log, length ds = 1%nat ∧ changelog (shared (iupdates shared_ixfr)) = Some log
    ∧ MemChangeLog.Deltas 101 log = (Some ds', true)
    ∧ replay (replay (zone_of Demo.handler (view Sample.demo_store)) ds) ds'
        ≡ zone_of (shared (iupdates shared_ixfr)) (view (store (shared (iupdates shared_ixfr)))).
Proof.
  assert (iphase_ shared_ixfr = IEnded true) as Hp by (vm_compute; reflexivity).
  assert (all_finished (iupdates shared_ixfr) = true) as Hfin by (vm_compute; reflexivity).
  assert (nth_error (mAnswer <$> istream shared_ixfr) 0 = Some [soa_at Demo.handler 102]) as H0 by (vm_compute; reflexivity).
  split; [exact H0|].
  destruct (ixfr_beside_updates Demo.handler (mkZone (view Sample.demo_store) 100 []) Demo.both
    (MemChangeLog.NewMemChangeLog 100) Demo.tcp axfr 100 demo_represents eq_refl (MemChangeLog.New_repr 100 ltac:(lia))
    both_different put_drop_harmless ltac:(apply Nat.leb_le; vm_compute; reflexivity) ltac:(reflexivity) tcp_healthy
    ltac:(lia) half_journaled shared_ixfr true (zone_of Demo.handler (view Sample.demo_store)) [] good_demo_zone
    demo_all_reachable both_clean) as (_ & [(s & E & _)|(ds & ds' & o & b & c & log & H1 & H2 & H3 & H4 & H5 & H6 & H7 & H8)]).
  - vm_compute. reflexivity.
  - change (store Demo.handler) with Sample.demo_store. exact (λ rr, iff_refl (zone_of Demo.handler (view Sample.demo_store) rr)).
  - unfold shared_ixfr. reflexivity.
  - exact Hp.
  - exact Hfin.
  - exfalso. assert (length (mAnswer <$> istream shared_ixfr) = 3%nat) as El by (vm_compute; reflexivity).
    rewrite E in El. discriminate El.
  - assert (length (concat (removelast (tail (mAnswer <$> istream shared_ixfr)))) = 3%nat) as Hl by (vm_compute; reflexivity).
    rewrite H1 in Hl. cbn [tail] in Hl. rewrite removelast_last, H2 in Hl.
    assert (length ds = 1%nat) as Hds.
    { destruct ds as [|d1 [|d2 ds]]; [discriminate Hl|reflexivity|]. cbn [flat_map difference app length] in Hl.
      rewrite !length_app in Hl. cbn in Hl. rewrite !length_app in Hl. cbn in Hl. lia. }
    exists ds, ds', log. rewrite Hds in H7. split; [exact Hds|]. split; [exact H5|]. split; [exact H7|exact H8].
Defined.

Lemma ixfr_alone_witness :
  let x := irun Demo.tcp (ixfr 100) (mkISystem (mkSystem (bump_serial Demo.handler) []) (IAsked 100) []) (replicate 4 None) in
  match iphase_ x with
  | IEnded _ => handleIXFR Demo.tcp (ixfr 100) (ask TypeIXFR) (mkSrv (bump_serial Demo.handler) [] [])
      = (tt, mkSrv (shared (iupdates x)) (istream x) [])
  | IFallback => iupdates x = mkSystem (bump_serial Demo.handler) [] ∧ istream x = []
      ∧ handleIXFR Demo.tcp (ixfr 100) (ask TypeIXFR) (mkSrv (bump_serial Demo.handler) [] [])
        = (tt, (streamZone Demo.tcp (ixfr 100) (ask TypeIXFR) None (mkSrv (bump_serial Demo.handler) [] [])).2)
  | _ => False
  end.
Proof.
  apply (ixfr_alone Demo.tcp (ixfr 100) (ask TypeIXFR) (bump_serial Demo.handler) []
    (mkHdr demo_zone TypeSOA ClassINET 0) [] [] 100 0 0 0 0); [reflexivity|vm_compute; reflexivity|reflexivity].
Defined.
