(* ===== verification/RaceReads.v ===== *)
(** * Queries beside updates

    A query reads its key with one call of the store, so beside updates it
    answers from some moment of the run.  What it can see then: an update that
    was acknowledged before, and otherwise only what the key held at the start
    or what an update of the batch left it with. *)

From S2P Require Import Prelude GoStrings Json Names Dns Journal Store Handler HandlerSpec Update UpdateSpec UpdateEffect EndToEnd Replication Race RaceSpec RaceConverge RaceTransferSpec Demo.

Section Reads.
Context `{UT : UnicodeTables, D : DnsLib, !DnsLaws D} {W : Type} `{ST : !Store W, !FullStoreSpec W}.
#[local] Existing Instance MemChangeLog.changelog.
#[local] Existing Instance MemChangeLog.changelog_spec.
Implicit Types h : Handler W MemChangeLog.t.

Variable h0 : Handler W MemChangeLog.t.
Variable z0 : zone_state.
Variable reqs : list Msg.
Variable c0 : MemChangeLog.t.
Let zone := cZone (cfg h0).
Hypothesis Hrep : represents h0 z0.
Hypothesis Hlog : changelog h0 = Some c0.
Hypothesis Hrepr : MemChangeLog.repr c0 (z_base z0) (z_log z0).
Hypothesis Hkeys : different_keys h0 reqs.
Hypothesis Hfail : failures_harmless h0 reqs.
Hypothesis Hcap : (length (z_log z0) + length reqs ≤ MemChangeLog.cap)%nat.
Hypothesis Hroom : z_serial z0 + Z.of_nat (length reqs) < 2 ^ 32 - 1.
#[local] Abbreviation inv := (inv h0 z0 reqs c0).

(** Every acknowledged operation is numbered, so the serial counts them all. *)
Lemma acked_numbered (σ π : list op) (sys : system) : inv σ π sys →
  (length (acked zone (threads sys)) ≤ length σ)%nat.
Proof.
  intros Hi. assert (NoDup (acked zone (threads sys))) as Hnd by (by eapply NoDup_fmap_1, acked_keys).
  apply submseteq_length, NoDup_submseteq; [done|]. intros o (i & req & Ht & Ho)%elem_of_acked.
  destruct (in_threads _ _ _ _ _ _ _ Hi _ _ _ Ht o Ho) as [j Hj]. by eapply list_elem_of_lookup_2.
Qed.

(** What a lookup of a key answers that holds [item]. *)
Definition answers h (m : Msg) (key : str) (item : option gomap) : Prop :=
  match item with
  | None => says m RcodeNameError [] [soa h]
  | Some _ => match Marshal item with
              | Ok blob => says m RcodeSuccess [item_record h key blob] []
              | Err _ => says m RcodeServerFailure [] []
              end
  end.

Lemma lookup_answers h req q key : good_zone (cZone (cfg h)) → reachable key →
  ToLower (qName q) = itemName (cZone (cfg h)) key → index_name h key = false → qType q = TypeTXT →
  is_ok (Get (store h) key) = true → answers h (buildResponse h req q) key (view (store h) !! key).
Proof.
  intros Hz Hr Hq Hi Ht HG. rewrite (buildResponse_point h req q key) by (first [done|intros _; by rewrite Ht]).
  pose proof (pointLookup_spec h req q key) as H. cbv zeta in H.
  destruct (Get (store h) key) as [i|e] eqn:E; [|done]. apply get_view in E as ->.
  unfold answers. unfold txt_or_any in H. rewrite Ht in H. by destruct (view (store h) !! key).
Qed.

(** C5. An acknowledged update is visible at once and for good: from the moment
    its thread has answered NOERROR, under any further schedule, the key holds
    what the update left there, a lookup of it answers that, and the serial has
    counted every update acknowledged so far. *)
Theorem acked_update_visible pre post i req (o : op) :
  let s1 := run (launch h0 reqs) pre in
  let h := shared (run s1 post) in
  threads s1 !! i = Some (req, Finished RcodeSuccess) → op_of zone req = Some o →
  view (store h) !! o.1 = op_result o
  ∧ serial h0 + Z.of_nat (length (acked zone (threads s1))) ≤ serial h
  ∧ ∀ req' q, good_zone zone → reachable o.1 → ToLower (qName q) = itemName zone o.1 → index_name h0 o.1 = false →
      qType q = TypeTXT → is_ok (Get (store h) o.1) = true → answers h (buildResponse h req' q) o.1 (op_result o).
Proof.
  intros s1 h Hi Ho. destruct (inv_run h0 z0 reqs c0 Hrep Hlog Hrepr Hkeys Hfail Hcap Hroom pre) as (σ1 & π1 & H1).
  destruct (inv_run_from h0 z0 reqs c0 Hrep Hlog Hrepr Hkeys Hfail Hcap Hroom σ1 π1 _ post H1) as (σ2 & π2 & H2 & Hp & Hs).
  destruct (in_threads _ _ _ _ _ _ _ H1 _ _ _ Hi o Ho) as [j Hj]. fold s1 in H2. fold h in H2.
  pose proof (in_cfg _ _ _ _ _ _ _ H2) as Hc. change (cfg h = cfg h0) in Hc.
  assert (view (store h) !! o.1 = op_result o) as Hv.
  { change (store h) with (store (shared (run s1 post))). rewrite (in_table _ _ _ _ _ _ _ H2). apply table_after_in.
    - apply (in_keys _ _ _ _ _ _ _ H2).
    - apply Hs, elem_of_app. left. by eapply list_elem_of_lookup_2. }
  split; [done|]. split.
  - pose proof (acked_numbered σ1 π1 s1 H1) as Hl. apply prefix_length in Hp.
    change (serial h) with (serial (shared (run s1 post))). rewrite (in_serial _ _ _ _ _ _ _ H2), (rep_serial _ _ Hrep). lia.
  - intros req' q Hz Hr Hq Hix Ht HG. rewrite <- Hv. apply lookup_answers; rewrite ?Hc; try done.
    unfold index_name in *. by rewrite Hc.
Qed.

(** At any moment a key holds what it held at the start or what one of the
    updates leaves it with: no query sees anything in between. *)
Theorem reads_old_or_new sched k :
  let t := view (store (shared (run (launch h0 reqs) sched))) in
  t !! k = view (store h0) !! k ∨ ∃ req (o : op), req ∈ reqs ∧ op_of zone req = Some o ∧ o.1 = k ∧ t !! k = op_result o.
Proof.
  intros t. destruct (inv_run h0 z0 reqs c0 Hrep Hlog Hrepr Hkeys Hfail Hcap Hroom sched) as (σ & π & H).
  unfold t. rewrite (in_table _ _ _ _ _ _ _ H), (rep_table _ _ Hrep).
  destruct (decide (k ∈ (σ ++ π).*1)) as [Hk|Hk]; [right|left; by apply table_after_other].
  apply list_elem_of_fmap in Hk as (o & -> & Ho). destruct (proj1 (list_elem_of_omap _ _ _) (in_from _ _ _ _ _ _ _ H o Ho)) as (req & Hr & Hop).
  exists req, o. split_and!; [done..|]. apply table_after_in; [apply (in_keys _ _ _ _ _ _ _ H)|done].
Qed.
End Reads.

(** ** Witness *)

(** The put of dave is answered while the deletion of bob has not written yet. *)
Definition put_first : list nat := [1; 0; 1; 0; 0; 0; 0; 0; 0]%nat.
Definition then_drop : list nat := [1; 1; 1; 1; 1]%nat.

Lemma acked_update_visible_witness :
  let s1 := run (launch Demo.handler Demo.both) put_first in
  let h := shared (run s1 then_drop) in
  threads s1 !! 0%nat = Some (Demo.put_dave, Finished RcodeSuccess)
  ∧ view (store h) !! dave_key = dave_item ∧ 101 ≤ serial h
  ∧ answers h (buildResponse h (Demo.query (qName dave_q) TypeTXT) dave_q) dave_key dave_item.
Proof.
  cbv zeta. assert (threads (run (launch Demo.handler Demo.both) put_first) !! 0%nat = Some (Demo.put_dave, Finished RcodeSuccess)) as Ht
    by (vm_compute; reflexivity).
  destruct (acked_update_visible Demo.handler (mkZone (view Sample.demo_store) 100 []) Demo.both
    (MemChangeLog.NewMemChangeLog 100) demo_represents eq_refl (MemChangeLog.New_repr 100 ltac:(lia))
    both_different put_drop_harmless ltac:(apply Nat.leb_le; vm_compute; reflexivity) ltac:(reflexivity)
    put_first then_drop 0 Demo.put_dave (dave_key, [(dave_key, dave_item)]) Ht put_dave_op) as (H1 & H2 & H3).
  split; [exact Ht|]. split; [exact H1|]. split.
  - etrans; [|exact H2]. vm_compute. discriminate.
  - apply H3; [exact good_demo_zone|apply dave_clean|vm_compute; reflexivity..].
Defined.
