(* ===== verification/RaceAnomalies.v ===== *)
(** * What parallel updates lose

    Two updates of one key, a check and the write it guards, and a transfer
    between the serial and the journal entry of a commit: none of these is
    atomic, and each has a run that no order of the whole operations explains. *)

From S2P Require Import Prelude GoStrings Json Names Dns Journal Store Handler HandlerSpec Update UpdateSpec UpdateEffect EndToEnd Transfer TransferSpec Server ServerSpec Replication Race RaceTransfer RaceSpec RaceConverge RaceTransferSpec Demo.

(** ** A transfer inside a commit *)

Section Transfer.
Context `{UT : UnicodeTables, D : DnsLib, !DnsLaws D} {W : Type} `{ST : !Store W, !FullStoreSpec W}.
#[local] Existing Instance MemChangeLog.changelog.
#[local] Existing Instance MemChangeLog.changelog_spec.
Implicit Types h : Handler W MemChangeLog.t.

(** A journal that holds the history up to the serial of the zone. *)
Record up_to_date h (c : MemChangeLog.t) (base : Z) (hist : list Delta) : Prop := {
  up_log : changelog h = Some c;
  up_repr : MemChangeLog.repr c base hist;
  up_base : 0 ≤ base;
  up_serial : serial h = base + Z.of_nat (length hist);
  up_room : serial h + 1 < 2 ^ 32 - 1;
}.

Lemma bumped h c base hist : up_to_date h c base hist → serial (bump_serial h) = serial h + 1.
Proof. intros [_ _ Hb Hs Hr]. unfold bump_serial. cbn. apply u32_small. lia. Qed.

Lemma history_bumped h c base hist : up_to_date h c base hist → history (bump_serial h) (serial h) = Some [].
Proof.
  intros [Hl Hr Hb Hs Hro]. unfold history. cbn. rewrite Hl. pose proof (MemChangeLog.repr_latest _ _ _ Hr) as HL.
  rewrite (MemChangeLog.Deltas_repr c base hist) by (done || lia). rewrite decide_True by lia. cbn.
  by rewrite drop_ge by lia.
Qed.

Lemma recorded h c base hist removed added : up_to_date h c base hist →
  ∃ c', changelog (record_delta (bump_serial h) (serial h + 1) removed added) = Some c'
  ∧ MemChangeLog.repr c' base (hist ++ [mkDelta (serial h + 1) removed added]).
Proof.
  intros [Hl Hr Hb Hs Hro]. unfold record_delta. cbn. rewrite Hl. cbn. eexists. split; [reflexivity|].
  rewrite Hs. apply MemChangeLog.Record_repr; [done..|lia].
Qed.

(** [commitWrite] raises the serial before it journals the delta.  A client
    at the current serial that asks for an incremental transfer in between
    gets two copies of the SOA with the new serial and no differences; once the
    delta is journaled the server has nothing newer for it, so it never gets
    the delta. *)
Theorem unrecorded_delta_lost w req q h c base hist pages hdr n m a b x d removed added :
  up_to_date h c base hist →
  healthy w → network w = tcp → EqualFold (qName q) (cZone (cfg h)) = true →
  List_ full_reader (store h) = (pages, None) →
  mNs req = [RR_SOA hdr n m (serial h) a b x d] →
  let between := bump_serial h in
  let after := record_delta between (serial between) removed added in
  (∃ msgs, handleIXFR w req q (mkSrv between [] []) = (tt, counted (push msgs (mkSrv between [] [])))
     ∧ mAnswer <$> msgs = [[soa between]; [soa between]] ∧ serial between = serial h + 1)
  ∧ history after (serial between) = Some []
  ∧ history after (serial h) = Some [mkDelta (serial between) removed added].
Proof.
  intros Hup Hw Ht Hq Hl Hns between after. pose proof (bumped h c base hist Hup) as Hb.
  pose proof (history_bumped h c base hist Hup) as Hh.
  destruct (recorded h c base hist removed added Hup) as (c' & Hc' & Hr').
  destruct Hup as [_ _ Hb0 Hs Hro]. split.
  - rewrite (handleIXFR_tcp w req q (mkSrv between [] []) full_reader pages hdr n m (serial h) a b x d);
      [|done|change (serial h < serial (bump_serial h)); lia|done|done|apply reader_full|done].
    cbn [hd_]. fold between in Hh. rewrite Hh. cbn [body_batches flat_map app].
    unfold written. rewrite write_all_healthy by done. eexists. split; [reflexivity|].
    rewrite tmsg_answers. split; [done|exact Hb].
  - unfold after, between, history. rewrite Hb, Hc'. pose proof (MemChangeLog.repr_latest _ _ _ Hr') as HL.
    rewrite length_app in HL. cbn [length] in HL. cbn [Deltas MemChangeLog.changelog].
    change (Journal.Deltas (L := MemChangeLog.t)) with MemChangeLog.Deltas.
    assert (1 ≤ MemChangeLog.cap)%nat as Hcap by (apply Nat.leb_le; vm_compute; reflexivity).
    split.
    + rewrite (MemChangeLog.Deltas_repr c' base _ _ Hr'), decide_True; rewrite ?length_app; cbn [length]; [|lia..].
      cbn [fst]. f_equal. apply drop_ge. rewrite length_app. cbn [length]. lia.
    + rewrite (MemChangeLog.Deltas_repr c' base _ _ Hr'), decide_True; rewrite ?length_app; cbn [length]; [|lia..].
      cbn [fst]. f_equal. apply drop_app_length'. lia.
Qed.
End Transfer.

(** ** Two puts of one key *)

Definition v1 : str := dq "{'v':'1'}".
Definition v2 : str := dq "{'v':'2'}".
Definition put_v1 : Msg := Demo.update [] [Demo.add "user.dave" [v1]].
Definition put_v2 : Msg := Demo.update [] [Demo.add "user.dave" [v2]].

Definition raced : system (W := Sample.sampleStore) (L := MemChangeLog.t) :=
  run (launch Demo.handler [put_v1; put_v2]) Demo.zigzag.

(** The first delta adds the record, and the second does not remove it. *)
Definition kept (rr : RR) (ds : option (list Delta) * bool) : bool :=
  match ds with
  | (Some [d1; d2], true) => bool_decide (rr ∈ dAdded d1) && bool_decide (rr ∉ dRemoved d2)
  | _ => false
  end.

Lemma kept_replay Z rr ds : kept rr ds = true → ∃ l, ds = (Some l, true) ∧ replay Z l rr.
Proof.
  destruct ds as [[[|d1 [|d2 []]]|] []]; try discriminate. cbn. intros [H1 H2]%andb_prop.
  exists [d1; d2]. split; [done|]. left. split; [right|]; by eapply bool_decide_eq_true_1.
Qed.

(** Two parallel puts of one key: both threads read the key before either
    writes it, so neither delta removes what the other put.  Both updates are
    acknowledged and journaled, and a replica that replays the journal keeps a
    record that the zone does not have. *)
Theorem same_key_race_diverges :
  map snd (threads raced) = [Finished RcodeSuccess; Finished RcodeSuccess]
  ∧ ∃ log ds, changelog (shared raced) = Some log ∧ MemChangeLog.Deltas 100 log = (Some ds, true)
    ∧ ¬ replay (zone_of Demo.handler (view (store Demo.handler))) ds
        ≡ zone_of (shared raced) (view (store (shared raced))).
Proof.
  split; [vm_compute; reflexivity|]. set (rr := item_record Demo.handler dave_key v2).
  assert (match changelog (shared raced) with Some log => kept rr (MemChangeLog.Deltas 100 log) | None => false end = true)
    as H by (vm_compute; reflexivity).
  destruct (changelog (shared raced)) as [log|]; [|discriminate H].
  destruct (kept_replay (zone_of Demo.handler (view (store Demo.handler))) _ _ H) as (ds & Hds & Hin).
  exists log, ds. split; [done|]. split; [done|]. intros Heq. apply Heq in Hin.
  revert Hin. apply (bool_decide_eq_false_1 (rr ∈ table_rrs (shared raced) (view (store (shared raced))))).
  vm_compute. reflexivity.
Qed.

(** ** A check and the write it guards *)

(** Put the key if it has no record yet. *)
Definition absent_dave : RR := RR_Other (mkHdr (Demo.owner_of "user.dave") TypeTXT ClassNONE 0) [].
Definition claim_v1 : Msg := Demo.update [absent_dave] [Demo.add "user.dave" [v1]].
Definition claim_v2 : Msg := Demo.update [absent_dave] [Demo.add "user.dave" [v2]].
Definition claims : list Msg := [claim_v1; claim_v2].

Definition rcodes (sys : system (W := Sample.sampleStore) (L := MemChangeLog.t)) : list (option Z) :=
  (λ t, match t.2 with Finished rc => Some rc | _ => None end) <$> threads sys.

(** One update after the other, each without interruption. *)
Definition first_then_second : list nat := replicate 9 0%nat ++ replicate 9 1%nat.
Definition second_then_first : list nat := replicate 9 1%nat ++ replicate 9 0%nat.

(** A prerequisite is checked and acted on in separate steps: of two updates
    that claim an absent key, whichever comes second is refused when they run
    one after the other, but in parallel both are acknowledged. *)
Theorem claims_both_win :
  rcodes (run (launch Demo.handler claims) first_then_second) = [Some RcodeSuccess; Some RcodeYXRrset]
  ∧ rcodes (run (launch Demo.handler claims) second_then_first) = [Some RcodeYXRrset; Some RcodeSuccess]
  ∧ rcodes (run (launch Demo.handler claims) (Demo.zigzag ++ [0; 1]%nat)) = [Some RcodeSuccess; Some RcodeSuccess].
Proof. split_and!; vm_compute; reflexivity. Qed.

(** ** A transfer that ends at another serial than it began *)

Definition late_put : xsystem (W := Sample.sampleStore) (L := MemChangeLog.t) :=
  xrun Demo.tcp axfr (xlaunch Demo.handler [Demo.put_dave])
    ([Open; Page early_keys; Page late_keys] ++ (Turn <$> replicate 7 0%nat) ++ [Close]).

(** The records between the two SOA messages. *)
Definition between_soas (x : xsystem (W := Sample.sampleStore) (L := MemChangeLog.t)) : list (list RR) :=
  removelast (tail (mAnswer <$> stream x)).

(** The opening and the closing SOA of one transfer can differ, because each
    reads the serial when it is sent.  An update between them is in no message
    of the stream, and a client that takes the serial of the closing SOA, for
    which the journal has nothing newer, never gets it. *)
Theorem closing_serial_diverges :
  mAnswer <$> stream late_put
    = [soa_at Demo.handler 100] :: between_soas late_put ++ [[soa_at Demo.handler 101]]
  ∧ transfer late_put = XEnded true ∧ all_finished (updates late_put) = true
  ∧ ∃ log, changelog (shared (updates late_put)) = Some log ∧ MemChangeLog.Deltas 101 log = (Some [], true)
    ∧ ¬ (λ rr, rr ∈ concat (between_soas late_put))
        ≡@{replica} zone_of (shared (updates late_put)) (view (store (shared (updates late_put)))).
Proof.
  split; [vm_compute; reflexivity|]. split; [vm_compute; reflexivity|]. split; [vm_compute; reflexivity|].
  assert (match changelog (shared (updates late_put)) with
          | Some log => match MemChangeLog.Deltas 101 log with (Some [], true) => true | _ => false end
          | None => false end = true) as H by (vm_compute; reflexivity).
  destruct (changelog (shared (updates late_put))) as [log|]; [|discriminate H].
  exists log. split; [reflexivity|]. split.
  - destruct (MemChangeLog.Deltas 101 log) as [[[|d ds]|] []]; try discriminate H. reflexivity.
  - set (rr := item_record Demo.handler dave_key Demo.dave). intros Heq. apply (bool_decide_eq_false_1 (rr ∈ concat (between_soas late_put))).
    + vm_compute. reflexivity.
    + apply Heq. apply (bool_decide_eq_true_1 (rr ∈ table_rrs (shared (updates late_put)) (view (store (shared (updates late_put)))))).
      vm_compute. reflexivity.
Qed.

(** ** Witness *)

Definition ixfr_100 : Msg :=
  Demo.transfer TypeIXFR [RR_SOA (mkHdr demo_zone TypeSOA ClassINET 5) [] [] 100 0 0 0 0].

Lemma unrecorded_delta_lost_witness :
  let between := bump_serial Demo.handler in
  let after := record_delta between 101 [] [item_record Demo.handler dave_key v1] in
  mAnswer <$> sent (handleIXFR Demo.tcp ixfr_100 (mkQuestion demo_zone TypeIXFR ClassINET) (mkSrv between [] [])).2
    = [[soa between]; [soa between]]
  ∧ history after 101 = Some []
  ∧ history after 100 = Some [mkDelta 101 [] [item_record Demo.handler dave_key v1]].
Proof.
  destruct (unrecorded_delta_lost Demo.tcp ixfr_100 (mkQuestion demo_zone TypeIXFR ClassINET) Demo.handler
    (MemChangeLog.NewMemChangeLog 100) 100 [] (fst (List_ full_reader (store Demo.handler)))
    (mkHdr demo_zone TypeSOA ClassINET 5) [] [] 0 0 0 0 [] [item_record Demo.handler dave_key v1])
    as ((msgs & H1 & H2 & _) & H3 & H4).
  - split; try reflexivity; [apply (MemChangeLog.New_repr 100); lia|lia].
  - by intros n.
  - reflexivity.
  - vm_compute. reflexivity.
  - vm_compute. reflexivity.
  - reflexivity.
  - split; [|split; [exact H3|exact H4]]. rewrite H1. exact H2.
Defined.
