(* ===== verification/Anomalies.v ===== *)
(** * Updates the clean cases exclude

    The conditions of the replication theorem and of the value prerequisite are
    needed: what happens to an update with the payload [null], to two owner
    names of one key, and to items whose JSON holds a backslash. *)

From S2P Require Import Prelude GoStrings Json Names Dns Journal Store Handler HandlerSpec Update UpdateSpec UpdateEffect EndToEnd Transfer TransferSpec Server ServerSpec Replication Demo.

Section Served.
Context `{UT : UnicodeTables, D : DnsLib} {W L : Type}.
Implicit Types (h : Handler W L).

(** The strings the server puts into an item's TXT record, read by the rule
    the server itself applies to TXT data, stand for the item's JSON exactly
    when that JSON holds no backslash: the record of an item with an escaped
    character does not satisfy the prerequisite that its value be equal. *)
Theorem served_strings_escape h key m blob :
  Marshal (Some m) = Ok blob →
  ∃ hdr txt, itemRRs h key (Some m) = Ok [RR_TXT hdr txt]
  ∧ concat txt = blob ∧ (decodeTXTStrings txt = Some blob ↔ "\"%char ∉ blob)
  ∧ (prereq_true (RR_TXT hdr txt) (Some m) ↔ "\"%char ∉ blob).
Proof.
  intros Hm. rewrite itemRRs_spec, Hm. cbn [res_map]. eexists _, _. split; [reflexivity|].
  split; [apply chunkBytes_concat|]. split; [apply decode_served|]. rewrite <- decode_served. split.
  - inversion 1; subst; cbn in *; try (unfold ClassANY, ClassNONE, ClassINET in *; discriminate). congruence.
  - intros Hd. by eapply rrset_equals.
Qed.
End Served.

Section Anomalies.
Context `{UT : UnicodeTables, D : DnsLib, !DnsLaws D} {W L : Type}
  `{ST : !Store W, !FullStoreSpec W, CL : !ChangeLog L}.
Implicit Types (h : Handler W L) (s : Srv W L).

(** The payload [null] is acknowledged like an object: the serial grows and
    the journal announces a TXT record with the text null, while the key reads
    as absent from then on. *)
Theorem null_update_acknowledged w req s s' m key req2 q log :
  let h := hd_ s in
  good_zone (cZone (cfg h)) → reachable key → single_put h req key None →
  stored key None = None →
  tsigValid h w req = true → handleUpdate w req s = (tt, s') →
  sent s' = sent s ++ [m] → mRcode m = RcodeSuccess →
  index_name h key = false → ToLower (qName q) = itemName (cZone (cfg h)) key → qType q = TypeTXT →
  is_ok (Get (store (hd_ s')) key) = true → changelog h = Some log →
  says (buildResponse (hd_ s') req2 q) RcodeNameError [] [soa (hd_ s')]
  ∧ serial (hd_ s') = u32 (serial h + 1)
  ∧ ∃ removed, changelog (hd_ s') = Some (Record_ (u32 (serial h + 1)) removed
                  [item_record h key (lit "null")] log).
Proof.
  intros h Hz Hk Hsp Hst HV Hu Hm Hrc Hix Hq Ht HG Hlog.
  assert (mNs req ≠ []) as Hne by (destruct Hsp as [? ? ? -> _ _ _ _ _]; done).
  destruct (acknowledged w req s s' m HV Hne Hu Hm Hrc) as (k & ins & st & old & Hp & _ & Ha & Hh & _).
  destruct (single_put_plan h req key None k ins Hz Hk Hsp Hp) as [-> ->].
  destruct (committed_fields h st key old [(key, None)]) as (Hcfg & Hstore & Hser).
  apply (apply_write_view h req key [(key, None)] st Hp) in Ha as Hview. cbn [write_table] in Hview.
  rewrite Hst in Hview. rewrite Hh in HG |- *. fold h in Hh, HG |- *. rewrite Hstore in *. split_and!; [|done|].
  - rewrite (buildResponse_point _ req2 q key)
      by (unfold index_name; rewrite ?Hcfg; first [done|intros _; by rewrite Ht]).
    destruct (Get st key) as [i|e] eqn:HGi; [|done]. apply get_view in HGi as Hi.
    rewrite Hview, lookup_partial_alter_eq in Hi. subst i.
    pose proof (pointLookup_spec (committed h st key old [(key, None)]) req2 q key) as Hpl. cbv zeta in Hpl.
    by rewrite Hstore, HGi in Hpl.
  - unfold committed, commitWrite. cbn. rewrite Hlog. eauto.
Qed.
End Anomalies.

Section Divergence.
Context `{UT : UnicodeTables, D : DnsLib, !DnsLaws D} {W L : Type}
  `{ST : !Store W, !FullStoreSpec W, CL : !ChangeLog L, !ChangeLogSpec L}.
Implicit Types (h : Handler W L).

(** Two owner names of one key, the plain and a k- form, pass as a
    single-item update.  Only the first item is stored but both records are
    journaled, so a replica that replays the delta diverges from the zone. *)
Theorem two_owner_update_diverges h req key m1 m2 rest b1 b2 z :
  good_zone (cZone (cfg h)) → reachable key → all_reachable (z_table z) →
  plan h req key ((key, Some m1) :: (key, Some m2) :: rest) → stored key (Some m1) = Some m1 →
  Marshal (Some m1) = Ok b1 → Marshal (Some m2) = Ok b2 → b1 ≠ b2 →
  let z' := zone_step h key ((key, Some m1) :: (key, Some m2) :: rest) z in
  ¬ replay (zone_of h (z_table z)) (drop (length (z_log z)) (z_log z')) ≡ zone_of h (z_table z').
Proof.
  intros Hz Hk Hr _ Hst H1 H2 Hne z'. unfold z', zone_step. cbn [z_log z_table]. rewrite drop_app_length.
  cbn [replay foldl write_table]. rewrite Hst. intros Heq.
  assert (zone_of h (partial_alter (λ _, Some m1) key (z_table z)) (item_record h key b2)) as Hin.
  { apply Heq. right. cbn [dAdded]. unfold added_rrs. cbn [flat_map]. apply elem_of_app. right.
    apply elem_of_app. left. apply (entry_rrs_some h key m2). eauto. }
  apply zone_of_spec in Hin as (k & m & blob & Hkm & Hm & Hrr).
  assert (key = k) as <-.
  { eapply item_record_key; [done|done| |exact Hrr].
    destruct (decide (key = k)) as [<-|Hnk]; [done|]. rewrite lookup_partial_alter_ne in Hkm by done. eauto. }
  rewrite lookup_partial_alter_eq in Hkm. injection Hkm as <-.
  injection Hrr as Hch. assert (b2 = blob) as ->; [|congruence].
  by rewrite <- (chunkBytes_concat b2), Hch, chunkBytes_concat.
Qed.
End Divergence.

(** ** Witnesses *)

Definition newline_map : gomap := [(lit "a", VString [chr 10])].

Lemma served_strings_escape_witness :
  ∃ hdr txt, itemRRs (hd_ Demo.srv) dave_key (Some newline_map) = Ok [RR_TXT hdr txt]
  ∧ ¬ prereq_true (RR_TXT hdr txt) (Some newline_map).
Proof.
  destruct (served_strings_escape (hd_ Demo.srv) dave_key newline_map (dq "{'a':'\n'}")) as (hdr & txt & H1 & _ & _ & H2);
    [vm_compute; reflexivity|].
  exists hdr, txt. split; [exact H1|]. intros H%H2. apply H. apply (bool_decide_eq_true_1 _). vm_compute. reflexivity.
Defined.

Definition put_null : Msg := Demo.update [] [Demo.add "user.bob" [lit "null"]].
Definition after_null : Demo.S := (handleUpdate Demo.tcp put_null Demo.srv).2.

Lemma null_update_acknowledged_witness :
  says (buildResponse (hd_ after_null) (Demo.query (qName bob_q) TypeTXT) bob_q) RcodeNameError
    [] [soa (hd_ after_null)]
  ∧ serial (hd_ after_null) = 101.
Proof.
  destruct (null_update_acknowledged Demo.tcp put_null Demo.srv after_null (Demo.reply after_null)
    (lit "user.bob") (Demo.query (qName bob_q) TypeTXT) bob_q (MemChangeLog.NewMemChangeLog 100)) as (H1 & H2 & _).
  - exact good_demo_zone.
  - apply reachableb_spec. vm_compute. reflexivity.
  - apply (single_put_intro _ _ _ _ (mkHdr (Demo.owner_of "user.bob") TypeTXT ClassINET 0) [lit "null"] (lit "null"));
      vm_compute; reflexivity.
  - reflexivity.
  - vm_compute. reflexivity.
  - exact (run_unit (handleUpdate Demo.tcp put_null Demo.srv)).
  - vm_compute. reflexivity.
  - vm_compute. reflexivity.
  - vm_compute. reflexivity.
  - vm_compute. reflexivity.
  - reflexivity.
  - vm_compute. reflexivity.
  - reflexivity.
  - split; [exact H1|]. rewrite H2. vm_compute. reflexivity.
Defined.

(** The plain name and the k- name of user.dave. *)
Definition dave_map (v : String.string) : gomap := [(lit "v", VString (lit v))].
Definition k_dave : str := lit "k-ovzwk4romrqxmzi=." ++ demo_zone.
Definition two_owners : Msg :=
  Demo.update [] [Demo.add "user.dave" [dq "{'v':'1'}"];
                  RR_TXT (mkHdr k_dave TypeTXT ClassINET 0) [dq "{'v':'2'}"]].

Lemma two_owners_plan :
  plan (hd_ Demo.srv) two_owners dave_key [(dave_key, Some (dave_map "1")); (dave_key, Some (dave_map "2"))].
Proof.
  split.
  - exists (mkQuestion demo_zone TypeSOA ClassINET). repeat split; vm_compute; reflexivity.
  - constructor.
  - intros rr [-> |[-> |[]%elem_of_nil]%elem_of_cons]%elem_of_cons; (split; [right|]; vm_compute; reflexivity).
  - discriminate.
  - apply (op_put _ _ _ (Demo.owner_of "user.dave") (dq "{'v':'1'}")); try (vm_compute; reflexivity).
    repeat constructor.
Qed.

Lemma two_owner_update_diverges_witness :
  let z := mkZone (view Sample.demo_store) 100 [] in
  let z' := zone_step (hd_ Demo.srv) dave_key
              [(dave_key, Some (dave_map "1")); (dave_key, Some (dave_map "2"))] z in
  mRcode (Demo.reply (handleUpdate Demo.tcp two_owners Demo.srv).2) = RcodeSuccess
  ∧ ¬ replay (zone_of (hd_ Demo.srv) (z_table z)) (drop (length (z_log z)) (z_log z'))
      ≡ zone_of (hd_ Demo.srv) (z_table z').
Proof.
  split; [vm_compute; reflexivity|].
  apply (two_owner_update_diverges (hd_ Demo.srv) two_owners dave_key (dave_map "1") (dave_map "2") []
           (dq "{'v':'1'}") (dq "{'v':'2'}")).
  - exact good_demo_zone.
  - apply reachableb_spec. vm_compute. reflexivity.
  - exact demo_all_reachable.
  - exact two_owners_plan.
  - reflexivity.
  - vm_compute. reflexivity.
  - vm_compute. reflexivity.
  - vm_compute. discriminate.
Defined.
